(** * Ed25519 and X25519 front end of crypto/curve25519/curve25519.c

    A shallow embedding of the C translation unit: octets are integers in
    [0, 256), buffers live in a block memory addressed by pointers, and
    every function is a computation in a state monad that can also
    [abort()] or run into undefined behaviour (an access outside a buffer).
    The field and group arithmetic, SHA-512, the random source and the CPU
    probes are collaborators that the file only calls; they are taken as
    parameters. *)

From Stdlib Require Import ZArith Lia Bool.
From stdpp Require Import base option list.

Local Open Scope Z_scope.

(** ** Octets and little-endian words *)

Definition u8 (x : Z) : Z := x mod 256.
Definition is_octet (x : Z) : Prop := 0 <= x < 256.

(** What a callee declared with [uint8_t out[n]] leaves in its output
    buffer: exactly [n] octets. *)
Definition octets (n : nat) (l : list Z) : list Z :=
  take n ((u8 <$> l) ++ replicate n 0).

(** Little-endian value of an octet string. *)
Fixpoint le_value (l : list Z) : Z :=
  match l with
  | [] => 0
  | b :: l' => b + 256 * le_value l'
  end.

(** [CRYPTO_load_u64_le] applied to the eight octets it reads. *)
Definition load_u64_le (l : list Z) : Z := le_value (take 8 l).

(** ** Memory *)

Record ptr := Ptr { blk : nat; off : nat }.

Definition padd (p : ptr) (n : nat) : ptr := Ptr (blk p) (off p + n).

Abbreviation mem := (list (list Z)).

(** The [n] octets of a block from offset [o], and the block with the
    octets [bs] written at offset [o]. *)
Definition sub (o n : nat) (b : list Z) : list Z := take n (drop o b).

Definition splice (o : nat) (bs b : list Z) : list Z :=
  take o b ++ bs ++ drop (o + length bs) b.

Definition read (m : mem) (p : ptr) (n : nat) : option (list Z) :=
  match m !! blk p with
  | Some b =>
      if decide (off p + n <= length b)%nat
      then Some (sub (off p) n b) else None
  | None => None
  end.

Definition write (m : mem) (p : ptr) (bs : list Z) : option mem :=
  match m !! blk p with
  | Some b =>
      if decide (off p + length bs <= length b)%nat
      then Some (<[blk p := splice (off p) bs b]> m)
      else None
  | None => None
  end.

(** The machine state: the memory and the octets the random source will
    deliver next. *)
Record state := State { memory : mem; entropy : list Z }.

(** ** The monad of C computations *)

Inductive outcome (A : Type) : Type :=
| Returns (a : A) (s : state)
| Aborts (s : state)
| Undefined.
Arguments Returns {A} a s.
Arguments Aborts {A} s.
Arguments Undefined {A}.

Definition M (A : Type) : Type := state -> outcome A.

#[global] Instance M_ret : MRet M := fun A a s => Returns a s.

#[global] Instance M_bind : MBind M := fun A B k c s =>
  match c s with
  | Returns a s' => k a s'
  | Aborts s' => Aborts s'
  | Undefined => Undefined
  end.

Definition abort {A} : M A := fun s => Aborts s.

Definition load (p : ptr) (n : nat) : M (list Z) :=
  fun s =>
    match read (memory s) p n with
    | Some bs => Returns bs s
    | None => Undefined
    end.

Definition store (p : ptr) (bs : list Z) : M unit :=
  fun s =>
    match write (memory s) p bs with
    | Some m' => Returns tt (State m' (entropy s))
    | None => Undefined
    end.

(** A local array [uint8_t x[n]]: a fresh block.  The block stands for
    the array while the frame of its function is live, up to the return
    or the abort of that function.  The model keeps the block afterwards;
    on the machine the slot is reused by later calls, so what a block
    holds after its function has returned says nothing about the
    program. *)
Definition alloca (n : nat) : M ptr :=
  fun s =>
    Returns (Ptr (length (memory s)) 0)
            (State (memory s ++ [replicate n 0]) (entropy s)).

Definition load8 (p : ptr) (i : nat) : M Z :=
  bs ← load (padd p i) 1; mret (default 0 (head bs)).

Definition store8 (p : ptr) (i : nat) (v : Z) : M unit :=
  store (padd p i) [u8 v].

(** [p[i] &= k] and [p[i] |= k], with the operands promoted to [int] and
    the result converted back to [uint8_t]. *)
Definition and_assign (p : ptr) (i : nat) (k : Z) : M unit :=
  b ← load8 p i; store8 p i (Z.land b k).

Definition or_assign (p : ptr) (i : nat) (k : Z) : M unit :=
  b ← load8 p i; store8 p i (Z.lor b k).

Definition OPENSSL_memcpy (dst src : ptr) (n : nat) : M unit :=
  bs ← load src n; store dst bs.

(** Modelled from the spec: [OPENSSL_cleanse] (crypto/mem.c, not part of
    this translation unit) overwrites a buffer with the secret-erasing
    pattern, which is the all-zero pattern. *)
Definition OPENSSL_cleanse (p : ptr) (n : nat) : M unit :=
  store p (replicate n 0).

(** Modelled from the spec: [CRYPTO_memcmp] (crypto/mem.c) is the
    constant-time equality comparison over byte buffers; it accumulates the
    exclusive-or of every pair of octets and returns the accumulator, so the
    result is zero exactly when the buffers agree.  The callers load the two
    buffers. *)
Definition CRYPTO_memcmp (a b : list Z) : Z :=
  foldl (fun x ab => Z.lor x (Z.lxor (fst ab) (snd ab))) 0 (zip a b).

(** Modelled from the spec: [RAND_bytes] (the system random source) fills
    the buffer with fresh octets; running out of entropy is fatal. *)
Definition RAND_bytes (p : ptr) (n : nat) : M unit :=
  fun s =>
    if decide (n <= length (entropy s))%nat
    then store p (octets n (take n (entropy s)))
               (State (memory s) (drop n (entropy s)))
    else Aborts s.

(** ** Build configuration and CPU probes *)

Inductive Arch := OPENSSL_X86_64 | OPENSSL_AARCH64 | OPENSSL_OTHER_ARCH.
Inductive OS := OPENSSL_LINUX | OPENSSL_APPLE | OPENSSL_OTHER_OS.

(** The preprocessor symbols the file tests and the run-time probes of
    fipsmodule/cpucap it calls (each returns an [int]). *)
Record platform := Platform {
  target_arch : Arch;
  target_os : OS;
  MY_ASSEMBLER_IS_TOO_OLD_FOR_AVX : bool;
  OPENSSL_NO_ASM : bool;
  CRYPTO_is_ARMv8_wide_multiplier_capable : Z;
  CRYPTO_is_BMI2_capable : Z;
  CRYPTO_is_ADX_capable : Z
}.

(** The scalar-multiplication routines the file links against: the two
    s2n-bignum assembly variants and the portable implementation of
    curve25519_nohw.c.  Each maps the octets it reads to the 32 octets it
    writes. *)
Record x25519_engine := X25519Engine {
  s2n_x25519_byte : list Z -> list Z -> list Z;
  s2n_x25519_byte_alt : list Z -> list Z -> list Z;
  s2n_x25519base_byte : list Z -> list Z;
  s2n_x25519base_byte_alt : list Z -> list Z;
  nohw_scalar_mult_generic : list Z -> list Z -> list Z;
  nohw_public_from_private : list Z -> list Z
}.

Section X25519.

Variable P : platform.
Variable E : x25519_engine.

Definition is_x86_64 : bool :=
  match target_arch P with OPENSSL_X86_64 => true | _ => false end.
Definition is_aarch64 : bool :=
  match target_arch P with OPENSSL_AARCH64 => true | _ => false end.
Definition is_linux_or_apple : bool :=
  match target_os P with OPENSSL_OTHER_OS => false | _ => true end.

Definition CURVE25519_S2N_BIGNUM_CAPABLE : bool :=
  ((is_x86_64 && negb (MY_ASSEMBLER_IS_TOO_OLD_FOR_AVX P)) || is_aarch64)
  && is_linux_or_apple
  && negb (OPENSSL_NO_ASM P).

Definition x25519_s2n_bignum_capable : Z :=
  if CURVE25519_S2N_BIGNUM_CAPABLE then 1 else 0.

(** A binary scalar-multiplication routine called on three buffers. *)
Definition call2 (f : list Z -> list Z -> list Z) (res scalar point : ptr)
  : M unit :=
  k ← load scalar 32; u ← load point 32; store res (octets 32 (f k u)).

Definition call1 (f : list Z -> list Z) (res scalar : ptr) : M unit :=
  k ← load scalar 32; store res (octets 32 (f k)).

(** The four entry points: the assembly when it is compiled in, the
    aborting stubs otherwise. *)
Definition curve25519_x25519_byte (res scalar point : ptr) : M unit :=
  if CURVE25519_S2N_BIGNUM_CAPABLE
  then call2 (s2n_x25519_byte E) res scalar point else abort.

Definition curve25519_x25519_byte_alt (res scalar point : ptr) : M unit :=
  if CURVE25519_S2N_BIGNUM_CAPABLE
  then call2 (s2n_x25519_byte_alt E) res scalar point else abort.

Definition curve25519_x25519base_byte (res scalar : ptr) : M unit :=
  if CURVE25519_S2N_BIGNUM_CAPABLE
  then call1 (s2n_x25519base_byte E) res scalar else abort.

Definition curve25519_x25519base_byte_alt (res scalar : ptr) : M unit :=
  if CURVE25519_S2N_BIGNUM_CAPABLE
  then call1 (s2n_x25519base_byte_alt E) res scalar else abort.

Definition x25519_scalar_mult_generic_nohw (out scalar point : ptr) : M unit :=
  call2 (nohw_scalar_mult_generic E) out scalar point.

Definition x25519_public_from_private_nohw (out scalar : ptr) : M unit :=
  call1 (nohw_public_from_private E) out scalar.

Definition x25519_s2n_bignum_alt_capable : Z :=
  match target_arch P with
  | OPENSSL_X86_64 => 1
  | OPENSSL_AARCH64 =>
      if CRYPTO_is_ARMv8_wide_multiplier_capable P =? 1 then 1 else 0
  | OPENSSL_OTHER_ARCH => 0
  end.

Definition x25519_s2n_bignum_no_alt_capable : Z :=
  match target_arch P with
  | OPENSSL_X86_64 =>
      if (CRYPTO_is_BMI2_capable P =? 1) && (CRYPTO_is_ADX_capable P =? 1)
      then 1 else 0
  | OPENSSL_AARCH64 => 1
  | OPENSSL_OTHER_ARCH => 0
  end.

(** The three statements that clamp a scalar in place. *)
Definition demask (p : ptr) : M unit :=
  and_assign p 0 248;; and_assign p 31 127;; or_assign p 31 64.

Definition x25519_s2n_bignum (out_shared_key private_key peer_public_value : ptr)
  : M unit :=
  private_key_internal_demask ← alloca 32;
  OPENSSL_memcpy private_key_internal_demask private_key 32;;
  demask private_key_internal_demask;;
  match target_arch P with
  | OPENSSL_X86_64 =>
      if x25519_s2n_bignum_no_alt_capable =? 1 then
        curve25519_x25519_byte out_shared_key private_key_internal_demask
          peer_public_value
      else if x25519_s2n_bignum_alt_capable =? 1 then
        curve25519_x25519_byte_alt out_shared_key private_key_internal_demask
          peer_public_value
      else abort
  | OPENSSL_AARCH64 =>
      if x25519_s2n_bignum_alt_capable =? 1 then
        curve25519_x25519_byte_alt out_shared_key private_key_internal_demask
          peer_public_value
      else if x25519_s2n_bignum_no_alt_capable =? 1 then
        curve25519_x25519_byte out_shared_key private_key_internal_demask
          peer_public_value
      else abort
  | OPENSSL_OTHER_ARCH => abort
  end.

Definition x25519_s2n_bignum_public_from_private
  (out_public_value private_key : ptr) : M unit :=
  private_key_internal_demask ← alloca 32;
  OPENSSL_memcpy private_key_internal_demask private_key 32;;
  demask private_key_internal_demask;;
  match target_arch P with
  | OPENSSL_X86_64 =>
      if x25519_s2n_bignum_no_alt_capable =? 1 then
        curve25519_x25519base_byte out_public_value private_key_internal_demask
      else if x25519_s2n_bignum_alt_capable =? 1 then
        curve25519_x25519base_byte_alt out_public_value
          private_key_internal_demask
      else abort
  | OPENSSL_AARCH64 =>
      if x25519_s2n_bignum_alt_capable =? 1 then
        curve25519_x25519base_byte_alt out_public_value
          private_key_internal_demask
      else if x25519_s2n_bignum_no_alt_capable =? 1 then
        curve25519_x25519base_byte out_public_value private_key_internal_demask
      else abort
  | OPENSSL_OTHER_ARCH => abort
  end.

Definition X25519_public_from_private (out_public_value private_key : ptr)
  : M unit :=
  if x25519_s2n_bignum_capable =? 1 then
    x25519_s2n_bignum_public_from_private out_public_value private_key
  else
    x25519_public_from_private_nohw out_public_value private_key.

Definition X25519_keypair (out_public_value out_private_key : ptr) : M unit :=
  RAND_bytes out_private_key 32;;
  or_assign out_private_key 0 (Z.lnot 248);;
  and_assign out_private_key 31 (Z.lnot 64);;
  or_assign out_private_key 31 (Z.lnot 127);;
  X25519_public_from_private out_public_value out_private_key.

Definition kZeros : list Z := replicate 32 0.

Definition X25519 (out_shared_key private_key peer_public_value : ptr) : M Z :=
  (if x25519_s2n_bignum_capable =? 1 then
     x25519_s2n_bignum out_shared_key private_key peer_public_value
   else
     x25519_scalar_mult_generic_nohw out_shared_key private_key
       peer_public_value);;
  out ← load out_shared_key 32;
  mret (if CRYPTO_memcmp kZeros out =? 0 then 0 else 1).

End X25519.

(** ** Ed25519 *)

Record ge_p3 (fe : Type) := GeP3 {
  ge_p3_X : fe; ge_p3_Y : fe; ge_p3_Z : fe; ge_p3_T : fe
}.
Arguments GeP3 {fe}.
Arguments ge_p3_X {fe}.
Arguments ge_p3_Y {fe}.
Arguments ge_p3_Z {fe}.
Arguments ge_p3_T {fe}.

Record ge_p2 (fe : Type) := GeP2 {
  ge_p2_X : fe; ge_p2_Y : fe; ge_p2_Z : fe
}.
Arguments GeP2 {fe}.

(** The collaborators of the Ed25519 functions: SHA-512 and the field,
    group and scalar arithmetic of internal.h, each as a function from the
    octets and values it reads to what it writes. *)
Record ed25519_engine := Ed25519Engine {
  fe : Type;
  fe_loose : Type;
  SHA512_digest : list Z -> list Z;
  ge_scalarmult_base : list Z -> ge_p3 fe;
  p3_tobytes : ge_p3 fe -> list Z;
  ge_frombytes_vartime : list Z -> option (ge_p3 fe);
  fe_neg : fe -> fe_loose;
  fe_carry : fe_loose -> fe;
  sc_reduce : list Z -> list Z;
  sc_muladd_value : list Z -> list Z -> list Z -> list Z;
  double_scalarmult_vartime : list Z -> ge_p3 fe -> list Z -> ge_p2 fe;
  p2_tobytes : ge_p2 fe -> list Z
}.

Definition ED25519_SEED_LEN : nat := 32.
Definition SHA512_DIGEST_LENGTH : nat := 64.

(** [kOrder] is the order of Curve25519 in little-endian form. *)
Definition kOrder : list Z :=
  [ 0x5812631a5cf5d3ed; 0x14def9dea2f79cd6; 0; 0x1000000000000000 ].

Inductive loop_exit := loop_return_0 | loop_break.

Section Ed25519.

Variable G : ed25519_engine.

(** Modelled from the spec: the hash primitive supports incremental
    update; a [SHA512_CTX] is the message absorbed so far. *)
Definition SHA512_CTX : Type := list Z.

Definition SHA512_Init : SHA512_CTX := [].

Definition SHA512_Update (ctx : SHA512_CTX) (data : ptr) (len : nat)
  : M SHA512_CTX :=
  bs ← load data len; mret (ctx ++ bs).

Definition SHA512_Final (out : ptr) (ctx : SHA512_CTX) : M unit :=
  store out (octets SHA512_DIGEST_LENGTH (SHA512_digest G ctx)).

Definition SHA512 (data : ptr) (len : nat) (out : ptr) : M unit :=
  bs ← load data len;
  store out (octets SHA512_DIGEST_LENGTH (SHA512_digest G bs)).

Definition x25519_ge_scalarmult_base (a : ptr) : M (ge_p3 (fe G)) :=
  k ← load a 32; mret (ge_scalarmult_base G k).

Definition ge_p3_tobytes (s : ptr) (h : ge_p3 (fe G)) : M unit :=
  store s (octets 32 (p3_tobytes G h)).

Definition x25519_ge_tobytes (s : ptr) (h : ge_p2 (fe G)) : M unit :=
  store s (octets 32 (p2_tobytes G h)).

Definition x25519_ge_frombytes_vartime (s : ptr)
  : M (option (ge_p3 (fe G))) :=
  bs ← load s 32; mret (ge_frombytes_vartime G bs).

Definition x25519_sc_reduce (s : ptr) : M unit :=
  bs ← load s 64; store s (octets 32 (sc_reduce G bs)).

Definition sc_muladd (s a b c : ptr) : M unit :=
  x ← load a 32; y ← load b 32; z ← load c 32;
  store s (octets 32 (sc_muladd_value G x y z)).

Definition ge_double_scalarmult_vartime (a : ptr) (A : ge_p3 (fe G)) (b : ptr)
  : M (ge_p2 (fe G)) :=
  x ← load a 32; y ← load b 32; mret (double_scalarmult_vartime G x A y).

Definition ED25519_keypair_from_seed (out_public_key out_private_key seed : ptr)
  : M unit :=
  az ← alloca SHA512_DIGEST_LENGTH;
  SHA512 seed ED25519_SEED_LEN az;;
  and_assign az 0 248;;
  and_assign az 31 127;;
  or_assign az 31 64;;
  A ← x25519_ge_scalarmult_base az;
  ge_p3_tobytes out_public_key A;;
  OPENSSL_memcpy out_private_key seed ED25519_SEED_LEN;;
  OPENSSL_memcpy (padd out_private_key ED25519_SEED_LEN) out_public_key 32.

Definition ED25519_keypair (out_public_key out_private_key : ptr) : M unit :=
  seed ← alloca ED25519_SEED_LEN;
  RAND_bytes seed ED25519_SEED_LEN;;
  ED25519_keypair_from_seed out_public_key out_private_key seed;;
  OPENSSL_cleanse seed ED25519_SEED_LEN.

Definition ED25519_sign (out_sig message : ptr) (message_len : nat)
  (private_key : ptr) : M Z :=
  az ← alloca SHA512_DIGEST_LENGTH;
  SHA512 private_key 32 az;;
  and_assign az 0 248;;
  and_assign az 31 63;;
  or_assign az 31 64;;
  hash_ctx ← SHA512_Update SHA512_Init (padd az 32) 32;
  hash_ctx ← SHA512_Update hash_ctx message message_len;
  nonce ← alloca SHA512_DIGEST_LENGTH;
  SHA512_Final nonce hash_ctx;;
  x25519_sc_reduce nonce;;
  R ← x25519_ge_scalarmult_base nonce;
  ge_p3_tobytes out_sig R;;
  hash_ctx ← SHA512_Update SHA512_Init out_sig 32;
  hash_ctx ← SHA512_Update hash_ctx (padd private_key 32) 32;
  hash_ctx ← SHA512_Update hash_ctx message message_len;
  hram ← alloca SHA512_DIGEST_LENGTH;
  SHA512_Final hram hash_ctx;;
  x25519_sc_reduce hram;;
  sc_muladd (padd out_sig 32) hram az nonce;;
  mret 1.

(** The loop [for (size_t i = 3;; i--)] of [ED25519_verify], entered at
    limb [i]: it either leaves the function with 0 or breaks. *)
Fixpoint order_loop (scopy : ptr) (i : nat) : M loop_exit :=
  w ← load (padd scopy (i * 8)) 8;
  let word := load_u64_le w in
  let k := default 0 (kOrder !! i) in
  if word >? k then mret loop_return_0
  else if word <? k then mret loop_break
  else match i with
       | O => mret loop_return_0
       | S i' => order_loop scopy i'
       end.

Definition ED25519_verify (message : ptr) (message_len : nat)
  (signature public_key : ptr) : M Z :=
  s63 ← load8 signature 63;
  if negb (Z.land s63 224 =? 0) then mret 0 else
  decoded ← x25519_ge_frombytes_vartime public_key;
  match decoded with
  | None => mret 0
  | Some A =>
      let t := fe_neg G (ge_p3_X A) in
      let A := GeP3 (fe_carry G t) (ge_p3_Y A) (ge_p3_Z A) (ge_p3_T A) in
      let t := fe_neg G (ge_p3_T A) in
      let A := GeP3 (ge_p3_X A) (ge_p3_Y A) (ge_p3_Z A) (fe_carry G t) in
      pkcopy ← alloca 32;
      OPENSSL_memcpy pkcopy public_key 32;;
      rcopy ← alloca 32;
      OPENSSL_memcpy rcopy signature 32;;
      scopy ← alloca 32;
      OPENSSL_memcpy scopy (padd signature 32) 32;;
      exit ← order_loop scopy 3;
      match exit with
      | loop_return_0 => mret 0
      | loop_break =>
          hash_ctx ← SHA512_Update SHA512_Init signature 32;
          hash_ctx ← SHA512_Update hash_ctx public_key 32;
          hash_ctx ← SHA512_Update hash_ctx message message_len;
          h ← alloca SHA512_DIGEST_LENGTH;
          SHA512_Final h hash_ctx;;
          x25519_sc_reduce h;;
          R ← ge_double_scalarmult_vartime h A scopy;
          rcheck ← alloca 32;
          x25519_ge_tobytes rcheck R;;
          x ← load rcheck 32;
          y ← load rcopy 32;
          mret (if CRYPTO_memcmp x y =? 0 then 1 else 0)
      end
  end.

End Ed25519.


(** ** Specification-level notions *)

(** The state with block [j] replaced. *)
Definition set_block (j : nat) (b : list Z) (s : state) : state :=
  State (<[j := b]> (memory s)) (entropy s).

(** The state with a fresh block pushed. *)
Definition push_block (b : list Z) (s : state) : state :=
  State (memory s ++ [b]) (entropy s).

(** The effect of [demask] on the 32 octets it is applied to. *)
Definition clamp (k : list Z) : list Z :=
  alter (fun x => u8 (Z.lor x 64)) 31%nat
    (alter (fun x => u8 (Z.land x 127)) 31%nat
       (alter (fun x => u8 (Z.land x 248)) 0%nat k)).


(** The dispatch decision of the Backend Selector in the words of the
    specification: given the architecture and the two capability
    predicates, one family prefers the standard-instruction backend, the
    other the wide-multiplier backend, and an architecture outside both
    families has no backend. *)
Inductive decision := standard_backend | wide_backend | no_backend_available.

Definition spec_dispatch (a : Arch) (standard_capable wide_capable : bool)
  : decision :=
  match a with
  | OPENSSL_X86_64 =>
      if standard_capable then standard_backend
      else if wide_capable then wide_backend
      else no_backend_available
  | OPENSSL_AARCH64 =>
      if wide_capable then wide_backend
      else if standard_capable then standard_backend
      else no_backend_available
  | OPENSSL_OTHER_ARCH => no_backend_available
  end.

(** The 32 octets [X25519] leaves in [out_shared_key], as a function of
    the octets of the private key and of the peer value: the routine the
    build and the CPU select, applied to the clamped copy on the
    s2n-bignum path and to the key itself on the portable path (which
    clamps inside curve25519_nohw.c). *)
Definition X25519_shared_key (P : platform) (E : x25519_engine)
  (k u : list Z) : list Z :=
  octets 32
    (if CURVE25519_S2N_BIGNUM_CAPABLE P then
       match target_arch P with
       | OPENSSL_X86_64 =>
           if x25519_s2n_bignum_no_alt_capable P =? 1
           then s2n_x25519_byte E (clamp k) u
           else s2n_x25519_byte_alt E (clamp k) u
       | _ =>
           if x25519_s2n_bignum_alt_capable P =? 1
           then s2n_x25519_byte_alt E (clamp k) u
           else s2n_x25519_byte E (clamp k) u
       end
     else nohw_scalar_mult_generic E k u).

Definition X25519_public_value (P : platform) (E : x25519_engine)
  (k : list Z) : list Z :=
  octets 32
    (if CURVE25519_S2N_BIGNUM_CAPABLE P then
       match target_arch P with
       | OPENSSL_X86_64 =>
           if x25519_s2n_bignum_no_alt_capable P =? 1
           then s2n_x25519base_byte E (clamp k)
           else s2n_x25519base_byte_alt E (clamp k)
       | _ =>
           if x25519_s2n_bignum_alt_capable P =? 1
           then s2n_x25519base_byte_alt E (clamp k)
           else s2n_x25519base_byte E (clamp k)
       end
     else nohw_public_from_private E k).

(** The scratch blocks a call leaves behind: the clamped copy on the
    s2n-bignum path, nothing on the portable path. *)
Definition x25519_residue (P : platform) (k : list Z) (s : state) : state :=
  if CURVE25519_S2N_BIGNUM_CAPABLE P then push_block (clamp k) s else s.

(** A buffer of [n] octets at [p] that can be written. *)
Definition writable (m : mem) (p : ptr) (n : nat) : Prop :=
  is_Some (read m p n).

(** The state after [bs] is written at [p]. *)
Definition poke (p : ptr) (bs : list Z) (s : state) : state :=
  match write (memory s) p bs with
  | Some m' => State m' (entropy s)
  | None => s
  end.

(** Two buffers that do not overlap. *)
Definition separate (p : ptr) (n : nat) (q : ptr) (m : nat) : Prop :=
  blk p <> blk q \/ (off p + n <= off q)%nat \/ (off q + m <= off p)%nat.


(** ** The X25519 function *)

(** An octet string of [n] octets. *)
Definition octet_string (n : nat) (l : list Z) : Prop :=
  length l = n /\ Forall is_octet l.

(** The [n] octets of [v] in little-endian order. *)
Fixpoint encode_le (n : nat) (v : Z) : list Z :=
  match n with
  | O => []
  | S n' => v mod 256 :: encode_le n' (v / 256)
  end.

Module RFC7748.

(** Modelled from the spec: the scalar-multiplication routines of the
    arithmetic engine (s2n-bignum and curve25519_nohw.c, not part of
    this translation unit) perform the Montgomery-ladder scalar
    multiplication X25519 of RFC 7748, section 5. *)
Definition p : Z := 2 ^ 255 - 19.
Definition a24 : Z := 121665.

Definition fadd (a b : Z) : Z := (a + b) mod p.
Definition fsub (a b : Z) : Z := (a - b) mod p.
Definition fmul (a b : Z) : Z := (a * b) mod p.

(** [a ^ e mod p] by repeated squaring, [e] given by its binary digits. *)
Fixpoint fpow (a : Z) (e : positive) : Z :=
  match e with
  | xH => a mod p
  | xO e' => let r := fpow a e' in fmul r r
  | xI e' => let r := fpow a e' in fmul a (fmul r r)
  end.

Definition finv (a : Z) : Z := fpow a (Z.to_pos (p - 2)).

Definition cswap (swap : bool) (a b : Z) : Z * Z :=
  if swap then (b, a) else (a, b).

Record ladder_state := Ladder {
  x_2 : Z; z_2 : Z; x_3 : Z; z_3 : Z; swap : bool
}.

Definition ladder_step (x_1 : Z) (k_t : bool) (st : ladder_state)
  : ladder_state :=
  let sw := xorb (swap st) k_t in
  let '(x_2, x_3) := cswap sw (x_2 st) (x_3 st) in
  let '(z_2, z_3) := cswap sw (z_2 st) (z_3 st) in
  let A := fadd x_2 z_2 in
  let AA := fmul A A in
  let B := fsub x_2 z_2 in
  let BB := fmul B B in
  let E := fsub AA BB in
  let C := fadd x_3 z_3 in
  let D := fsub x_3 z_3 in
  let DA := fmul D A in
  let CB := fmul C B in
  Ladder (fmul AA BB)
         (fmul E (fadd AA (fmul a24 E)))
         (fmul (fadd DA CB) (fadd DA CB))
         (fmul x_1 (fmul (fsub DA CB) (fsub DA CB)))
         k_t.

(** The loop [for t = bits-1 down to 0], entered with [t] bits left. *)
Fixpoint ladder (t : nat) (k x_1 : Z) (st : ladder_state) : ladder_state :=
  match t with
  | O => st
  | S t' => ladder t' k x_1 (ladder_step x_1 (Z.testbit k (Z.of_nat t')) st)
  end.

Definition decodeScalar25519 (k : list Z) : Z := le_value (clamp k).

Definition decodeUCoordinate (u : list Z) : Z :=
  le_value (alter (fun b => Z.land b 127) 31%nat u).

Definition X25519 (k u : list Z) : list Z :=
  let x_1 := decodeUCoordinate u mod p in
  let st := ladder 255 (decodeScalar25519 k) x_1 (Ladder 1 0 x_1 1 false) in
  let '(x_2, _) := cswap (swap st) (x_2 st) (x_3 st) in
  let '(z_2, _) := cswap (swap st) (z_2 st) (z_3 st) in
  encode_le 32 (fmul x_2 (finv z_2)).

(** A projective point [x : z] whose affine coordinate is 0 or
    infinite. *)
Definition degenerate (x z : Z) : Prop := x = 0 \/ z = 0.

(** The u-coordinate 9 of the base point. *)
Definition base_point : list Z := 9 :: replicate 31 0.

End RFC7748.

(** Modelled from the spec: every scalar-multiplication routine the file
    can link against computes the X25519 function on 32-octet strings; the
    base-point routines compute it at the base point. *)
Record x25519_engine_conforms (E : x25519_engine) : Prop := {
  conforms_byte : forall k u, octet_string 32 k -> octet_string 32 u ->
    s2n_x25519_byte E k u = RFC7748.X25519 k u;
  conforms_byte_alt : forall k u, octet_string 32 k -> octet_string 32 u ->
    s2n_x25519_byte_alt E k u = RFC7748.X25519 k u;
  conforms_nohw : forall k u, octet_string 32 k -> octet_string 32 u ->
    nohw_scalar_mult_generic E k u = RFC7748.X25519 k u;
  conforms_base : forall k, octet_string 32 k ->
    s2n_x25519base_byte E k = RFC7748.X25519 k RFC7748.base_point;
  conforms_base_alt : forall k, octet_string 32 k ->
    s2n_x25519base_byte_alt E k = RFC7748.X25519 k RFC7748.base_point;
  conforms_nohw_base : forall k, octet_string 32 k ->
    nohw_public_from_private E k = RFC7748.X25519 k RFC7748.base_point
}.

(** The engine whose routines are the RFC function itself. *)
Definition rfc7748_engine : x25519_engine :=
  X25519Engine RFC7748.X25519 RFC7748.X25519
    (fun k => RFC7748.X25519 k RFC7748.base_point)
    (fun k => RFC7748.X25519 k RFC7748.base_point)
    RFC7748.X25519
    (fun k => RFC7748.X25519 k RFC7748.base_point).

(** The effect of the three statements of [X25519_keypair] that do "the
    opposite of the masking" on the 32 octets drawn. *)
Definition unmask (k : list Z) : list Z :=
  alter (fun x => u8 (Z.lor x (Z.lnot 127))) 31%nat
    (alter (fun x => u8 (Z.land x (Z.lnot 64))) 31%nat
       (alter (fun x => u8 (Z.lor x (Z.lnot 248))) 0%nat k)).

(** Two keys that differ at most in the bits clamping discards: the low
    three bits of octet 0 and the top two bits of octet 31. *)
Definition differ_in_discarded_bits (k1 k2 : list Z) : Prop :=
  forall i x y, k1 !! i = Some x -> k2 !! i = Some y ->
    match i with
    | 0%nat => Z.land x 248 = Z.land y 248
    | 31%nat => Z.land x 63 = Z.land y 63
    | _ => x = y
    end.

(** Modelled from the spec: the portable implementation (curve25519_nohw.c)
    clamps a local copy of the private scalar itself, so its result only
    depends on the clamped scalar. *)
Record portable_clamps (E : x25519_engine) : Prop := {
  nohw_scalar_mult_clamps : forall k u,
    octet_string 32 k -> octet_string 32 u ->
    nohw_scalar_mult_generic E k u = nohw_scalar_mult_generic E (clamp k) u;
  nohw_public_clamps : forall k,
    octet_string 32 k ->
    nohw_public_from_private E k = nohw_public_from_private E (clamp k)
}.

(** Modelled from the spec: the backend variants of the engine are
    interchangeable: on the same scalar they compute the same octets, and
    the portable routine computes what they compute on the clamped
    scalar. *)
Record backends_interchangeable (E : x25519_engine) : Prop := {
  alt_same : forall k u, octet_string 32 k -> octet_string 32 u ->
    s2n_x25519_byte_alt E k u = s2n_x25519_byte E k u;
  nohw_same : forall k u, octet_string 32 k -> octet_string 32 u ->
    nohw_scalar_mult_generic E k u = s2n_x25519_byte E (clamp k) u;
  base_alt_same : forall k, octet_string 32 k ->
    s2n_x25519base_byte_alt E k = s2n_x25519base_byte E k;
  nohw_base_same : forall k, octet_string 32 k ->
    nohw_public_from_private E k = s2n_x25519base_byte E (clamp k)
}.

(** The state after the random source has delivered [n] octets. *)
Definition draw (n : nat) (s : state) : state :=
  State (memory s) (drop n (entropy s)).

(** ** Ed25519 as functions of octet strings *)

(** The order of the prime-order subgroup. *)
Definition group_order : Z :=
  2 ^ 252 + 27742317777372353535851937790883648493.

(** The loop of [ED25519_verify] on the octets of [scopy]. *)
Fixpoint scalar_check (S : list Z) (i : nat) : loop_exit :=
  let word := load_u64_le (sub (i * 8) 8 S) in
  let k := default 0 (kOrder !! i) in
  if word >? k then loop_return_0
  else if word <? k then loop_break
  else match i with
       | O => loop_return_0
       | S i' => scalar_check S i'
       end.

Section Ed25519_values.

Variable G : ed25519_engine.

(** [A] with its X and T coordinates negated, as [ED25519_verify] does. *)
Definition negate_XT (A : ge_p3 (fe G)) : ge_p3 (fe G) :=
  GeP3 (fe_carry G (fe_neg G (ge_p3_X A))) (ge_p3_Y A) (ge_p3_Z A)
       (fe_carry G (fe_neg G (ge_p3_T A))).

(** The 32 octets [x25519_sc_reduce] leaves at the start of a buffer that
    held the SHA-512 digest of [m]. *)
Definition reduced_hash (m : list Z) : list Z :=
  octets 32 (sc_reduce G (octets SHA512_DIGEST_LENGTH (SHA512_digest G m))).

(** The 32 octets [ED25519_verify] compares with the R half of the
    signature. *)
Definition verify_rcheck (msg sig pk : list Z) (A : ge_p3 (fe G)) : list Z :=
  octets 32
    (p2_tobytes G
       (double_scalarmult_vartime G
          (reduced_hash (take 32 sig ++ pk ++ msg))
          (negate_XT A)
          (drop 32 sig))).

(** The result of [ED25519_verify] on the octets of its three inputs. *)
Definition ED25519_verify_value (msg sig pk : list Z) : Z :=
  if negb (Z.land (default 0 (sig !! 63%nat)) 224 =? 0) then 0 else
  match ge_frombytes_vartime G pk with
  | None => 0
  | Some A =>
      match scalar_check (drop 32 sig) 3 with
      | loop_return_0 => 0
      | loop_break =>
          if CRYPTO_memcmp (verify_rcheck msg sig pk A) (take 32 sig) =? 0
          then 1 else 0
      end
  end.

End Ed25519_values.

(** A computation that returns [v] (in some state): it neither aborts nor
    runs into undefined behaviour. *)
Definition yields {A} (o : outcome A) (v : A) : Prop :=
  exists s', o = Returns v s'.


(** The effect of the three clamping statements of [ED25519_sign], which
    mask octet 31 with 63 rather than 127. *)
Definition clamp63 (k : list Z) : list Z :=
  alter (fun x => u8 (Z.lor x 64)) 31%nat
    (alter (fun x => u8 (Z.land x 63)) 31%nat
       (alter (fun x => u8 (Z.land x 248)) 0%nat k)).

Section Ed25519_keys.

Variable G : ed25519_engine.

(** The buffer [az] of [ED25519_keypair_from_seed] when it returns. *)
Definition keypair_az (seed : list Z) : list Z :=
  clamp (octets SHA512_DIGEST_LENGTH (SHA512_digest G seed)).

(** The public key derived from a seed. *)
Definition ED25519_public_key (seed : list Z) : list Z :=
  octets 32 (p3_tobytes G (ge_scalarmult_base G (take 32 (keypair_az seed)))).

(** The buffers [az], [nonce] and [hram] of [ED25519_sign] when it
    returns, and the two halves of the signature. *)
Definition sign_az (sk : list Z) : list Z :=
  clamp63 (octets SHA512_DIGEST_LENGTH (SHA512_digest G (take 32 sk))).

Definition sign_nonce_input (msg sk : list Z) : list Z :=
  sub 32 32 (sign_az sk) ++ msg.

Definition sign_nonce (msg sk : list Z) : list Z :=
  splice 0 (reduced_hash G (sign_nonce_input msg sk))
    (octets SHA512_DIGEST_LENGTH (SHA512_digest G (sign_nonce_input msg sk))).

Definition sign_R (msg sk : list Z) : list Z :=
  octets 32
    (p3_tobytes G
       (ge_scalarmult_base G (reduced_hash G (sign_nonce_input msg sk)))).

Definition sign_hram_input (msg sk : list Z) : list Z :=
  sign_R msg sk ++ drop 32 sk ++ msg.

Definition sign_hram (msg sk : list Z) : list Z :=
  splice 0 (reduced_hash G (sign_hram_input msg sk))
    (octets SHA512_DIGEST_LENGTH (SHA512_digest G (sign_hram_input msg sk))).

Definition sign_S (msg sk : list Z) : list Z :=
  octets 32
    (sc_muladd_value G
       (reduced_hash G (sign_hram_input msg sk))
       (take 32 (sign_az sk))
       (reduced_hash G (sign_nonce_input msg sk))).

Definition ED25519_signature (msg sk : list Z) : list Z :=
  sign_R msg sk ++ sign_S msg sk.

End Ed25519_keys.

(** ** The contract of the arithmetic engine *)

(** [n] times [P] in a structure with an addition. *)
Fixpoint times {A : Type} (add : A -> A -> A) (zero : A) (n : nat) (P : A) : A :=
  match n with
  | O => zero
  | S n' => add P (times add zero n' P)
  end.

(** Modelled from the spec: the group and scalar arithmetic of the engine
    (internal.h and the files behind it, not part of this translation
    unit).  The points of the curve form a commutative group in which the
    base point has the group order; the engine decodes and encodes points,
    multiplies the base point by a scalar, computes a double scalar
    multiplication, reduces scalars modulo the group order and computes
    the scalar multiply-add modulo the group order. *)
Record ed25519_model (G : ed25519_engine) : Type := Ed25519Model {
  point : Type;
  point_add : point -> point -> point;
  point_opp : point -> point;
  point_zero : point;
  base_point : point;
  (** what the engine's values stand for *)
  p3_point : ge_p3 (fe G) -> point;
  p2_point : ge_p2 (fe G) -> point;
  encode_point : point -> list Z;
  (** the group laws *)
  point_add_assoc : forall a b c,
    point_add a (point_add b c) = point_add (point_add a b) c;
  point_add_comm : forall a b, point_add a b = point_add b a;
  point_add_zero : forall a, point_add point_zero a = a;
  point_add_opp : forall a, point_add (point_opp a) a = point_zero;
  base_point_order :
    times point_add point_zero (Z.to_nat group_order) base_point = point_zero;
  (** the engine *)
  encode_point_octets : forall a, octet_string 32 (encode_point a);
  p3_tobytes_encodes : forall A, p3_tobytes G A = encode_point (p3_point A);
  p2_tobytes_encodes : forall R, p2_tobytes G R = encode_point (p2_point R);
  frombytes_decodes : forall a,
    exists A, ge_frombytes_vartime G (encode_point a) = Some A /\
              p3_point A = a;
  negate_XT_negates : forall A,
    p3_point (negate_XT G A) = point_opp (p3_point A);
  scalarmult_base_multiplies : forall k,
    octet_string 32 k -> le_value k < 2 ^ 255 ->
    p3_point (ge_scalarmult_base G k)
    = times point_add point_zero (Z.to_nat (le_value k)) base_point;
  double_scalarmult_multiplies : forall a A b,
    octet_string 32 a -> octet_string 32 b ->
    p2_point (double_scalarmult_vartime G a A b)
    = point_add
        (times point_add point_zero (Z.to_nat (le_value a)) (p3_point A))
        (times point_add point_zero (Z.to_nat (le_value b)) base_point);
  sc_reduce_reduces : forall s,
    octet_string 64 s ->
    octet_string 32 (sc_reduce G s) /\
    le_value (sc_reduce G s) = le_value s mod group_order;
  sc_muladd_computes : forall a b c,
    octet_string 32 a -> octet_string 32 b -> octet_string 32 c ->
    octet_string 32 (sc_muladd_value G a b c) /\
    le_value (sc_muladd_value G a b c)
    = (le_value a * le_value b + le_value c) mod group_order
}.

(** ** Scratch buffers *)

(** A call that leaves no scratch behind: every block it allocated holds
    the erasing pattern when the call is left, by return or by abort. *)
Definition scratch_erased {A} (s : state) (o : outcome A) : Prop :=
  match o with
  | Returns _ s' | Aborts s' =>
      forall j b, (length (memory s) <= j)%nat ->
                  memory s' !! j = Some b -> b = replicate (length b) 0
  | Undefined => True
  end.

(** ** Sample inputs *)

(** The scalar and the u-coordinate of the first test vector of RFC 7748,
    section 5.2. *)
Definition sample_scalar : list Z :=
  [0xa5; 0x46; 0xe3; 0x6b; 0xf0; 0x52; 0x7c; 0x9d; 0x3b; 0x16; 0x15; 0x4b;
   0x82; 0x46; 0x5e; 0xdd; 0x62; 0x14; 0x4c; 0x0a; 0xc1; 0xfc; 0x5a; 0x18;
   0x50; 0x6a; 0x22; 0x44; 0xba; 0x44; 0x9a; 0xc4].

Definition sample_u : list Z :=
  [0xe6; 0xdb; 0x68; 0x67; 0x58; 0x30; 0x30; 0xdb; 0x35; 0x94; 0xc1; 0xa4;
   0x24; 0xb1; 0x5f; 0x7c; 0x72; 0x66; 0x24; 0xec; 0x26; 0xb3; 0x35; 0x3b;
   0x10; 0xa9; 0x03; 0xa6; 0xd0; 0xab; 0x1c; 0x4c].

(** A memory for the examples.  Blocks 0 and 3 hold two X25519 scalars
    that differ in discarded bits only, block 1 the u-coordinate, blocks 2
    and 4 are output buffers of 64 octets, block 5 holds an Ed25519
    private key, block 6 a message, block 7 a signature whose S half is
    the group order itself, block 8 a signature with the top bits of its
    last octet set, block 9 a string that does not decode in the example
    engine and block 10 one that does, block 11 a seed.  The random source
    holds 32 octets. *)
Definition sample_state : state :=
  State [ sample_scalar;
          sample_u;
          replicate 64 0;
          <[0%nat := 0xa2]> (<[31%nat := 0x04]> sample_scalar);
          replicate 64 0;
          seqZ 100 64;
          [0x61; 0x62; 0x63];
          replicate 32 0 ++ encode_le 32 group_order;
          replicate 63 0 ++ [0xe0];
          replicate 32 255;
          5 :: replicate 31 0;
          seqZ 1 32 ]
        (seqZ 1 32).

(** An x86_64 Linux build on a CPU with BMI2 and ADX, an aarch64 build on
    a CPU without a wide multiplier, and a build without assembly. *)
Definition sample_x86_64 : platform :=
  Platform OPENSSL_X86_64 OPENSSL_LINUX false false 0 1 1.

Definition sample_aarch64 : platform :=
  Platform OPENSSL_AARCH64 OPENSSL_APPLE false false 0 0 0.

Definition sample_no_asm : platform :=
  Platform OPENSSL_OTHER_ARCH OPENSSL_LINUX false true 0 0 0.

(** ** A small engine for examples *)

(** The integers modulo the group order, as a group in which 1 has the
    group order: an engine that computes in it satisfies the contract of
    the arithmetic, with scalar multiplication being multiplication. *)
Module Exponent.

Definition residue : Type := dsig (fun x : Z => 0 <= x < group_order).

Definition of_Z (x : Z) : residue :=
  dexist (x mod group_order) (Z.mod_pos_bound x group_order eq_refl).

Definition to_Z (a : residue) : Z := proj1_sig a.

Definition add (a b : residue) : residue := of_Z (to_Z a + to_Z b).
Definition opp (a : residue) : residue := of_Z (- to_Z a).
Definition zero : residue := of_Z 0.
Definition one : residue := of_Z 1.

Definition p3 (a : residue) : ge_p3 residue := GeP3 a one one a.
Definition p2 (a : residue) : ge_p2 residue := GeP2 a one one.

Definition p2_value (R : ge_p2 residue) : residue :=
  match R with GeP2 x _ _ => x end.

Definition encode (a : residue) : list Z := encode_le 32 (to_Z a).

Definition decode (bs : list Z) : option (ge_p3 residue) :=
  if decide (le_value bs < group_order)
  then Some (p3 (of_Z (le_value bs))) else None.

(** A stand-in for the hash: the message, cut or padded to 64 octets. *)
Definition digest (m : list Z) : list Z := octets 64 m.

Definition engine : ed25519_engine :=
  Ed25519Engine residue residue
    digest
    (fun k => p3 (of_Z (le_value k)))
    (fun A => encode (ge_p3_X A))
    decode
    opp
    (fun x => x)
    (fun s => encode_le 32 (le_value s mod group_order))
    (fun a b c =>
       encode_le 32 ((le_value a * le_value b + le_value c) mod group_order))
    (fun a A b =>
       p2 (add (of_Z (le_value a * to_Z (ge_p3_X A))) (of_Z (le_value b))))
    (fun R => encode (p2_value R)).

End Exponent.

From Stdlib Require String.

(** ** What a call leaves of the caller's memory *)

(** [s'] is [s] with scratch blocks pushed: every block of [s] is as it
    was and the random source has not been consulted. *)
Definition grows (s s' : state) : Prop :=
  entropy s' = entropy s /\ memory s `prefix_of` memory s'.

(** A computation that returns [v] and only pushes scratch blocks on top
    of [s]. *)
Definition lands {A} (s : state) (o : outcome A) (v : A) : Prop :=
  exists s', o = Returns v s' /\ grows s s'.

(** Every buffer of [s] that is separate from the buffers listed in [W]
    reads in [s'] as it does in [s]. *)
Definition preserves (W : list (ptr * nat)) (s s' : state) : Prop :=
  forall q n, (blk q < length (memory s))%nat ->
    Forall (fun w => separate (fst w) (snd w) q n) W ->
    read (memory s') q n = read (memory s) q n.

(** Modelled from the spec: a point has one encoding only, and the base
    point has exactly the group order, which is the order of the
    prime-order subgroup it generates. *)
Record ed25519_model_exact (G : ed25519_engine) (Mo : ed25519_model G)
  : Prop := {
  encode_point_injective : forall a b,
    encode_point G Mo a = encode_point G Mo b -> a = b;
  base_point_exact : forall n,
    times (point_add G Mo) (point_zero G Mo) n (base_point G Mo)
    = point_zero G Mo ->
    Z.of_nat n mod group_order = 0
}.

(** * Certificate purposes: crypto/x509/v3_purp.c

    The second translation unit: the cache of extension values a
    certificate carries ([x509v3_cache_extensions]), the table of
    purposes and the purpose checks that read the cache.  The macros come
    from the public headers and the ASN.1 and name routines from the rest
    of the library; both are parameters.  Integers of type [int] and
    [long] are integers, [uint32_t] fields wrap at 32 bits, a pointer that
    may be [NULL] is an option and a stack is a list.  The locks of
    [x509v3_cache_extensions] are not modelled: a call runs alone. *)
Module V3_purp.

Import String.StringSyntax.

Definition u32 (v : Z) : Z := v mod 2 ^ 32.

Definition UINT32_MAX : Z := 2 ^ 32 - 1.

(** A C condition: any value but 0 is true. *)
Definition truthy (v : Z) : bool := negb (v =? 0).

(** The macros of openssl/x509.h, openssl/x509v3.h, openssl/nid.h and
    openssl/asn1.h the file uses. *)
Class macros := Macros {
  EXFLAG_BCONS : Z;
  EXFLAG_KUSAGE : Z;
  EXFLAG_XKUSAGE : Z;
  EXFLAG_NSCERT : Z;
  EXFLAG_CA : Z;
  EXFLAG_SI : Z;
  EXFLAG_V1 : Z;
  EXFLAG_INVALID : Z;
  EXFLAG_SET : Z;
  EXFLAG_CRITICAL : Z;
  EXFLAG_SS : Z;
  X509v3_KU_DIGITAL_SIGNATURE : Z;
  X509v3_KU_NON_REPUDIATION : Z;
  X509v3_KU_KEY_ENCIPHERMENT : Z;
  X509v3_KU_KEY_AGREEMENT : Z;
  X509v3_KU_KEY_CERT_SIGN : Z;
  X509v3_KU_CRL_SIGN : Z;
  XKU_SSL_SERVER : Z;
  XKU_SSL_CLIENT : Z;
  XKU_SMIME : Z;
  XKU_CODE_SIGN : Z;
  XKU_SGC : Z;
  XKU_OCSP_SIGN : Z;
  XKU_TIMESTAMP : Z;
  XKU_DVCS : Z;
  XKU_ANYEKU : Z;
  NS_SSL_CLIENT : Z;
  NS_SSL_SERVER : Z;
  NS_SMIME : Z;
  NS_SMIME_CA : Z;
  X509_PURPOSE_SSL_CLIENT : Z;
  X509_PURPOSE_SSL_SERVER : Z;
  X509_PURPOSE_NS_SSL_SERVER : Z;
  X509_PURPOSE_SMIME_SIGN : Z;
  X509_PURPOSE_SMIME_ENCRYPT : Z;
  X509_PURPOSE_CRL_SIGN : Z;
  X509_PURPOSE_ANY : Z;
  X509_PURPOSE_OCSP_HELPER : Z;
  X509_PURPOSE_TIMESTAMP_SIGN : Z;
  X509_TRUST_SSL_CLIENT : Z;
  X509_TRUST_SSL_SERVER : Z;
  X509_TRUST_EMAIL : Z;
  X509_TRUST_COMPAT : Z;
  X509_TRUST_DEFAULT : Z;
  X509_TRUST_TSA : Z;
  NID_netscape_cert_type : Z;
  NID_key_usage : Z;
  NID_subject_alt_name : Z;
  NID_basic_constraints : Z;
  NID_certificate_policies : Z;
  NID_ext_key_usage : Z;
  NID_policy_constraints : Z;
  NID_name_constraints : Z;
  NID_policy_mappings : Z;
  NID_inhibit_any_policy : Z;
  NID_server_auth : Z;
  NID_client_auth : Z;
  NID_email_protect : Z;
  NID_code_sign : Z;
  NID_ms_sgc : Z;
  NID_ns_sgc : Z;
  NID_OCSP_sign : Z;
  NID_time_stamp : Z;
  NID_dvcs : Z;
  NID_anyExtendedKeyUsage : Z;
  X509_V_OK : Z;
  X509_V_ERR_UNSPECIFIED : Z;
  X509_V_ERR_SUBJECT_ISSUER_MISMATCH : Z;
  X509_V_ERR_AKID_SKID_MISMATCH : Z;
  X509_V_ERR_AKID_ISSUER_SERIAL_MISMATCH : Z;
  X509_V_ERR_KEYUSAGE_NO_CERTSIGN : Z;
  X509V3_R_INVALID_PURPOSE : Z;
  GEN_DIRNAME : Z;
  V_ASN1_NEG_INTEGER : Z;
  X509_VERSION_1 : Z
}.

(** The types and routines of the library the file calls: names, octet
    strings, integers, extensions and distribution point names, with
    their comparisons and accessors.  [X509_EXTENSION_get_critical] is
    called on a pointer that can be [NULL]. *)
Class library := Library {
  X509_NAME : Type;
  ASN1_OCTET_STRING : Type;
  ASN1_INTEGER : Type;
  X509_EXTENSION : Type;
  DIST_POINT_NAME : Type;
  NAME_CONSTRAINTS : Type;
  X509_NAME_cmp : X509_NAME -> X509_NAME -> Z;
  ASN1_OCTET_STRING_cmp : ASN1_OCTET_STRING -> ASN1_OCTET_STRING -> Z;
  ASN1_INTEGER_cmp : ASN1_INTEGER -> ASN1_INTEGER -> Z;
  ASN1_INTEGER_get : ASN1_INTEGER -> Z;
  ASN1_INTEGER_type : ASN1_INTEGER -> Z;
  X509_EXTENSION_get_critical : option X509_EXTENSION -> Z;
  X509_EXTENSION_nid : X509_EXTENSION -> Z;
  X509_get_ext_by_NID_in : list X509_EXTENSION -> Z -> Z -> Z;
  DIST_POINT_NAME_type : DIST_POINT_NAME -> Z;
  DIST_POINT_set_dpname : DIST_POINT_NAME -> X509_NAME -> Z
}.

Section Model.

Context `{K : macros} `{L : library}.

(** ** The structures *)

(** A general name: its type and the member [d.directoryName] (also
    called [d.dirn]) of its union, a pointer to a name. *)
Record GENERAL_NAME := GeneralName {
  gen_type : Z;
  gen_directoryName : option X509_NAME
}.

Record AUTHORITY_KEYID := AuthorityKeyid {
  akid_keyid : option ASN1_OCTET_STRING;
  akid_issuer : option (list GENERAL_NAME);
  akid_serial : option ASN1_INTEGER
}.

Record BASIC_CONSTRAINTS := BasicConstraints {
  bs_ca : Z;
  bs_pathlen : option ASN1_INTEGER
}.

Record DIST_POINT := DistPoint {
  distpoint : option DIST_POINT_NAME;
  CRLissuer : list GENERAL_NAME
}.

(** What [X509_get_ext_d2i] hands back: the decoded value, or [NULL], and
    the integer it stores through its third argument. *)
Definition d2i (A : Type) : Type := (option A * Z)%type.

(** The certificate as the accessors of the library show it:
    [X509_digest] with SHA-256 (no value when it fails),
    [X509_get_version], the serial number, the two names, the extensions
    in order, and the result of [X509_get_ext_d2i] for each extension the
    file asks for.  A bit string is the list of its octets (its [length]
    is the length of the list) and an extended key usage the list of the
    NIDs of its objects. *)
Record X509_CINF := CertInfo {
  digest : option (list Z);
  version : Z;
  serialNumber : ASN1_INTEGER;
  subject_name : X509_NAME;
  issuer_name : X509_NAME;
  extensions : list X509_EXTENSION;
  d2i_basic_constraints : d2i BASIC_CONSTRAINTS;
  d2i_key_usage : d2i (list Z);
  d2i_ext_key_usage : d2i (list Z);
  d2i_netscape_cert_type : d2i (list Z);
  d2i_subject_key_identifier : d2i ASN1_OCTET_STRING;
  d2i_authority_key_identifier : d2i AUTHORITY_KEYID;
  d2i_subject_alt_name : d2i (list GENERAL_NAME);
  d2i_name_constraints : d2i NAME_CONSTRAINTS;
  d2i_crl_distribution_points : d2i (list DIST_POINT)
}.

(** A certificate object: the certificate and the fields the file
    fills. *)
Record X509 := Cert {
  cert_info : X509_CINF;
  ex_flags : Z;
  ex_pathlen : Z;
  ex_kusage : Z;
  ex_xkusage : Z;
  ex_nscert : Z;
  skid : option ASN1_OCTET_STRING;
  akid : option AUTHORITY_KEYID;
  altname : option (list GENERAL_NAME);
  nc : option NAME_CONSTRAINTS;
  crldp : option (list DIST_POINT);
  cert_hash : list Z
}.

Definition set_ex_flags (v : Z) (x : X509) : X509 :=
  Cert (cert_info x) v (ex_pathlen x) (ex_kusage x) (ex_xkusage x)
       (ex_nscert x) (skid x) (akid x) (altname x) (nc x) (crldp x)
       (cert_hash x).

Definition set_ex_pathlen (v : Z) (x : X509) : X509 :=
  Cert (cert_info x) (ex_flags x) v (ex_kusage x) (ex_xkusage x)
       (ex_nscert x) (skid x) (akid x) (altname x) (nc x) (crldp x)
       (cert_hash x).

Definition set_ex_kusage (v : Z) (x : X509) : X509 :=
  Cert (cert_info x) (ex_flags x) (ex_pathlen x) v (ex_xkusage x)
       (ex_nscert x) (skid x) (akid x) (altname x) (nc x) (crldp x)
       (cert_hash x).

Definition set_ex_xkusage (v : Z) (x : X509) : X509 :=
  Cert (cert_info x) (ex_flags x) (ex_pathlen x) (ex_kusage x) v
       (ex_nscert x) (skid x) (akid x) (altname x) (nc x) (crldp x)
       (cert_hash x).

Definition set_ex_nscert (v : Z) (x : X509) : X509 :=
  Cert (cert_info x) (ex_flags x) (ex_pathlen x) (ex_kusage x) (ex_xkusage x)
       v (skid x) (akid x) (altname x) (nc x) (crldp x) (cert_hash x).

Definition set_skid (v : option ASN1_OCTET_STRING) (x : X509) : X509 :=
  Cert (cert_info x) (ex_flags x) (ex_pathlen x) (ex_kusage x) (ex_xkusage x)
       (ex_nscert x) v (akid x) (altname x) (nc x) (crldp x) (cert_hash x).

Definition set_akid (v : option AUTHORITY_KEYID) (x : X509) : X509 :=
  Cert (cert_info x) (ex_flags x) (ex_pathlen x) (ex_kusage x) (ex_xkusage x)
       (ex_nscert x) (skid x) v (altname x) (nc x) (crldp x) (cert_hash x).

Definition set_altname (v : option (list GENERAL_NAME)) (x : X509) : X509 :=
  Cert (cert_info x) (ex_flags x) (ex_pathlen x) (ex_kusage x) (ex_xkusage x)
       (ex_nscert x) (skid x) (akid x) v (nc x) (crldp x) (cert_hash x).

Definition set_nc (v : option NAME_CONSTRAINTS) (x : X509) : X509 :=
  Cert (cert_info x) (ex_flags x) (ex_pathlen x) (ex_kusage x) (ex_xkusage x)
       (ex_nscert x) (skid x) (akid x) (altname x) v (crldp x) (cert_hash x).

Definition set_crldp (v : option (list DIST_POINT)) (x : X509) : X509 :=
  Cert (cert_info x) (ex_flags x) (ex_pathlen x) (ex_kusage x) (ex_xkusage x)
       (ex_nscert x) (skid x) (akid x) (altname x) (nc x) v (cert_hash x).

Definition set_cert_hash (v : list Z) (x : X509) : X509 :=
  Cert (cert_info x) (ex_flags x) (ex_pathlen x) (ex_kusage x) (ex_xkusage x)
       (ex_nscert x) (skid x) (akid x) (altname x) (nc x) (crldp x) v.

(** [x->ex_flags |= f]. *)
Definition or_ex_flags (f : Z) (x : X509) : X509 :=
  set_ex_flags (u32 (Z.lor (ex_flags x) f)) x.

(** The accessors of the library, on a certificate object. *)
Definition X509_get_version (x : X509) : Z := version (cert_info x).
Definition X509_get_serialNumber (x : X509) : ASN1_INTEGER :=
  serialNumber (cert_info x).
Definition X509_get_subject_name (x : X509) : X509_NAME :=
  subject_name (cert_info x).
Definition X509_get_issuer_name (x : X509) : X509_NAME :=
  issuer_name (cert_info x).
Definition X509_get_ext_count (x : X509) : Z :=
  Z.of_nat (length (extensions (cert_info x))).
Definition X509_get_ext (x : X509) (loc : Z) : option X509_EXTENSION :=
  if loc <? 0 then None else extensions (cert_info x) !! Z.to_nat loc.
Definition X509_get_ext_by_NID (x : X509) (nid lastpos : Z) : Z :=
  X509_get_ext_by_NID_in (extensions (cert_info x)) nid lastpos.

(** ** The macros of the file *)

Definition V1_ROOT : Z := Z.lor EXFLAG_V1 EXFLAG_SS.

Definition ku_reject (x : X509) (usage : Z) : bool :=
  truthy (Z.land (ex_flags x) EXFLAG_KUSAGE)
  && negb (truthy (Z.land (ex_kusage x) usage)).

Definition xku_reject (x : X509) (usage : Z) : bool :=
  truthy (Z.land (ex_flags x) EXFLAG_XKUSAGE)
  && negb (truthy (Z.land (ex_xkusage x) usage)).

Definition ns_reject (x : X509) (usage : Z) : bool :=
  truthy (Z.land (ex_flags x) EXFLAG_NSCERT)
  && negb (truthy (Z.land (ex_nscert x) usage)).

(** ** The purpose checks *)

Definition check_ca (x : X509) : Z :=
  if ku_reject x X509v3_KU_KEY_CERT_SIGN then 0
  else if Z.land (ex_flags x) V1_ROOT =? V1_ROOT then 1
  else Z.b2z (truthy (Z.land (ex_flags x) EXFLAG_BCONS)
              && truthy (Z.land (ex_flags x) EXFLAG_CA)).

Definition check_purpose_ssl_client (x : X509) (ca : Z) : Z :=
  if xku_reject x XKU_SSL_CLIENT then 0
  else if truthy ca then check_ca x
  else if ku_reject x
            (Z.lor X509v3_KU_DIGITAL_SIGNATURE X509v3_KU_KEY_AGREEMENT)
       then 0
  else if ns_reject x NS_SSL_CLIENT then 0
  else 1.

Definition X509v3_KU_TLS : Z :=
  Z.lor (Z.lor X509v3_KU_DIGITAL_SIGNATURE X509v3_KU_KEY_ENCIPHERMENT)
        X509v3_KU_KEY_AGREEMENT.

Definition check_purpose_ssl_server (x : X509) (ca : Z) : Z :=
  if xku_reject x XKU_SSL_SERVER then 0
  else if truthy ca then check_ca x
  else if ns_reject x NS_SSL_SERVER then 0
  else if ku_reject x X509v3_KU_TLS then 0
  else 1.

Definition check_purpose_ns_ssl_server (x : X509) (ca : Z) : Z :=
  let ret := check_purpose_ssl_server x ca in
  if negb (truthy ret) || truthy ca then ret
  else if ku_reject x X509v3_KU_KEY_ENCIPHERMENT then 0
  else ret.

Definition purpose_smime (x : X509) (ca : Z) : Z :=
  if xku_reject x XKU_SMIME then 0
  else if truthy ca then
    if truthy (Z.land (ex_flags x) EXFLAG_NSCERT)
       && (Z.land (ex_nscert x) NS_SMIME_CA =? 0)
    then 0
    else check_ca x
  else if truthy (Z.land (ex_flags x) EXFLAG_NSCERT) then
    Z.b2z (Z.land (ex_nscert x) NS_SMIME =? NS_SMIME)
  else 1.

Definition check_purpose_smime_sign (x : X509) (ca : Z) : Z :=
  let ret := purpose_smime x ca in
  if negb (truthy ret) || truthy ca then ret
  else if ku_reject x
            (Z.lor X509v3_KU_DIGITAL_SIGNATURE X509v3_KU_NON_REPUDIATION)
       then 0
  else ret.

Definition check_purpose_smime_encrypt (x : X509) (ca : Z) : Z :=
  let ret := purpose_smime x ca in
  if negb (truthy ret) || truthy ca then ret
  else if ku_reject x X509v3_KU_KEY_ENCIPHERMENT then 0
  else ret.

Definition check_purpose_crl_sign (x : X509) (ca : Z) : Z :=
  if truthy ca then check_ca x
  else if ku_reject x X509v3_KU_CRL_SIGN then 0
  else 1.

Definition ocsp_helper (x : X509) (ca : Z) : Z :=
  if truthy ca then check_ca x else 1.

Definition check_purpose_timestamp_sign (x : X509) (ca : Z) : Z :=
  if truthy ca then check_ca x
  else
    let sign :=
      Z.lor X509v3_KU_NON_REPUDIATION X509v3_KU_DIGITAL_SIGNATURE in
    if truthy (Z.land (ex_flags x) EXFLAG_KUSAGE)
       && (truthy (Z.land (ex_kusage x) (u32 (Z.lnot sign)))
           || negb (truthy (Z.land (ex_kusage x) sign)))
    then 0
    else if negb (truthy (Z.land (ex_flags x) EXFLAG_XKUSAGE))
            || negb (ex_xkusage x =? XKU_TIMESTAMP)
    then 0
    else
      let i_ext := X509_get_ext_by_NID x NID_ext_key_usage (-1) in
      if (i_ext >=? 0)
         && negb (truthy (X509_EXTENSION_get_critical (X509_get_ext x i_ext)))
      then 0
      else 1.

Definition no_check (x : X509) (ca : Z) : Z := 1.

(** ** The table of purposes *)

(** An entry of the table.  The check functions do not use their first
    argument, the entry itself; it is left out. *)
Record X509_PURPOSE := Purpose {
  purpose : Z;
  trust : Z;
  flags : Z;
  check_purpose : X509 -> Z -> Z;
  name : String.string;
  sname : String.string
}.

Local Open Scope string_scope.

Definition xstandard : list X509_PURPOSE :=
  [ Purpose X509_PURPOSE_SSL_CLIENT X509_TRUST_SSL_CLIENT 0
      check_purpose_ssl_client "SSL client" "sslclient";
    Purpose X509_PURPOSE_SSL_SERVER X509_TRUST_SSL_SERVER 0
      check_purpose_ssl_server "SSL server" "sslserver";
    Purpose X509_PURPOSE_NS_SSL_SERVER X509_TRUST_SSL_SERVER 0
      check_purpose_ns_ssl_server "Netscape SSL server" "nssslserver";
    Purpose X509_PURPOSE_SMIME_SIGN X509_TRUST_EMAIL 0
      check_purpose_smime_sign "S/MIME signing" "smimesign";
    Purpose X509_PURPOSE_SMIME_ENCRYPT X509_TRUST_EMAIL 0
      check_purpose_smime_encrypt "S/MIME encryption" "smimeencrypt";
    Purpose X509_PURPOSE_CRL_SIGN X509_TRUST_COMPAT 0
      check_purpose_crl_sign "CRL signing" "crlsign";
    Purpose X509_PURPOSE_ANY X509_TRUST_DEFAULT 0
      no_check "Any Purpose" "any";
    Purpose X509_PURPOSE_OCSP_HELPER X509_TRUST_COMPAT 0
      ocsp_helper "OCSP helper" "ocsphelper";
    Purpose X509_PURPOSE_TIMESTAMP_SIGN X509_TRUST_TSA 0
      check_purpose_timestamp_sign "Time Stamp signing" "timestampsign" ].

Local Close Scope string_scope.

Definition X509_PURPOSE_get_count : Z := Z.of_nat (length xstandard).

Definition X509_PURPOSE_get0 (idx : Z) : option X509_PURPOSE :=
  if (idx <? 0) || (idx >=? Z.of_nat (length xstandard)) then None
  else xstandard !! Z.to_nat idx.

(** The loop of [X509_PURPOSE_get_by_sname], entered at index [i] with
    [n] indices to go.  Without a value the loop has read through the
    [NULL] pointer. *)
Fixpoint get_by_sname_loop (n : nat) (i : Z) (s : String.string)
  : option Z :=
  match n with
  | O => Some (-1)
  | S n' =>
      match X509_PURPOSE_get0 i with
      | Some xptmp =>
          if String.eqb (sname xptmp) s then Some i
          else get_by_sname_loop n' (i + 1) s
      | None => None
      end
  end.

Definition X509_PURPOSE_get_by_sname (s : String.string) : option Z :=
  get_by_sname_loop (Z.to_nat X509_PURPOSE_get_count) 0 s.

(** The loop of [X509_PURPOSE_get_by_id] over the entries from index
    [i]. *)
Fixpoint get_by_id_loop (entries : list X509_PURPOSE) (i : Z) (id : Z) : Z :=
  match entries with
  | [] => -1
  | e :: rest =>
      if purpose e =? id then i else get_by_id_loop rest (i + 1) id
  end.

Definition X509_PURPOSE_get_by_id (id : Z) : Z :=
  get_by_id_loop xstandard 0 id.

Definition X509_PURPOSE_get_id (xp : X509_PURPOSE) : Z := purpose xp.
Definition X509_PURPOSE_get0_name (xp : X509_PURPOSE) : String.string :=
  name xp.
Definition X509_PURPOSE_get0_sname (xp : X509_PURPOSE) : String.string :=
  sname xp.
Definition X509_PURPOSE_get_trust (xp : X509_PURPOSE) : Z := trust xp.

(** [X509_PURPOSE_set]: the result, the integer behind [p] and the error
    queue, to which [OPENSSL_PUT_ERROR] adds a reason. *)
Definition X509_PURPOSE_set (p : Z) (id : Z) (errors : list Z)
  : Z * Z * list Z :=
  if X509_PURPOSE_get_by_id id =? -1
  then (0, p, errors ++ [X509V3_R_INVALID_PURPOSE])
  else (1, id, errors).

(** ** The extension cache *)

Definition X509_supported_extension (ex : X509_EXTENSION) : Z :=
  let nid := X509_EXTENSION_nid ex in
  Z.b2z ((nid =? NID_netscape_cert_type)
         || (nid =? NID_key_usage)
         || (nid =? NID_subject_alt_name)
         || (nid =? NID_basic_constraints)
         || (nid =? NID_certificate_policies)
         || (nid =? NID_ext_key_usage)
         || (nid =? NID_policy_constraints)
         || (nid =? NID_name_constraints)
         || (nid =? NID_policy_mappings)
         || (nid =? NID_inhibit_any_policy)).

(** The loop of [setup_dp] and of [X509_check_akid]: the name pointer of
    the first general name that is a directory name, [NULL] when there is
    none. *)
Fixpoint first_dirname (gens : list GENERAL_NAME) : option X509_NAME :=
  match gens with
  | [] => None
  | gen :: rest =>
      if gen_type gen =? GEN_DIRNAME then gen_directoryName gen
      else first_dirname rest
  end.

(** The name [DIST_POINT_set_dpname] stores in the distribution point is
    not modelled, its result is. *)
Definition setup_dp (x : X509) (dp : DIST_POINT) : Z :=
  match distpoint dp with
  | None => 1
  | Some dpn =>
      if negb (DIST_POINT_NAME_type dpn =? 1) then 1
      else
        let iname :=
          match first_dirname (CRLissuer dp) with
          | Some n => n
          | None => X509_get_issuer_name x
          end in
        DIST_POINT_set_dpname dpn iname
  end.

(** The loop of [setup_crldp] over the distribution points. *)
Fixpoint setup_dps (x : X509) (dps : list DIST_POINT) : Z :=
  match dps with
  | [] => 1
  | dp :: rest =>
      if negb (truthy (setup_dp x dp)) then 0 else setup_dps x rest
  end.

Definition setup_crldp (x : X509) : Z * X509 :=
  let '(v, j) := d2i_crl_distribution_points (cert_info x) in
  let x := set_crldp v x in
  match v with
  | None => if negb (j =? -1) then (0, x) else (1, x)
  | Some dps => (setup_dps x dps, x)
  end.

Definition X509_check_akid (issuer : X509) (a : option AUTHORITY_KEYID) : Z :=
  match a with
  | None => X509_V_OK
  | Some a =>
      if match akid_keyid a, skid issuer with
         | Some k, Some s => truthy (ASN1_OCTET_STRING_cmp k s)
         | _, _ => false
         end
      then X509_V_ERR_AKID_SKID_MISMATCH
      else if match akid_serial a with
              | Some n => truthy (ASN1_INTEGER_cmp (X509_get_serialNumber issuer) n)
              | None => false
              end
      then X509_V_ERR_AKID_ISSUER_SERIAL_MISMATCH
      else if match akid_issuer a with
              | Some gens =>
                  match first_dirname gens with
                  | Some nm =>
                      truthy (X509_NAME_cmp nm (X509_get_issuer_name issuer))
                  | None => false
                  end
              | None => false
              end
      then X509_V_ERR_AKID_ISSUER_SERIAL_MISMATCH
      else X509_V_OK
  end.

(** The statements of [x509v3_cache_extensions], in the order of the
    source.  The digest, which is stored when it could be computed: *)
Definition cache_digest (x : X509) : X509 :=
  match digest (cert_info x) with
  | Some h => set_cert_hash h x
  | None => or_ex_flags EXFLAG_INVALID x
  end.

(** "V1 should mean no extensions ..." *)
Definition cache_version (x : X509) : X509 :=
  if X509_get_version x =? X509_VERSION_1 then or_ex_flags EXFLAG_V1 x else x.

(** "Handle basic constraints" *)
Definition cache_basic_constraints (x : X509) : X509 :=
  match d2i_basic_constraints (cert_info x) with
  | (Some bs, _) =>
      let x := if truthy (bs_ca bs) then or_ex_flags EXFLAG_CA x else x in
      let x :=
        match bs_pathlen bs with
        | Some n =>
            if (ASN1_INTEGER_type n =? V_ASN1_NEG_INTEGER)
               || negb (truthy (bs_ca bs))
            then set_ex_pathlen 0 (or_ex_flags EXFLAG_INVALID x)
            else set_ex_pathlen (ASN1_INTEGER_get n) x
        | None => set_ex_pathlen (-1) x
        end in
      or_ex_flags EXFLAG_BCONS x
  | (None, j) => if negb (j =? -1) then or_ex_flags EXFLAG_INVALID x else x
  end.

(** "Handle key usage" *)
Definition cache_key_usage (x : X509) : X509 :=
  match d2i_key_usage (cert_info x) with
  | (Some usage, _) =>
      let x :=
        match usage with
        | [] => set_ex_kusage 0 x
        | [d0] => set_ex_kusage (u8 d0) x
        | d0 :: d1 :: _ =>
            set_ex_kusage (u32 (Z.lor (u8 d0) (Z.shiftl (u8 d1) 8))) x
        end in
      or_ex_flags EXFLAG_KUSAGE x
  | (None, j) => if negb (j =? -1) then or_ex_flags EXFLAG_INVALID x else x
  end.

(** The [switch] over the NID of an extended key usage: the bit to add,
    if any. *)
Definition xku_of_nid (nid : Z) : option Z :=
  if nid =? NID_server_auth then Some XKU_SSL_SERVER
  else if nid =? NID_client_auth then Some XKU_SSL_CLIENT
  else if nid =? NID_email_protect then Some XKU_SMIME
  else if nid =? NID_code_sign then Some XKU_CODE_SIGN
  else if (nid =? NID_ms_sgc) || (nid =? NID_ns_sgc) then Some XKU_SGC
  else if nid =? NID_OCSP_sign then Some XKU_OCSP_SIGN
  else if nid =? NID_time_stamp then Some XKU_TIMESTAMP
  else if nid =? NID_dvcs then Some XKU_DVCS
  else if nid =? NID_anyExtendedKeyUsage then Some XKU_ANYEKU
  else None.

Definition add_xku (x : X509) (nid : Z) : X509 :=
  match xku_of_nid nid with
  | Some b => set_ex_xkusage (u32 (Z.lor (ex_xkusage x) b)) x
  | None => x
  end.

Definition cache_ext_key_usage (x : X509) : X509 :=
  let x := set_ex_xkusage 0 x in
  match d2i_ext_key_usage (cert_info x) with
  | (Some extusage, _) =>
      let x := or_ex_flags EXFLAG_XKUSAGE x in
      foldl add_xku x extusage
  | (None, j) => if negb (j =? -1) then or_ex_flags EXFLAG_INVALID x else x
  end.

Definition cache_netscape_cert_type (x : X509) : X509 :=
  match d2i_netscape_cert_type (cert_info x) with
  | (Some ns, _) =>
      let x :=
        match ns with
        | [] => set_ex_nscert 0 x
        | d0 :: _ => set_ex_nscert (u8 d0) x
        end in
      or_ex_flags EXFLAG_NSCERT x
  | (None, j) => if negb (j =? -1) then or_ex_flags EXFLAG_INVALID x else x
  end.

Definition cache_skid (x : X509) : X509 :=
  let '(v, j) := d2i_subject_key_identifier (cert_info x) in
  let x := set_skid v x in
  match v with
  | None => if negb (j =? -1) then or_ex_flags EXFLAG_INVALID x else x
  | Some _ => x
  end.

Definition cache_akid (x : X509) : X509 :=
  let '(v, j) := d2i_authority_key_identifier (cert_info x) in
  let x := set_akid v x in
  match v with
  | None => if negb (j =? -1) then or_ex_flags EXFLAG_INVALID x else x
  | Some _ => x
  end.

(** "Does subject name match issuer ?" *)
Definition cache_self_issued (x : X509) : X509 :=
  if negb (truthy (X509_NAME_cmp (X509_get_subject_name x)
                                 (X509_get_issuer_name x)))
  then
    let x := or_ex_flags EXFLAG_SI x in
    if (X509_check_akid x (akid x) =? X509_V_OK)
       && negb (ku_reject x X509v3_KU_KEY_CERT_SIGN)
    then or_ex_flags EXFLAG_SS x
    else x
  else x.

Definition cache_altname (x : X509) : X509 :=
  let '(v, j) := d2i_subject_alt_name (cert_info x) in
  let x := set_altname v x in
  match v with
  | None => if negb (j =? -1) then or_ex_flags EXFLAG_INVALID x else x
  | Some _ => x
  end.

Definition cache_nc (x : X509) : X509 :=
  let '(v, j) := d2i_name_constraints (cert_info x) in
  let x := set_nc v x in
  match v with
  | None => if negb (j =? -1) then or_ex_flags EXFLAG_INVALID x else x
  | Some _ => x
  end.

Definition cache_crldp (x : X509) : X509 :=
  let '(ok, x) := setup_crldp x in
  if negb (truthy ok) then or_ex_flags EXFLAG_INVALID x else x.

(** The loop over the extensions: whether it meets a critical extension
    that is not supported. *)
Fixpoint unsupported_critical (exts : list X509_EXTENSION) : bool :=
  match exts with
  | [] => false
  | ex :: rest =>
      if negb (truthy (X509_EXTENSION_get_critical (Some ex)))
      then unsupported_critical rest
      else if negb (truthy (X509_supported_extension ex)) then true
      else unsupported_critical rest
  end.

Definition cache_critical (x : X509) : X509 :=
  if unsupported_critical (extensions (cert_info x))
  then or_ex_flags EXFLAG_CRITICAL x
  else x.

(** The statements between the tests of [EXFLAG_SET] and the last one.
    The result of [x509_init_signature_info] is ignored by the source,
    and what it stores is outside the fields modelled here. *)
Definition fill_cache (x : X509) : X509 :=
  let x := cache_digest x in
  let x := cache_version x in
  let x := cache_basic_constraints x in
  let x := cache_key_usage x in
  let x := cache_ext_key_usage x in
  let x := cache_netscape_cert_type x in
  let x := cache_skid x in
  let x := cache_akid x in
  let x := cache_self_issued x in
  let x := cache_altname x in
  let x := cache_nc x in
  let x := cache_crldp x in
  let x := cache_critical x in
  or_ex_flags EXFLAG_SET x.

Definition x509v3_cache_extensions (x : X509) : Z * X509 :=
  let is_set := Z.land (ex_flags x) EXFLAG_SET in
  if truthy is_set
  then (Z.b2z (Z.land (ex_flags x) EXFLAG_INVALID =? 0), x)
  else if truthy (Z.land (ex_flags x) EXFLAG_SET)
  then (Z.b2z (Z.land (ex_flags x) EXFLAG_INVALID =? 0), x)
  else
    let x := fill_cache x in
    (Z.b2z (Z.land (ex_flags x) EXFLAG_INVALID =? 0), x).

(** ** The entry points *)

(** Without a value the function has called through the [NULL]
    pointer. *)
Definition X509_check_purpose (x : X509) (id ca : Z) : option (Z * X509) :=
  let '(ok, x) := x509v3_cache_extensions x in
  if negb (truthy ok) then Some (0, x)
  else if id =? -1 then Some (1, x)
  else
    let idx := X509_PURPOSE_get_by_id id in
    if idx =? -1 then Some (0, x)
    else
      match X509_PURPOSE_get0 idx with
      | Some pt => Some (check_purpose pt x ca, x)
      | None => None
      end.

Definition X509_check_ca (x : X509) : Z * X509 :=
  let '(ok, x) := x509v3_cache_extensions x in
  if negb (truthy ok) then (0, x) else (check_ca x, x).

Definition X509_get_extension_flags (x : X509) : Z * X509 :=
  let '(_, x) := x509v3_cache_extensions x in
  (ex_flags x, x).

Definition X509_get_key_usage (x : X509) : Z * X509 :=
  let '(ok, x) := x509v3_cache_extensions x in
  if negb (truthy ok) then (0, x)
  else if truthy (Z.land (ex_flags x) EXFLAG_KUSAGE) then (ex_kusage x, x)
  else (UINT32_MAX, x).

Definition X509_get_extended_key_usage (x : X509) : Z * X509 :=
  let '(ok, x) := x509v3_cache_extensions x in
  if negb (truthy ok) then (0, x)
  else if truthy (Z.land (ex_flags x) EXFLAG_XKUSAGE) then (ex_xkusage x, x)
  else (UINT32_MAX, x).

Definition X509_get0_subject_key_id (x509 : X509)
  : option ASN1_OCTET_STRING * X509 :=
  let '(ok, x509) := x509v3_cache_extensions x509 in
  if negb (truthy ok) then (None, x509) else (skid x509, x509).

Definition X509_get0_authority_key_id (x509 : X509)
  : option ASN1_OCTET_STRING * X509 :=
  let '(ok, x509) := x509v3_cache_extensions x509 in
  if negb (truthy ok) then (None, x509)
  else (match akid x509 with Some a => akid_keyid a | None => None end, x509).

Definition X509_get0_authority_issuer (x509 : X509)
  : option (list GENERAL_NAME) * X509 :=
  let '(ok, x509) := x509v3_cache_extensions x509 in
  if negb (truthy ok) then (None, x509)
  else (match akid x509 with Some a => akid_issuer a | None => None end, x509).

Definition X509_get0_authority_serial (x509 : X509)
  : option ASN1_INTEGER * X509 :=
  let '(ok, x509) := x509v3_cache_extensions x509 in
  if negb (truthy ok) then (None, x509)
  else (match akid x509 with Some a => akid_serial a | None => None end, x509).

Definition X509_get_pathlen (x509 : X509) : Z * X509 :=
  let '(ok, x509) := x509v3_cache_extensions x509 in
  if negb (truthy ok) || (Z.land (ex_flags x509) EXFLAG_BCONS =? 0)
  then (-1, x509)
  else (ex_pathlen x509, x509).

(** [X509_check_issued] takes two pointers, which may be the same
    certificate object: the objects live in a store and a pointer is an
    index.  Without a value a pointer is not valid. *)
Definition X509_check_issued (issuer subject : nat) (store : list X509)
  : option (Z * list X509) :=
  i ← store !! issuer;
  s ← store !! subject;
  if truthy (X509_NAME_cmp (X509_get_subject_name i) (X509_get_issuer_name s))
  then Some (X509_V_ERR_SUBJECT_ISSUER_MISMATCH, store)
  else
    let '(ok, i) := x509v3_cache_extensions i in
    let store := <[issuer := i]> store in
    if negb (truthy ok) then Some (X509_V_ERR_UNSPECIFIED, store)
    else
      s ← store !! subject;
      let '(ok, s) := x509v3_cache_extensions s in
      let store := <[subject := s]> store in
      if negb (truthy ok) then Some (X509_V_ERR_UNSPECIFIED, store)
      else
        i ← store !! issuer;
        s ← store !! subject;
        let ret :=
          match akid s with
          | Some a => X509_check_akid i (Some a)
          | None => X509_V_OK
          end in
        if negb (ret =? X509_V_OK) then Some (ret, store)
        else if ku_reject i X509v3_KU_KEY_CERT_SIGN
        then Some (X509_V_ERR_KEYUSAGE_NO_CERTSIGN, store)
        else Some (X509_V_OK, store).

(** ** Notions for the properties *)

(** Every flag of [x] that fits in 32 bits is a flag of [y]. *)
Definition flags_kept (x y : X509) : Prop :=
  forall F, 0 <= F < 2 ^ 32 ->
    Z.land (ex_flags x) F <> 0 -> Z.land (ex_flags y) F <> 0.

(** A [NULL] result of [X509_get_ext_d2i] that does not stand for "no
    such extension": the extension occurs twice or does not decode. *)
Definition d2i_failed {A : Type} (r : d2i A) : bool :=
  match r with
  | (None, j) => negb (j =? -1)
  | (Some _, _) => false
  end.

(** The conditions under which a statement of [x509v3_cache_extensions]
    sets [EXFLAG_INVALID]: no digest, an extension that failed, basic
    constraints with a path length that is negative or comes without CA,
    or distribution points that cannot be set up. *)
Definition marks_invalid (x : X509) : bool :=
  let c := cert_info x in
  match digest c with None => true | Some _ => false end
  || d2i_failed (d2i_basic_constraints c)
  || match d2i_basic_constraints c with
     | (Some bs, _) =>
         match bs_pathlen bs with
         | Some n =>
             (ASN1_INTEGER_type n =? V_ASN1_NEG_INTEGER)
             || negb (truthy (bs_ca bs))
         | None => false
         end
     | (None, _) => false
     end
  || d2i_failed (d2i_key_usage c)
  || d2i_failed (d2i_ext_key_usage c)
  || d2i_failed (d2i_netscape_cert_type c)
  || d2i_failed (d2i_subject_key_identifier c)
  || d2i_failed (d2i_authority_key_identifier c)
  || d2i_failed (d2i_subject_alt_name c)
  || d2i_failed (d2i_name_constraints c)
  || negb (truthy (fst (setup_crldp x))).

(** The flags of the cache, and what the header promises of them: each is
    a non-zero value of 32 bits and no two share a bit. *)
Definition EXFLAGS : list Z :=
  [ EXFLAG_BCONS; EXFLAG_KUSAGE; EXFLAG_XKUSAGE; EXFLAG_NSCERT; EXFLAG_CA;
    EXFLAG_SI; EXFLAG_V1; EXFLAG_INVALID; EXFLAG_SET; EXFLAG_CRITICAL;
    EXFLAG_SS ].

Fixpoint pairwise_disjoint (l : list Z) : bool :=
  match l with
  | [] => true
  | F :: rest =>
      (0 <? F) && (F <? 2 ^ 32)
      && forallb (fun G => Z.land F G =? 0) rest
      && pairwise_disjoint rest
  end.

(** The value [x509v3_cache_extensions] stores for a key usage. *)
Definition key_usage_value (usage : list Z) : Z :=
  match usage with
  | [] => 0
  | [d0] => u8 d0
  | d0 :: d1 :: _ => u32 (Z.lor (u8 d0) (Z.shiftl (u8 d1) 8))
  end.

(** The value [x509v3_cache_extensions] stores for an extended key usage
    that lists the objects with these NIDs. *)
Definition ext_key_usage_value (nids : list Z) : Z :=
  foldl (fun acc nid =>
           match xku_of_nid nid with
           | Some b => u32 (Z.lor acc b)
           | None => acc
           end) 0 nids.

End Model.

(** ** Sample certificates *)

(** A sample assignment of the macros: the flags and usages are single
    bits, the purposes are numbered from 1, and [X509_V_OK] is 0. *)
Definition sample_macros : macros :=
  {| EXFLAG_BCONS := 0x1; EXFLAG_KUSAGE := 0x2; EXFLAG_XKUSAGE := 0x4;
     EXFLAG_NSCERT := 0x8; EXFLAG_CA := 0x10; EXFLAG_SI := 0x20;
     EXFLAG_V1 := 0x40; EXFLAG_INVALID := 0x80; EXFLAG_SET := 0x100;
     EXFLAG_CRITICAL := 0x200; EXFLAG_SS := 0x2000;
     X509v3_KU_DIGITAL_SIGNATURE := 0x80; X509v3_KU_NON_REPUDIATION := 0x40;
     X509v3_KU_KEY_ENCIPHERMENT := 0x20; X509v3_KU_KEY_AGREEMENT := 0x08;
     X509v3_KU_KEY_CERT_SIGN := 0x04; X509v3_KU_CRL_SIGN := 0x02;
     XKU_SSL_SERVER := 0x1; XKU_SSL_CLIENT := 0x2; XKU_SMIME := 0x4;
     XKU_CODE_SIGN := 0x8; XKU_SGC := 0x10; XKU_OCSP_SIGN := 0x20;
     XKU_TIMESTAMP := 0x40; XKU_DVCS := 0x80; XKU_ANYEKU := 0x100;
     NS_SSL_CLIENT := 0x80; NS_SSL_SERVER := 0x40; NS_SMIME := 0x20;
     NS_SMIME_CA := 0x02;
     X509_PURPOSE_SSL_CLIENT := 1; X509_PURPOSE_SSL_SERVER := 2;
     X509_PURPOSE_NS_SSL_SERVER := 3; X509_PURPOSE_SMIME_SIGN := 4;
     X509_PURPOSE_SMIME_ENCRYPT := 5; X509_PURPOSE_CRL_SIGN := 6;
     X509_PURPOSE_ANY := 7; X509_PURPOSE_OCSP_HELPER := 8;
     X509_PURPOSE_TIMESTAMP_SIGN := 9;
     X509_TRUST_SSL_CLIENT := 2; X509_TRUST_SSL_SERVER := 3;
     X509_TRUST_EMAIL := 4; X509_TRUST_COMPAT := 1;
     X509_TRUST_DEFAULT := -1; X509_TRUST_TSA := 8;
     NID_netscape_cert_type := 71; NID_key_usage := 83;
     NID_subject_alt_name := 85; NID_basic_constraints := 87;
     NID_certificate_policies := 89; NID_ext_key_usage := 126;
     NID_policy_constraints := 401; NID_name_constraints := 666;
     NID_policy_mappings := 747; NID_inhibit_any_policy := 748;
     NID_server_auth := 129; NID_client_auth := 130;
     NID_email_protect := 132; NID_code_sign := 131; NID_ms_sgc := 137;
     NID_ns_sgc := 139; NID_OCSP_sign := 180; NID_time_stamp := 133;
     NID_dvcs := 297; NID_anyExtendedKeyUsage := 910;
     X509_V_OK := 0; X509_V_ERR_UNSPECIFIED := 1;
     X509_V_ERR_SUBJECT_ISSUER_MISMATCH := 29;
     X509_V_ERR_AKID_SKID_MISMATCH := 30;
     X509_V_ERR_AKID_ISSUER_SERIAL_MISMATCH := 31;
     X509_V_ERR_KEYUSAGE_NO_CERTSIGN := 32;
     X509V3_R_INVALID_PURPOSE := 133;
     GEN_DIRNAME := 4; V_ASN1_NEG_INTEGER := 258; X509_VERSION_1 := 0 |}.

(** A comparison in the way of the library: 0 for equal values. *)
Definition sample_cmp (a b : Z) : Z :=
  match a ?= b with Eq => 0 | Lt => -1 | Gt => 1 end.

(** The position of the first extension after [lastpos] with this NID,
    or -1; [i] is the position of the head of the list. *)
Fixpoint sample_find (exts : list (Z * Z)) (nid lastpos i : Z) : Z :=
  match exts with
  | [] => -1
  | e :: rest =>
      if (lastpos <? i) && (fst e =? nid) then i
      else sample_find rest nid lastpos (i + 1)
  end.

(** A sample library: names, octet strings and integers are numbers, and
    an extension is its NID with its critical flag. *)
Definition sample_library : library :=
  {| X509_NAME := Z; ASN1_OCTET_STRING := Z; ASN1_INTEGER := Z;
     X509_EXTENSION := Z * Z; DIST_POINT_NAME := Z;
     NAME_CONSTRAINTS := unit;
     X509_NAME_cmp := sample_cmp;
     ASN1_OCTET_STRING_cmp := sample_cmp;
     ASN1_INTEGER_cmp := sample_cmp;
     ASN1_INTEGER_get := fun n => n;
     ASN1_INTEGER_type := fun n => if n <? 0 then 258 else 2;
     X509_EXTENSION_get_critical :=
       fun e => match e with Some e => snd e | None => 0 end;
     X509_EXTENSION_nid := fst;
     X509_get_ext_by_NID_in := fun exts nid lastpos =>
       sample_find exts nid lastpos 0;
     DIST_POINT_NAME_type := fun n => n;
     DIST_POINT_set_dpname := fun _ _ => 1 |}.

#[local] Existing Instance sample_library.

(** A certificate object as it is before any call: nothing is cached. *)
Definition fresh (c : X509_CINF) : X509 :=
  Cert c 0 0 0 0 0 None None None None None [].

(** A self-signed root: a certificate authority with a path length of 1
    that may sign certificates and revocation lists, with matching key
    identifiers. *)
Definition sample_root : X509 :=
  fresh
    {| digest := Some (replicate 32 0xab);
       version := 2;
       serialNumber := 1;
       subject_name := 10;
       issuer_name := 10;
       extensions := [(87, 1); (83, 1); (82, 0); (90, 0)];
       d2i_basic_constraints := (Some (BasicConstraints 0xff (Some 1)), 1);
       d2i_key_usage := (Some [0x06], 1);
       d2i_ext_key_usage := (None, -1);
       d2i_netscape_cert_type := (None, -1);
       d2i_subject_key_identifier := (Some 77, 0);
       d2i_authority_key_identifier :=
         (Some (AuthorityKeyid (Some 77) None None), 0);
       d2i_subject_alt_name := (None, -1);
       d2i_name_constraints := (None, -1);
       d2i_crl_distribution_points := (None, -1) |}.

(** A server certificate issued by the root. *)
Definition sample_leaf : X509 :=
  fresh
    {| digest := Some (replicate 32 0xcd);
       version := 2;
       serialNumber := 2;
       subject_name := 20;
       issuer_name := 10;
       extensions := [(83, 1); (126, 0); (90, 0)];
       d2i_basic_constraints := (None, -1);
       d2i_key_usage := (Some [0xa0], 1);
       d2i_ext_key_usage := (Some [129], 0);
       d2i_netscape_cert_type := (None, -1);
       d2i_subject_key_identifier := (None, -1);
       d2i_authority_key_identifier :=
         (Some (AuthorityKeyid (Some 77) None None), 0);
       d2i_subject_alt_name := (None, -1);
       d2i_name_constraints := (None, -1);
       d2i_crl_distribution_points := (None, -1) |}.

(** A certificate of version 1 without extensions. *)
Definition sample_plain : X509 :=
  fresh
    {| digest := Some (replicate 32 0xef);
       version := 0;
       serialNumber := 3;
       subject_name := 30;
       issuer_name := 30;
       extensions := [];
       d2i_basic_constraints := (None, -1);
       d2i_key_usage := (None, -1);
       d2i_ext_key_usage := (None, -1);
       d2i_netscape_cert_type := (None, -1);
       d2i_subject_key_identifier := (None, -1);
       d2i_authority_key_identifier := (None, -1);
       d2i_subject_alt_name := (None, -1);
       d2i_name_constraints := (None, -1);
       d2i_crl_distribution_points := (None, -1) |}.

(** The server certificate with a key usage extension that occurs
    twice: [X509_get_ext_d2i] returns [NULL] and stores -2. *)
Definition sample_broken : X509 :=
  fresh
    {| digest := Some (replicate 32 0xcd);
       version := 2;
       serialNumber := 2;
       subject_name := 20;
       issuer_name := 10;
       extensions := [(83, 1); (83, 1); (126, 0)];
       d2i_basic_constraints := (None, -1);
       d2i_key_usage := (None, -2);
       d2i_ext_key_usage := (Some [129], 0);
       d2i_netscape_cert_type := (None, -1);
       d2i_subject_key_identifier := (None, -1);
       d2i_authority_key_identifier := (None, -1);
       d2i_subject_alt_name := (None, -1);
       d2i_name_constraints := (None, -1);
       d2i_crl_distribution_points := (None, -1) |}.

(** The certificate without usage extensions, with a critical extension
    of a kind the library does not know. *)
Definition sample_unknown : X509 :=
  fresh
    {| digest := Some (replicate 32 0xef);
       version := 2;
       serialNumber := 4;
       subject_name := 30;
       issuer_name := 10;
       extensions := [(82, 0); (999, 1)];
       d2i_basic_constraints := (None, -1);
       d2i_key_usage := (None, -1);
       d2i_ext_key_usage := (None, -1);
       d2i_netscape_cert_type := (None, -1);
       d2i_subject_key_identifier := (Some 78, 0);
       d2i_authority_key_identifier := (None, -1);
       d2i_subject_alt_name := (None, -1);
       d2i_name_constraints := (None, -1);
       d2i_crl_distribution_points := (None, -1) |}.

End V3_purp.
(** * Properties *)

(** ** Octet strings *)

Lemma u8_range x : is_octet (u8 x).
Proof. unfold is_octet, u8. apply Z.mod_pos_bound. lia. Qed.

Lemma u8_id x : is_octet x -> u8 x = x.
Proof. unfold is_octet, u8. intros. apply Z.mod_small. lia. Qed.

(** A property checked on all 256 octets holds of every octet. *)
Lemma octet_cases (f : Z -> bool) :
  forallb f (seqZ 0 256) = true -> forall b, is_octet b -> f b = true.
Proof.
  intros H b Hb. rewrite forallb_forall in H. apply H.
  apply list_elem_of_In, elem_of_seqZ. unfold is_octet in Hb. lia.
Qed.

Lemma length_octets n l : length (octets n l) = n.
Proof.
  unfold octets. rewrite length_take, length_app, length_replicate. lia.
Qed.

Lemma Forall_octets n l : Forall is_octet (octets n l).
Proof.
  unfold octets. apply Forall_take, Forall_app. split.
  - apply Forall_fmap, Forall_forall. intros x _. apply u8_range.
  - apply Forall_replicate. unfold is_octet. lia.
Qed.

Lemma octets_id n l : length l = n -> Forall is_octet l -> octets n l = l.
Proof.
  intros Hn Hl. unfold octets.
  replace (u8 <$> l) with l.
  - rewrite take_app_le by lia. apply take_ge. lia.
  - clear Hn. induction Hl as [|x l Hx _ IH]; [done|].
    cbn. rewrite u8_id by done. by f_equal.
Qed.

Lemma le_value_app l k :
  le_value (l ++ k) = le_value l + 2 ^ (8 * Z.of_nat (length l)) * le_value k.
Proof.
  induction l as [|b l IH]; cbn [app le_value length].
  - change (8 * Z.of_nat 0) with 0. lia.
  - rewrite IH. replace (8 * Z.of_nat (S (length l))) with (8 + 8 * Z.of_nat (length l)) by lia.
    rewrite Z.pow_add_r by lia. change (2 ^ 8) with 256. lia.
Qed.

Lemma le_value_range l :
  Forall is_octet l -> 0 <= le_value l < 2 ^ (8 * Z.of_nat (length l)).
Proof.
  induction 1 as [|b l Hb _ IH]; cbn [le_value length].
  - change (8 * Z.of_nat 0) with 0. lia.
  - replace (8 * Z.of_nat (S (length l))) with (8 + 8 * Z.of_nat (length l)) by lia.
    rewrite Z.pow_add_r by lia. change (2 ^ 8) with 256.
    unfold is_octet in Hb. nia.
Qed.

(** ** Blocks *)

Lemma lookup_sub o n (b : list Z) i :
  sub o n b !! i = if decide (i < n)%nat then b !! (o + i)%nat else None.
Proof.
  unfold sub. rewrite lookup_take. case_decide; [|done]. by rewrite lookup_drop.
Qed.

Lemma length_sub o n (b : list Z) :
  (o + n <= length b)%nat -> length (sub o n b) = n.
Proof. intros. unfold sub. rewrite length_take, length_drop. lia. Qed.

Lemma lookup_splice o (bs b : list Z) i :
  (o + length bs <= length b)%nat ->
  splice o bs b !! i =
    if decide (o <= i < o + length bs)%nat then bs !! (i - o)%nat else b !! i.
Proof.
  intros Hlen. unfold splice.
  destruct (decide (i < o)%nat) as [Hlt|Hge].
  - rewrite lookup_app_l by (rewrite length_take; lia).
    rewrite lookup_take. repeat case_decide; try lia. done.
  - rewrite lookup_app_r by (rewrite length_take; lia).
    rewrite length_take. replace (o `min` length b)%nat with o by lia.
    destruct (decide (i - o < length bs)%nat).
    + rewrite lookup_app_l by lia. case_decide; [done|lia].
    + rewrite lookup_app_r by lia. rewrite lookup_drop.
      case_decide; [lia|]. f_equal. lia.
Qed.

Lemma length_splice o (bs b : list Z) :
  (o + length bs <= length b)%nat -> length (splice o bs b) = length b.
Proof.
  intros. unfold splice.
  rewrite !length_app, length_take, length_drop. lia.
Qed.

Lemma sub_splice_same o (bs b : list Z) :
  (o + length bs <= length b)%nat -> sub o (length bs) (splice o bs b) = bs.
Proof.
  intros Hlen. apply list_eq. intros i.
  rewrite lookup_sub, lookup_splice by done.
  repeat case_decide; try lia.
  - f_equal. lia.
  - symmetry. apply lookup_ge_None. lia.
Qed.

Lemma sub_splice_disjoint o (bs b : list Z) o' n :
  (o + length bs <= length b)%nat ->
  (o' + n <= o \/ o + length bs <= o')%nat ->
  sub o' n (splice o bs b) = sub o' n b.
Proof.
  intros Hlen Hdis. apply list_eq. intros i.
  rewrite !lookup_sub, lookup_splice by done.
  repeat case_decide; try lia; done.
Qed.

Lemma sub_all (b : list Z) : sub 0 (length b) b = b.
Proof. unfold sub. rewrite drop_0. apply take_ge. lia. Qed.

Lemma splice_all (bs b : list Z) : length bs = length b -> splice 0 bs b = bs.
Proof.
  intros H. unfold splice. rewrite take_0. cbn.
  rewrite H, drop_ge by lia. apply app_nil_r.
Qed.

Lemma splice_octet o v (b : list Z) x :
  b !! o = Some x -> splice o [v] b = <[o := v]> b.
Proof.
  intros Hx. unfold splice. cbn [length app].
  rewrite insert_take_drop by (by eapply lookup_lt_Some).
  by replace (o + 1)%nat with (S o) by lia.
Qed.

Lemma sub_octet o (b : list Z) x : b !! o = Some x -> sub o 1 b = [x].
Proof.
  intros Hx. apply list_eq. intros i. rewrite lookup_sub.
  case_decide.
  - replace i with 0%nat by lia. by rewrite Nat.add_0_r.
  - destruct i; [lia|done].
Qed.

(** ** Running computations *)

Lemma run_bind {A B} (c : M A) (k : A -> M B) s a s' r :
  c s = Returns a s' -> k a s' = r -> (c ≫= k) s = r.
Proof. intros Hc Hk. unfold mbind, M_bind. by rewrite Hc. Qed.

Lemma run_bind_abort {A B} (c : M A) (k : A -> M B) s s' :
  c s = Aborts s' -> (c ≫= k) s = Aborts s'.
Proof. intros Hc. unfold mbind, M_bind. by rewrite Hc. Qed.

Lemma run_ret {A} (a : A) s : (mret a : M A) s = Returns a s.
Proof. done. Qed.

Lemma run_alloca n s :
  alloca n s = Returns (Ptr (length (memory s)) 0) (push_block (replicate n 0) s).
Proof. done. Qed.

Lemma run_load p n s b :
  memory s !! blk p = Some b -> (off p + n <= length b)%nat ->
  load p n s = Returns (sub (off p) n b) s.
Proof.
  intros Hb Hn. unfold load, read. rewrite Hb. by rewrite decide_True.
Qed.

Lemma run_store p bs s b :
  memory s !! blk p = Some b -> (off p + length bs <= length b)%nat ->
  store p bs s = Returns tt (set_block (blk p) (splice (off p) bs b) s).
Proof.
  intros Hb Hn. unfold store, write. rewrite Hb. by rewrite decide_True.
Qed.

Lemma run_load8 p i s b x :
  memory s !! blk p = Some b -> b !! (off p + i)%nat = Some x ->
  load8 p i s = Returns x s.
Proof.
  intros Hb Hx. unfold load8.
  eapply run_bind.
  - apply run_load with (b := b); [done|].
    apply lookup_lt_Some in Hx. cbn. lia.
  - cbn [padd off]. by rewrite (sub_octet _ _ x).
Qed.

Lemma run_store8 p i v s b :
  memory s !! blk p = Some b -> (off p + i < length b)%nat ->
  store8 p i v s = Returns tt (set_block (blk p) (<[(off p + i)%nat := u8 v]> b) s).
Proof.
  intros Hb Hi. unfold store8.
  destruct (lookup_lt_is_Some_2 b (off p + i)%nat Hi) as [x Hx].
  rewrite (run_store _ _ _ b); cbn [padd blk off length]; [|done|lia].
  by rewrite (splice_octet _ _ _ x).
Qed.

Lemma alter_insert_octet (f : Z -> Z) o (b : list Z) x :
  b !! o = Some x -> <[o := f x]> b = alter f o b.
Proof.
  intros Hx. apply list_eq. intros i.
  rewrite list_lookup_insert, list_lookup_alter.
  apply lookup_lt_Some in Hx as Hlt.
  repeat case_decide; subst; try done; try lia.
  all: try (by rewrite Hx). all: naive_solver.
Qed.

Lemma run_and_assign p i k s b :
  memory s !! blk p = Some b -> (off p + i < length b)%nat ->
  and_assign p i k s =
    Returns tt (set_block (blk p)
                  (alter (fun x => u8 (Z.land x k)) (off p + i)%nat b) s).
Proof.
  intros Hb Hi. unfold and_assign.
  destruct (lookup_lt_is_Some_2 b (off p + i)%nat Hi) as [x Hx].
  eapply run_bind; [by eapply run_load8|].
  rewrite (run_store8 _ _ _ _ b) by done.
  by rewrite (alter_insert_octet (fun x => u8 (Z.land x k)) _ _ x).
Qed.

Lemma run_or_assign p i k s b :
  memory s !! blk p = Some b -> (off p + i < length b)%nat ->
  or_assign p i k s =
    Returns tt (set_block (blk p)
                  (alter (fun x => u8 (Z.lor x k)) (off p + i)%nat b) s).
Proof.
  intros Hb Hi. unfold or_assign.
  destruct (lookup_lt_is_Some_2 b (off p + i)%nat Hi) as [x Hx].
  eapply run_bind; [by eapply run_load8|].
  rewrite (run_store8 _ _ _ _ b) by done.
  by rewrite (alter_insert_octet (fun x => u8 (Z.lor x k)) _ _ x).
Qed.

Lemma memory_set_block_eq j b s :
  (j < length (memory s))%nat -> memory (set_block j b s) !! j = Some b.
Proof. intros. cbn [set_block memory]. by apply list_lookup_insert_eq. Qed.

Lemma memory_set_block_ne j b s i :
  j <> i -> memory (set_block j b s) !! i = memory s !! i.
Proof. intros. cbn [set_block memory]. by apply list_lookup_insert_ne. Qed.

Lemma length_set_block j b s :
  length (memory (set_block j b s)) = length (memory s).
Proof. cbn [set_block memory]. apply length_insert. Qed.

Lemma set_block_set_block j b b' s :
  set_block j b (set_block j b' s) = set_block j b s.
Proof. unfold set_block. cbn [memory entropy]. by rewrite list_insert_insert_eq. Qed.

Lemma memory_push_block_old b s i :
  (i < length (memory s))%nat -> memory (push_block b s) !! i = memory s !! i.
Proof. intros. cbn [push_block memory]. by apply lookup_app_l. Qed.

Lemma memory_push_block_new b s :
  memory (push_block b s) !! length (memory s) = Some b.
Proof. cbn [push_block memory]. rewrite lookup_app_r by lia. by rewrite Nat.sub_diag. Qed.

Lemma length_push_block b s :
  length (memory (push_block b s)) = S (length (memory s)).
Proof. cbn [push_block memory]. rewrite length_app. cbn. lia. Qed.

Lemma set_block_push_block b b' s :
  set_block (length (memory s)) b (push_block b' s) = push_block b s.
Proof.
  unfold set_block, push_block. cbn [memory entropy]. f_equal.
  replace (length (memory s)) with (length (memory s) + 0)%nat at 1 by lia.
  by rewrite insert_app_r.
Qed.

(** ** Clamping *)

Lemma length_clamp k : length (clamp k) = length k.
Proof. unfold clamp. by rewrite !length_alter. Qed.

Lemma run_demask p s b :
  memory s !! blk p = Some b -> off p = 0%nat -> (32 <= length b)%nat ->
  demask p s = Returns tt (set_block (blk p) (clamp b) s).
Proof.
  destruct p as [j o]. cbn [blk off]. intros Hb -> Hlen. unfold demask.
  eapply run_bind; [by apply run_and_assign with (b := b); [|cbn; lia]|].
  eapply run_bind.
  { eapply run_and_assign.
    - apply memory_set_block_eq. by eapply lookup_lt_Some.
    - rewrite length_alter. cbn. lia. }
  rewrite set_block_set_block.
  erewrite run_or_assign.
  - by rewrite set_block_set_block.
  - apply memory_set_block_eq. by eapply lookup_lt_Some.
  - rewrite !length_alter. cbn. lia.
Qed.

Lemma read_Some m p n k :
  read m p n = Some k <->
  exists b, m !! blk p = Some b /\ (off p + n <= length b)%nat /\
            k = sub (off p) n b.
Proof.
  unfold read. split.
  - destruct (m !! blk p) as [b|]; [|done]. case_decide; [|done].
    intros [= <-]. eauto.
  - intros (b & -> & Hn & ->). by rewrite decide_True.
Qed.

Lemma read_length m p n k : read m p n = Some k -> length k = n.
Proof.
  intros (b & _ & Hn & ->)%read_Some. by apply length_sub.
Qed.

Lemma read_valid m p n k : read m p n = Some k -> (blk p < length m)%nat.
Proof.
  intros (b & Hb & _)%read_Some. by eapply lookup_lt_Some.
Qed.

Lemma run_load_read p n s k :
  read (memory s) p n = Some k -> load p n s = Returns k s.
Proof. intros H. unfold load. by rewrite H. Qed.

Lemma read_push_block b s p n :
  (blk p < length (memory s))%nat ->
  read (memory (push_block b s)) p n = read (memory s) p n.
Proof. intros H. unfold read. by rewrite memory_push_block_old. Qed.

Lemma read_set_block_ne j b s p n :
  j <> blk p -> read (memory (set_block j b s)) p n = read (memory s) p n.
Proof. intros H. unfold read. by rewrite memory_set_block_ne. Qed.

Lemma read_fresh b s :
  read (memory (push_block b s)) (Ptr (length (memory s)) 0) (length b) = Some b.
Proof.
  apply read_Some. exists b. cbn [blk off].
  rewrite memory_push_block_new, sub_all. split_and!; [done|lia|done].
Qed.

(** The prologue shared by the two s2n-bignum wrappers: a local copy of
    the private key, clamped in place. *)
Lemma run_local_demask {A} (K : ptr -> M A) private_key s k :
  read (memory s) private_key 32 = Some k ->
  (d ← alloca 32; OPENSSL_memcpy d private_key 32;; demask d;; K d) s
  = K (Ptr (length (memory s)) 0) (push_block (clamp k) s).
Proof.
  intros Hk. pose proof (read_length _ _ _ _ Hk) as Hlen.
  pose proof (read_valid _ _ _ _ Hk) as Hvalid.
  eapply run_bind; [apply run_alloca|].
  eapply run_bind.
  { unfold OPENSSL_memcpy. eapply run_bind.
    - apply run_load_read. by rewrite read_push_block.
    - eapply run_store; cbn [blk off].
      + apply memory_push_block_new.
      + rewrite length_replicate. lia. }
  cbn [blk off].
  rewrite splice_all by (by rewrite length_replicate).
  rewrite set_block_push_block.
  eapply run_bind.
  { apply run_demask with (b := k); cbn [blk off]; [|done|lia].
    apply memory_push_block_new. }
  cbn [blk]. by rewrite set_block_push_block.
Qed.

(** ** Backend selection *)

(** On an architecture outside the two families neither capability
    predicate holds. *)
Lemma other_arch_not_capable P :
  target_arch P = OPENSSL_OTHER_ARCH ->
  x25519_s2n_bignum_no_alt_capable P = 0 /\ x25519_s2n_bignum_alt_capable P = 0.
Proof.
  intros H. unfold x25519_s2n_bignum_no_alt_capable, x25519_s2n_bignum_alt_capable.
  by rewrite H.
Qed.

(** When the s2n-bignum path is compiled in, one of the two predicates
    holds, so the aborting branch of the dispatch is not reached. *)
Lemma compiled_in_some_backend P :
  CURVE25519_S2N_BIGNUM_CAPABLE P = true ->
  spec_dispatch (target_arch P)
    (x25519_s2n_bignum_no_alt_capable P =? 1)
    (x25519_s2n_bignum_alt_capable P =? 1) <> no_backend_available.
Proof.
  unfold CURVE25519_S2N_BIGNUM_CAPABLE, is_x86_64, is_aarch64, spec_dispatch,
    x25519_s2n_bignum_no_alt_capable, x25519_s2n_bignum_alt_capable.
  destruct (target_arch P); cbn.
  - intros _. by repeat case_match.
  - intros _. by repeat case_match.
  - done.
Qed.

Lemma run_s2n_dispatch P E out private_key peer s k :
  read (memory s) private_key 32 = Some k ->
  let d := Ptr (length (memory s)) 0 in
  let s1 := push_block (clamp k) s in
  let choice :=
    spec_dispatch (target_arch P)
      (x25519_s2n_bignum_no_alt_capable P =? 1)
      (x25519_s2n_bignum_alt_capable P =? 1) in
  x25519_s2n_bignum P E out private_key peer s =
    match choice with
    | standard_backend => curve25519_x25519_byte P E out d peer s1
    | wide_backend => curve25519_x25519_byte_alt P E out d peer s1
    | no_backend_available => Aborts s1
    end
  /\
  x25519_s2n_bignum_public_from_private P E out private_key s =
    match choice with
    | standard_backend => curve25519_x25519base_byte P E out d s1
    | wide_backend => curve25519_x25519base_byte_alt P E out d s1
    | no_backend_available => Aborts s1
    end.
Proof.
  intros Hk d s1 choice. subst choice.
  unfold x25519_s2n_bignum, x25519_s2n_bignum_public_from_private.
  rewrite !(run_local_demask _ _ _ _ Hk). fold d s1.
  unfold spec_dispatch. split.
  - destruct (target_arch P); try done; by repeat case_match.
  - destruct (target_arch P); try done; by repeat case_match.
Qed.

(** C5. The scalar-multiplication wrapper clamps a local copy of the
    private key and then follows the fixed priority of the architecture:
    on x86_64 the standard-instruction entry point ([curve25519_x25519_byte])
    when its predicate holds, else the wide-multiplier one
    ([curve25519_x25519_byte_alt]); on aarch64 the wide-multiplier one when
    its predicate holds, else the standard one; with neither predicate the
    call aborts and returns nothing.  The public-from-private wrapper
    dispatches the same way. *)
Theorem x25519_s2n_bignum_dispatch P E out private_key peer s k :
  read (memory s) private_key 32 = Some k ->
  let d := Ptr (length (memory s)) 0 in
  let s1 := push_block (clamp k) s in
  let choice :=
    spec_dispatch (target_arch P)
      (x25519_s2n_bignum_no_alt_capable P =? 1)
      (x25519_s2n_bignum_alt_capable P =? 1) in
  x25519_s2n_bignum P E out private_key peer s =
    match choice with
    | standard_backend => curve25519_x25519_byte P E out d peer s1
    | wide_backend => curve25519_x25519_byte_alt P E out d peer s1
    | no_backend_available => Aborts s1
    end
  /\
  x25519_s2n_bignum_public_from_private P E out private_key s =
    match choice with
    | standard_backend => curve25519_x25519base_byte P E out d s1
    | wide_backend => curve25519_x25519base_byte_alt P E out d s1
    | no_backend_available => Aborts s1
    end.
Proof.
  intros Hk d s1 choice. subst choice.
  unfold x25519_s2n_bignum, x25519_s2n_bignum_public_from_private.
  rewrite !(run_local_demask _ _ _ _ Hk). fold d s1.
  unfold spec_dispatch. split.
  - destruct (target_arch P); try done; by repeat case_match.
  - destruct (target_arch P); try done; by repeat case_match.
Qed.

(** ** Reading what was written *)

Lemma run_store_poke p bs s :
  writable (memory s) p (length bs) -> store p bs s = Returns tt (poke p bs s).
Proof.
  intros [k (b & Hb & Hn & _)%read_Some]. unfold store, poke, write.
  rewrite Hb. by rewrite decide_True.
Qed.

Lemma entropy_poke p bs s : entropy (poke p bs s) = entropy s.
Proof. unfold poke. by destruct (write _ _ _). Qed.

Lemma length_poke p bs s : length (memory (poke p bs s)) = length (memory s).
Proof.
  unfold poke, write. destruct (memory s !! blk p); [|done].
  case_decide; [|done]. cbn [memory]. apply length_insert.
Qed.

Lemma read_poke_same p bs s :
  writable (memory s) p (length bs) ->
  read (memory (poke p bs s)) p (length bs) = Some bs.
Proof.
  intros [k (b & Hb & Hn & _)%read_Some]. unfold poke, write.
  rewrite Hb. rewrite decide_True by done. cbn [memory].
  apply read_Some. exists (splice (off p) bs b).
  rewrite list_lookup_insert_eq by (by eapply lookup_lt_Some).
  rewrite length_splice by done. by rewrite sub_splice_same.
Qed.

Lemma read_poke_separate p bs s q n :
  separate p (length bs) q n ->
  read (memory (poke p bs s)) q n = read (memory s) q n.
Proof.
  intros Hsep. unfold poke, write.
  destruct (memory s !! blk p) as [b|] eqn:Hb; [|done].
  case_decide as Hn; [|done]. cbn [memory]. unfold read.
  destruct (decide (blk p = blk q)) as [Heq|Hne].
  - rewrite <- Heq, Hb.
    rewrite list_lookup_insert_eq by (by eapply lookup_lt_Some).
    rewrite length_splice by done.
    case_decide; [|done]. f_equal. apply sub_splice_disjoint; [done|].
    destruct Hsep as [?|[?|?]]; [done|lia|lia].
  - by rewrite list_lookup_insert_ne.
Qed.

Lemma writable_iff m p n :
  writable m p n <-> exists b, m !! blk p = Some b /\ (off p + n <= length b)%nat.
Proof.
  unfold writable. split.
  - intros [k (b & Hb & Hn & _)%read_Some]. eauto.
  - intros (b & Hb & Hn). eexists. apply read_Some. eauto.
Qed.

Lemma writable_poke p bs s q n :
  writable (memory s) q n -> writable (memory (poke p bs s)) q n.
Proof.
  intros Hw. unfold poke, write.
  destruct (memory s !! blk p) as [b'|] eqn:Hb'; [|done].
  case_decide; [|done]. cbn [memory].
  apply writable_iff in Hw as (b & Hb & Hn). apply writable_iff.
  destruct (decide (blk p = blk q)) as [Heq|Hne].
  - rewrite <- Heq. rewrite list_lookup_insert_eq by (by eapply lookup_lt_Some).
    eexists. split; [done|]. rewrite length_splice by done.
    rewrite Heq, Hb in Hb'. by injection Hb' as <-.
  - rewrite list_lookup_insert_ne by done. eauto.
Qed.

Lemma writable_push_block b s p n :
  writable (memory s) p n -> writable (memory (push_block b s)) p n.
Proof.
  intros [k Hk]. exists k. rewrite read_push_block; [done|].
  by eapply read_valid.
Qed.

Lemma poke_push_block p bs b s :
  writable (memory s) p (length bs) ->
  poke p bs (push_block b s) = push_block b (poke p bs s).
Proof.
  intros (b' & Hb & Hn)%writable_iff. unfold poke, write.
  rewrite memory_push_block_old by (by eapply lookup_lt_Some).
  rewrite Hb. rewrite !decide_True by done.
  unfold push_block. cbn [memory entropy]. f_equal.
  apply insert_app_l. by eapply lookup_lt_Some.
Qed.

(** ** The X25519 entry points *)

Lemma run_call2 f res scalar point s k u :
  read (memory s) scalar 32 = Some k ->
  read (memory s) point 32 = Some u ->
  writable (memory s) res 32 ->
  call2 f res scalar point s = Returns tt (poke res (octets 32 (f k u)) s).
Proof.
  intros Hk Hu Hw. unfold call2.
  eapply run_bind; [by apply run_load_read|].
  eapply run_bind; [by apply run_load_read|].
  apply run_store_poke. by rewrite length_octets.
Qed.

Lemma run_call1 f res scalar s k :
  read (memory s) scalar 32 = Some k ->
  writable (memory s) res 32 ->
  call1 f res scalar s = Returns tt (poke res (octets 32 (f k)) s).
Proof.
  intros Hk Hw. unfold call1.
  eapply run_bind; [by apply run_load_read|].
  apply run_store_poke. by rewrite length_octets.
Qed.

Lemma read_clamped_copy k s :
  length k = 32%nat ->
  read (memory (push_block (clamp k) s)) (Ptr (length (memory s)) 0) 32
  = Some (clamp k).
Proof.
  intros Hk. rewrite <- (read_fresh (clamp k) s). f_equal.
  by rewrite length_clamp.
Qed.

Lemma capable_flag P :
  (x25519_s2n_bignum_capable P =? 1) = CURVE25519_S2N_BIGNUM_CAPABLE P.
Proof. unfold x25519_s2n_bignum_capable. by destruct (CURVE25519_S2N_BIGNUM_CAPABLE P). Qed.

(** What the scalar-multiplication step of [X25519] does to the state. *)
Lemma run_X25519_multiply P E out private_key peer s k u :
  read (memory s) private_key 32 = Some k ->
  read (memory s) peer 32 = Some u ->
  writable (memory s) out 32 ->
  (if x25519_s2n_bignum_capable P =? 1
   then x25519_s2n_bignum P E out private_key peer
   else x25519_scalar_mult_generic_nohw E out private_key peer) s
  = Returns tt (poke out (X25519_shared_key P E k u) (x25519_residue P k s)).
Proof.
  intros Hk Hu Hw. rewrite capable_flag.
  unfold X25519_shared_key, x25519_residue.
  destruct (CURVE25519_S2N_BIGNUM_CAPABLE P) eqn:Hcap.
  - pose proof (compiled_in_some_backend P Hcap) as Hsome.
    destruct (run_s2n_dispatch P E out private_key peer s k Hk) as [-> _].
    cbv zeta.
    assert (Hd := read_clamped_copy k s (read_length _ _ _ _ Hk)).
    assert (Hu' : read (memory (push_block (clamp k) s)) peer 32 = Some u).
    { rewrite read_push_block; [done|]. by eapply read_valid. }
    assert (Hw' := writable_push_block (clamp k) s out 32 Hw).
    unfold curve25519_x25519_byte, curve25519_x25519_byte_alt.
    rewrite Hcap. unfold spec_dispatch in *.
    destruct (target_arch P); repeat case_match; try done;
      by erewrite run_call2.
  - unfold x25519_scalar_mult_generic_nohw. by erewrite run_call2.
Qed.

Lemma run_X25519_public_from_private P E out private_key s k :
  read (memory s) private_key 32 = Some k ->
  writable (memory s) out 32 ->
  X25519_public_from_private P E out private_key s
  = Returns tt (poke out (X25519_public_value P E k) (x25519_residue P k s)).
Proof.
  intros Hk Hw. unfold X25519_public_from_private. rewrite capable_flag.
  unfold X25519_public_value, x25519_residue.
  destruct (CURVE25519_S2N_BIGNUM_CAPABLE P) eqn:Hcap.
  - pose proof (compiled_in_some_backend P Hcap) as Hsome.
    destruct (run_s2n_dispatch P E out private_key out s k Hk) as [_ ->].
    cbv zeta.
    assert (Hd := read_clamped_copy k s (read_length _ _ _ _ Hk)).
    assert (Hw' := writable_push_block (clamp k) s out 32 Hw).
    unfold curve25519_x25519base_byte, curve25519_x25519base_byte_alt.
    rewrite Hcap. unfold spec_dispatch in *.
    destruct (target_arch P); repeat case_match; try done;
      by erewrite run_call1.
  - unfold x25519_public_from_private_nohw. by erewrite run_call1.
Qed.

Lemma length_X25519_shared_key P E k u :
  length (X25519_shared_key P E k u) = 32%nat.
Proof. apply length_octets. Qed.

Lemma length_X25519_public_value P E k :
  length (X25519_public_value P E k) = 32%nat.
Proof. apply length_octets. Qed.

Lemma writable_residue P k s p n :
  writable (memory s) p n -> writable (memory (x25519_residue P k s)) p n.
Proof.
  unfold x25519_residue. destruct (CURVE25519_S2N_BIGNUM_CAPABLE P); [|done].
  apply writable_push_block.
Qed.

Lemma read_residue P k s p n :
  (blk p < length (memory s))%nat ->
  read (memory (x25519_residue P k s)) p n = read (memory s) p n.
Proof.
  unfold x25519_residue. destruct (CURVE25519_S2N_BIGNUM_CAPABLE P); [|done].
  apply read_push_block.
Qed.

Lemma run_X25519 P E out private_key peer s k u :
  read (memory s) private_key 32 = Some k ->
  read (memory s) peer 32 = Some u ->
  writable (memory s) out 32 ->
  let o := X25519_shared_key P E k u in
  X25519 P E out private_key peer s
  = Returns (if CRYPTO_memcmp kZeros o =? 0 then 0 else 1)
            (poke out o (x25519_residue P k s)).
Proof.
  intros Hk Hu Hw o. unfold X25519.
  eapply run_bind; [by apply run_X25519_multiply|].
  fold o. eapply run_bind; [|done].
  apply run_load_read.
  pose proof (read_poke_same out o (x25519_residue P k s)) as Hr.
  subst o. rewrite length_X25519_shared_key in Hr.
  apply Hr. by apply writable_residue.
Qed.

(** ** Constant-time comparison *)

Lemma memcmp_foldl acc (a b : list Z) :
  length a = length b ->
  foldl (fun x ab => Z.lor x (Z.lxor (fst ab) (snd ab))) acc (zip a b) = 0
  <-> acc = 0 /\ a = b.
Proof.
  revert acc b. induction a as [|x a IH]; intros acc [|y b] Hlen;
    cbn in Hlen; try lia; cbn [zip zip_with foldl fst snd].
  - split; [by intros ->|by intros [-> _]].
  - rewrite IH by lia. rewrite Z.lor_eq_0_iff. split.
    + intros [[-> Hxy] ->]. apply Z.lxor_eq in Hxy. by subst.
    + intros [-> [= -> ->]]. by rewrite Z.lxor_nilpotent.
Qed.

Lemma CRYPTO_memcmp_eq (a b : list Z) :
  length a = length b -> CRYPTO_memcmp a b = 0 <-> a = b.
Proof.
  intros Hlen. unfold CRYPTO_memcmp. rewrite memcmp_foldl by done.
  split; [by intros [_ ?]|by intros ->].
Qed.

(** ** The X25519 function of RFC 7748 *)

(** The first test vector of RFC 7748, section 5.2. *)
Example rfc7748_test_vector_1 :
  RFC7748.X25519
    [0xa5; 0x46; 0xe3; 0x6b; 0xf0; 0x52; 0x7c; 0x9d; 0x3b; 0x16; 0x15; 0x4b;
     0x82; 0x46; 0x5e; 0xdd; 0x62; 0x14; 0x4c; 0x0a; 0xc1; 0xfc; 0x5a; 0x18;
     0x50; 0x6a; 0x22; 0x44; 0xba; 0x44; 0x9a; 0xc4]
    [0xe6; 0xdb; 0x68; 0x67; 0x58; 0x30; 0x30; 0xdb; 0x35; 0x94; 0xc1; 0xa4;
     0x24; 0xb1; 0x5f; 0x7c; 0x72; 0x66; 0x24; 0xec; 0x26; 0xb3; 0x35; 0x3b;
     0x10; 0xa9; 0x03; 0xa6; 0xd0; 0xab; 0x1c; 0x4c]
  = [0xc3; 0xda; 0x55; 0x37; 0x9d; 0xe9; 0xc6; 0x90; 0x8e; 0x94; 0xea; 0x4d;
     0xf2; 0x8d; 0x08; 0x4f; 0x32; 0xec; 0xcf; 0x03; 0x49; 0x1c; 0x71; 0xf7;
     0x54; 0xb4; 0x07; 0x55; 0x77; 0xa2; 0x85; 0x52].
Proof. vm_compute. reflexivity. Qed.

Module RFC7748_facts.
Import RFC7748.

Lemma p_pos : 0 < p.
Proof. reflexivity. Qed.

Lemma fmul_0_l a : fmul 0 a = 0.
Proof. unfold fmul. by rewrite Z.mul_0_l, Zmod_0_l. Qed.

Lemma fmul_0_r a : fmul a 0 = 0.
Proof. unfold fmul. by rewrite Z.mul_0_r, Zmod_0_l. Qed.

Lemma fsub_diag a : fsub a a = 0.
Proof. unfold fsub. by rewrite Z.sub_diag, Zmod_0_l. Qed.

Lemma fpow_0 e : fpow 0 e = 0.
Proof.
  induction e as [e IH|e IH|]; cbn [fpow].
  - apply fmul_0_l.
  - rewrite IH. apply fmul_0_l.
  - apply Zmod_0_l.
Qed.

Lemma finv_0 : finv 0 = 0.
Proof. apply fpow_0. Qed.

(** The two squares the doubling subtracts coincide as soon as one
    projective coordinate vanishes. *)
Lemma squares_agree x z :
  x = 0 \/ z = 0 ->
  fmul (fadd x z) (fadd x z) = fmul (fsub x z) (fsub x z).
Proof.
  unfold fmul, fadd, fsub. intros [-> | ->].
  - rewrite Z.add_0_l, Z.sub_0_l.
    rewrite <- !Zmult_mod. f_equal. lia.
  - by rewrite Z.add_0_r, Z.sub_0_r.
Qed.

Lemma ladder_step_degenerate k_t st :
  degenerate (x_2 st) (z_2 st) -> degenerate (x_3 st) (z_3 st) ->
  let st' := ladder_step 0 k_t st in
  degenerate (x_2 st') (z_2 st') /\ degenerate (x_3 st') (z_3 st').
Proof.
  intros H2 H3. unfold ladder_step, cswap.
  destruct (xorb (swap st) k_t); cbn [x_2 z_2 x_3 z_3]; unfold degenerate.
  - rewrite (squares_agree _ _ H3), fsub_diag, !fmul_0_l. auto.
  - rewrite (squares_agree _ _ H2), fsub_diag, !fmul_0_l. auto.
Qed.

Lemma ladder_degenerate t k st :
  degenerate (x_2 st) (z_2 st) -> degenerate (x_3 st) (z_3 st) ->
  let st' := ladder t k 0 st in
  degenerate (x_2 st') (z_2 st') /\ degenerate (x_3 st') (z_3 st').
Proof.
  revert st. induction t as [|t IH]; intros st H2 H3; cbn [ladder].
  - done.
  - destruct (ladder_step_degenerate (Z.testbit k (Z.of_nat t)) st H2 H3).
    by apply IH.
Qed.

(** The point of order two with u = 0 is sent to 0 by every scalar. *)
Lemma X25519_zero_point k : X25519 k (replicate 32 0) = replicate 32 0.
Proof.
  unfold X25519.
  replace (decodeUCoordinate (replicate 32 0) mod p) with 0 by reflexivity.
  set (st := ladder 255 _ 0 _).
  destruct (ladder_degenerate 255 (decodeScalar25519 k) (Ladder 1 0 0 1 false))
    as [H2 H3]; unfold degenerate; cbn [x_2 z_2 x_3 z_3]; auto.
  fold st in H2, H3. unfold cswap.
  assert (Hz : forall x z, degenerate x z -> encode_le 32 (fmul x (finv z)) = replicate 32 0).
  { intros x z [-> | ->].
    - by rewrite fmul_0_l.
    - by rewrite finv_0, fmul_0_r. }
  destruct (swap st); by apply Hz.
Qed.

End RFC7748_facts.

(** ** Clamping, octet by octet *)

Lemma lookup_clamp k i :
  clamp k !! i =
    match i with
    | 0%nat => (fun x => u8 (Z.land x 248)) <$> k !! 0%nat
    | 31%nat => (fun x => u8 (Z.lor (u8 (Z.land x 127)) 64)) <$> k !! 31%nat
    | _ => k !! i
    end.
Proof.
  unfold clamp. rewrite !list_lookup_alter.
  do 32 (try destruct i as [|i]); repeat case_decide; try lia; try done.
  by destruct (k !! 31%nat).
Qed.

Lemma lookup_unmask k i :
  unmask k !! i =
    match i with
    | 0%nat => (fun x => u8 (Z.lor x (Z.lnot 248))) <$> k !! 0%nat
    | 31%nat =>
        (fun x => u8 (Z.lor (u8 (Z.land x (Z.lnot 64))) (Z.lnot 127)))
          <$> k !! 31%nat
    | _ => k !! i
    end.
Proof.
  unfold unmask. rewrite !list_lookup_alter.
  do 32 (try destruct i as [|i]); repeat case_decide; try lia; try done.
  by destruct (k !! 31%nat).
Qed.

Lemma length_unmask k : length (unmask k) = length k.
Proof. unfold unmask. by rewrite !length_alter. Qed.

Lemma Forall_alter_octet (f : Z -> Z) i (k : list Z) :
  (forall x, is_octet (f x)) -> Forall is_octet k -> Forall is_octet (alter f i k).
Proof.
  intros Hf Hk. apply Forall_lookup. intros j x.
  rewrite list_lookup_alter. case_decide.
  - destruct (k !! i); [|done]. intros [= <-]. apply Hf.
  - by apply (proj1 (Forall_lookup _ _) Hk).
Qed.

Lemma Forall_clamp k : Forall is_octet k -> Forall is_octet (clamp k).
Proof.
  intros Hk. unfold clamp.
  repeat apply Forall_alter_octet; try done; intros; apply u8_range.
Qed.

Lemma Forall_unmask k : Forall is_octet k -> Forall is_octet (unmask k).
Proof.
  intros Hk. unfold unmask.
  repeat apply Forall_alter_octet; try done; intros; apply u8_range.
Qed.

Lemma octet_string_clamp k : octet_string 32 k -> octet_string 32 (clamp k).
Proof.
  intros [Hlen Hk]. split; [by rewrite length_clamp|by apply Forall_clamp].
Qed.

Lemma octet_string_zeros n : octet_string n (replicate n 0).
Proof.
  split; [apply length_replicate|]. apply Forall_replicate. unfold is_octet. lia.
Qed.

Lemma octet_string_octets n l : octet_string n (octets n l).
Proof. split; [apply length_octets|apply Forall_octets]. Qed.

(** Octet identities, checked on all 256 octets. *)
Lemma octet_identity (f g : Z -> Z) :
  forallb (fun b => f b =? g b) (seqZ 0 256) = true ->
  forall b, is_octet b -> f b = g b.
Proof.
  intros H b Hb. apply Z.eqb_eq.
  by apply (octet_cases (fun b => f b =? g b)).
Qed.

Lemma Forall_lookup_octet (k : list Z) i x :
  Forall is_octet k -> k !! i = Some x -> is_octet x.
Proof. intros Hk. by apply (proj1 (Forall_lookup _ _) Hk). Qed.

(** Clamping a clamped scalar changes nothing. *)
Lemma clamp_idemp k : Forall is_octet k -> clamp (clamp k) = clamp k.
Proof.
  intros Hk. apply list_eq. intros i. rewrite (lookup_clamp (clamp k)).
  rewrite !lookup_clamp.
  do 32 (try destruct i as [|i]); try done.
  - destruct (k !! 0%nat) as [x|] eqn:Hx; [|done]. cbn. f_equal.
    apply (octet_identity
      (fun x => u8 (Z.land (u8 (Z.land x 248)) 248))
      (fun x => u8 (Z.land x 248)));
      [vm_compute; reflexivity|by eapply Forall_lookup_octet].
  - destruct (k !! 31%nat) as [x|] eqn:Hx; [|done]. cbn. f_equal.
    apply (octet_identity
      (fun x => u8 (Z.lor (u8 (Z.land (u8 (Z.lor (u8 (Z.land x 127)) 64)) 127)) 64))
      (fun x => u8 (Z.lor (u8 (Z.land x 127)) 64)));
      [vm_compute; reflexivity|by eapply Forall_lookup_octet].
Qed.

(** The opposite of the masking is undone by the masking. *)
Lemma clamp_unmask k : Forall is_octet k -> clamp (unmask k) = clamp k.
Proof.
  intros Hk. apply list_eq. intros i. rewrite (lookup_clamp (unmask k)).
  rewrite lookup_clamp, !lookup_unmask.
  do 32 (try destruct i as [|i]); try done.
  - destruct (k !! 0%nat) as [x|] eqn:Hx; [|done]. cbn. f_equal.
    apply (octet_identity
      (fun x => u8 (Z.land (u8 (Z.lor x (Z.lnot 248))) 248))
      (fun x => u8 (Z.land x 248)));
      [vm_compute; reflexivity|by eapply Forall_lookup_octet].
  - destruct (k !! 31%nat) as [x|] eqn:Hx; [|done]. cbn. f_equal.
    apply (octet_identity
      (fun x => u8 (Z.lor (u8 (Z.land
                (u8 (Z.lor (u8 (Z.land x (Z.lnot 64))) (Z.lnot 127))) 127)) 64))
      (fun x => u8 (Z.lor (u8 (Z.land x 127)) 64)));
      [vm_compute; reflexivity|by eapply Forall_lookup_octet].
Qed.

(** A clamped scalar is never the all-zero string: bit 6 of octet 31 is
    set. *)
Lemma clamp_not_zero k :
  length k = 32%nat -> Forall is_octet k -> clamp k <> replicate 32 0.
Proof.
  intros Hlen Hk Heq.
  assert (H31 : clamp k !! 31%nat = Some 0) by (by rewrite Heq).
  rewrite lookup_clamp in H31.
  destruct (k !! 31%nat) as [x|] eqn:Hx; [|done].
  cbn in H31. injection H31 as H31.
  pose proof (Forall_lookup_octet _ _ _ Hk Hx) as Hox.
  assert (Hall : forallb (fun x => negb (u8 (Z.lor (u8 (Z.land x 127)) 64) =? 0))
                   (seqZ 0 256) = true) by (vm_compute; reflexivity).
  pose proof (octet_cases _ Hall x Hox) as Hne. cbn beta in Hne.
  rewrite H31 in Hne. done.
Qed.

(** ** Updating a buffer in place *)

Lemma splice_alter (f : Z -> Z) o n i (b : list Z) :
  (o + n <= length b)%nat -> (i < n)%nat ->
  splice o (alter f i (sub o n b)) b = alter f (o + i)%nat b.
Proof.
  intros Hn Hi. apply list_eq. intros j.
  assert (Hlen : length (alter f i (sub o n b)) = n)
    by (by rewrite length_alter, length_sub).
  rewrite lookup_splice by (rewrite Hlen; lia).
  rewrite Hlen, !list_lookup_alter, !lookup_sub.
  repeat case_decide; try lia; try done.
  all: repeat f_equal; lia.
Qed.

Lemma splice_splice o (bs bs' b : list Z) :
  length bs = length bs' -> (o + length bs <= length b)%nat ->
  splice o bs (splice o bs' b) = splice o bs b.
Proof.
  intros Hlen Hn. apply list_eq. intros j.
  rewrite !lookup_splice; rewrite ?length_splice; try lia.
  by repeat case_decide; try lia.
Qed.

Lemma poke_poke p bs bs' s :
  length bs = length bs' -> poke p bs (poke p bs' s) = poke p bs s.
Proof.
  intros Hlen. unfold poke at 2 3. unfold write.
  destruct (memory s !! blk p) as [b|] eqn:Hb.
  - rewrite <- Hlen. case_decide as Hn.
    + unfold poke, write. cbn [memory entropy].
      rewrite list_lookup_insert_eq by (by eapply lookup_lt_Some).
      rewrite length_splice by lia. rewrite decide_True by lia.
      rewrite list_insert_insert_eq. by rewrite splice_splice by (done || lia).
    + unfold poke, write. rewrite Hb. by rewrite decide_False by lia.
  - unfold poke, write. by rewrite Hb.
Qed.

Lemma poke_set_block p bs s b :
  memory s !! blk p = Some b -> (off p + length bs <= length b)%nat ->
  poke p bs s = set_block (blk p) (splice (off p) bs b) s.
Proof.
  intros Hb Hn. unfold poke, write. rewrite Hb. by rewrite decide_True.
Qed.

Lemma run_and_assign_poke p i k s n r :
  read (memory s) p n = Some r -> (i < n)%nat ->
  and_assign p i k s
  = Returns tt (poke p (alter (fun x => u8 (Z.land x k)) i r) s).
Proof.
  intros (b & Hb & Hn & ->)%read_Some Hi.
  rewrite (run_and_assign _ _ _ _ b) by (done || lia).
  rewrite (poke_set_block _ _ _ b); [|done|by rewrite length_alter, length_sub].
  by rewrite splice_alter.
Qed.

Lemma run_or_assign_poke p i k s n r :
  read (memory s) p n = Some r -> (i < n)%nat ->
  or_assign p i k s
  = Returns tt (poke p (alter (fun x => u8 (Z.lor x k)) i r) s).
Proof.
  intros (b & Hb & Hn & ->)%read_Some Hi.
  rewrite (run_or_assign _ _ _ _ b) by (done || lia).
  rewrite (poke_set_block _ _ _ b); [|done|by rewrite length_alter, length_sub].
  by rewrite splice_alter.
Qed.

Lemma run_RAND_bytes p n s :
  (n <= length (entropy s))%nat -> writable (memory s) p n ->
  RAND_bytes p n s
  = Returns tt (poke p (octets n (take n (entropy s))) (draw n s)).
Proof.
  intros Hn Hw. unfold RAND_bytes. rewrite decide_True by done.
  apply (run_store_poke p _ (draw n s)). by rewrite length_octets.
Qed.

Lemma read_poke_len p bs s n :
  length bs = n -> writable (memory s) p n ->
  read (memory (poke p bs s)) p n = Some bs.
Proof. intros <-. apply read_poke_same. Qed.

(** The three unmasking statements of [X25519_keypair]. *)
Lemma run_unmask p s r (K : M unit) :
  read (memory s) p 32 = Some r ->
  (or_assign p 0 (Z.lnot 248);;
   and_assign p 31 (Z.lnot 64);;
   or_assign p 31 (Z.lnot 127);; K) s
  = K (poke p (unmask r) s).
Proof.
  intros Hr. pose proof (read_length _ _ _ _ Hr) as Hlen.
  assert (Hw : writable (memory s) p 32) by (by exists r).
  eapply run_bind; [by eapply (run_or_assign_poke _ _ _ _ 32); [|lia]|].
  eapply run_bind.
  { eapply (run_and_assign_poke _ _ _ _ 32); [|lia].
    apply read_poke_len; [by rewrite length_alter|done]. }
  rewrite poke_poke by (by rewrite !length_alter).
  eapply run_bind.
  { eapply (run_or_assign_poke _ _ _ _ 32); [|lia].
    apply read_poke_len; [by rewrite !length_alter|done]. }
  rewrite poke_poke by (by rewrite !length_alter).
  done.
Qed.

(** ** What a call leaves in memory *)

Lemma writable_valid m p n : writable m p n -> (blk p < length m)%nat.
Proof. intros [k Hk]. by eapply read_valid. Qed.

(** Everything the caller owns outside the output buffer is as it was. *)
Lemma read_after_call P k s out o q n :
  writable (memory s) out (length o) ->
  (blk q < length (memory s))%nat ->
  separate out (length o) q n ->
  read (memory (poke out o (x25519_residue P k s))) q n = read (memory s) q n.
Proof.
  intros Hw Hq Hsep. rewrite read_poke_separate by done.
  by apply read_residue.
Qed.

(** On the s2n-bignum path the clamped copy is the fresh block of the
    call, and it is still there afterwards. *)
Lemma read_local_after_call P k s out o :
  CURVE25519_S2N_BIGNUM_CAPABLE P = true ->
  length k = 32%nat ->
  writable (memory s) out (length o) ->
  read (memory (poke out o (x25519_residue P k s)))
       (Ptr (length (memory s)) 0) 32 = Some (clamp k).
Proof.
  intros Hcap Hk Hw. unfold x25519_residue. rewrite Hcap.
  rewrite read_poke_separate.
  - by apply read_clamped_copy.
  - left. cbn [blk]. apply writable_valid in Hw. lia.
Qed.

(** C9. [X25519] and [X25519_public_from_private] return, and the 32
    octets of the caller's private key are afterwards what they were
    before (the output buffer not overlapping the key); on the s2n-bignum
    path the clamped scalar sits in a block that did not exist before the
    call. *)
Theorem X25519_private_key_not_modified P E out private_key peer s k u :
  read (memory s) private_key 32 = Some k ->
  read (memory s) peer 32 = Some u ->
  writable (memory s) out 32 ->
  separate out 32 private_key 32 ->
  (exists ok s',
      X25519 P E out private_key peer s = Returns ok s' /\
      read (memory s') private_key 32 = Some k /\
      (CURVE25519_S2N_BIGNUM_CAPABLE P = true ->
       read (memory s') (Ptr (length (memory s)) 0) 32 = Some (clamp k)))
  /\
  (exists s',
      X25519_public_from_private P E out private_key s = Returns tt s' /\
      read (memory s') private_key 32 = Some k /\
      (CURVE25519_S2N_BIGNUM_CAPABLE P = true ->
       read (memory s') (Ptr (length (memory s)) 0) 32 = Some (clamp k))).
Proof.
  intros Hk Hu Hw Hsep.
  pose proof (read_length _ _ _ _ Hk) as Hlen.
  pose proof (read_valid _ _ _ _ Hk) as Hvalid.
  split.
  - eexists _, _. split; [by apply run_X25519|]. split.
    + rewrite read_after_call; rewrite ?length_X25519_shared_key; done.
    + intros Hcap. apply read_local_after_call;
        rewrite ?length_X25519_shared_key; done.
  - eexists. split; [by apply run_X25519_public_from_private|]. split.
    + rewrite read_after_call; rewrite ?length_X25519_public_value; done.
    + intros Hcap. apply read_local_after_call;
        rewrite ?length_X25519_public_value; done.
Qed.

(** C4. [X25519] returns; the 32 octets the selected routine computed are
    in the caller's buffer whatever the result; the result is 0 exactly
    when these octets are all zero, and 1 otherwise.  When the routines
    compute the X25519 function, the all-zero peer value gives the result
    0 and the all-zero shared key. *)
Theorem X25519_fails_iff_all_zero P E out private_key peer s k u :
  read (memory s) private_key 32 = Some k ->
  read (memory s) peer 32 = Some u ->
  writable (memory s) out 32 ->
  exists ok s',
    X25519 P E out private_key peer s = Returns ok s' /\
    read (memory s') out 32 = Some (X25519_shared_key P E k u) /\
    (ok = 0 <-> X25519_shared_key P E k u = replicate 32 0) /\
    (ok = 0 \/ ok = 1) /\
    (x25519_engine_conforms E -> Forall is_octet k -> u = replicate 32 0 ->
     ok = 0 /\ X25519_shared_key P E k u = replicate 32 0).
Proof.
  intros Hk Hu Hw.
  pose proof (read_length _ _ _ _ Hk) as Hlen.
  set (o := X25519_shared_key P E k u).
  assert (Hflag : (if CRYPTO_memcmp kZeros o =? 0 then 0 else 1) = 0
                  <-> o = replicate 32 0).
  { pose proof (CRYPTO_memcmp_eq kZeros o) as Hcmp.
    unfold kZeros in *. rewrite length_replicate in Hcmp.
    subst o. rewrite length_X25519_shared_key in Hcmp.
    specialize (Hcmp eq_refl).
    destruct (Z.eqb_spec (CRYPTO_memcmp (replicate 32 0) (X25519_shared_key P E k u)) 0) as [H0|H0].
    - split; [intros _; symmetry; by apply Hcmp|done].
    - split; [done|]. intros Heq. destruct H0. by apply Hcmp. }
  eexists _, _. split; [by apply run_X25519|]. fold o. split; [|split; [|split]].
  - apply read_poke_len; [apply length_X25519_shared_key|].
    by apply writable_residue.
  - done.
  - destruct (CRYPTO_memcmp kZeros o =? 0); auto.
  - intros HE Hoct ->.
    assert (Hz : o = replicate 32 0).
    { subst o. unfold X25519_shared_key.
      assert (Hko : octet_string 32 k) by done.
      pose proof (octet_string_clamp k Hko) as Hco.
      pose proof (octet_string_zeros 32) as Hzo.
      destruct HE as [Hb Ha Hn _ _ _].
      rewrite !Hb, !Ha, !Hn by done.
      rewrite !RFC7748_facts.X25519_zero_point.
      repeat case_match; apply octets_id; apply Hzo. }
    split; [by apply Hflag|done].
Qed.

(** ** Keys that agree after clamping *)

Lemma clamp_eq_iff k1 k2 :
  length k1 = length k2 -> Forall is_octet k1 -> Forall is_octet k2 ->
  clamp k1 = clamp k2 <-> differ_in_discarded_bits k1 k2.
Proof.
  intros Hlen H1 H2. split.
  - intros Heq i x y Hx Hy.
    pose proof (Forall_lookup_octet _ _ _ H1 Hx) as Hox.
    pose proof (Forall_lookup_octet _ _ _ H2 Hy) as Hoy.
    assert (Hi : clamp k1 !! i = clamp k2 !! i) by (by rewrite Heq).
    rewrite !lookup_clamp in Hi.
    do 32 (try destruct i as [|i]);
      try (rewrite Hx, Hy in Hi; by injection Hi).
    + rewrite Hx, Hy in Hi. cbn in Hi. injection Hi as Hi.
      rewrite <- (octet_identity (fun x => u8 (Z.land x 248))
                   (fun x => Z.land x 248)) by (done || (vm_compute; reflexivity)).
      rewrite Hi.
      by apply (octet_identity (fun x => u8 (Z.land x 248))
                   (fun x => Z.land x 248)); [vm_compute; reflexivity|].
    + rewrite Hx, Hy in Hi. cbn in Hi. injection Hi as Hi.
      rewrite <- (octet_identity
                   (fun x => Z.land (u8 (Z.lor (u8 (Z.land x 127)) 64)) 63)
                   (fun x => Z.land x 63)) by (done || (vm_compute; reflexivity)).
      rewrite Hi.
      by apply (octet_identity
                   (fun x => Z.land (u8 (Z.lor (u8 (Z.land x 127)) 64)) 63)
                   (fun x => Z.land x 63)); [vm_compute; reflexivity|].
  - intros Hd. apply list_eq. intros i. rewrite !lookup_clamp.
    destruct (k1 !! i) as [x|] eqn:Hx.
    + destruct (lookup_lt_is_Some_2 k2 i) as [y Hy].
      { rewrite <- Hlen. by eapply lookup_lt_Some. }
      pose proof (Hd i x y Hx Hy) as Hxy.
      pose proof (Forall_lookup_octet _ _ _ H1 Hx) as Hox.
      pose proof (Forall_lookup_octet _ _ _ H2 Hy) as Hoy.
      rewrite <- Hx.
      do 32 (try destruct i as [|i]); rewrite Hx, Hy; cbn in Hxy |- *;
        try (by rewrite Hxy).
      f_equal.
      rewrite <- (octet_identity
                   (fun x => u8 (Z.lor (u8 (Z.land (Z.land x 63) 127)) 64))
                   (fun x => u8 (Z.lor (u8 (Z.land x 127)) 64)) eq_refl x Hox).
      rewrite <- (octet_identity
                   (fun x => u8 (Z.lor (u8 (Z.land (Z.land x 63) 127)) 64))
                   (fun x => u8 (Z.lor (u8 (Z.land x 127)) 64)) eq_refl y Hoy).
      cbn beta. by rewrite Hxy.
    + assert (Hy : k2 !! i = None).
      { apply lookup_ge_None. rewrite <- Hlen. by apply lookup_ge_None. }
      rewrite <- Hx.
      do 32 (try destruct i as [|i]); by rewrite ?Hx, ?Hy.
Qed.

Lemma X25519_shared_key_clamp P E k1 k2 u :
  octet_string 32 k1 -> octet_string 32 k2 -> octet_string 32 u ->
  clamp k1 = clamp k2 ->
  (CURVE25519_S2N_BIGNUM_CAPABLE P = false -> portable_clamps E) ->
  X25519_shared_key P E k1 u = X25519_shared_key P E k2 u.
Proof.
  intros H1 H2 Hu Heq Hport. unfold X25519_shared_key. rewrite Heq.
  destruct (CURVE25519_S2N_BIGNUM_CAPABLE P); [done|].
  destruct (Hport eq_refl) as [Hn _].
  by rewrite (Hn k1), (Hn k2), Heq.
Qed.

Lemma X25519_public_value_clamp P E k1 k2 :
  octet_string 32 k1 -> octet_string 32 k2 ->
  clamp k1 = clamp k2 ->
  (CURVE25519_S2N_BIGNUM_CAPABLE P = false -> portable_clamps E) ->
  X25519_public_value P E k1 = X25519_public_value P E k2.
Proof.
  intros H1 H2 Heq Hport. unfold X25519_public_value. rewrite Heq.
  destruct (CURVE25519_S2N_BIGNUM_CAPABLE P); [done|].
  destruct (Hport eq_refl) as [_ Hn].
  by rewrite (Hn k1), (Hn k2), Heq.
Qed.

(** C10. Two private keys that are equal after clamping give the same
    result, the same shared key and the same public value: on the
    s2n-bignum path because the routine only ever sees the clamped copy,
    on the portable path because that routine clamps its scalar. *)
Theorem X25519_discarded_bits_have_no_influence
    P E out private_key1 private_key2 peer s k1 k2 u :
  read (memory s) private_key1 32 = Some k1 ->
  read (memory s) private_key2 32 = Some k2 ->
  read (memory s) peer 32 = Some u ->
  writable (memory s) out 32 ->
  Forall is_octet k1 -> Forall is_octet k2 -> Forall is_octet u ->
  clamp k1 = clamp k2 ->
  (CURVE25519_S2N_BIGNUM_CAPABLE P = false -> portable_clamps E) ->
  (exists ok s1 s2 shared,
      X25519 P E out private_key1 peer s = Returns ok s1 /\
      X25519 P E out private_key2 peer s = Returns ok s2 /\
      read (memory s1) out 32 = Some shared /\
      read (memory s2) out 32 = Some shared)
  /\
  (exists s1 s2 public,
      X25519_public_from_private P E out private_key1 s = Returns tt s1 /\
      X25519_public_from_private P E out private_key2 s = Returns tt s2 /\
      read (memory s1) out 32 = Some public /\
      read (memory s2) out 32 = Some public).
Proof.
  intros Hk1 Hk2 Hu Hw Ho1 Ho2 Hou Heq Hport.
  assert (Hs1 : octet_string 32 k1) by (split; [by eapply read_length|done]).
  assert (Hs2 : octet_string 32 k2) by (split; [by eapply read_length|done]).
  assert (Hsu : octet_string 32 u) by (split; [by eapply read_length|done]).
  split.
  - eexists _, _, _, (X25519_shared_key P E k1 u).
    split; [by apply run_X25519|].
    split.
    { rewrite (run_X25519 P E out private_key2 peer s k2 u) by done.
      cbv zeta. by rewrite (X25519_shared_key_clamp P E k1 k2 u). }
    split.
    + apply read_poke_len; [apply length_X25519_shared_key|].
      by apply writable_residue.
    + rewrite (X25519_shared_key_clamp P E k1 k2 u) by done.
      apply read_poke_len; [apply length_X25519_shared_key|].
      by apply writable_residue.
  - eexists _, _, (X25519_public_value P E k1).
    split; [by apply run_X25519_public_from_private|].
    split; [by apply run_X25519_public_from_private|].
    split.
    + apply read_poke_len; [apply length_X25519_public_value|].
      by apply writable_residue.
    + rewrite (X25519_public_value_clamp P E k1 k2) by done.
      apply read_poke_len; [apply length_X25519_public_value|].
      by apply writable_residue.
Qed.

(** ** Interchangeable backends *)

Lemma X25519_shared_key_interchangeable P E k u :
  backends_interchangeable E -> octet_string 32 k -> octet_string 32 u ->
  X25519_shared_key P E k u = octets 32 (s2n_x25519_byte E (clamp k) u).
Proof.
  intros [Ha Hn _ _] Hk Hu. unfold X25519_shared_key.
  pose proof (octet_string_clamp k Hk) as Hc.
  rewrite Ha, Hn by done. by repeat case_match.
Qed.

Lemma X25519_public_value_interchangeable P E k :
  backends_interchangeable E -> octet_string 32 k ->
  X25519_public_value P E k = octets 32 (s2n_x25519base_byte E (clamp k)).
Proof.
  intros [_ _ Ha Hn] Hk. unfold X25519_public_value.
  pose proof (octet_string_clamp k Hk) as Hc.
  rewrite Ha, Hn by done. by repeat case_match.
Qed.

(** C6. With interchangeable routines the build and the CPU do not show
    in what [X25519] and [X25519_public_from_private] deliver: on any two
    platforms the result and the octets written are the same.  And where
    neither capability predicate holds, [X25519] writes what the portable
    routine computes. *)
Theorem X25519_backend_choice_invisible P P' E out private_key peer s k u :
  backends_interchangeable E ->
  read (memory s) private_key 32 = Some k ->
  read (memory s) peer 32 = Some u ->
  writable (memory s) out 32 ->
  Forall is_octet k -> Forall is_octet u ->
  (exists ok s1 s2 shared,
      X25519 P E out private_key peer s = Returns ok s1 /\
      X25519 P' E out private_key peer s = Returns ok s2 /\
      read (memory s1) out 32 = Some shared /\
      read (memory s2) out 32 = Some shared /\
      (spec_dispatch (target_arch P)
         (x25519_s2n_bignum_no_alt_capable P =? 1)
         (x25519_s2n_bignum_alt_capable P =? 1) = no_backend_available ->
       shared = octets 32 (nohw_scalar_mult_generic E k u)))
  /\
  (exists s1 s2 public,
      X25519_public_from_private P E out private_key s = Returns tt s1 /\
      X25519_public_from_private P' E out private_key s = Returns tt s2 /\
      read (memory s1) out 32 = Some public /\
      read (memory s2) out 32 = Some public /\
      (spec_dispatch (target_arch P)
         (x25519_s2n_bignum_no_alt_capable P =? 1)
         (x25519_s2n_bignum_alt_capable P =? 1) = no_backend_available ->
       public = octets 32 (nohw_public_from_private E k))).
Proof.
  intros HE Hk Hu Hw Hok Hou.
  assert (Hsk : octet_string 32 k) by (split; [by eapply read_length|done]).
  assert (Hsu : octet_string 32 u) by (split; [by eapply read_length|done]).
  split.
  - eexists _, _, _, (X25519_shared_key P E k u).
    split; [by apply run_X25519|].
    split.
    { rewrite (run_X25519 P' E out private_key peer s k u) by done. cbv zeta.
      by rewrite (X25519_shared_key_interchangeable P'),
                 (X25519_shared_key_interchangeable P). }
    split; [|split].
    + apply read_poke_len; [apply length_X25519_shared_key|].
      by apply writable_residue.
    + rewrite (X25519_shared_key_interchangeable P),
              <- (X25519_shared_key_interchangeable P') by done.
      apply read_poke_len; [apply length_X25519_shared_key|].
      by apply writable_residue.
    + intros Hnone. unfold X25519_shared_key.
      destruct (CURVE25519_S2N_BIGNUM_CAPABLE P) eqn:Hcap; [|done].
      by destruct (compiled_in_some_backend P Hcap).
  - eexists _, _, (X25519_public_value P E k).
    split; [by apply run_X25519_public_from_private|].
    split; [by apply run_X25519_public_from_private|].
    split; [|split].
    + apply read_poke_len; [apply length_X25519_public_value|].
      by apply writable_residue.
    + rewrite (X25519_public_value_interchangeable P),
              <- (X25519_public_value_interchangeable P') by done.
      apply read_poke_len; [apply length_X25519_public_value|].
      by apply writable_residue.
    + intros Hnone. unfold X25519_public_value.
      destruct (CURVE25519_S2N_BIGNUM_CAPABLE P) eqn:Hcap; [|done].
      by destruct (compiled_in_some_backend P Hcap).
Qed.

(** ** Key generation *)

Lemma unmask_octets r i :
  Forall is_octet r ->
  unmask r !! i =
    match i with
    | 0%nat => (fun x => Z.lor x 7) <$> r !! 0%nat
    | 31%nat => (fun x => Z.lor (Z.land x 191) 128) <$> r !! 31%nat
    | _ => r !! i
    end.
Proof.
  intros Hr. rewrite lookup_unmask.
  do 32 (try destruct i as [|i]); try done.
  - destruct (r !! 0%nat) as [x|] eqn:Hx; [|done]. cbn. f_equal.
    apply (octet_identity (fun x => u8 (Z.lor x (Z.lnot 248)))
                          (fun x => Z.lor x 7));
      [vm_compute; reflexivity|by eapply Forall_lookup_octet].
  - destruct (r !! 31%nat) as [x|] eqn:Hx; [|done]. cbn. f_equal.
    apply (octet_identity
             (fun x => u8 (Z.lor (u8 (Z.land x (Z.lnot 64))) (Z.lnot 127)))
             (fun x => Z.lor (Z.land x 191) 128));
      [vm_compute; reflexivity|by eapply Forall_lookup_octet].
Qed.

Lemma unmask_bits r :
  Forall is_octet r ->
  (forall x, unmask r !! 0%nat = Some x ->
     Z.testbit x 0 = true /\ Z.testbit x 1 = true /\ Z.testbit x 2 = true) /\
  (forall x, unmask r !! 31%nat = Some x ->
     Z.testbit x 6 = false /\ Z.testbit x 7 = true).
Proof.
  intros Hr. split; intros x; rewrite unmask_octets by done.
  - destruct (r !! 0%nat) as [y|] eqn:Hy; [|done]. intros [= <-].
    pose proof (Forall_lookup_octet _ _ _ Hr Hy) as Hoy.
    assert (Hall : forallb (fun y => Z.testbit (Z.lor y 7) 0 &&
                     Z.testbit (Z.lor y 7) 1 && Z.testbit (Z.lor y 7) 2)
                     (seqZ 0 256) = true) by (vm_compute; reflexivity).
    pose proof (octet_cases _ Hall y Hoy) as Hb. cbn beta in Hb.
    apply andb_true_iff in Hb as [Hb H2]. apply andb_true_iff in Hb as [H0 H1].
    done.
  - destruct (r !! 31%nat) as [y|] eqn:Hy; [|done]. intros [= <-].
    pose proof (Forall_lookup_octet _ _ _ Hr Hy) as Hoy.
    assert (Hall : forallb (fun y =>
                     negb (Z.testbit (Z.lor (Z.land y 191) 128) 6) &&
                     Z.testbit (Z.lor (Z.land y 191) 128) 7)
                     (seqZ 0 256) = true) by (vm_compute; reflexivity).
    pose proof (octet_cases _ Hall y Hoy) as Hb. cbn beta in Hb.
    apply andb_true_iff in Hb as [H6 H7]. apply negb_true_iff in H6.
    done.
Qed.

(** C7. [X25519_keypair] draws 32 octets, stores them with the opposite
    of the masking applied (the low three bits of octet 0 set, bit 6 of
    octet 31 cleared and bit 7 set, every other bit as drawn), and writes
    the public value that [X25519_public_from_private] computes from the
    stored key; clamping the stored key gives the clamped random octets. *)
Theorem X25519_keypair_stores_unmasked_key P E out_public out_private s :
  (32 <= length (entropy s))%nat ->
  writable (memory s) out_private 32 ->
  writable (memory s) out_public 32 ->
  separate out_public 32 out_private 32 ->
  let r := octets 32 (take 32 (entropy s)) in
  exists s' stored public,
    X25519_keypair P E out_public out_private s = Returns tt s' /\
    read (memory s') out_private 32 = Some stored /\
    read (memory s') out_public 32 = Some public /\
    entropy s' = drop 32 (entropy s) /\
    (forall i, stored !! i =
       match i with
       | 0%nat => (fun x => Z.lor x 7) <$> r !! 0%nat
       | 31%nat => (fun x => Z.lor (Z.land x 191) 128) <$> r !! 31%nat
       | _ => r !! i
       end) /\
    (forall x, stored !! 0%nat = Some x ->
       Z.testbit x 0 = true /\ Z.testbit x 1 = true /\ Z.testbit x 2 = true) /\
    (forall x, stored !! 31%nat = Some x ->
       Z.testbit x 6 = false /\ Z.testbit x 7 = true) /\
    clamp stored = clamp r /\
    public = X25519_public_value P E stored /\
    (forall out, writable (memory s') out 32 ->
       exists s'',
         X25519_public_from_private P E out out_private s' = Returns tt s'' /\
         read (memory s'') out 32 = Some public).
Proof.
  intros Hent Hwpriv Hwpub Hsep r.
  assert (Hr : octet_string 32 r) by apply octet_string_octets.
  destruct Hr as [Hlen Hoct].
  set (s1 := poke out_private r (draw 32 s)).
  set (s2 := poke out_private (unmask r) (draw 32 s)).
  assert (Hread2 : read (memory s2) out_private 32 = Some (unmask r)).
  { apply read_poke_len; [by rewrite length_unmask|done]. }
  assert (Hw2 : writable (memory s2) out_public 32) by (by apply writable_poke).
  set (s' := poke out_public (X25519_public_value P E (unmask r))
               (x25519_residue P (unmask r) s2)).
  assert (Hrun : X25519_keypair P E out_public out_private s = Returns tt s').
  { unfold X25519_keypair.
    eapply run_bind; [by apply run_RAND_bytes|]. fold r s1.
    rewrite (run_unmask out_private s1 r).
    - unfold s1. rewrite poke_poke by (by rewrite length_unmask). fold s2.
      by apply run_X25519_public_from_private.
    - apply read_poke_len; done. }
  assert (Hpriv : read (memory s') out_private 32 = Some (unmask r)).
  { unfold s'. rewrite read_after_call; rewrite ?length_X25519_public_value;
      [done|done|by eapply read_valid|done]. }
  exists s', (unmask r), (X25519_public_value P E (unmask r)).
  split; [done|]. split; [done|]. split.
  { apply read_poke_len; [apply length_X25519_public_value|].
    by apply writable_residue. }
  split.
  { unfold s'. rewrite entropy_poke. unfold x25519_residue.
    destruct (CURVE25519_S2N_BIGNUM_CAPABLE P); cbn [push_block entropy];
      unfold s2; by rewrite entropy_poke. }
  split; [intros i; by apply unmask_octets|].
  destruct (unmask_bits r Hoct) as [H0 H31].
  split; [done|]. split; [done|].
  split; [by apply clamp_unmask|]. split; [done|].
  intros out Hwout. eexists.
  split; [by apply run_X25519_public_from_private|].
  apply read_poke_len; [apply length_X25519_public_value|].
  by apply writable_residue.
Qed.

(** ** Reading parts of a buffer *)

Lemma sub_sub o n o' n' (b : list Z) :
  (o' + n' <= n)%nat -> sub o' n' (sub o n b) = sub (o + o') n' b.
Proof.
  intros H. apply list_eq. intros i. rewrite !lookup_sub.
  repeat case_decide; try lia; try done. f_equal. lia.
Qed.

Lemma read_padd m p n r o n' :
  read m p n = Some r -> (o + n' <= n)%nat ->
  read m (padd p o) n' = Some (sub o n' r).
Proof.
  intros (b & Hb & Hn & ->)%read_Some Ho. apply read_Some. exists b.
  cbn [padd blk off]. split_and!; [done|lia|]. by rewrite sub_sub.
Qed.

Lemma read_prefix m p n r n' :
  read m p n = Some r -> (n' <= n)%nat -> read m p n' = Some (take n' r).
Proof.
  intros Hr Hn. pose proof (read_padd m p n r 0 n' Hr Hn) as H.
  destruct p as [j o]. unfold padd in H. cbn [blk off] in H.
  rewrite Nat.add_0_r in H. rewrite H. unfold sub. by rewrite drop_0.
Qed.

Lemma read_suffix m p n r o :
  read m p n = Some r -> (o <= n)%nat ->
  read m (padd p o) (n - o) = Some (drop o r).
Proof.
  intros Hr Ho. rewrite (read_padd m p n r o (n - o) Hr) by lia.
  f_equal. unfold sub. apply take_ge. rewrite length_drop.
  apply read_length in Hr. lia.
Qed.

Lemma read_lookup m p n r i x :
  read m p n = Some r -> r !! i = Some x ->
  exists b, m !! blk p = Some b /\ b !! (off p + i)%nat = Some x.
Proof.
  intros (b & Hb & Hn & ->)%read_Some Hx. exists b. split; [done|].
  rewrite lookup_sub in Hx. by case_decide.
Qed.

Lemma run_load8_read p i s n r x :
  read (memory s) p n = Some r -> r !! i = Some x -> load8 p i s = Returns x s.
Proof.
  intros Hr Hx. destruct (read_lookup _ _ _ _ _ _ Hr Hx) as (b & Hb & Hbx).
  by eapply run_load8.
Qed.

(** A local array filled by [OPENSSL_memcpy]. *)
Lemma run_local_copy {A} (K : ptr -> M A) src n s r :
  read (memory s) src n = Some r ->
  (d ← alloca n; OPENSSL_memcpy d src n;; K d) s
  = K (Ptr (length (memory s)) 0) (push_block r s).
Proof.
  intros Hr. pose proof (read_length _ _ _ _ Hr) as Hlen.
  pose proof (read_valid _ _ _ _ Hr) as Hvalid.
  eapply run_bind; [apply run_alloca|].
  eapply run_bind.
  { unfold OPENSSL_memcpy. eapply run_bind.
    - apply run_load_read. by rewrite read_push_block.
    - eapply run_store; cbn [blk off].
      + apply memory_push_block_new.
      + rewrite length_replicate. lia. }
  cbn [blk off].
  rewrite splice_all by (by rewrite length_replicate).
  by rewrite set_block_push_block.
Qed.

(** Reading the block on top of the stack. *)
Lemma read_top b s o n :
  (o + n <= length b)%nat ->
  read (memory (push_block b s)) (Ptr (length (memory s)) o) n = Some (sub o n b).
Proof.
  intros Hn. apply read_Some. exists b. cbn [blk off].
  by rewrite memory_push_block_new.
Qed.

Lemma read_top_all b s n :
  length b = n ->
  read (memory (push_block b s)) (Ptr (length (memory s)) 0) n = Some b.
Proof. intros <-. apply read_fresh. Qed.

(** Writing into the block on top of the stack. *)
Lemma run_store_top b s o bs :
  (o + length bs <= length b)%nat ->
  store (Ptr (length (memory s)) o) bs (push_block b s)
  = Returns tt (push_block (splice o bs b) s).
Proof.
  intros Hn. erewrite run_store; cbn [blk off].
  - by rewrite set_block_push_block.
  - apply memory_push_block_new.
  - done.
Qed.


(** ** Verification *)

Lemma run_order_loop scopy i s S :
  read (memory s) scopy 32 = Some S -> (i <= 3)%nat ->
  order_loop scopy i s = Returns (scalar_check S i) s.
Proof.
  intros HS. induction i as [|i IH]; intros Hi; cbn [order_loop scalar_check].
  - eapply run_bind; [apply run_load_read; by eapply (read_padd _ _ 32); [|lia]|].
    cbv zeta. by repeat case_match.
  - eapply run_bind; [apply run_load_read; by eapply (read_padd _ _ 32); [|lia]|].
    cbv zeta. repeat case_match; try done. apply IH. lia.
Qed.

Lemma length_reduced_hash G m : length (reduced_hash G m) = 32%nat.
Proof. apply length_octets. Qed.

Ltac len :=
  unfold SHA512_DIGEST_LENGTH, ED25519_SEED_LEN in *;
  rewrite ?length_push_block, ?length_poke, ?length_octets,
    ?length_reduced_hash, ?length_take, ?length_drop, ?length_replicate in *;
  rewrite ?length_splice
    by (rewrite ?length_octets, ?length_reduced_hash; cbn [length]; lia);
  rewrite ?length_octets, ?length_reduced_hash;
  cbn [blk off padd length] in *; try lia; try done.

Lemma run_SHA512_Update ctx data len s bs :
  read (memory s) data len = Some bs ->
  SHA512_Update ctx data len s = Returns (ctx ++ bs) s.
Proof.
  intros H. unfold SHA512_Update. eapply run_bind; [by apply run_load_read|done].
Qed.

(** A 64-octet local that receives a digest and is then reduced. *)
Lemma run_hash_and_reduce {A} G (K : ptr -> M A) ctx s :
  (h ← alloca SHA512_DIGEST_LENGTH;
   SHA512_Final G h ctx;; x25519_sc_reduce G h;; K h) s
  = K (Ptr (length (memory s)) 0)
      (push_block
         (splice 0 (reduced_hash G ctx)
            (octets SHA512_DIGEST_LENGTH (SHA512_digest G ctx))) s).
Proof.
  eapply run_bind; [apply run_alloca|].
  eapply run_bind.
  { unfold SHA512_Final. apply run_store_top. len. }
  rewrite splice_all by len.
  eapply run_bind.
  { unfold x25519_sc_reduce. eapply run_bind.
    - apply run_load_read. apply read_top_all. len.
    - apply run_store_top. len. }
  done.
Qed.

Lemma yields_bind {A B} (c : M A) (k : A -> M B) s a s1 v :
  c s = Returns a s1 -> yields (k a s1) v -> yields ((c ≫= k) s) v.
Proof. intros Hc [s' Hk]. exists s'. by eapply run_bind. Qed.

Lemma yields_ret {A} (v : A) s : yields ((mret v : M A) s) v.
Proof. by exists s. Qed.

Lemma run_ED25519_verify G message message_len signature public_key s
    msg sig pk :
  read (memory s) signature 64 = Some sig ->
  read (memory s) public_key 32 = Some pk ->
  read (memory s) message message_len = Some msg \/
    scalar_check (drop 32 sig) 3 = loop_return_0 ->
  yields (ED25519_verify G message message_len signature public_key s)
         (ED25519_verify_value G msg sig pk).
Proof.
  intros Hsig Hpk Hmsg'.
  pose proof (read_length _ _ _ _ Hsig) as Hlen.
  pose proof (read_valid _ _ _ _ Hsig) as Hvs.
  pose proof (read_valid _ _ _ _ Hpk) as Hvp.
  destruct (lookup_lt_is_Some_2 sig 63) as [s63 H63]; [lia|].
  unfold ED25519_verify, ED25519_verify_value. rewrite H63.
  change (default 0 (Some s63)) with s63.
  eapply yields_bind; [by eapply run_load8_read|].
  destruct (negb (Z.land s63 224 =? 0)); [apply yields_ret|].
  eapply yields_bind.
  { unfold x25519_ge_frombytes_vartime.
    eapply run_bind; [by apply run_load_read|done]. }
  destruct (ge_frombytes_vartime G pk) as [A|]; [|apply yields_ret].
  cbv zeta. cbn [ge_p3_X ge_p3_Y ge_p3_Z ge_p3_T].
  rewrite (run_local_copy _ public_key 32 s pk) by done.
  set (s1 := push_block pk s).
  rewrite (run_local_copy _ signature 32 s1 (take 32 sig)).
  2:{ unfold s1. rewrite read_push_block by done. by eapply (read_prefix _ _ 64); [|lia]. }
  set (s2 := push_block (take 32 sig) s1).
  rewrite (run_local_copy _ (padd signature 32) 32 s2 (drop 32 sig)).
  2:{ unfold s2, s1. rewrite !read_push_block by len.
      apply (read_suffix _ _ 64); [done|lia]. }
  set (s3 := push_block (drop 32 sig) s2).
  eapply yields_bind.
  { apply (run_order_loop _ 3 _ (drop 32 sig)); [|lia].
    apply read_top_all. len. }
  destruct (scalar_check (drop 32 sig) 3); [apply yields_ret|].
  destruct Hmsg' as [Hmsg|?]; [|done].
  pose proof (read_valid _ _ _ _ Hmsg) as Hvm.
  assert (H3 : forall p n, (blk p < length (memory s))%nat ->
            read (memory s3) p n = read (memory s) p n).
  { intros p n Hp. unfold s3, s2, s1. rewrite !read_push_block by len. done. }
  eapply yields_bind.
  { apply run_SHA512_Update. rewrite H3 by done. by eapply (read_prefix _ _ 64); [|lia]. }
  eapply yields_bind; [apply run_SHA512_Update; by rewrite H3|].
  eapply yields_bind; [apply run_SHA512_Update; by rewrite H3|].
  cbn [SHA512_Init app]. rewrite <- app_assoc.
  rewrite run_hash_and_reduce.
  set (ctx := take 32 sig ++ pk ++ msg).
  set (hb := splice 0 _ _).
  set (s4 := push_block hb s3).
  eapply yields_bind.
  { unfold ge_double_scalarmult_vartime.
    eapply run_bind.
    { apply run_load_read. unfold s4. apply read_top. unfold hb. len. }
    eapply run_bind; [|done].
    apply run_load_read. unfold s4. rewrite read_push_block by (unfold s3; len).
    unfold s3. apply read_top_all. len. }
  eapply yields_bind; [apply run_alloca|].
  eapply yields_bind.
  { unfold x25519_ge_tobytes. apply run_store_top. len. }
  rewrite splice_all by len.
  eapply yields_bind.
  { apply run_load_read. apply read_top_all. len. }
  eapply yields_bind.
  { apply run_load_read.
    unfold s4, s3. rewrite !read_push_block by (unfold s2, s1; len).
    unfold s2. apply read_top_all. len. }
  assert (Hhb : sub 0 32 hb = reduced_hash G ctx).
  { unfold hb. rewrite <- (length_reduced_hash G ctx) at 1.
    apply sub_splice_same. len. }
  rewrite Hhb. apply yields_ret.
Qed.

(** ** The range check on S *)

Lemma le_value_split n (l : list Z) :
  (n <= length l)%nat ->
  le_value l = le_value (take n l) + 2 ^ (8 * Z.of_nat n) * le_value (drop n l).
Proof.
  intros Hn. rewrite <- (take_drop n l) at 1. rewrite le_value_app.
  rewrite length_take. by replace (n `min` length l)%nat with n by lia.
Qed.

Lemma load_u64_le_sub o (S : list Z) :
  load_u64_le (sub o 8 S) = le_value (take 8 (drop o S)).
Proof. unfold load_u64_le, sub. by rewrite take_take. Qed.

Lemma limb_range o (S : list Z) :
  Forall is_octet S -> 0 <= le_value (take 8 (drop o S)) < 2 ^ 64.
Proof.
  intros HS.
  pose proof (le_value_range (take 8 (drop o S))
                (Forall_take _ _ _ (Forall_drop _ _ _ HS))) as H.
  assert (Hlen : (length (take 8 (drop o S)) <= 8)%nat)
    by (rewrite length_take; lia).
  assert (2 ^ (8 * Z.of_nat (length (take 8 (drop o S)))) <= 2 ^ 64).
  { apply Z.pow_le_mono_r; lia. }
  lia.
Qed.

Lemma le_value_limbs (S : list Z) :
  length S = 32%nat ->
  le_value S =
    le_value (take 8 (drop 0 S)) + 2 ^ 64 * le_value (take 8 (drop 8 S))
    + 2 ^ 128 * le_value (take 8 (drop 16 S))
    + 2 ^ 192 * le_value (take 8 (drop 24 S)).
Proof.
  intros Hlen. rewrite drop_0.
  rewrite (le_value_split 8 S) by lia.
  rewrite (le_value_split 8 (drop 8 S)) by (rewrite length_drop; lia).
  rewrite drop_drop. cbn [Nat.add].
  rewrite (le_value_split 8 (drop 16 S)) by (rewrite length_drop; lia).
  rewrite drop_drop. cbn [Nat.add].
  rewrite (le_value_split 8 (drop 24 S)) by (rewrite length_drop; lia).
  rewrite drop_drop. cbn [Nat.add].
  rewrite (drop_ge S 32) by lia. cbn [le_value].
  change (8 * Z.of_nat 8) with 64.
  change (2 ^ 64) with 18446744073709551616.
  change (2 ^ 128) with 340282366920938463463374607431768211456.
  change (2 ^ 192)
    with 6277101735386680763835789423207666416102355444464034512896.
  lia.
Qed.

(** [kOrder], read as four little-endian 64-bit limbs, is the group
    order. *)
Lemma kOrder_value :
  default 0 (kOrder !! 0%nat) + 2 ^ 64 * default 0 (kOrder !! 1%nat)
  + 2 ^ 128 * default 0 (kOrder !! 2%nat)
  + 2 ^ 192 * default 0 (kOrder !! 3%nat) = group_order.
Proof. reflexivity. Qed.

(** The loop breaks exactly when S is below the group order, and leaves
    the function with 0 otherwise, equality included. *)
Lemma scalar_check_spec (S : list Z) :
  octet_string 32 S ->
  scalar_check S 3 =
    if le_value S <? group_order then loop_break else loop_return_0.
Proof.
  intros [Hlen HS].
  pose proof (le_value_limbs S Hlen) as Hle.
  pose proof (limb_range 0 S HS) as H0.
  pose proof (limb_range 8 S HS) as H1.
  pose proof (limb_range 16 S HS) as H2.
  pose proof (limb_range 24 S HS) as H3.
  cbn [scalar_check Nat.mul Nat.add]. rewrite !load_u64_le_sub.
  set (w0 := le_value (take 8 (drop 0 S))) in *.
  set (w1 := le_value (take 8 (drop 8 S))) in *.
  set (w2 := le_value (take 8 (drop 16 S))) in *.
  set (w3 := le_value (take 8 (drop 24 S))) in *.
  rewrite Hle. clearbody w0 w1 w2 w3. clear Hle.
  change (2 ^ 64) with 18446744073709551616 in *.
  change (2 ^ 128) with 340282366920938463463374607431768211456 in *.
  change (2 ^ 192) with 6277101735386680763835789423207666416102355444464034512896 in *.
  unfold group_order.
  change (2 ^ 252) with 7237005577332262213973186563042994240829374041602535252466099000494570602496.
  cbn [kOrder lookup list_lookup default from_option id].
  repeat match goal with
         | |- context [?a >? ?b] => destruct (Z.gtb_spec a b)
         | |- context [?a <? ?b] => destruct (Z.ltb_spec a b)
         end; try reflexivity; exfalso; lia.
Qed.

(** C3. A signature with any of the top three bits of its last octet set,
    or a public key that does not decode, makes [ED25519_verify] return 0:
    it returns (no abort, no undefined behaviour), and it does so at once:
    the state is the one it was called in, with no scratch buffer
    allocated and nothing hashed, whatever the message. *)
Theorem ED25519_verify_rejects_malformed_input
    G message message_len signature public_key s sig :
  read (memory s) signature 64 = Some sig ->
  (Z.land (default 0 (sig !! 63%nat)) 224 <> 0 ->
   ED25519_verify G message message_len signature public_key s = Returns 0 s)
  /\
  (forall pk,
     read (memory s) public_key 32 = Some pk ->
     ge_frombytes_vartime G pk = None ->
     ED25519_verify G message message_len signature public_key s = Returns 0 s).
Proof.
  intros Hsig. pose proof (read_length _ _ _ _ Hsig) as Hlen.
  destruct (lookup_lt_is_Some_2 sig 63) as [s63 H63]; [lia|].
  rewrite H63. change (default 0 (Some s63)) with s63.
  unfold ED25519_verify. split.
  - intros Hbits. eapply run_bind; [by eapply run_load8_read|].
    by destruct (Z.eqb_spec (Z.land s63 224) 0).
  - intros pk Hpk Hdec. eapply run_bind; [by eapply run_load8_read|].
    destruct (negb (Z.land s63 224 =? 0)); [done|].
    eapply run_bind.
    { unfold x25519_ge_frombytes_vartime.
      eapply run_bind; [by apply run_load_read|done]. }
    by rewrite Hdec.
Qed.

Lemma ED25519_verify_value_large_S G msg sig pk :
  octet_string 64 sig -> group_order <= le_value (drop 32 sig) ->
  ED25519_verify_value G msg sig pk = 0.
Proof.
  intros [Hlen Hoct] Hge. unfold ED25519_verify_value.
  rewrite scalar_check_spec.
  2:{ split; [rewrite length_drop; lia|by apply Forall_drop]. }
  destruct (Z.ltb_spec (le_value (drop 32 sig)) group_order); [lia|].
  by repeat case_match.
Qed.

(** C1. The loop over the four limbs of S, from the most significant
    down, breaks exactly when S is below the group order; when S is the
    order or more, [ED25519_verify] returns 0, for every message and
    public key.  So it does when the S half is [S0 + group_order]. *)
Theorem ED25519_verify_rejects_S_not_below_order
    G message message_len signature public_key s sig pk :
  read (memory s) signature 64 = Some sig ->
  read (memory s) public_key 32 = Some pk ->
  Forall is_octet sig ->
  (forall s0 scopy,
     read (memory s0) scopy 32 = Some (drop 32 sig) ->
     order_loop scopy 3 s0 =
       Returns (if le_value (drop 32 sig) <? group_order
                then loop_break else loop_return_0) s0)
  /\
  (group_order <= le_value (drop 32 sig) ->
   exists s',
     ED25519_verify G message message_len signature public_key s
     = Returns 0 s')
  /\
  (forall S0, 0 <= S0 -> le_value (drop 32 sig) = S0 + group_order ->
   exists s',
     ED25519_verify G message message_len signature public_key s
     = Returns 0 s').
Proof.
  intros Hsig Hpk Hoct. pose proof (read_length _ _ _ _ Hsig) as Hlen.
  assert (HS : octet_string 32 (drop 32 sig)).
  { split; [rewrite length_drop; lia|by apply Forall_drop]. }
  assert (Hrej : group_order <= le_value (drop 32 sig) ->
    exists s', ED25519_verify G message message_len signature public_key s
               = Returns 0 s').
  { intros Hge.
    rewrite <- (ED25519_verify_value_large_S G [] sig pk) by done.
    apply run_ED25519_verify; [done|done|]. right.
    rewrite scalar_check_spec by done.
    by destruct (Z.ltb_spec (le_value (drop 32 sig)) group_order); [lia|]. }
  split.
  { intros s0 scopy Hscopy. rewrite <- scalar_check_spec by done.
    by apply run_order_loop. }
  split; [done|].
  intros S0 HS0 Heq. apply Hrej. lia.
Qed.

(** ** Key generation and signing *)

Lemma length_clamp63 k : length (clamp63 k) = length k.
Proof. unfold clamp63. by rewrite !length_alter. Qed.

(** Three in-place updates of the block on top of the stack. *)
Lemma run_update_top {A} (K : M A) b s k0 k1 k2 :
  (32 <= length b)%nat ->
  let p := Ptr (length (memory s)) 0 in
  (and_assign p 0 k0;; and_assign p 31 k1;; or_assign p 31 k2;; K)
    (push_block b s)
  = K (push_block
         (alter (fun x => u8 (Z.lor x k2)) 31%nat
            (alter (fun x => u8 (Z.land x k1)) 31%nat
               (alter (fun x => u8 (Z.land x k0)) 0%nat b))) s).
Proof.
  intros Hlen p.
  eapply run_bind.
  { eapply run_and_assign; cbn [p blk off]; [apply memory_push_block_new|lia]. }
  cbn [p blk off Nat.add]. rewrite set_block_push_block.
  eapply run_bind.
  { eapply run_and_assign; cbn [p blk off];
      [apply memory_push_block_new|rewrite length_alter; lia]. }
  cbn [p blk off Nat.add]. rewrite set_block_push_block.
  eapply run_bind.
  { eapply run_or_assign; cbn [p blk off];
      [apply memory_push_block_new|rewrite !length_alter; lia]. }
  cbn [p blk off Nat.add]. by rewrite set_block_push_block.
Qed.

(** A 64-octet local that receives the digest of a buffer. *)
Lemma run_local_SHA512 {A} G (K : ptr -> M A) data len s bs :
  read (memory s) data len = Some bs ->
  (az ← alloca SHA512_DIGEST_LENGTH; SHA512 G data len az;; K az) s
  = K (Ptr (length (memory s)) 0)
      (push_block (octets SHA512_DIGEST_LENGTH (SHA512_digest G bs)) s).
Proof.
  intros Hbs. pose proof (read_valid _ _ _ _ Hbs) as Hv.
  eapply run_bind; [apply run_alloca|].
  eapply run_bind.
  { unfold SHA512. eapply run_bind.
    - apply run_load_read. by rewrite read_push_block.
    - apply run_store_top. len. }
  by rewrite splice_all by len.
Qed.

Lemma run_memcpy dst src n s bs :
  read (memory s) src n = Some bs -> writable (memory s) dst n ->
  OPENSSL_memcpy dst src n s = Returns tt (poke dst bs s).
Proof.
  intros Hbs Hw. unfold OPENSSL_memcpy.
  eapply run_bind; [by apply run_load_read|].
  apply run_store_poke. by rewrite (read_length _ _ _ _ Hbs).
Qed.

Lemma sub_app (b : list Z) o n1 n2 :
  sub o n1 b ++ sub (o + n1) n2 b = sub o (n1 + n2) b.
Proof.
  unfold sub. rewrite <- drop_drop. rewrite <- take_take_drop. done.
Qed.

Lemma read_app m p n1 n2 a b :
  read m p n1 = Some a -> read m (padd p n1) n2 = Some b ->
  read m p (n1 + n2) = Some (a ++ b).
Proof.
  intros (x & Hx & Hn1 & ->)%read_Some (y & Hy & Hn2 & ->)%read_Some.
  cbn [padd blk off] in *. rewrite Hx in Hy. injection Hy as <-.
  apply read_Some. exists x. split_and!; [done|lia|].
  by rewrite sub_app.
Qed.

Lemma writable_padd m p n o n' :
  writable m p n -> (o + n' <= n)%nat -> writable m (padd p o) n'.
Proof.
  intros [r Hr] Ho. eexists. by eapply read_padd.
Qed.

Lemma separate_padd_r p n q m o m' :
  separate p n q m -> (o + m' <= m)%nat -> separate p n (padd q o) m'.
Proof.
  unfold separate. cbn [padd blk off]. intros [?|[?|?]] Ho; [by left|right..]; lia.
Qed.

Lemma separate_sym p n q m : separate p n q m -> separate q m p n.
Proof. unfold separate. intros [?|[?|?]]; [by left|right; by right|right; by left]. Qed.

Lemma separate_shrink_l p n q m n' :
  separate p n q m -> (n' <= n)%nat -> separate p n' q m.
Proof. unfold separate. intros [?|[?|?]] Hn; [by left|right..]; lia. Qed.

Lemma separate_shrink_r p n q m m' :
  separate p n q m -> (m' <= m)%nat -> separate p n q m'.
Proof. unfold separate. intros [?|[?|?]] Hn; [by left|right..]; lia. Qed.

Lemma length_ED25519_public_key G seed :
  length (ED25519_public_key G seed) = 32%nat.
Proof. apply length_octets. Qed.

Lemma length_keypair_az G seed : length (keypair_az G seed) = 64%nat.
Proof. unfold keypair_az. rewrite length_clamp. apply length_octets. Qed.

Lemma run_ED25519_keypair_from_seed G out_public out_private seedp s seed :
  read (memory s) seedp 32 = Some seed ->
  writable (memory s) out_public 32 ->
  writable (memory s) out_private 64 ->
  separate out_public 32 seedp 32 ->
  separate out_public 32 out_private 64 ->
  let pk := ED25519_public_key G seed in
  ED25519_keypair_from_seed G out_public out_private seedp s
  = Returns tt
      (push_block (keypair_az G seed)
         (poke (padd out_private 32) pk
            (poke out_private seed (poke out_public pk s)))).
Proof.
  intros Hseed Hwpub Hwpriv Hsep1 Hsep2 pk.
  pose proof (read_length _ _ _ _ Hseed) as Hlen.
  pose proof (read_valid _ _ _ _ Hseed) as Hvs.
  assert (Hlpk : length pk = 32%nat) by apply length_ED25519_public_key.
  unfold ED25519_keypair_from_seed, ED25519_SEED_LEN.
  rewrite (run_local_SHA512 G _ seedp 32 s seed) by done.
  rewrite run_update_top by len. fold (clamp (octets SHA512_DIGEST_LENGTH (SHA512_digest G seed))).
  fold (keypair_az G seed).
  eapply run_bind.
  { unfold x25519_ge_scalarmult_base. eapply run_bind; [|done].
    apply run_load_read. apply read_top. rewrite length_keypair_az. lia. }
  replace (sub 0 32 (keypair_az G seed)) with (take 32 (keypair_az G seed))
    by (unfold sub; by rewrite drop_0).
  eapply run_bind.
  { unfold ge_p3_tobytes. apply run_store_poke. rewrite length_octets.
    by apply writable_push_block. }
  fold (ED25519_public_key G seed). fold pk.
  rewrite poke_push_block by (by rewrite Hlpk).
  set (s1 := poke out_public pk s).
  assert (Hw1 : writable (memory s1) out_private 64) by (by apply writable_poke).
  eapply run_bind.
  { apply (run_memcpy _ _ _ _ seed).
    - rewrite read_push_block by (unfold s1; len).
      unfold s1. rewrite read_poke_separate; [done|by rewrite Hlpk].
    - apply writable_push_block.
      apply (writable_padd _ _ 64 0 32) in Hw1; [|lia].
      destruct out_private as [j o]. unfold padd in Hw1. cbn [blk off] in Hw1.
      by rewrite Nat.add_0_r in Hw1. }
  assert (Hw1' : writable (memory s1) out_private 32).
  { apply (writable_padd _ _ 64 0 32) in Hw1; [|lia].
    destruct out_private as [j o]. unfold padd in Hw1. cbn [blk off] in Hw1.
    by rewrite Nat.add_0_r in Hw1. }
  rewrite poke_push_block by (by rewrite Hlen).
  set (s2 := poke out_private seed s1).
  assert (Hw2 : writable (memory s2) (padd out_private 32) 32).
  { unfold s2. apply writable_poke. by apply (writable_padd _ _ 64). }
  rewrite <- poke_push_block by (by rewrite Hlpk).
  apply (run_memcpy _ _ _ _ pk).
  - pose proof (writable_valid _ _ _ Hwpub) as Hvpub.
    rewrite read_push_block by (unfold s2, s1; len).
    unfold s2. rewrite read_poke_separate.
    + unfold s1. apply read_poke_len; done.
    + rewrite Hlen. apply separate_sym.
      apply (separate_shrink_r _ _ _ 64); [done|lia].
  - by apply writable_push_block.
Qed.

Lemma length_sign_az G sk : length (sign_az G sk) = 64%nat.
Proof. unfold sign_az. rewrite length_clamp63. apply length_octets. Qed.

Lemma length_sign_nonce G msg sk : length (sign_nonce G msg sk) = 64%nat.
Proof. unfold sign_nonce. len. Qed.

Lemma length_sign_hram G msg sk : length (sign_hram G msg sk) = 64%nat.
Proof. unfold sign_hram. len. Qed.

Lemma length_sign_R G msg sk : length (sign_R G msg sk) = 32%nat.
Proof. apply length_octets. Qed.

Lemma length_sign_S G msg sk : length (sign_S G msg sk) = 32%nat.
Proof. apply length_octets. Qed.

Lemma sub_reduced G m :
  sub 0 32 (splice 0 (reduced_hash G m)
              (octets SHA512_DIGEST_LENGTH (SHA512_digest G m)))
  = reduced_hash G m.
Proof.
  rewrite <- (length_reduced_hash G m) at 1. apply sub_splice_same. len.
Qed.

Lemma sub_0_take n (b : list Z) : sub 0 n b = take n b.
Proof. unfold sub. by rewrite drop_0. Qed.

Lemma read_top_at b s j o n :
  j = length (memory s) -> (o + n <= length b)%nat ->
  read (memory (push_block b s)) (Ptr j o) n = Some (sub o n b).
Proof. intros ->. apply read_top. Qed.

Lemma run_ED25519_sign G out_sig message message_len private_key s msg sk :
  read (memory s) private_key 64 = Some sk ->
  read (memory s) message message_len = Some msg ->
  writable (memory s) out_sig 64 ->
  separate out_sig 64 private_key 64 ->
  separate out_sig 64 message message_len ->
  ED25519_sign G out_sig message message_len private_key s
  = Returns 1
      (push_block (sign_hram G msg sk)
         (push_block (sign_nonce G msg sk)
            (push_block (sign_az G sk)
               (poke (padd out_sig 32) (sign_S G msg sk)
                  (poke out_sig (sign_R G msg sk) s))))).
Proof.
  intros Hsk Hmsg Hw Hsep1 Hsep2.
  pose proof (read_length _ _ _ _ Hsk) as Hlen.
  pose proof (read_valid _ _ _ _ Hsk) as Hvk.
  pose proof (read_valid _ _ _ _ Hmsg) as Hvm.
  pose proof (writable_valid _ _ _ Hw) as Hvo.
  assert (Hw32 : writable (memory s) out_sig 32).
  { apply (writable_padd _ _ 64 0 32) in Hw; [|lia].
    destruct out_sig as [j o]. unfold padd in Hw. cbn [blk off] in Hw.
    by rewrite Nat.add_0_r in Hw. }
  assert (Hw32' : writable (memory s) (padd out_sig 32) 32)
    by (by apply (writable_padd _ _ 64)).
  unfold ED25519_sign.
  rewrite (run_local_SHA512 G _ private_key 32 s (take 32 sk))
    by (by apply (read_prefix _ _ 64); [|lia]).
  rewrite run_update_top by len.
  fold (clamp63 (octets SHA512_DIGEST_LENGTH (SHA512_digest G (take 32 sk)))).
  fold (sign_az G sk).
  set (sa := push_block (sign_az G sk) s).
  eapply run_bind.
  { apply run_SHA512_Update. unfold sa. cbn [padd blk off Nat.add].
    apply read_top. rewrite length_sign_az. cbn [off]. lia. }
  eapply run_bind.
  { apply run_SHA512_Update. unfold sa. by rewrite read_push_block. }
  cbn [SHA512_Init app off Nat.add]. fold (sign_nonce_input G msg sk).
  rewrite run_hash_and_reduce. fold (sign_nonce G msg sk).
  set (sn := push_block (sign_nonce G msg sk) sa).
  eapply run_bind.
  { unfold x25519_ge_scalarmult_base. eapply run_bind; [|done].
    apply run_load_read. unfold sn. apply read_top.
    rewrite length_sign_nonce. lia. }
  unfold sign_nonce at 1. rewrite sub_reduced.
  eapply run_bind.
  { unfold ge_p3_tobytes. apply run_store_poke. rewrite length_octets.
    unfold sn, sa. by do 2 apply writable_push_block. }
  fold (sign_R G msg sk).
  unfold sn, sa.
  rewrite !poke_push_block
    by (rewrite ?length_sign_R; try done; by apply writable_push_block).
  set (s1 := poke out_sig (sign_R G msg sk) s).
  assert (H1 : forall p n, (blk p < length (memory s))%nat ->
            read (memory (push_block (sign_nonce G msg sk)
                            (push_block (sign_az G sk) s1))) p n
            = read (memory s1) p n).
  { intros p n Hp. rewrite !read_push_block by (unfold s1; len). done. }
  eapply run_bind.
  { apply run_SHA512_Update. rewrite H1 by done.
    unfold s1. apply read_poke_len; [apply length_sign_R|done]. }
  eapply run_bind.
  { apply run_SHA512_Update. rewrite H1 by done. unfold s1.
    rewrite read_poke_separate.
    - by apply (read_suffix _ _ 64 sk 32); [|lia].
    - rewrite length_sign_R. apply separate_padd_r with (m := 64%nat); [|lia].
      apply (separate_shrink_l _ 64); [done|lia]. }
  eapply run_bind.
  { apply run_SHA512_Update. rewrite H1 by done. unfold s1.
    rewrite read_poke_separate; [done|].
    rewrite length_sign_R. apply (separate_shrink_l _ 64); [done|lia]. }
  cbn [SHA512_Init app]. rewrite <- app_assoc.
  fold (sign_hram_input G msg sk).
  rewrite run_hash_and_reduce. fold (sign_hram G msg sk).
  eapply run_bind.
  { unfold sc_muladd.
    eapply run_bind.
    { apply run_load_read. apply read_top. rewrite length_sign_hram. lia. }
    eapply run_bind.
    { apply run_load_read. rewrite !read_push_block by (unfold s1; len).
      apply read_top_at; [unfold s1; len|rewrite length_sign_az; lia]. }
    eapply run_bind.
    { apply run_load_read. rewrite read_push_block by (unfold s1; len).
      apply read_top_at; [unfold sa, s1; len|rewrite length_sign_nonce; lia]. }
    apply run_store_poke. rewrite length_octets.
    do 3 apply writable_push_block. unfold s1. by apply writable_poke. }
  unfold sign_hram at 1, sign_nonce at 1. rewrite !sub_reduced, sub_0_take.
  fold (sign_S G msg sk).
  assert (Hw1 : writable (memory s1) (padd out_sig 32) 32)
    by (unfold s1; by apply writable_poke).
  rewrite !poke_push_block
    by (rewrite ?length_sign_S; try done; repeat apply writable_push_block; done).
  done.
Qed.

(** ** The group behind the engine *)

Section Group.

Context {G : ed25519_engine} (Mo : ed25519_model G).

Local Abbreviation pt := (point G Mo).
Local Notation "a ⊕ b" := (point_add G Mo a b) (at level 50, left associativity).
Local Notation "⊖ a" := (point_opp G Mo a) (at level 35).
Local Notation "𝟎" := (point_zero G Mo).
Local Abbreviation B := (base_point G Mo).
Local Notation "n ⋅ a" := (times (point_add G Mo) (point_zero G Mo) n a)
  (at level 40).

Lemma point_add_zero_r (a : pt) : a ⊕ 𝟎 = a.
Proof. rewrite point_add_comm. apply point_add_zero. Qed.

Lemma point_add_opp_r (a : pt) : a ⊕ ⊖ a = 𝟎.
Proof. rewrite point_add_comm. apply point_add_opp. Qed.

Lemma times_plus n m (a : pt) : (n + m)%nat ⋅ a = n ⋅ a ⊕ m ⋅ a.
Proof.
  induction n as [|n IH]; cbn [times Nat.add].
  - by rewrite point_add_zero.
  - by rewrite IH, point_add_assoc.
Qed.

Lemma times_zero n : n ⋅ (𝟎 : pt) = 𝟎.
Proof.
  induction n as [|n IH]; cbn [times]; [done|].
  by rewrite IH, point_add_zero.
Qed.

Lemma times_times n m (a : pt) : (n * m)%nat ⋅ a = n ⋅ (m ⋅ a).
Proof.
  induction n as [|n IH]; cbn [times Nat.mul]; [done|].
  by rewrite times_plus, IH.
Qed.

Lemma point_add_swap (a b c d : pt) : (a ⊕ b) ⊕ (c ⊕ d) = (a ⊕ c) ⊕ (b ⊕ d).
Proof.
  rewrite <- !point_add_assoc. f_equal.
  rewrite !point_add_assoc. f_equal. apply point_add_comm.
Qed.

Lemma times_sum n (a b : pt) : n ⋅ (a ⊕ b) = n ⋅ a ⊕ n ⋅ b.
Proof.
  induction n as [|n IH]; cbn [times].
  - by rewrite point_add_zero.
  - by rewrite IH, point_add_swap.
Qed.

Lemma times_opp_cancel n (a : pt) : n ⋅ (⊖ a) ⊕ n ⋅ a = 𝟎.
Proof. by rewrite <- times_sum, point_add_opp, times_zero. Qed.

(** Scalars count modulo the order of the base point. *)
Lemma times_mod_order x :
  0 <= x -> Z.to_nat (x mod group_order) ⋅ B = Z.to_nat x ⋅ B.
Proof.
  intros Hx.
  assert (HL : 0 < group_order) by reflexivity.
  pose proof (Z.mod_pos_bound x group_order HL) as Hm.
  pose proof (Z.div_pos x group_order Hx HL) as Hq.
  rewrite (Z.div_mod x group_order) at 2 by lia.
  rewrite Z2Nat.inj_add, Z2Nat.inj_mul by lia.
  rewrite times_plus, Nat.mul_comm, times_times.
  by rewrite base_point_order, times_zero, point_add_zero.
Qed.

(** The equation verification checks: with A = a B, R = r B and
    S = h a + r modulo the order, h (-A) + S B is R. *)
Lemma verification_equation h a r :
  0 <= h -> 0 <= a -> 0 <= r ->
  Z.to_nat h ⋅ (⊖ (Z.to_nat a ⋅ B))
  ⊕ Z.to_nat ((h * a + r) mod group_order) ⋅ B
  = Z.to_nat r ⋅ B.
Proof.
  intros Hh Ha Hr.
  rewrite times_mod_order by nia.
  rewrite Z2Nat.inj_add, Z2Nat.inj_mul by nia.
  rewrite times_plus, times_times.
  rewrite point_add_assoc, times_opp_cancel. apply point_add_zero.
Qed.

End Group.

(** ** Signing and then verifying *)

Lemma lookup_clamp63 k i :
  clamp63 k !! i =
    match i with
    | 0%nat => (fun x => u8 (Z.land x 248)) <$> k !! 0%nat
    | 31%nat => (fun x => u8 (Z.lor (u8 (Z.land x 63)) 64)) <$> k !! 31%nat
    | _ => k !! i
    end.
Proof.
  unfold clamp63. rewrite !list_lookup_alter.
  do 32 (try destruct i as [|i]); repeat case_decide; try lia; try done.
  by destruct (k !! 31%nat).
Qed.

Lemma clamp63_clamp k : Forall is_octet k -> clamp63 k = clamp k.
Proof.
  intros Hk. apply list_eq. intros i. rewrite lookup_clamp63, lookup_clamp.
  do 32 (try destruct i as [|i]); try done.
  destruct (k !! 31%nat) as [x|] eqn:Hx; [|done]. cbn. f_equal.
  apply (octet_identity
           (fun x => u8 (Z.lor (u8 (Z.land x 63)) 64))
           (fun x => u8 (Z.lor (u8 (Z.land x 127)) 64)));
    [vm_compute; reflexivity|by eapply Forall_lookup_octet].
Qed.

(** The value of a 32-octet string in terms of its last octet. *)
Lemma le_value_top (k : list Z) x :
  octet_string 32 k -> k !! 31%nat = Some x ->
  2 ^ 248 * x <= le_value k < 2 ^ 248 * (x + 1).
Proof.
  intros [Hlen Hk] Hx.
  rewrite (le_value_split 31 k) by lia.
  pose proof (le_value_range (take 31 k) (Forall_take _ _ _ Hk)) as Hr.
  rewrite length_take in Hr.
  replace (31 `min` length k)%nat with 31%nat in Hr by lia.
  assert (Hd : drop 31 k = [x]).
  { apply list_eq. intros i. rewrite lookup_drop.
    destruct i as [|i]; [by rewrite Nat.add_0_r|].
    change ([x] !! S i) with (@None Z). apply lookup_ge_None. lia. }
  rewrite Hd. cbn [le_value].
  change (8 * Z.of_nat 31) with 248 in *. lia.
Qed.

Section Roundtrip.

Context {G : ed25519_engine} (Mo : ed25519_model G).

Local Abbreviation B := (base_point G Mo).
Local Notation "n ⋅ a" := (times (point_add G Mo) (point_zero G Mo) n a)
  (at level 40).

Lemma reduced_hash_spec m :
  octet_string 32 (reduced_hash G m) /\
  0 <= le_value (reduced_hash G m) < group_order.
Proof.
  unfold reduced_hash.
  destruct (sc_reduce_reduces G Mo
              (octets SHA512_DIGEST_LENGTH (SHA512_digest G m))) as [Ho Hv].
  { apply octet_string_octets. }
  rewrite octets_id by apply Ho. split; [done|].
  rewrite Hv. apply Z.mod_pos_bound. reflexivity.
Qed.

Lemma keypair_scalar_spec seed :
  octet_string 32 (take 32 (keypair_az G seed)) /\
  0 <= le_value (take 32 (keypair_az G seed)) < 2 ^ 255.
Proof.
  assert (Haz : octet_string 64 (keypair_az G seed)).
  { unfold keypair_az. split; [by rewrite length_clamp, length_octets|].
    apply Forall_clamp, Forall_octets. }
  destruct Haz as [Hlen Hoct].
  assert (Ho : octet_string 32 (take 32 (keypair_az G seed))).
  { split; [rewrite length_take; lia|by apply Forall_take]. }
  split; [done|].
  destruct (lookup_lt_is_Some_2 (take 32 (keypair_az G seed)) 31) as [x Hx].
  { destruct Ho. lia. }
  pose proof (le_value_top _ _ Ho Hx) as Hv.
  assert (Hx' : 0 <= x < 128).
  { rewrite lookup_take in Hx. case_decide; [|lia].
    unfold keypair_az in Hx. rewrite lookup_clamp in Hx.
    destruct (octets _ _ !! 31%nat) as [y|] eqn:Hy; [|done].
    cbn in Hx. injection Hx as <-.
    pose proof (Forall_lookup_octet _ _ _ (Forall_octets _ _) Hy) as Hoy.
    assert (Hall : forallb (fun y =>
               (0 <=? u8 (Z.lor (u8 (Z.land y 127)) 64)) &&
               (u8 (Z.lor (u8 (Z.land y 127)) 64) <? 128))
               (seqZ 0 256) = true) by (vm_compute; reflexivity).
    pose proof (octet_cases _ Hall y Hoy) as Hb. cbn beta in Hb.
    apply andb_true_iff in Hb as [H0 H1]. lia. }
  change (2 ^ 255) with (2 ^ 248 * 128). nia.
Qed.

Lemma top_bits_clear (S : list Z) x :
  octet_string 32 S -> 0 <= le_value S < group_order ->
  S !! 31%nat = Some x -> Z.land x 224 = 0.
Proof.
  intros HS Hv Hx. pose proof (le_value_top S x HS Hx) as Ht.
  assert (Hox : is_octet x) by (destruct HS; by eapply Forall_lookup_octet).
  assert (Hlt : x < 32).
  { unfold group_order in Hv.
    change (2 ^ 252) with (2 ^ 248 * 16) in Hv.
    assert (27742317777372353535851937790883648493 < 2 ^ 248) by reflexivity.
    nia. }
  assert (Hall : forallb (fun x => (32 <=? x) || (Z.land x 224 =? 0))
                   (seqZ 0 256) = true) by (vm_compute; reflexivity).
  pose proof (octet_cases _ Hall x Hox) as Hb. cbn beta in Hb.
  apply orb_true_iff in Hb as [Hb|Hb]; lia.
Qed.

(** What is signed with a generated key verifies under its public key. *)
Lemma sign_verify_value seed msg :
  length seed = 32%nat ->
  let pk := ED25519_public_key G seed in
  ED25519_verify_value G msg (ED25519_signature G msg (seed ++ pk)) pk = 1.
Proof.
  intros Hseed pk. set (sk := seed ++ pk).
  destruct (keypair_scalar_spec seed) as [Hao Hav].
  set (a := take 32 (keypair_az G seed)) in *.
  assert (Hpk : pk = encode_point G Mo (Z.to_nat (le_value a) ⋅ B)).
  { unfold pk, ED25519_public_key. fold a.
    rewrite (p3_tobytes_encodes G Mo), (scalarmult_base_multiplies G Mo)
      by (done || lia).
    apply octets_id; apply encode_point_octets. }
  assert (Haz : sign_az G sk = keypair_az G seed).
  { unfold sign_az, keypair_az, sk. rewrite take_app_length' by done.
    apply clamp63_clamp, Forall_octets. }
  assert (Hdrop : drop 32 sk = pk) by (unfold sk; by rewrite drop_app_length').
  set (ni := sign_nonce_input G msg sk).
  destruct (reduced_hash_spec ni) as [Hro Hrv].
  set (r := reduced_hash G ni) in *.
  assert (HL : group_order < 2 ^ 255) by reflexivity.
  assert (HR : sign_R G msg sk = encode_point G Mo (Z.to_nat (le_value r) ⋅ B)).
  { unfold sign_R. fold ni r.
    rewrite (p3_tobytes_encodes G Mo), (scalarmult_base_multiplies G Mo)
      by (done || lia).
    apply octets_id; apply encode_point_octets. }
  assert (HlR : length (sign_R G msg sk) = 32%nat) by apply length_sign_R.
  set (hi := sign_hram_input G msg sk).
  assert (Hhi : hi = sign_R G msg sk ++ pk ++ msg)
    by (unfold hi, sign_hram_input; by rewrite Hdrop).
  destruct (reduced_hash_spec hi) as [Hho Hhv].
  set (h := reduced_hash G hi) in *.
  destruct (sc_muladd_computes G Mo h a r Hho Hao Hro) as [HSo HSv].
  assert (HS : sign_S G msg sk = sc_muladd_value G h a r).
  { unfold sign_S. fold ni r hi h. rewrite Haz. fold a.
    apply octets_id; apply HSo. }
  assert (HSr : 0 <= le_value (sign_S G msg sk) < group_order).
  { rewrite HS, HSv. apply Z.mod_pos_bound. reflexivity. }
  unfold ED25519_verify_value, ED25519_signature.
  destruct (lookup_lt_is_Some_2 (sign_S G msg sk) 31) as [x Hx];
    [rewrite length_sign_S; lia|].
  rewrite lookup_app_r by lia. rewrite HlR. cbn [Nat.sub].
  rewrite Hx. change (default 0 (Some x)) with x.
  rewrite (top_bits_clear (sign_S G msg sk) x); [|by rewrite HS|done|done].
  cbn [Z.eqb negb].
  destruct (frombytes_decodes G Mo (Z.to_nat (le_value a) ⋅ B)) as (A & HA & HpA).
  rewrite Hpk at 1. rewrite HA.
  rewrite drop_app_length' by done.
  rewrite scalar_check_spec by (by rewrite HS).
  destruct (Z.ltb_spec (le_value (sign_S G msg sk)) group_order); [|lia].
  assert (Hrc : verify_rcheck G msg (sign_R G msg sk ++ sign_S G msg sk) pk A
                = sign_R G msg sk).
  { unfold verify_rcheck.
    rewrite take_app_length', drop_app_length' by done.
    rewrite <- Hhi. fold h.
    rewrite (p2_tobytes_encodes G Mo).
    rewrite (double_scalarmult_multiplies G Mo) by (done || by rewrite HS).
    rewrite (negate_XT_negates G Mo), HpA.
    rewrite HS, HSv.
    rewrite verification_equation by lia.
    rewrite HR. apply octets_id; apply encode_point_octets. }
  rewrite Hrc, take_app_length' by done.
  by rewrite (proj2 (CRYPTO_memcmp_eq _ _ eq_refl) eq_refl).
Qed.

End Roundtrip.

Lemma writable_prefix m p n n' :
  writable m p n -> (n' <= n)%nat -> writable m p n'.
Proof. intros [r Hr] Hn. eexists. by eapply read_prefix. Qed.

(** Two adjacent halves written one after the other read back as their
    concatenation. *)
Lemma read_two_halves p a b s :
  length a = 32%nat -> length b = 32%nat ->
  writable (memory s) p 64 ->
  read (memory (poke (padd p 32) b (poke p a s))) p 64 = Some (a ++ b).
Proof.
  intros Ha Hb Hw.
  assert (Hw1 : writable (memory s) p 32) by (by apply (writable_prefix _ _ 64); [|lia]).
  assert (Hw2 : writable (memory (poke p a s)) (padd p 32) 32).
  { apply writable_poke. by apply (writable_padd _ _ 64). }
  apply (read_app _ _ 32 32).
  - rewrite read_poke_separate.
    + by apply read_poke_len.
    + rewrite Hb. right. right. cbn [padd off]. lia.
  - by apply read_poke_len.
Qed.

Lemma read_keypair_from_seed G out_public out_private seed s :
  length seed = 32%nat ->
  writable (memory s) out_public 32 ->
  writable (memory s) out_private 64 ->
  separate out_public 32 out_private 64 ->
  let pk := ED25519_public_key G seed in
  let s' := push_block (keypair_az G seed)
              (poke (padd out_private 32) pk
                 (poke out_private seed (poke out_public pk s))) in
  read (memory s') out_public 32 = Some pk /\
  read (memory s') out_private 64 = Some (seed ++ pk).
Proof.
  intros Hseed Hwpub Hwpriv Hsep pk s'.
  assert (Hlpk : length pk = 32%nat) by apply length_ED25519_public_key.
  pose proof (writable_valid _ _ _ Hwpub) as Hvpub.
  pose proof (writable_valid _ _ _ Hwpriv) as Hvpriv.
  unfold s'. split.
  - rewrite read_push_block by len.
    rewrite read_poke_separate.
    2:{ rewrite Hlpk. apply separate_sym.
        apply (separate_padd_r _ _ _ 64); [done|lia]. }
    rewrite read_poke_separate.
    2:{ rewrite Hseed. apply separate_sym.
        apply (separate_shrink_r _ _ _ 64); [done|lia]. }
    by apply read_poke_len.
  - rewrite read_push_block by len.
    apply read_two_halves; [done|done|]. by apply writable_poke.
Qed.

Lemma read_signature G out_sig msg sk s l3 l2 l1 :
  writable (memory s) out_sig 64 ->
  read (memory
          (push_block l3 (push_block l2 (push_block l1
             (poke (padd out_sig 32) (sign_S G msg sk)
                (poke out_sig (sign_R G msg sk) s))))))
       out_sig 64
  = Some (ED25519_signature G msg sk).
Proof.
  intros Hw. pose proof (writable_valid _ _ _ Hw) as Hv.
  rewrite !read_push_block by len.
  apply read_two_halves; [apply length_sign_R|apply length_sign_S|done].
Qed.

(** C2. A key pair generated from a seed, a signature made with its
    private key over any message (of any length), and the verification of
    that signature with the public key: each call returns, and the
    verification returns 1. *)
Theorem ED25519_sign_then_verify
    G (Mo : ed25519_model G) s1 out_public out_private seedp seed :
  read (memory s1) seedp 32 = Some seed ->
  writable (memory s1) out_public 32 ->
  writable (memory s1) out_private 64 ->
  separate out_public 32 seedp 32 ->
  separate out_public 32 out_private 64 ->
  exists s1' pk sk,
    ED25519_keypair_from_seed G out_public out_private seedp s1
    = Returns tt s1' /\
    read (memory s1') out_public 32 = Some pk /\
    read (memory s1') out_private 64 = Some sk /\
    forall s2 out_sig message message_len private_key msg,
      read (memory s2) private_key 64 = Some sk ->
      read (memory s2) message message_len = Some msg ->
      writable (memory s2) out_sig 64 ->
      separate out_sig 64 private_key 64 ->
      separate out_sig 64 message message_len ->
      exists s2' sig,
        ED25519_sign G out_sig message message_len private_key s2
        = Returns 1 s2' /\
        read (memory s2') out_sig 64 = Some sig /\
        forall s3 signature public_key message',
          read (memory s3) signature 64 = Some sig ->
          read (memory s3) public_key 32 = Some pk ->
          read (memory s3) message' message_len = Some msg ->
          exists s3',
            ED25519_verify G message' message_len signature public_key s3
            = Returns 1 s3'.
Proof.
  intros Hseed Hwpub Hwpriv Hsep1 Hsep2.
  pose proof (read_length _ _ _ _ Hseed) as Hlen.
  destruct (read_keypair_from_seed G out_public out_private seed s1
              Hlen Hwpub Hwpriv Hsep2) as [Hpk Hsk].
  eexists _, (ED25519_public_key G seed), (seed ++ ED25519_public_key G seed).
  split; [by apply run_ED25519_keypair_from_seed|].
  split; [done|]. split; [done|].
  intros s2 out_sig message message_len private_key msg
    Hsk2 Hmsg2 Hwsig Hsep3 Hsep4.
  eexists _, (ED25519_signature G msg (seed ++ ED25519_public_key G seed)).
  split; [by apply run_ED25519_sign|].
  split; [by apply read_signature|].
  intros s3 signature public_key message' Hsig3 Hpk3 Hmsg3.
  rewrite <- (sign_verify_value Mo seed msg Hlen).
  apply run_ED25519_verify; auto.
Qed.

(** ** Scratch buffers *)

Lemma read_draw n s p m : read (memory (draw n s)) p m = read (memory s) p m.
Proof. done. Qed.

Lemma writable_draw n s p m :
  writable (memory s) p m -> writable (memory (draw n s)) p m.
Proof. done. Qed.

Lemma writable_top b s n :
  (n <= length b)%nat ->
  writable (memory (push_block b s)) (Ptr (length (memory s)) 0) n.
Proof. intros Hn. eexists. by apply read_top. Qed.

Lemma run_ED25519_keypair G out_public out_private s :
  (32 <= length (entropy s))%nat ->
  writable (memory s) out_public 32 ->
  writable (memory s) out_private 64 ->
  separate out_public 32 out_private 64 ->
  let r := octets 32 (take 32 (entropy s)) in
  exists s',
    ED25519_keypair G out_public out_private s = Returns tt s' /\
    read (memory s') (Ptr (length (memory s)) 0) 32 = Some (replicate 32 0) /\
    read (memory s') out_public 32 = Some (ED25519_public_key G r) /\
    read (memory s') out_private 64 = Some (r ++ ED25519_public_key G r).
Proof.
  intros Hent Hwpub Hwpriv Hsep r.
  assert (Hr : length r = 32%nat) by apply length_octets.
  pose proof (writable_valid _ _ _ Hwpub) as Hvpub.
  pose proof (writable_valid _ _ _ Hwpriv) as Hvpriv.
  set (seedp := Ptr (length (memory s)) 0).
  set (sa := push_block (replicate 32 0) s).
  set (sb := poke seedp r (draw 32 sa)).
  assert (Hwseed : writable (memory (draw 32 sa)) seedp 32).
  { apply writable_draw. apply writable_top. len. }
  assert (Hseed : read (memory sb) seedp 32 = Some r)
    by (by apply read_poke_len).
  assert (Hwpub' : writable (memory sb) out_public 32).
  { apply writable_poke, writable_draw. by apply writable_push_block. }
  assert (Hwpriv' : writable (memory sb) out_private 64).
  { apply writable_poke, writable_draw. by apply writable_push_block. }
  assert (Hsepseed : separate out_public 32 seedp 32).
  { left. cbn [seedp blk]. lia. }
  set (pk := ED25519_public_key G r).
  set (sc := push_block (keypair_az G r)
               (poke (padd out_private 32) pk
                  (poke out_private r (poke out_public pk sb)))).
  assert (Hlsb : length (memory sb) = S (length (memory s))).
  { unfold sb. rewrite length_poke. cbn [draw memory]. unfold sa. len. }
  assert (Hwseed' : writable (memory sc) seedp 32).
  { unfold sc. apply writable_push_block. do 3 apply writable_poke.
    by exists r. }
  exists (poke seedp (replicate 32 0) sc).
  split.
  { unfold ED25519_keypair, ED25519_SEED_LEN.
    eapply run_bind; [apply run_alloca|]. fold sa seedp.
    eapply run_bind.
    { apply run_RAND_bytes; [done|]. apply writable_top. len. }
    replace (entropy sa) with (entropy s) by done. fold r sb.
    eapply run_bind; [by apply run_ED25519_keypair_from_seed|].
    fold pk sc. apply run_store_poke. by rewrite length_replicate. }
  destruct (read_keypair_from_seed G out_public out_private r sb
              Hr Hwpub' Hwpriv' Hsep) as [Hpk Hsk].
  fold pk sc in Hpk, Hsk.
  split; [apply read_poke_len; [apply length_replicate|done]|].
  split.
  - rewrite read_poke_separate; [done|].
    left. cbn [seedp blk]. lia.
  - rewrite read_poke_separate; [done|].
    left. cbn [seedp blk]. lia.
Qed.

Lemma Forall_octet_check (l : list Z) :
  forallb (fun x => (0 <=? x) && (x <? 256)) l = true -> Forall is_octet l.
Proof.
  intros H. apply Forall_forall. intros x Hx.
  rewrite forallb_forall in H. apply list_elem_of_In in Hx.
  specialize (H x Hx). apply andb_true_iff in H as [H0 H1].
  unfold is_octet. lia.
Qed.

Lemma clamped_not_erased k n :
  (32 <= length k)%nat -> Forall is_octet k -> clamp k <> replicate n 0.
Proof.
  intros Hlen Hk Heq.
  destruct (lookup_lt_is_Some_2 k 31) as [x Hx]; [lia|].
  assert (H31 : clamp k !! 31%nat = Some (u8 (Z.lor (u8 (Z.land x 127)) 64))).
  { by rewrite lookup_clamp, Hx. }
  rewrite Heq in H31. apply lookup_replicate_1 in H31 as [H31 _].
  pose proof (Forall_lookup_octet _ _ _ Hk Hx) as Hox.
  assert (Hall : forallb (fun x => negb (u8 (Z.lor (u8 (Z.land x 127)) 64) =? 0))
                   (seqZ 0 256) = true) by (vm_compute; reflexivity).
  pose proof (octet_cases _ Hall x Hox) as Hne. cbn beta in Hne.
  rewrite H31 in Hne. done.
Qed.

Lemma keypair_az_not_erased G seed n : keypair_az G seed <> replicate n 0.
Proof.
  unfold keypair_az. apply clamped_not_erased; [len|apply Forall_octets].
Qed.

Lemma sign_az_not_erased G sk n : sign_az G sk <> replicate n 0.
Proof.
  unfold sign_az. rewrite clamp63_clamp by apply Forall_octets.
  apply clamped_not_erased; [len|apply Forall_octets].
Qed.

Lemma read_block_all b s j :
  j = length (memory s) ->
  read (memory (push_block b s)) (Ptr j 0) (length b) = Some b.
Proof.
  intros ->. apply read_fresh.
Qed.

(** A block of the call that reads as something else than the erasing
    pattern when the call is left is scratch that was not erased. *)
Lemma unerased_block (s s' : state) j n bs :
  (length (memory s) <= j)%nat ->
  read (memory s') (Ptr j 0) n = Some bs ->
  bs <> replicate n 0 ->
  ~ (forall i b, (length (memory s) <= i)%nat ->
                 memory s' !! i = Some b -> b = replicate (length b) 0).
Proof.
  intros Hj Hr Hne H. apply read_Some in Hr as (b & Hb & Hn & ->).
  cbn [blk off] in Hb, Hn. apply Hne.
  rewrite (H _ _ Hj Hb). unfold sub. rewrite drop_0, take_replicate.
  f_equal. lia.
Qed.

Lemma returns_with_scratch {A} (v : A) (s s' : state) j n bs :
  (length (memory s) <= j)%nat ->
  read (memory s') (Ptr j 0) n = Some bs ->
  bs <> replicate n 0 ->
  ~ scratch_erased s (Returns v s').
Proof. apply unerased_block. Qed.

Lemma aborts_with_scratch {A} (s s' : state) j n bs :
  (length (memory s) <= j)%nat ->
  read (memory s') (Ptr j 0) n = Some bs ->
  bs <> replicate n 0 ->
  ~ scratch_erased s (@Aborts A s').
Proof. apply unerased_block. Qed.

(** On a build with the s2n-bignum assembly the wrapper returns with the
    output written and its clamped copy in the block it allocated. *)
Lemma run_x25519_s2n_bignum P E out private_key peer s k u :
  CURVE25519_S2N_BIGNUM_CAPABLE P = true ->
  read (memory s) private_key 32 = Some k ->
  read (memory s) peer 32 = Some u ->
  writable (memory s) out 32 ->
  x25519_s2n_bignum P E out private_key peer s
  = Returns tt (poke out (X25519_shared_key P E k u) (push_block (clamp k) s)).
Proof.
  intros Hcap Hk Hu Hw.
  pose proof (run_X25519_multiply P E out private_key peer s k u Hk Hu Hw)
    as Hrun.
  rewrite capable_flag in Hrun. unfold x25519_residue in Hrun.
  by rewrite Hcap in Hrun.
Qed.

(** C8. The code does not erase the scratch buffers that held private
    scalar material.  [ED25519_sign] returns 1 with its buffers [az],
    [nonce] and [hram] holding what was computed in them,
    [ED25519_keypair_from_seed] returns with its buffer [az], and the
    wrapper [x25519_s2n_bignum] returns, or aborts on an architecture
    without a backend, with the clamped copy of the private key in
    [private_key_internal_demask]; the clamped values are never the
    erasing pattern, so each of these calls is left with scratch that is
    not erased.  Every buffer is read when the function that owns it is
    left.  The one erasing statement of the file is in [ED25519_keypair]:
    its seed buffer holds the erasing pattern when it returns. *)
Theorem private_scratch_is_left_unerased
    G P E s out_public out_private seedp out_sig message message_len
    private_key out_shared x_private peer seed sk msg k u :
  (32 <= length (entropy s))%nat ->
  writable (memory s) out_public 32 ->
  writable (memory s) out_private 64 ->
  separate out_public 32 out_private 64 ->
  read (memory s) seedp 32 = Some seed ->
  separate out_public 32 seedp 32 ->
  read (memory s) private_key 64 = Some sk ->
  read (memory s) message message_len = Some msg ->
  writable (memory s) out_sig 64 ->
  separate out_sig 64 private_key 64 ->
  separate out_sig 64 message message_len ->
  read (memory s) x_private 32 = Some k ->
  read (memory s) peer 32 = Some u ->
  writable (memory s) out_shared 32 ->
  Forall is_octet k ->
  let local0 := Ptr (length (memory s)) 0 in
  let local1 := Ptr (S (length (memory s))) 0 in
  let local2 := Ptr (S (S (length (memory s)))) 0 in
  (exists s',
      ED25519_sign G out_sig message message_len private_key s = Returns 1 s' /\
      read (memory s') local0 64 = Some (sign_az G sk) /\
      read (memory s') local1 64 = Some (sign_nonce G msg sk) /\
      read (memory s') local2 64 = Some (sign_hram G msg sk) /\
      sign_az G sk <> replicate 64 0 /\
      ~ scratch_erased s
          (ED25519_sign G out_sig message message_len private_key s))
  /\
  (exists s',
      ED25519_keypair_from_seed G out_public out_private seedp s
      = Returns tt s' /\
      read (memory s') local0 64 = Some (keypair_az G seed) /\
      keypair_az G seed <> replicate 64 0 /\
      ~ scratch_erased s
          (ED25519_keypair_from_seed G out_public out_private seedp s))
  /\
  (CURVE25519_S2N_BIGNUM_CAPABLE P = true ->
   exists s',
      x25519_s2n_bignum P E out_shared x_private peer s = Returns tt s' /\
      read (memory s') local0 32 = Some (clamp k) /\
      clamp k <> replicate 32 0 /\
      ~ scratch_erased s
          (x25519_s2n_bignum P E out_shared x_private peer s))
  /\
  (target_arch P = OPENSSL_OTHER_ARCH ->
   x25519_s2n_bignum P E out_shared x_private peer s
   = Aborts (push_block (clamp k) s) /\
   read (memory (push_block (clamp k) s)) local0 32 = Some (clamp k) /\
   ~ scratch_erased s
       (x25519_s2n_bignum P E out_shared x_private peer s))
  /\
  (exists s',
      ED25519_keypair G out_public out_private s = Returns tt s' /\
      read (memory s') local0 32 = Some (replicate 32 0)).
Proof.
  intros Hent Hwpub Hwpriv Hsep Hseed Hsepseed Hsk Hmsg Hwsig Hsep1 Hsep2
    Hk Hu Hwsh Hok local0 local1 local2.
  pose proof (read_length _ _ _ _ Hk) as Hlk.
  assert (Hclamp : clamp k <> replicate 32 0)
    by (by apply clamped_not_erased; [lia|]).
  subst local0 local1 local2.
  split; [|split; [|split; [|split]]].
  - pose proof (writable_valid _ _ _ Hwsig) as Hv.
    assert (Haz : read
              (memory
                 (push_block (sign_hram G msg sk)
                    (push_block (sign_nonce G msg sk)
                       (push_block (sign_az G sk)
                          (poke (padd out_sig 32) (sign_S G msg sk)
                             (poke out_sig (sign_R G msg sk) s))))))
              (Ptr (length (memory s)) 0) 64 = Some (sign_az G sk)).
    { rewrite !read_push_block by len.
      rewrite <- (length_sign_az G sk) at 1. apply read_block_all. len. }
    eexists. split; [by apply run_ED25519_sign|].
    split_and!.
    + done.
    + rewrite read_push_block by len.
      rewrite <- (length_sign_nonce G msg sk) at 1. apply read_block_all. len.
    + rewrite <- (length_sign_hram G msg sk) at 1. apply read_block_all. len.
    + apply sign_az_not_erased.
    + rewrite (run_ED25519_sign G out_sig message message_len private_key s
                 msg sk) by done.
      eapply returns_with_scratch; [|exact Haz|apply sign_az_not_erased].
      done.
  - assert (Haz : read
              (memory
                 (push_block (keypair_az G seed)
                    (poke (padd out_private 32) (ED25519_public_key G seed)
                       (poke out_private seed
                          (poke out_public (ED25519_public_key G seed) s)))))
              (Ptr (length (memory s)) 0) 64 = Some (keypair_az G seed)).
    { rewrite <- (length_keypair_az G seed) at 1. apply read_block_all. len. }
    eexists. split; [by apply run_ED25519_keypair_from_seed|].
    split_and!.
    + done.
    + apply keypair_az_not_erased.
    + rewrite (run_ED25519_keypair_from_seed G out_public out_private seedp s
                 seed) by done.
      cbv zeta.
      eapply returns_with_scratch; [|exact Haz|apply keypair_az_not_erased].
      done.
  - intros Hcap.
    assert (Hd : read
              (memory (poke out_shared (X25519_shared_key P E k u)
                         (push_block (clamp k) s)))
              (Ptr (length (memory s)) 0) 32 = Some (clamp k)).
    { pose proof (read_local_after_call P k s out_shared
                    (X25519_shared_key P E k u) Hcap Hlk) as Hl.
      rewrite length_X25519_shared_key in Hl. specialize (Hl Hwsh).
      unfold x25519_residue in Hl. by rewrite Hcap in Hl. }
    eexists. split; [by apply run_x25519_s2n_bignum|].
    split_and!; [done..|].
    rewrite (run_x25519_s2n_bignum P E out_shared x_private peer s k u)
      by done.
    by eapply returns_with_scratch.
  - intros Harch.
    destruct (run_s2n_dispatch P E out_shared x_private peer s k Hk) as [-> _].
    cbv zeta. rewrite Harch.
    pose proof (read_clamped_copy k s Hlk) as Hd.
    split_and!; [done..|].
    by eapply aborts_with_scratch.
  - destruct (run_ED25519_keypair G out_public out_private s
                Hent Hwpub Hwpriv Hsep) as (s' & Hrun & H0 & _).
    by exists s'.
Qed.

(** ** The example engine satisfies the contract *)

Lemma length_encode_le n v : length (encode_le n v) = n.
Proof. revert v. induction n as [|n IH]; intros v; cbn; [done|]. by rewrite IH. Qed.

Lemma Forall_encode_le n v : Forall is_octet (encode_le n v).
Proof.
  revert v. induction n as [|n IH]; intros v; cbn [encode_le]; [done|].
  constructor; [|apply IH]. apply (u8_range v).
Qed.

Lemma le_value_encode_le n v :
  le_value (encode_le n v) = v mod 2 ^ (8 * Z.of_nat n).
Proof.
  revert v. induction n as [|n IH]; intros v; cbn [encode_le le_value].
  - change (8 * Z.of_nat 0) with 0. by rewrite Z.pow_0_r, Z.mod_1_r.
  - rewrite IH.
    replace (8 * Z.of_nat (S n)) with (8 + 8 * Z.of_nat n) by lia.
    rewrite Z.pow_add_r by lia. change (2 ^ 8) with 256.
    rewrite Z.rem_mul_r; [done|lia|]. apply Z.pow_pos_nonneg; lia.
Qed.

Lemma octet_string_encode_le n v : octet_string n (encode_le n v).
Proof. split; [apply length_encode_le|apply Forall_encode_le]. Qed.

Module Exponent_facts.
Import Exponent.

Lemma group_order_pos : 0 < group_order.
Proof. reflexivity. Qed.

Lemma to_Z_of_Z x : to_Z (of_Z x) = x mod group_order.
Proof. done. Qed.

Lemma to_Z_range a : 0 <= to_Z a < group_order.
Proof. apply (proj2_dsig a). Qed.

Lemma residue_eq a b : to_Z a = to_Z b -> a = b.
Proof. intros H. by apply dsig_eq. Qed.

Lemma of_Z_to_Z a : of_Z (to_Z a) = a.
Proof.
  apply residue_eq. rewrite to_Z_of_Z. apply Z.mod_small, to_Z_range.
Qed.

Lemma of_Z_mod x : of_Z (x mod group_order) = of_Z x.
Proof. apply residue_eq. rewrite !to_Z_of_Z. apply Z.mod_mod. discriminate. Qed.

Lemma add_assoc a b c : add a (add b c) = add (add a b) c.
Proof.
  apply residue_eq. unfold add. rewrite !to_Z_of_Z.
  rewrite Zplus_mod_idemp_r, Zplus_mod_idemp_l. f_equal. lia.
Qed.

Lemma add_comm a b : add a b = add b a.
Proof. unfold add. f_equal. lia. Qed.

Lemma add_zero a : add zero a = a.
Proof.
  unfold add, zero. rewrite to_Z_of_Z. rewrite Zmod_0_l, Z.add_0_l.
  apply of_Z_to_Z.
Qed.

Lemma add_opp a : add (opp a) a = zero.
Proof.
  apply residue_eq. unfold add, opp, zero. rewrite !to_Z_of_Z.
  rewrite Zplus_mod_idemp_l. f_equal. lia.
Qed.

(** Scalar multiplication in this group is multiplication. *)
Lemma times_of_Z n a : times add zero n a = of_Z (Z.of_nat n * to_Z a).
Proof.
  induction n as [|n IH]; cbn [times].
  - done.
  - rewrite IH. apply residue_eq. unfold add. rewrite !to_Z_of_Z.
    rewrite Zplus_mod_idemp_r. f_equal. lia.
Qed.

Lemma one_order : times add zero (Z.to_nat group_order) one = zero.
Proof.
  rewrite times_of_Z. apply residue_eq. unfold one, zero.
  rewrite !to_Z_of_Z.
  rewrite Z2Nat.id by (pose proof group_order_pos; lia).
  rewrite Zmult_mod_idemp_r, Z.mul_1_r, Zmod_0_l.
  by rewrite Z.mod_same.
Qed.

Lemma encode_octets a : octet_string 32 (encode a).
Proof. apply octet_string_encode_le. Qed.

Lemma le_value_encode a : le_value (encode a) = to_Z a.
Proof.
  unfold encode. rewrite le_value_encode_le. apply Z.mod_small.
  pose proof (to_Z_range a).
  assert (group_order < 2 ^ (8 * Z.of_nat 32)) by reflexivity. lia.
Qed.

Lemma decode_encode a :
  exists A, decode (encode a) = Some A /\ ge_p3_X A = a.
Proof.
  unfold decode. rewrite le_value_encode.
  rewrite decide_True by apply to_Z_range.
  eexists. split; [done|]. apply of_Z_to_Z.
Qed.

Lemma decode_below bs :
  le_value bs < group_order -> is_Some (decode bs).
Proof. intros H. unfold decode. by rewrite decide_True. Qed.

Lemma decode_not_below bs :
  group_order <= le_value bs -> decode bs = None.
Proof. intros H. unfold decode. rewrite decide_False; [done|lia]. Qed.

Lemma le_value_reduced x :
  le_value (encode_le 32 (x mod group_order)) = x mod group_order.
Proof.
  rewrite le_value_encode_le. apply Z.mod_small.
  pose proof (Z.mod_pos_bound x group_order group_order_pos).
  assert (group_order < 2 ^ (8 * Z.of_nat 32)) by reflexivity. lia.
Qed.

Lemma multiply_base k :
  0 <= le_value k ->
  of_Z (le_value k) = times add zero (Z.to_nat (le_value k)) one.
Proof.
  intros Hk. rewrite times_of_Z, Z2Nat.id by done.
  apply residue_eq. unfold one. rewrite !to_Z_of_Z.
  by rewrite Zmult_mod_idemp_r, Z.mul_1_r.
Qed.

Lemma multiply_two a x b :
  0 <= le_value a -> 0 <= le_value b ->
  add (of_Z (le_value a * to_Z x)) (of_Z (le_value b))
  = add (times add zero (Z.to_nat (le_value a)) x)
        (times add zero (Z.to_nat (le_value b)) one).
Proof.
  intros Ha Hb. rewrite !times_of_Z, !Z2Nat.id by done.
  f_equal. apply residue_eq. unfold one. rewrite !to_Z_of_Z.
  by rewrite Zmult_mod_idemp_r, Z.mul_1_r.
Qed.

End Exponent_facts.

Module Exponent_model.
Import Exponent Exponent_facts.

Lemma scalarmult_base_ok k :
  octet_string 32 k -> le_value k < 2 ^ 255 ->
  ge_p3_X (ge_scalarmult_base engine k)
  = times add zero (Z.to_nat (le_value k)) one.
Proof.
  intros [_ Hk] _. apply multiply_base. by apply le_value_range.
Qed.

Lemma double_scalarmult_ok a (A : ge_p3 (fe engine)) b :
  octet_string 32 a -> octet_string 32 b ->
  p2_value (double_scalarmult_vartime engine a A b)
  = add (times add zero (Z.to_nat (le_value a)) (ge_p3_X A))
        (times add zero (Z.to_nat (le_value b)) one).
Proof.
  intros [_ Ha] [_ Hb]. apply multiply_two; by apply le_value_range.
Qed.

Lemma sc_reduce_ok s :
  octet_string 64 s ->
  octet_string 32 (sc_reduce engine s) /\
  le_value (sc_reduce engine s) = le_value s mod group_order.
Proof.
  intros _. split; [apply octet_string_encode_le|apply le_value_reduced].
Qed.

Lemma sc_muladd_ok a b c :
  octet_string 32 a -> octet_string 32 b -> octet_string 32 c ->
  octet_string 32 (sc_muladd_value engine a b c) /\
  le_value (sc_muladd_value engine a b c)
  = (le_value a * le_value b + le_value c) mod group_order.
Proof.
  intros _ _ _.
  split; [apply octet_string_encode_le|apply le_value_reduced].
Qed.

(** The example engine computes in the integers modulo the group
    order. *)
Lemma model : ed25519_model engine.
Proof.
  exact (Ed25519Model engine residue add opp zero one
           ge_p3_X p2_value encode
           add_assoc add_comm add_zero add_opp one_order
           encode_octets (fun _ => eq_refl) (fun _ => eq_refl)
           decode_encode (fun _ => eq_refl)
           scalarmult_base_ok double_scalarmult_ok
           sc_reduce_ok sc_muladd_ok).
Defined.

End Exponent_model.

(** ** The reference engine satisfies the contracts *)

Lemma rfc7748_clamps k u :
  Forall is_octet k -> RFC7748.X25519 (clamp k) u = RFC7748.X25519 k u.
Proof.
  intros Hk. unfold RFC7748.X25519, RFC7748.decodeScalar25519.
  by rewrite clamp_idemp.
Qed.

Lemma rfc7748_engine_conforms : x25519_engine_conforms rfc7748_engine.
Proof. by split. Qed.

Lemma rfc7748_engine_interchangeable : backends_interchangeable rfc7748_engine.
Proof.
  split; cbn [rfc7748_engine s2n_x25519_byte s2n_x25519_byte_alt
              s2n_x25519base_byte s2n_x25519base_byte_alt
              nohw_scalar_mult_generic nohw_public_from_private]; try done.
  - intros k u [_ Hk] _. by rewrite rfc7748_clamps.
  - intros k [_ Hk]. by rewrite rfc7748_clamps.
Qed.

Lemma rfc7748_engine_portable_clamps : portable_clamps rfc7748_engine.
Proof.
  split; cbn [rfc7748_engine nohw_scalar_mult_generic nohw_public_from_private].
  - intros k u [_ Hk] _. by rewrite rfc7748_clamps.
  - intros k [_ Hk]. by rewrite rfc7748_clamps.
Qed.


(** * Further properties of the translation unit *)

(** ** Frames *)

Lemma grows_refl s : grows s s.
Proof. by split. Qed.

Lemma grows_push_block b s s' : grows s s' -> grows s (push_block b s').
Proof.
  intros [He Hp]. split; [done|]. cbn [push_block memory].
  by apply prefix_app_r.
Qed.

Lemma grows_read s s' p n :
  grows s s' -> (blk p < length (memory s))%nat ->
  read (memory s') p n = read (memory s) p n.
Proof.
  intros [_ [k Hk]] Hp. unfold read. rewrite Hk.
  by rewrite lookup_app_l.
Qed.

Lemma lands_bind {A B} (c : M A) (k : A -> M B) s0 s a s1 v :
  c s = Returns a s1 -> lands s0 (k a s1) v -> lands s0 ((c ≫= k) s) v.
Proof. intros Hc (s' & Hk & Hg). exists s'. split; [by eapply run_bind|done]. Qed.

Lemma lands_ret {A} (v : A) s0 s : grows s0 s -> lands s0 ((mret v : M A) s) v.
Proof. intros Hg. by exists s. Qed.

Lemma separate_padd_l p n q m o n' :
  separate p n q m -> (o + n' <= n)%nat -> separate (padd p o) n' q m.
Proof. intros H Ho. apply separate_sym. eapply separate_padd_r; [by apply separate_sym|done]. Qed.

Lemma preserves_nil_grows s s' : grows s s' -> preserves [] s s'.
Proof. intros Hg q n Hq _. by apply grows_read. Qed.

(** ** Verification leaves the caller's memory alone *)

Lemma lands_ED25519_verify G message message_len signature public_key s
    msg sig pk :
  read (memory s) signature 64 = Some sig ->
  read (memory s) public_key 32 = Some pk ->
  read (memory s) message message_len = Some msg ->
  lands s (ED25519_verify G message message_len signature public_key s)
        (ED25519_verify_value G msg sig pk).
Proof.
  intros Hsig Hpk Hmsg.
  pose proof (read_length _ _ _ _ Hsig) as Hlen.
  pose proof (read_valid _ _ _ _ Hsig) as Hvs.
  pose proof (read_valid _ _ _ _ Hpk) as Hvp.
  pose proof (read_valid _ _ _ _ Hmsg) as Hvm.
  destruct (lookup_lt_is_Some_2 sig 63) as [s63 H63]; [lia|].
  unfold ED25519_verify, ED25519_verify_value. rewrite H63.
  change (default 0 (Some s63)) with s63.
  eapply lands_bind; [by eapply run_load8_read|].
  destruct (negb (Z.land s63 224 =? 0)); [apply lands_ret, grows_refl|].
  eapply lands_bind.
  { unfold x25519_ge_frombytes_vartime.
    eapply run_bind; [by apply run_load_read|done]. }
  destruct (ge_frombytes_vartime G pk) as [A|]; [|apply lands_ret, grows_refl].
  cbv zeta. cbn [ge_p3_X ge_p3_Y ge_p3_Z ge_p3_T].
  rewrite (run_local_copy _ public_key 32 s pk) by done.
  set (s1 := push_block pk s).
  rewrite (run_local_copy _ signature 32 s1 (take 32 sig)).
  2:{ unfold s1. rewrite read_push_block by done.
      by eapply (read_prefix _ _ 64); [|lia]. }
  set (s2 := push_block (take 32 sig) s1).
  rewrite (run_local_copy _ (padd signature 32) 32 s2 (drop 32 sig)).
  2:{ unfold s2, s1. rewrite !read_push_block by len.
      apply (read_suffix _ _ 64); [done|lia]. }
  set (s3 := push_block (drop 32 sig) s2).
  assert (Hg3 : grows s s3) by (do 3 apply grows_push_block; apply grows_refl).
  eapply lands_bind.
  { apply (run_order_loop _ 3 _ (drop 32 sig)); [|lia].
    apply read_top_all. len. }
  destruct (scalar_check (drop 32 sig) 3); [by apply lands_ret|].
  assert (H3 : forall p n, (blk p < length (memory s))%nat ->
            read (memory s3) p n = read (memory s) p n).
  { intros p n Hp. by apply grows_read. }
  eapply lands_bind.
  { apply run_SHA512_Update. rewrite H3 by done.
    by eapply (read_prefix _ _ 64); [|lia]. }
  eapply lands_bind; [apply run_SHA512_Update; by rewrite H3|].
  eapply lands_bind; [apply run_SHA512_Update; by rewrite H3|].
  cbn [SHA512_Init app]. rewrite <- app_assoc.
  rewrite run_hash_and_reduce.
  set (ctx := take 32 sig ++ pk ++ msg).
  set (hb := splice 0 _ _).
  set (s4 := push_block hb s3).
  eapply lands_bind.
  { unfold ge_double_scalarmult_vartime.
    eapply run_bind.
    { apply run_load_read. unfold s4. apply read_top. unfold hb. len. }
    eapply run_bind; [|done].
    apply run_load_read. unfold s4. rewrite read_push_block by (unfold s3; len).
    unfold s3. apply read_top_all. len. }
  eapply lands_bind; [apply run_alloca|].
  eapply lands_bind.
  { unfold x25519_ge_tobytes. apply run_store_top. len. }
  rewrite splice_all by len.
  eapply lands_bind.
  { apply run_load_read. apply read_top_all. len. }
  eapply lands_bind.
  { apply run_load_read.
    unfold s4, s3. rewrite !read_push_block by (unfold s2, s1; len).
    unfold s2. apply read_top_all. len. }
  assert (Hhb : sub 0 32 hb = reduced_hash G ctx).
  { unfold hb. rewrite <- (length_reduced_hash G ctx) at 1.
    apply sub_splice_same. len. }
  rewrite Hhb. apply lands_ret.
  do 2 apply grows_push_block. done.
Qed.

Lemma ED25519_verify_value_bool G msg sig pk :
  ED25519_verify_value G msg sig pk = 0 \/ ED25519_verify_value G msg sig pk = 1.
Proof. unfold ED25519_verify_value. repeat case_match; auto. Qed.

(** X5. [ED25519_verify] on readable inputs returns 0 or 1; it consults no
    randomness and writes to no buffer of the caller: the memory it was
    called in is a prefix of the memory it leaves, so the signature, the
    public key, the message and everything else read as before. *)
Theorem ED25519_verify_writes_nothing
    G message message_len signature public_key s msg sig pk :
  read (memory s) signature 64 = Some sig ->
  read (memory s) public_key 32 = Some pk ->
  read (memory s) message message_len = Some msg ->
  exists ok s',
    ED25519_verify G message message_len signature public_key s
    = Returns ok s' /\
    (ok = 0 \/ ok = 1) /\
    entropy s' = entropy s /\
    memory s `prefix_of` memory s' /\
    read (memory s') signature 64 = Some sig /\
    read (memory s') public_key 32 = Some pk /\
    read (memory s') message message_len = Some msg.
Proof.
  intros Hsig Hpk Hmsg.
  destruct (lands_ED25519_verify G message message_len signature public_key s
              msg sig pk Hsig Hpk Hmsg) as (s' & Hrun & Hg).
  exists (ED25519_verify_value G msg sig pk), s'.
  split; [done|]. split; [apply ED25519_verify_value_bool|].
  destruct Hg as [He Hp]. split; [done|]. split; [done|].
  assert (Hg : grows s s') by done.
  rewrite !(grows_read s s') by (done || by eapply read_valid).
  done.
Qed.

(** ** The verification equation *)

Lemma reduced_hash_value G (Mo : ed25519_model G) m :
  le_value (reduced_hash G m)
  = le_value (octets 64 (SHA512_digest G m)) mod group_order.
Proof.
  unfold reduced_hash, SHA512_DIGEST_LENGTH.
  destruct (sc_reduce_reduces G Mo (octets 64 (SHA512_digest G m)))
    as [Ho Hv]; [apply octet_string_octets|].
  rewrite octets_id by apply Ho. done.
Qed.

Lemma verify_rcheck_point G (Mo : ed25519_model G) msg sig pk A :
  octet_string 64 sig ->
  verify_rcheck G msg sig pk A
  = encode_point G Mo
      (point_add G Mo
         (times (point_add G Mo) (point_zero G Mo)
            (Z.to_nat (le_value (octets 64 (SHA512_digest G (take 32 sig ++ pk ++ msg)))
                       mod group_order))
            (point_opp G Mo (p3_point G Mo A)))
         (times (point_add G Mo) (point_zero G Mo)
            (Z.to_nat (le_value (drop 32 sig))) (base_point G Mo))).
Proof.
  intros [Hlen Hoct]. unfold verify_rcheck.
  rewrite (p2_tobytes_encodes G Mo).
  rewrite octets_id by apply encode_point_octets.
  rewrite (double_scalarmult_multiplies G Mo).
  - by rewrite (negate_XT_negates G Mo), (reduced_hash_value G Mo).
  - apply (reduced_hash_spec Mo).
  - split; [rewrite length_drop; lia|by apply Forall_drop].
Qed.

(** The result of the verification, in terms of the group. *)
Lemma verify_value_equation G (Mo : ed25519_model G) msg sig pk :
  octet_string 64 sig ->
  let R := take 32 sig in
  let S := drop 32 sig in
  let h := le_value (octets 64 (SHA512_digest G (R ++ pk ++ msg)))
           mod group_order in
  let mul n a := times (point_add G Mo) (point_zero G Mo) (Z.to_nat n) a in
  ED25519_verify_value G msg sig pk = 1 <->
  Z.land (default 0 (sig !! 63%nat)) 224 = 0 /\
  le_value S < group_order /\
  exists A,
    ge_frombytes_vartime G pk = Some A /\
    encode_point G Mo
      (point_add G Mo (mul h (point_opp G Mo (p3_point G Mo A)))
                      (mul (le_value S) (base_point G Mo))) = R.
Proof.
  intros Hos R S h mul. pose proof Hos as [Hlen Hoct].
  assert (HoS : octet_string 32 S).
  { split; [unfold S; rewrite length_drop; lia|by apply Forall_drop]. }
  unfold ED25519_verify_value. fold S R.
  rewrite (scalar_check_spec S HoS).
  destruct (Z.eqb_spec (Z.land (default 0 (sig !! 63%nat)) 224) 0) as [H0|H0];
    cbn [negb]; [|split; [done|tauto]].
  destruct (ge_frombytes_vartime G pk) as [A|];
    [|split; [done|intros (_ & _ & A & HA & _); done]].
  destruct (Z.ltb_spec (le_value S) group_order) as [HS|HS];
    [|split; [done|lia]].
  rewrite (verify_rcheck_point G Mo msg sig pk A Hos). fold R S h.
  set (rc := encode_point G Mo _).
  assert (Hlrc : length rc = length R).
  { unfold R. rewrite length_take, Hlen.
    unfold rc.
    match goal with
    | |- length (encode_point _ _ ?a) = _ =>
        by destruct (encode_point_octets G Mo a) as [-> _]
    end. }
  pose proof (CRYPTO_memcmp_eq rc R Hlrc) as Hcmp.
  destruct (Z.eqb_spec (CRYPTO_memcmp rc R) 0) as [Hz|Hz].
  - split; [|done]. intros _. split_and!; [done..|].
    exists A. split; [done|]. by apply Hcmp.
  - split; [done|]. intros (_ & _ & A' & HA' & Heq).
    injection HA' as <-. exfalso. by apply Hz, Hcmp.
Qed.

(** X6. [ED25519_verify] accepts exactly the signatures that satisfy the
    verification equation of RFC 8032: the top three bits of the last
    octet are clear, S is below the group order, the public key decodes to
    a point A, and the encoding of [h](-A) + [S]B is the R half, where h
    is the SHA-512 digest of R, the public key and the message, reduced
    modulo the group order. *)
Theorem ED25519_verify_accepts_iff
    G (Mo : ed25519_model G) message message_len signature public_key s
    msg sig pk :
  read (memory s) signature 64 = Some sig ->
  read (memory s) public_key 32 = Some pk ->
  read (memory s) message message_len = Some msg ->
  Forall is_octet sig ->
  let R := take 32 sig in
  let S := drop 32 sig in
  let h := le_value (octets 64 (SHA512_digest G (R ++ pk ++ msg)))
           mod group_order in
  let mul n a := times (point_add G Mo) (point_zero G Mo) (Z.to_nat n) a in
  exists ok s',
    ED25519_verify G message message_len signature public_key s
    = Returns ok s' /\
    (ok = 1 <->
     Z.land (default 0 (sig !! 63%nat)) 224 = 0 /\
     le_value S < group_order /\
     exists A,
       ge_frombytes_vartime G pk = Some A /\
       encode_point G Mo
         (point_add G Mo (mul h (point_opp G Mo (p3_point G Mo A)))
                         (mul (le_value S) (base_point G Mo))) = R).
Proof.
  intros Hsig Hpk Hmsg Hoct R S h mul.
  pose proof (read_length _ _ _ _ Hsig) as Hlen.
  destruct (lands_ED25519_verify G message message_len signature public_key s
              msg sig pk Hsig Hpk Hmsg) as (s' & Hrun & _).
  exists (ED25519_verify_value G msg sig pk), s'. split; [done|].
  by apply verify_value_equation.
Qed.

(** ** One S for each R *)

Lemma le_value_inj (a b : list Z) :
  length a = length b -> Forall is_octet a -> Forall is_octet b ->
  le_value a = le_value b -> a = b.
Proof.
  revert b. induction a as [|x a IH]; intros [|y b] Hlen Ha Hb Hv; try done.
  apply Forall_cons in Ha as [Hx Ha]. apply Forall_cons in Hb as [Hy Hb].
  cbn [le_value] in Hv. unfold is_octet in *.
  assert (x = y /\ le_value a = le_value b) as [-> Hv'] by lia.
  f_equal. apply IH; auto.
Qed.

Section Exact.

Context {G : ed25519_engine} (Mo : ed25519_model G).

Local Notation "a ⊕ b" := (point_add G Mo a b) (at level 50, left associativity).
Local Notation "n ⋅ a" := (times (point_add G Mo) (point_zero G Mo) n a)
  (at level 40).

Lemma point_add_cancel_l (a b c : point G Mo) : a ⊕ b = a ⊕ c -> b = c.
Proof.
  intros H.
  rewrite <- (point_add_zero G Mo b), <- (point_add_zero G Mo c).
  rewrite <- (point_add_opp G Mo a), <- !(point_add_assoc G Mo).
  by rewrite H.
Qed.

Lemma times_difference n m (a : point G Mo) :
  (n <= m)%nat -> n ⋅ a = m ⋅ a -> (m - n)%nat ⋅ a = point_zero G Mo.
Proof.
  intros Hle H.
  apply (point_add_cancel_l (n ⋅ a)).
  rewrite <- (times_plus Mo), (point_add_comm G Mo _ (point_zero G Mo)),
    (point_add_zero G Mo).
  replace (n + (m - n))%nat with m by lia. done.
Qed.

(** Below the group order, the multiples of the base point are all
    different. *)
Lemma base_multiples_differ (Hx : ed25519_model_exact G Mo) x y :
  0 <= x < group_order -> 0 <= y < group_order ->
  Z.to_nat x ⋅ base_point G Mo = Z.to_nat y ⋅ base_point G Mo -> x = y.
Proof.
  assert (Hw : forall x y, 0 <= x < group_order -> 0 <= y < group_order ->
             x <= y ->
             Z.to_nat x ⋅ base_point G Mo = Z.to_nat y ⋅ base_point G Mo ->
             x = y).
  { clear x y. intros x y Hx' Hy Hle H.
    apply times_difference in H; [|lia].
    apply (base_point_exact G Mo Hx) in H.
    replace (Z.of_nat (Z.to_nat y - Z.to_nat x)) with (y - x) in H by lia.
    rewrite Z.mod_small in H by lia. lia. }
  intros Hx' Hy H. destruct (Z.le_ge_cases x y).
  - by apply Hw.
  - symmetry. by apply Hw.
Qed.

End Exact.

(** X7. For one message, one public key and one R half there is at most
    one S half that [ED25519_verify] accepts: of two different signatures
    with the same R half, at least one is rejected.  This is what the
    range check on S is for; it holds when point encodings are unambiguous
    and the base point has exactly the group order. *)
Theorem ED25519_verify_accepts_one_S
    G (Mo : ed25519_model G) message message_len signature1 signature2
    public_key s msg sig1 sig2 pk :
  ed25519_model_exact G Mo ->
  read (memory s) signature1 64 = Some sig1 ->
  read (memory s) signature2 64 = Some sig2 ->
  read (memory s) public_key 32 = Some pk ->
  read (memory s) message message_len = Some msg ->
  Forall is_octet sig1 -> Forall is_octet sig2 ->
  take 32 sig1 = take 32 sig2 ->
  sig1 <> sig2 ->
  exists ok1 s1 ok2 s2,
    ED25519_verify G message message_len signature1 public_key s
    = Returns ok1 s1 /\
    ED25519_verify G message message_len signature2 public_key s
    = Returns ok2 s2 /\
    (ok1 = 0 \/ ok2 = 0).
Proof.
  intros Hx Hsig1 Hsig2 Hpk Hmsg Ho1 Ho2 HR Hne.
  pose proof (read_length _ _ _ _ Hsig1) as Hl1.
  pose proof (read_length _ _ _ _ Hsig2) as Hl2.
  destruct (lands_ED25519_verify G message message_len signature1 public_key s
              msg sig1 pk Hsig1 Hpk Hmsg) as (s1 & Hrun1 & _).
  destruct (lands_ED25519_verify G message message_len signature2 public_key s
              msg sig2 pk Hsig2 Hpk Hmsg) as (s2 & Hrun2 & _).
  eexists _, s1, _, s2. split; [done|]. split; [done|].
  destruct (ED25519_verify_value_bool G msg sig1 pk) as [?|H1]; [by left|].
  destruct (ED25519_verify_value_bool G msg sig2 pk) as [?|H2]; [by right|].
  exfalso. apply Hne.
  apply (verify_value_equation G Mo) in H1 as (_ & HS1 & A1 & HA1 & He1);
    [|done].
  apply (verify_value_equation G Mo) in H2 as (_ & HS2 & A2 & HA2 & He2);
    [|done].
  rewrite HA1 in HA2. injection HA2 as <-.
  rewrite <- HR in He2. cbv zeta in He1, He2.
  pose proof (eq_trans He1 (eq_sym He2)) as He.
  apply (encode_point_injective G Mo Hx), point_add_cancel_l in He.
  assert (Hd1 : Forall is_octet (drop 32 sig1)) by (by apply Forall_drop).
  assert (Hd2 : Forall is_octet (drop 32 sig2)) by (by apply Forall_drop).
  pose proof (le_value_range _ Hd1) as Hr1.
  pose proof (le_value_range _ Hd2) as Hr2.
  apply (base_multiples_differ Mo Hx) in He; [|lia..].
  apply le_value_inj in He; [|by rewrite !length_drop, Hl1, Hl2|done..].
  by rewrite <- (take_drop 32 sig1), <- (take_drop 32 sig2), HR, He.
Qed.

(** The example engine is exact: residues have one encoding, and 1 has
    exactly the group order. *)
Lemma Exponent_model_exact :
  ed25519_model_exact Exponent.engine Exponent_model.model.
Proof.
  split; cbn [encode_point point_add point_zero base_point
              Exponent_model.model].
  - intros a b H. apply Exponent_facts.residue_eq.
    by rewrite <- !Exponent_facts.le_value_encode, H.
  - intros n H.
    rewrite Exponent_facts.times_of_Z in H.
    apply (f_equal Exponent.to_Z) in H.
    rewrite !Exponent_facts.to_Z_of_Z in H.
    change (Exponent.to_Z Exponent.one) with 1 in H.
    by rewrite Z.mul_1_r in H.
Qed.

(** ** Key generation from a seed *)

Lemma preserves_keypair_state out_public out_private pk seed az s :
  length pk = 32%nat -> length seed = 32%nat ->
  preserves [(out_public, 32%nat); (out_private, 64%nat)] s
    (push_block az
       (poke (padd out_private 32) pk
          (poke out_private seed (poke out_public pk s)))).
Proof.
  intros Hpk Hseed q n Hq Hsep.
  apply Forall_cons in Hsep as [Hs1 Hsep].
  apply Forall_cons in Hsep as [Hs2 _]. cbn [fst snd] in Hs1, Hs2.
  rewrite read_push_block by len.
  rewrite read_poke_separate
    by (rewrite Hpk; apply (separate_padd_l _ 64); [done|lia]).
  rewrite read_poke_separate
    by (rewrite Hseed; apply (separate_shrink_l _ 64); [done|lia]).
  rewrite read_poke_separate by (by rewrite Hpk).
  done.
Qed.

(** X1. [ED25519_keypair_from_seed] returns with the public key in
    [out_public_key] and the seed followed by the public key in
    [out_private_key]; the public key is the encoding of the base point
    multiplied by the clamped first half of the SHA-512 digest of the
    seed.  The seed buffer and every other buffer of the caller read as
    before, and the random source is not consulted. *)
Theorem ED25519_keypair_from_seed_layout
    G out_public out_private seedp s seed :
  read (memory s) seedp 32 = Some seed ->
  writable (memory s) out_public 32 ->
  writable (memory s) out_private 64 ->
  separate out_public 32 seedp 32 ->
  separate out_public 32 out_private 64 ->
  separate out_private 64 seedp 32 ->
  exists s' pk,
    ED25519_keypair_from_seed G out_public out_private seedp s
    = Returns tt s' /\
    pk = octets 32
           (p3_tobytes G
              (ge_scalarmult_base G
                 (take 32 (clamp (octets 64 (SHA512_digest G seed)))))) /\
    read (memory s') out_public 32 = Some pk /\
    read (memory s') out_private 64 = Some (seed ++ pk) /\
    read (memory s') (padd out_private 32) 32 = Some pk /\
    read (memory s') seedp 32 = Some seed /\
    entropy s' = entropy s /\
    preserves [(out_public, 32%nat); (out_private, 64%nat)] s s'.
Proof.
  intros Hseed Hwpub Hwpriv Hsep1 Hsep2 Hsep3.
  pose proof (read_length _ _ _ _ Hseed) as Hlen.
  assert (Hlpk : length (ED25519_public_key G seed) = 32%nat)
    by apply length_ED25519_public_key.
  destruct (read_keypair_from_seed G out_public out_private seed s
              Hlen Hwpub Hwpriv Hsep2) as [Hpk Hsk].
  pose proof (preserves_keypair_state out_public out_private
                (ED25519_public_key G seed) seed (keypair_az G seed) s
                Hlpk Hlen) as Hframe.
  eexists _, (ED25519_public_key G seed).
  split; [by apply run_ED25519_keypair_from_seed|].
  split; [done|]. split; [done|]. split; [done|].
  split.
  { apply (read_suffix _ _ 64 _ 32) in Hsk; [|lia].
    by rewrite drop_app_length' in Hsk. }
  split; [|split; [|done]].
  2:{ cbn [push_block entropy]. by rewrite !entropy_poke. }
  rewrite Hframe; [done|by eapply read_valid|].
  by repeat apply Forall_cons_2; [..|apply Forall_nil_2].
Qed.

(** ** Key generation from the random source *)

(** The state [ED25519_keypair] leaves: the seed block, erased, and the
    state [ED25519_keypair_from_seed] leaves. *)
Lemma run_ED25519_keypair_state G out_public out_private s :
  (32 <= length (entropy s))%nat ->
  writable (memory s) out_public 32 ->
  writable (memory s) out_private 64 ->
  separate out_public 32 out_private 64 ->
  let r := octets 32 (take 32 (entropy s)) in
  let pk := ED25519_public_key G r in
  let seedp := Ptr (length (memory s)) 0 in
  let sb := poke seedp r (draw 32 (push_block (replicate 32 0) s)) in
  ED25519_keypair G out_public out_private s
  = Returns tt
      (poke seedp (replicate 32 0)
         (push_block (keypair_az G r)
            (poke (padd out_private 32) pk
               (poke out_private r (poke out_public pk sb))))).
Proof.
  intros Hent Hwpub Hwpriv Hsep r pk seedp sb.
  assert (Hr : length r = 32%nat) by apply length_octets.
  set (sa := push_block (replicate 32 0) s) in *.
  assert (Hwseed : writable (memory (draw 32 sa)) seedp 32).
  { apply writable_draw. apply writable_top. len. }
  assert (Hseed : read (memory sb) seedp 32 = Some r)
    by (by apply read_poke_len).
  assert (Hwpub' : writable (memory sb) out_public 32).
  { apply writable_poke, writable_draw. by apply writable_push_block. }
  assert (Hwpriv' : writable (memory sb) out_private 64).
  { apply writable_poke, writable_draw. by apply writable_push_block. }
  assert (Hsepseed : separate out_public 32 seedp 32).
  { left. pose proof (writable_valid _ _ _ Hwpub). cbn [seedp blk]. lia. }
  unfold ED25519_keypair, ED25519_SEED_LEN.
  eapply run_bind; [apply run_alloca|]. fold sa seedp.
  eapply run_bind.
  { apply run_RAND_bytes; [done|]. apply writable_top. len. }
  replace (entropy sa) with (entropy s) by done. fold r sb.
  eapply run_bind; [by apply run_ED25519_keypair_from_seed|].
  fold pk. apply run_store_poke. rewrite length_replicate.
  apply writable_push_block. do 3 apply writable_poke. by exists r.
Qed.

(** X2. [ED25519_keypair] draws exactly 32 octets from the random source
    and delivers the key pair of that seed: the private key is the seed
    followed by the public key, and the public key is the one
    [ED25519_keypair_from_seed] derives from the seed.  No other buffer of
    the caller is written. *)
Theorem ED25519_keypair_draws_one_seed G out_public out_private s :
  (32 <= length (entropy s))%nat ->
  writable (memory s) out_public 32 ->
  writable (memory s) out_private 64 ->
  separate out_public 32 out_private 64 ->
  let seed := octets 32 (take 32 (entropy s)) in
  exists s' pk,
    ED25519_keypair G out_public out_private s = Returns tt s' /\
    entropy s' = drop 32 (entropy s) /\
    pk = octets 32
           (p3_tobytes G
              (ge_scalarmult_base G
                 (take 32 (clamp (octets 64 (SHA512_digest G seed)))))) /\
    read (memory s') out_public 32 = Some pk /\
    read (memory s') out_private 64 = Some (seed ++ pk) /\
    preserves [(out_public, 32%nat); (out_private, 64%nat)] s s' /\
    forall s0 seedp,
      read (memory s0) seedp 32 = Some seed ->
      writable (memory s0) out_public 32 ->
      writable (memory s0) out_private 64 ->
      separate out_public 32 seedp 32 ->
      exists s0',
        ED25519_keypair_from_seed G out_public out_private seedp s0
        = Returns tt s0' /\
        read (memory s0') out_public 32 = Some pk /\
        read (memory s0') out_private 64 = Some (seed ++ pk).
Proof.
  intros Hent Hwpub Hwpriv Hsep seed.
  pose proof (run_ED25519_keypair_state G out_public out_private s
                Hent Hwpub Hwpriv Hsep) as Hrun.
  cbv zeta in Hrun. fold seed in Hrun.
  set (pk := ED25519_public_key G seed) in *.
  set (seedp := Ptr (length (memory s)) 0) in *.
  set (sb := poke seedp seed (draw 32 (push_block (replicate 32 0) s))) in *.
  assert (Hr : length seed = 32%nat) by apply length_octets.
  assert (Hlpk : length pk = 32%nat) by apply length_ED25519_public_key.
  pose proof (writable_valid _ _ _ Hwpub) as Hvpub.
  pose proof (writable_valid _ _ _ Hwpriv) as Hvpriv.
  assert (Hlsb : length (memory sb) = S (length (memory s))).
  { unfold sb. rewrite length_poke. cbn [draw memory]. len. }
  assert (Hwpub' : writable (memory sb) out_public 32).
  { apply writable_poke, writable_draw. by apply writable_push_block. }
  assert (Hwpriv' : writable (memory sb) out_private 64).
  { apply writable_poke, writable_draw. by apply writable_push_block. }
  destruct (read_keypair_from_seed G out_public out_private seed sb
              Hr Hwpub' Hwpriv' Hsep) as [Hpk Hsk].
  fold pk in Hpk, Hsk.
  pose proof (preserves_keypair_state out_public out_private pk seed
                (keypair_az G seed) sb Hlpk Hr) as Hframe.
  eexists _, pk. split; [exact Hrun|].
  split.
  { rewrite entropy_poke. cbn [push_block entropy]. rewrite !entropy_poke.
    unfold sb. by rewrite entropy_poke. }
  split; [done|].
  split.
  { rewrite read_poke_separate; [done|]. left. cbn [seedp blk]. lia. }
  split.
  { rewrite read_poke_separate; [done|]. left. cbn [seedp blk]. lia. }
  split.
  { intros q n Hq Hsepq.
    rewrite read_poke_separate by (left; cbn [seedp blk]; lia).
    rewrite Hframe; [|lia|done].
    unfold sb. rewrite read_poke_separate by (left; cbn [seedp blk]; lia).
    rewrite read_draw. by apply read_push_block. }
  intros s0 seedp0 Hseed0 Hwpub0 Hwpriv0 Hsep0.
  destruct (read_keypair_from_seed G out_public out_private seed s0
              Hr Hwpub0 Hwpriv0 Hsep) as [Hpk0 Hsk0].
  eexists. split; [by apply run_ED25519_keypair_from_seed|]. done.
Qed.

(** ** Signing *)

Lemma read_top_block b s j n :
  j = length (memory s) -> length b = n ->
  read (memory (push_block b s)) (Ptr j 0) n = Some b.
Proof. intros -> <-. by apply read_top_all. Qed.

Lemma preserves_sign_state out_sig R S l1 l2 l3 s :
  length R = 32%nat -> length S = 32%nat ->
  preserves [(out_sig, 64%nat)] s
    (push_block l3 (push_block l2 (push_block l1
       (poke (padd out_sig 32) S (poke out_sig R s))))).
Proof.
  intros HR HS q n Hq Hsep.
  apply Forall_cons in Hsep as [Hs1 _]. cbn [fst snd] in Hs1.
  rewrite !read_push_block by len.
  rewrite read_poke_separate
    by (rewrite HS; apply (separate_padd_l _ 64); [done|lia]).
  rewrite read_poke_separate
    by (rewrite HR; apply (separate_shrink_l _ 64); [done|lia]).
  done.
Qed.

(** X3. [ED25519_sign] returns 1 whatever the key and the message.  It
    consults no randomness and writes the 64 octets of the signature and
    nothing else of the caller's memory: the private key, the message and
    every buffer separate from [out_sig] read as before.  The signature
    is a function of the octets of the key and of the message: the same
    call on the same octets in another memory and at other addresses
    gives the same signature. *)
Theorem ED25519_sign_writes_only_signature
    G out_sig message message_len private_key s msg sk :
  read (memory s) private_key 64 = Some sk ->
  read (memory s) message message_len = Some msg ->
  writable (memory s) out_sig 64 ->
  separate out_sig 64 private_key 64 ->
  separate out_sig 64 message message_len ->
  exists s' sig,
    ED25519_sign G out_sig message message_len private_key s = Returns 1 s' /\
    read (memory s') out_sig 64 = Some sig /\
    read (memory s') private_key 64 = Some sk /\
    read (memory s') message message_len = Some msg /\
    entropy s' = entropy s /\
    preserves [(out_sig, 64%nat)] s s' /\
    forall s0 out_sig0 message0 private_key0,
      read (memory s0) private_key0 64 = Some sk ->
      read (memory s0) message0 message_len = Some msg ->
      writable (memory s0) out_sig0 64 ->
      separate out_sig0 64 private_key0 64 ->
      separate out_sig0 64 message0 message_len ->
      exists s0',
        ED25519_sign G out_sig0 message0 message_len private_key0 s0
        = Returns 1 s0' /\
        read (memory s0') out_sig0 64 = Some sig.
Proof.
  intros Hsk Hmsg Hw Hsep1 Hsep2.
  pose proof (preserves_sign_state out_sig (sign_R G msg sk) (sign_S G msg sk)
                (sign_az G sk) (sign_nonce G msg sk) (sign_hram G msg sk) s
                (length_sign_R G msg sk) (length_sign_S G msg sk)) as Hframe.
  eexists _, (ED25519_signature G msg sk).
  split; [by apply run_ED25519_sign|].
  split; [by apply read_signature|].
  split.
  { rewrite Hframe; [done|by eapply read_valid|].
    by apply Forall_cons_2; [|apply Forall_nil_2]. }
  split.
  { rewrite Hframe; [done|by eapply read_valid|].
    by apply Forall_cons_2; [|apply Forall_nil_2]. }
  split.
  { cbn [push_block entropy]. by rewrite !entropy_poke. }
  split; [done|].
  intros s0 out_sig0 message0 private_key0 Hsk0 Hmsg0 Hw0 Hsep10 Hsep20.
  eexists. split; [by apply run_ED25519_sign|]. by apply read_signature.
Qed.

Lemma sign_scalar_octets G sk : octet_string 32 (take 32 (sign_az G sk)).
Proof.
  split; [rewrite length_take, length_sign_az; lia|].
  apply Forall_take. unfold sign_az.
  rewrite clamp63_clamp by apply Forall_octets.
  apply Forall_clamp, Forall_octets.
Qed.

(** X4. Every signature [ED25519_sign] writes is well formed: its octets
    are octets, its S half is below the group order, the top three bits of
    its last octet are clear and its R half decodes to a point.  So a
    signature is never rejected by the checks [ED25519_verify] makes
    before it evaluates the verification equation. *)
Theorem ED25519_sign_emits_canonical_signature
    G (Mo : ed25519_model G) out_sig message message_len private_key s
    msg sk :
  read (memory s) private_key 64 = Some sk ->
  read (memory s) message message_len = Some msg ->
  writable (memory s) out_sig 64 ->
  separate out_sig 64 private_key 64 ->
  separate out_sig 64 message message_len ->
  exists s' sig,
    ED25519_sign G out_sig message message_len private_key s = Returns 1 s' /\
    read (memory s') out_sig 64 = Some sig /\
    Forall is_octet sig /\
    0 <= le_value (drop 32 sig) < group_order /\
    Z.land (default 0 (sig !! 63%nat)) 224 = 0 /\
    is_Some (ge_frombytes_vartime G (take 32 sig)) /\
    scalar_check (drop 32 sig) 3 = loop_break.
Proof.
  intros Hsk Hmsg Hw Hsep1 Hsep2.
  eexists _, (ED25519_signature G msg sk).
  split; [by apply run_ED25519_sign|].
  split; [by apply read_signature|].
  pose proof (length_sign_R G msg sk) as HlR.
  pose proof (length_sign_S G msg sk) as HlS.
  destruct (reduced_hash_spec Mo (sign_hram_input G msg sk)) as [Hho _].
  destruct (reduced_hash_spec Mo (sign_nonce_input G msg sk)) as [Hro _].
  destruct (sc_muladd_computes G Mo _ _ _ Hho (sign_scalar_octets G sk) Hro)
    as [HSo HSv].
  assert (HS : sign_S G msg sk
               = sc_muladd_value G (reduced_hash G (sign_hram_input G msg sk))
                   (take 32 (sign_az G sk))
                   (reduced_hash G (sign_nonce_input G msg sk))).
  { unfold sign_S. apply octets_id; apply HSo. }
  assert (HSr : 0 <= le_value (sign_S G msg sk) < group_order).
  { rewrite HS, HSv. apply Z.mod_pos_bound. reflexivity. }
  assert (HoS : octet_string 32 (sign_S G msg sk)) by (by rewrite HS).
  unfold ED25519_signature.
  rewrite take_app_length', drop_app_length' by done.
  split.
  { apply Forall_app. split; [apply Forall_octets|apply HoS]. }
  split; [done|].
  split.
  { destruct (lookup_lt_is_Some_2 (sign_S G msg sk) 31) as [x Hx]; [lia|].
    rewrite lookup_app_r by lia. rewrite HlR. cbn [Nat.sub]. rewrite Hx.
    by apply (top_bits_clear (sign_S G msg sk)). }
  split.
  { unfold sign_R. rewrite (p3_tobytes_encodes G Mo).
    rewrite octets_id by apply encode_point_octets.
    destruct (frombytes_decodes G Mo
      (p3_point G Mo (ge_scalarmult_base G
         (reduced_hash G (sign_nonce_input G msg sk))))) as (A & -> & _).
    done. }
  rewrite scalar_check_spec by done.
  destruct (Z.ltb_spec (le_value (sign_S G msg sk)) group_order); [done|lia].
Qed.

(** X13. [ED25519_sign] masks octet 31 of its digest with 63 and
    [ED25519_keypair_from_seed] with 127, and both then set bit 6: the two
    buffers [az] hold the same octets.  So the scalar a signature is made
    with is the scalar the public key was derived from. *)
Theorem ED25519_sign_uses_the_scalar_of_the_key
    G s1 out_public out_private seedp seed
    s2 out_sig message message_len private_key msg sk :
  read (memory s1) seedp 32 = Some seed ->
  writable (memory s1) out_public 32 ->
  writable (memory s1) out_private 64 ->
  separate out_public 32 seedp 32 ->
  separate out_public 32 out_private 64 ->
  read (memory s2) private_key 64 = Some sk ->
  read (memory s2) message message_len = Some msg ->
  writable (memory s2) out_sig 64 ->
  separate out_sig 64 private_key 64 ->
  separate out_sig 64 message message_len ->
  take 32 sk = seed ->
  exists s1' s2' az,
    ED25519_keypair_from_seed G out_public out_private seedp s1
    = Returns tt s1' /\
    ED25519_sign G out_sig message message_len private_key s2
    = Returns 1 s2' /\
    read (memory s1') (Ptr (length (memory s1)) 0) 64 = Some az /\
    read (memory s2') (Ptr (length (memory s2)) 0) 64 = Some az /\
    az = clamp (octets 64 (SHA512_digest G seed)).
Proof.
  intros Hseed Hwpub Hwpriv Hsep1 Hsep2 Hsk Hmsg Hw Hsep3 Hsep4 Htake.
  eexists _, _, (keypair_az G seed).
  split; [by apply run_ED25519_keypair_from_seed|].
  split; [by apply run_ED25519_sign|].
  split.
  { apply read_top_block; [by rewrite !length_poke|apply length_keypair_az]. }
  split; [|done].
  assert (Haz : sign_az G sk = keypair_az G seed).
  { unfold sign_az, keypair_az. rewrite Htake.
    apply clamp63_clamp, Forall_octets. }
  rewrite !read_push_block by len.
  rewrite Haz.
  apply read_top_block; [by rewrite !length_poke|apply length_keypair_az].
Qed.

(** ** The X25519 entry points *)

Lemma preserves_call P k s out o :
  writable (memory s) out (length o) ->
  preserves [(out, length o)] s (poke out o (x25519_residue P k s)).
Proof.
  intros Hw q n Hq Hsep.
  apply Forall_cons in Hsep as [Hs1 _]. cbn [fst snd] in Hs1.
  by apply read_after_call.
Qed.

Lemma entropy_residue P k s : entropy (x25519_residue P k s) = entropy s.
Proof. unfold x25519_residue. by destruct (CURVE25519_S2N_BIGNUM_CAPABLE P). Qed.

(** X8. [X25519] and [X25519_public_from_private] write the 32 octets of
    their output buffer and nothing else of the caller's memory, whatever
    the build and the CPU: every buffer separate from the output reads as
    before, the peer value included, and the random source is not
    consulted. *)
Theorem X25519_writes_only_output P E out private_key peer s k u :
  read (memory s) private_key 32 = Some k ->
  read (memory s) peer 32 = Some u ->
  writable (memory s) out 32 ->
  (exists ok s',
      X25519 P E out private_key peer s = Returns ok s' /\
      entropy s' = entropy s /\
      preserves [(out, 32%nat)] s s' /\
      (separate out 32 peer 32 -> read (memory s') peer 32 = Some u))
  /\
  (exists s',
      X25519_public_from_private P E out private_key s = Returns tt s' /\
      entropy s' = entropy s /\
      preserves [(out, 32%nat)] s s').
Proof.
  intros Hk Hu Hw. split.
  - pose proof (preserves_call P k s out (X25519_shared_key P E k u)) as Hf.
    rewrite length_X25519_shared_key in Hf.
    eexists _, _. split; [by apply run_X25519|].
    split; [by rewrite entropy_poke, entropy_residue|].
    split; [by apply Hf|].
    intros Hsep. rewrite Hf; [done|done|by eapply read_valid|].
    by apply Forall_cons_2; [|apply Forall_nil_2].
  - pose proof (preserves_call P k s out (X25519_public_value P E k)) as Hf.
    rewrite length_X25519_public_value in Hf.
    eexists. split; [by apply run_X25519_public_from_private|].
    split; [by rewrite entropy_poke, entropy_residue|].
    by apply Hf.
Qed.

(** X9. On the s2n-bignum path the scalar is copied before anything is
    written, so [X25519] can compute in place: called with the private-key
    buffer as output buffer it returns what it returns with a separate
    output buffer and leaves the same shared key, in the buffer the key
    was in. *)
Theorem X25519_in_place P E key peer s k u :
  CURVE25519_S2N_BIGNUM_CAPABLE P = true ->
  read (memory s) key 32 = Some k ->
  read (memory s) peer 32 = Some u ->
  separate key 32 peer 32 ->
  exists ok s' shared,
    X25519 P E key key peer s = Returns ok s' /\
    read (memory s') key 32 = Some shared /\
    read (memory s') peer 32 = Some u /\
    forall out, writable (memory s) out 32 ->
      exists s'',
        X25519 P E out key peer s = Returns ok s'' /\
        read (memory s'') out 32 = Some shared.
Proof.
  intros Hcap Hk Hu Hsep.
  assert (Hw : writable (memory s) key 32) by (by exists k).
  eexists _, _, (X25519_shared_key P E k u).
  split; [by apply run_X25519|].
  split.
  { apply read_poke_len; [apply length_X25519_shared_key|].
    by apply writable_residue. }
  split.
  { rewrite read_after_call; rewrite ?length_X25519_shared_key;
      [done|done|by eapply read_valid|done]. }
  intros out Hwout. eexists. split; [by apply run_X25519|].
  apply read_poke_len; [apply length_X25519_shared_key|].
  by apply writable_residue.
Qed.

(** ** The stored X25519 private key *)

Lemma run_X25519_keypair P E out_public out_private s :
  (32 <= length (entropy s))%nat ->
  writable (memory s) out_private 32 ->
  writable (memory s) out_public 32 ->
  let r := octets 32 (take 32 (entropy s)) in
  let s2 := poke out_private (unmask r) (draw 32 s) in
  X25519_keypair P E out_public out_private s
  = Returns tt (poke out_public (X25519_public_value P E (unmask r))
                  (x25519_residue P (unmask r) s2)).
Proof.
  intros Hent Hwpriv Hwpub r s2.
  assert (Hlen : length r = 32%nat) by apply length_octets.
  unfold X25519_keypair.
  eapply run_bind; [by apply run_RAND_bytes|]. fold r.
  rewrite (run_unmask out_private _ r).
  - rewrite poke_poke by (by rewrite length_unmask). fold s2.
    apply run_X25519_public_from_private.
    + apply read_poke_len; [by rewrite length_unmask|done].
    + by apply writable_poke.
  - apply read_poke_len; done.
Qed.

Lemma unmask_not_clamped r :
  length r = 32%nat -> Forall is_octet r -> clamp (unmask r) <> unmask r.
Proof.
  intros Hlen Hr Heq.
  destruct (lookup_lt_is_Some_2 r 0) as [y Hy]; [lia|].
  pose proof (Forall_lookup_octet _ _ _ Hr Hy) as Hoy.
  assert (H0 : clamp (unmask r) !! 0%nat = unmask r !! 0%nat) by (by rewrite Heq).
  rewrite lookup_clamp, unmask_octets, Hy in H0 by done.
  cbn in H0. injection H0 as H0.
  assert (Hall : forallb (fun y => negb (u8 (Z.land (Z.lor y 7) 248) =? Z.lor y 7))
                   (seqZ 0 256) = true) by (vm_compute; reflexivity).
  pose proof (octet_cases _ Hall y Hoy) as Hb. cbn beta in Hb.
  rewrite H0, Z.eqb_refl in Hb. done.
Qed.

(** X10. The private key [X25519_keypair] stores is never a correctly
    masked scalar: whatever the random source delivers, clamping the
    stored key changes it.  The call writes the two output buffers and
    nothing else of the caller's memory. *)
Theorem X25519_keypair_key_is_never_clamped P E out_public out_private s :
  (32 <= length (entropy s))%nat ->
  writable (memory s) out_private 32 ->
  writable (memory s) out_public 32 ->
  separate out_public 32 out_private 32 ->
  exists s' stored,
    X25519_keypair P E out_public out_private s = Returns tt s' /\
    read (memory s') out_private 32 = Some stored /\
    Forall is_octet stored /\
    clamp stored <> stored /\
    preserves [(out_public, 32%nat); (out_private, 32%nat)] s s'.
Proof.
  intros Hent Hwpriv Hwpub Hsep.
  set (r := octets 32 (take 32 (entropy s))).
  assert (Hlen : length r = 32%nat) by apply length_octets.
  assert (Hoct : Forall is_octet r) by apply Forall_octets.
  assert (Hlu : length (unmask r) = 32%nat) by (by rewrite length_unmask).
  set (s2 := poke out_private (unmask r) (draw 32 s)).
  assert (Hread2 : read (memory s2) out_private 32 = Some (unmask r)).
  { apply read_poke_len; done. }
  assert (Hw2 : writable (memory s2) out_public 32) by (by apply writable_poke).
  eexists _, (unmask r).
  split; [by apply run_X25519_keypair|]. fold r s2.
  split.
  { rewrite read_after_call; rewrite ?length_X25519_public_value;
      [done|done|by eapply read_valid|done]. }
  split; [by apply Forall_unmask|].
  split; [by apply unmask_not_clamped|].
  intros q n Hq Hsepq.
  apply Forall_cons in Hsepq as [Hs1 Hsepq].
  apply Forall_cons in Hsepq as [Hs2 _]. cbn [fst snd] in Hs1, Hs2.
  rewrite read_after_call; rewrite ?length_X25519_public_value;
    [|done|by (unfold s2; rewrite length_poke)|done].
  unfold s2. rewrite read_poke_separate by (by rewrite Hlu).
  apply read_draw.
Qed.

(** ** Builds without the assembly *)

(** X11. Where the s2n-bignum assembly is not compiled in, the two
    wrappers that call it never return: on x86_64 and aarch64 they reach a
    stub that aborts, elsewhere they abort themselves.  The output buffer
    is not written.  The public entry points do not get there: they run
    the portable routines and return. *)
Theorem s2n_bignum_wrappers_abort_without_assembly
    P E out private_key peer s k u :
  CURVE25519_S2N_BIGNUM_CAPABLE P = false ->
  read (memory s) private_key 32 = Some k ->
  read (memory s) peer 32 = Some u ->
  writable (memory s) out 32 ->
  x25519_s2n_bignum P E out private_key peer s
  = Aborts (push_block (clamp k) s) /\
  x25519_s2n_bignum_public_from_private P E out private_key s
  = Aborts (push_block (clamp k) s) /\
  (forall res scalar point s0,
     curve25519_x25519_byte P E res scalar point s0 = Aborts s0 /\
     curve25519_x25519_byte_alt P E res scalar point s0 = Aborts s0 /\
     curve25519_x25519base_byte P E res scalar s0 = Aborts s0 /\
     curve25519_x25519base_byte_alt P E res scalar s0 = Aborts s0) /\
  (exists ok s',
     X25519 P E out private_key peer s = Returns ok s' /\
     read (memory s') out 32 = Some (octets 32 (nohw_scalar_mult_generic E k u)))
  /\
  (exists s',
     X25519_public_from_private P E out private_key s = Returns tt s' /\
     read (memory s') out 32 = Some (octets 32 (nohw_public_from_private E k))).
Proof.
  intros Hcap Hk Hu Hw.
  assert (Hstub : forall res scalar point s0,
     curve25519_x25519_byte P E res scalar point s0 = Aborts s0 /\
     curve25519_x25519_byte_alt P E res scalar point s0 = Aborts s0 /\
     curve25519_x25519base_byte P E res scalar s0 = Aborts s0 /\
     curve25519_x25519base_byte_alt P E res scalar s0 = Aborts s0).
  { intros. unfold curve25519_x25519_byte, curve25519_x25519_byte_alt,
      curve25519_x25519base_byte, curve25519_x25519base_byte_alt.
    by rewrite Hcap. }
  split_and!; [| |done| |].
  - unfold x25519_s2n_bignum. rewrite (run_local_demask _ _ _ _ Hk).
    destruct (target_arch P); [| |done]; repeat case_match; try done;
      apply Hstub.
  - unfold x25519_s2n_bignum_public_from_private.
    rewrite (run_local_demask _ _ _ _ Hk).
    destruct (target_arch P); [| |done]; repeat case_match; try done;
      apply (Hstub _ _ peer).
  - eexists _, _. split; [by apply run_X25519|].
    unfold x25519_residue, X25519_shared_key. rewrite Hcap.
    apply read_poke_len; [apply length_octets|done].
  - eexists. split; [by apply run_X25519_public_from_private|].
    unfold x25519_residue, X25519_public_value. rewrite Hcap.
    apply read_poke_len; [apply length_octets|done].
Qed.

(** ** The routine a build and a CPU select *)

(** X12. The routine behind [X25519] and [X25519_public_from_private], in
    terms of the build flags and the CPU probes.  With the assembly
    compiled in (x86_64 with a recent assembler or aarch64, Linux or Apple,
    assembly not switched off) an x86_64 CPU that reports both BMI2 and ADX
    runs the no-alt routine and any other x86_64 CPU the alt routine; an
    aarch64 CPU with a wide multiplier runs the alt routine and any other
    aarch64 CPU the no-alt routine; each is given the clamped copy of the
    key.  Every other build runs the portable routine on the key as it
    is. *)
Theorem X25519_routine_by_build_and_cpu P E out private_key peer s k u :
  read (memory s) private_key 32 = Some k ->
  read (memory s) peer 32 = Some u ->
  writable (memory s) out 32 ->
  let assembly :=
    negb (OPENSSL_NO_ASM P) &&
    match target_os P with OPENSSL_OTHER_OS => false | _ => true end in
  let bmi2_adx :=
    (CRYPTO_is_BMI2_capable P =? 1) && (CRYPTO_is_ADX_capable P =? 1) in
  let wide := CRYPTO_is_ARMv8_wide_multiplier_capable P =? 1 in
  exists ok s1 s2,
    X25519 P E out private_key peer s = Returns ok s1 /\
    X25519_public_from_private P E out private_key s = Returns tt s2 /\
    read (memory s1) out 32 = Some (octets 32
      match target_arch P with
      | OPENSSL_X86_64 =>
          if assembly && negb (MY_ASSEMBLER_IS_TOO_OLD_FOR_AVX P) then
            if bmi2_adx then s2n_x25519_byte E (clamp k) u
            else s2n_x25519_byte_alt E (clamp k) u
          else nohw_scalar_mult_generic E k u
      | OPENSSL_AARCH64 =>
          if assembly then
            if wide then s2n_x25519_byte_alt E (clamp k) u
            else s2n_x25519_byte E (clamp k) u
          else nohw_scalar_mult_generic E k u
      | OPENSSL_OTHER_ARCH => nohw_scalar_mult_generic E k u
      end) /\
    read (memory s2) out 32 = Some (octets 32
      match target_arch P with
      | OPENSSL_X86_64 =>
          if assembly && negb (MY_ASSEMBLER_IS_TOO_OLD_FOR_AVX P) then
            if bmi2_adx then s2n_x25519base_byte E (clamp k)
            else s2n_x25519base_byte_alt E (clamp k)
          else nohw_public_from_private E k
      | OPENSSL_AARCH64 =>
          if assembly then
            if wide then s2n_x25519base_byte_alt E (clamp k)
            else s2n_x25519base_byte E (clamp k)
          else nohw_public_from_private E k
      | OPENSSL_OTHER_ARCH => nohw_public_from_private E k
      end).
Proof.
  intros Hk Hu Hw assembly bmi2_adx wide.
  eexists _, _, _.
  split; [by apply run_X25519|].
  split; [by apply run_X25519_public_from_private|].
  split.
  - rewrite read_poke_len;
      [|apply length_X25519_shared_key|by apply writable_residue].
    f_equal. unfold X25519_shared_key. f_equal.
    unfold CURVE25519_S2N_BIGNUM_CAPABLE, is_x86_64, is_aarch64,
      is_linux_or_apple, x25519_s2n_bignum_no_alt_capable,
      x25519_s2n_bignum_alt_capable, assembly, bmi2_adx, wide.
    destruct P as [[] [] [] [] w b a]; cbn; repeat case_match; done.
  - rewrite read_poke_len;
      [|apply length_X25519_public_value|by apply writable_residue].
    f_equal. unfold X25519_public_value. f_equal.
    unfold CURVE25519_S2N_BIGNUM_CAPABLE, is_x86_64, is_aarch64,
      is_linux_or_apple, x25519_s2n_bignum_no_alt_capable,
      x25519_s2n_bignum_alt_capable, assembly, bmi2_adx, wide.
    destruct P as [[] [] [] [] w b a]; cbn; repeat case_match; done.
Qed.

(** ** The two tests on S *)

(** X14. The first test of [ED25519_verify], on the top three bits of the
    last octet of the signature, is an early exit only: an S half with one
    of these bits set is at least 2^253, and the range-check loop leaves
    the function with 0 on it as well. *)
Theorem top_bits_test_is_subsumed_by_range_check scopy s0 S x :
  read (memory s0) scopy 32 = Some S ->
  Forall is_octet S ->
  S !! 31%nat = Some x ->
  Z.land x 224 <> 0 ->
  2 ^ 253 <= le_value S /\
  order_loop scopy 3 s0 = Returns loop_return_0 s0.
Proof.
  intros HS Hoct Hx Hbits.
  pose proof (read_length _ _ _ _ HS) as Hlen.
  assert (HoS : octet_string 32 S) by done.
  pose proof (le_value_top S x HoS Hx) as Ht.
  assert (Hox : is_octet x) by (by eapply Forall_lookup_octet).
  assert (Hall : forallb (fun x => (32 <=? x) || (Z.land x 224 =? 0))
                   (seqZ 0 256) = true) by (vm_compute; reflexivity).
  pose proof (octet_cases _ Hall x Hox) as Hb. cbn beta in Hb.
  assert (Hge : 32 <= x) by (apply orb_true_iff in Hb as [Hb|Hb]; lia).
  assert (Hv : 2 ^ 253 <= le_value S).
  { change (2 ^ 253) with (2 ^ 248 * 32). nia. }
  split; [done|].
  rewrite (run_order_loop scopy 3 s0 S) by (done || lia).
  rewrite scalar_check_spec by done.
  assert (group_order < 2 ^ 253) by reflexivity.
  destruct (Z.ltb_spec (le_value S) group_order); [lia|done].
Qed.

(** * Properties of the certificate purposes *)

Module V3_purp_facts.

Import V3_purp.

(** ** Conditions and bits *)

Lemma truthy_true v : truthy v = true <-> v <> 0.
Proof. unfold truthy. destruct (Z.eqb_spec v 0); split; auto; done. Qed.

Lemma truthy_false v : truthy v = false <-> v = 0.
Proof. unfold truthy. destruct (Z.eqb_spec v 0); split; auto; done. Qed.

Lemma land_u32 a F : 0 <= F < 2 ^ 32 -> Z.land (u32 a) F = Z.land a F.
Proof.
  intros HF. unfold u32. rewrite <- Z.land_ones by lia.
  rewrite <- Z.land_assoc. f_equal.
  rewrite Z.land_comm, Z.land_ones by lia. apply Z.mod_small. lia.
Qed.

Lemma land_lor_same a F : Z.land (Z.lor a F) F = F.
Proof.
  rewrite Z.land_lor_distr_l, Z.land_diag.
  apply Z.bits_inj'. intros n Hn.
  rewrite Z.lor_spec, Z.land_spec. by destruct (Z.testbit F n), (Z.testbit a n).
Qed.

Lemma land_lor_kept a G F : Z.land a F <> 0 -> Z.land (Z.lor a G) F <> 0.
Proof.
  intros H. rewrite Z.land_lor_distr_l. intros H0.
  apply Z.lor_eq_0_iff in H0. tauto.
Qed.

(** ** The table of purposes *)

Section Table.

Context `{K : macros} `{L : library}.

Lemma X509_PURPOSE_get_count_9 : X509_PURPOSE_get_count = 9.
Proof. reflexivity. Qed.

Lemma X509_PURPOSE_get0_Some idx xp :
  X509_PURPOSE_get0 idx = Some xp <->
  0 <= idx < 9 /\ xstandard !! Z.to_nat idx = Some xp.
Proof.
  unfold X509_PURPOSE_get0.
  change (Z.of_nat (length xstandard)) with 9.
  destruct (Z.ltb_spec idx 0), (Z.geb_spec idx 9); cbn [orb];
    split; try done; try lia; try tauto.
Qed.

Lemma X509_PURPOSE_get0_None idx :
  X509_PURPOSE_get0 idx = None <-> idx < 0 \/ 9 <= idx.
Proof.
  unfold X509_PURPOSE_get0.
  change (Z.of_nat (length xstandard)) with 9.
  destruct (Z.ltb_spec idx 0), (Z.geb_spec idx 9); cbn [orb];
    split; try done; try lia; try tauto.
  intros H'. apply lookup_ge_None in H'. cbn [length xstandard] in H'. lia.
Qed.

Lemma get_by_id_loop_spec entries i id :
  let r := get_by_id_loop entries i id in
  (r = -1 /\ Forall (fun e => purpose e <> id) entries) \/
  (i <= r < i + Z.of_nat (length entries) /\
   exists e, entries !! Z.to_nat (r - i) = Some e /\ purpose e = id /\
     Forall (fun e' => purpose e' <> id) (take (Z.to_nat (r - i)) entries)).
Proof.
  revert i. induction entries as [|e rest IH]; intros i; cbn [get_by_id_loop].
  - left. by split.
  - destruct (Z.eqb_spec (purpose e) id) as [He|He].
    + right. cbn [length]. split; [lia|]. exists e.
      rewrite Z.sub_diag. cbn. split_and!; [done..|]. apply Forall_nil_2.
    + destruct (IH (i + 1)) as [[Hr Hall]|[Hr (e' & He' & Hid & Hbefore)]].
      * left. cbv zeta. split; [done|]. by apply Forall_cons_2.
      * right. cbv zeta. cbn [length]. split; [lia|]. exists e'.
        replace (Z.to_nat (get_by_id_loop rest (i + 1) id - i))
          with (S (Z.to_nat (get_by_id_loop rest (i + 1) id - (i + 1))))
          by lia.
        cbn [lookup list_lookup take]. split_and!; [done..|].
        by apply Forall_cons_2.
Qed.


Lemma get_by_id_found id :
  (X509_PURPOSE_get_by_id id = -1 /\
   Forall (fun e => purpose e <> id) xstandard) \/
  (0 <= X509_PURPOSE_get_by_id id < 9 /\
   exists e, xstandard !! Z.to_nat (X509_PURPOSE_get_by_id id) = Some e /\
     purpose e = id /\
     Forall (fun e' => purpose e' <> id)
       (take (Z.to_nat (X509_PURPOSE_get_by_id id)) xstandard)).
Proof.
  unfold X509_PURPOSE_get_by_id.
  destruct (get_by_id_loop_spec xstandard 0 id) as [H|[Hr (e & He & Hid & Hb)]];
    [by left|right].
  rewrite Z.sub_0_r in He, Hb. cbn [length xstandard] in Hr.
  split; [lia|]. by exists e.
Qed.

Lemma get_by_sname_loop_total n i s :
  0 <= i -> i + Z.of_nat n <= 9 ->
  exists r, get_by_sname_loop n i s = Some r /\
    ((r = -1 /\
      forall j xp, i <= j < i + Z.of_nat n ->
        X509_PURPOSE_get0 j = Some xp -> sname xp <> s) \/
     (i <= r < i + Z.of_nat n /\
      exists xp, X509_PURPOSE_get0 r = Some xp /\ sname xp = s /\
        forall j xp', i <= j < r ->
          X509_PURPOSE_get0 j = Some xp' -> sname xp' <> s)).
Proof.
  revert i. induction n as [|n IH]; intros i Hi Hn; cbn [get_by_sname_loop].
  - exists (-1). split; [done|]. left. split; [done|]. intros; lia.
  - destruct (X509_PURPOSE_get0 i) as [xp|] eqn:Hxp.
    2:{ apply X509_PURPOSE_get0_None in Hxp. lia. }
    destruct (String.eqb_spec (sname xp) s) as [Hs|Hs].
    + exists i. split; [done|]. right. split; [lia|].
      exists xp. split_and!; [done..|]. intros; lia.
    + destruct (IH (i + 1)) as (r & Hr & Hcase); [lia..|].
      exists r. split; [done|].
      destruct Hcase as [[-> Hall]|[Hrange (xp' & Hxp' & Hs' & Hbefore)]].
      * left. split; [done|]. intros j xpj Hj Hget.
        destruct (Z.eq_dec j i) as [->|Hne].
        -- rewrite Hxp in Hget. by injection Hget as <-.
        -- apply (Hall j); [lia|done].
      * right. split; [lia|]. exists xp'. split_and!; [done..|].
        intros j xpj Hj Hget.
        destruct (Z.eq_dec j i) as [->|Hne].
        -- rewrite Hxp in Hget. by injection Hget as <-.
        -- apply (Hbefore j); [lia|done].
Qed.

(** The short names of the table are all different. *)
Lemma snames_NoDup : NoDup (sname <$> xstandard).
Proof.
  cbn [xstandard fmap list_fmap sname].
  repeat (apply NoDup_cons_2;
    [rewrite ?elem_of_cons, elem_of_nil; intros H;
     repeat (destruct H as [H|H]; [discriminate H|]); done|]).
  apply NoDup_nil_2.
Qed.

Lemma snames_differ i j xi xj :
  X509_PURPOSE_get0 i = Some xi -> X509_PURPOSE_get0 j = Some xj ->
  sname xi = sname xj -> i = j.
Proof.
  intros Hi Hj Hs.
  apply X509_PURPOSE_get0_Some in Hi as [Hi Hxi].
  apply X509_PURPOSE_get0_Some in Hj as [Hj Hxj].
  assert (Z.to_nat i = Z.to_nat j); [|lia].
  apply (NoDup_lookup _ _ _ (sname xi) snames_NoDup).
  - by rewrite list_lookup_fmap, Hxi.
  - by rewrite list_lookup_fmap, Hxj, Hs.
Qed.

End Table.

(** X15. [X509_PURPOSE_get_by_id] returns -1 exactly when no entry of the
    table has the identifier, and otherwise the index of the first entry
    that has it, which [X509_PURPOSE_get0] then delivers;
    [X509_PURPOSE_get0] is [NULL] exactly outside the indices from 0 to
    [X509_PURPOSE_get_count] minus one, and the table has nine
    entries. *)
Theorem X509_PURPOSE_get_by_id_finds_first (K : macros) (L : library) id :
  let idx := X509_PURPOSE_get_by_id id in
  ((idx = -1 /\
    forall i xp, X509_PURPOSE_get0 i = Some xp -> X509_PURPOSE_get_id xp <> id)
   \/
   (0 <= idx < X509_PURPOSE_get_count /\
    exists xp, X509_PURPOSE_get0 idx = Some xp /\
      X509_PURPOSE_get_id xp = id /\
      forall i xp', 0 <= i < idx -> X509_PURPOSE_get0 i = Some xp' ->
        X509_PURPOSE_get_id xp' <> id))
  /\
  (forall i, X509_PURPOSE_get0 i = None <->
             i < 0 \/ X509_PURPOSE_get_count <= i)
  /\
  X509_PURPOSE_get_count = 9.
Proof.
  intros idx. split; [|split; [apply X509_PURPOSE_get0_None|done]].
  unfold idx, X509_PURPOSE_get_id.
  destruct (get_by_id_found id) as [[Hr Hall]|[Hr (e & He & Hid & Hb)]].
  - left. split; [done|]. intros i xp Hxp.
    apply X509_PURPOSE_get0_Some in Hxp as [_ Hxp].
    by apply (Forall_lookup_1 _ _ _ _ Hall Hxp).
  - right. split; [done|]. exists e. split_and!.
    + by apply X509_PURPOSE_get0_Some.
    + done.
    + intros i xp' Hi Hxp'.
      apply X509_PURPOSE_get0_Some in Hxp' as [_ Hxp'].
      apply (Forall_lookup_1 _ _ (Z.to_nat i) _ Hb).
      rewrite lookup_take. case_decide; [done|lia].
Qed.

(** X16. [X509_PURPOSE_get_by_sname] never reads through a [NULL] entry;
    it returns -1 exactly when no entry has the short name and otherwise
    the index of the entry that has it.  The short names are all
    different, so the index of every entry is found again from its short
    name. *)
Theorem X509_PURPOSE_get_by_sname_round_trip (K : macros) (L : library) :
  (forall s, exists r,
     X509_PURPOSE_get_by_sname s = Some r /\
     ((r = -1 /\
       forall i xp, X509_PURPOSE_get0 i = Some xp ->
                    X509_PURPOSE_get0_sname xp <> s) \/
      (0 <= r < X509_PURPOSE_get_count /\
       exists xp, X509_PURPOSE_get0 r = Some xp /\
                  X509_PURPOSE_get0_sname xp = s)))
  /\
  (forall i xp, X509_PURPOSE_get0 i = Some xp ->
     X509_PURPOSE_get_by_sname (X509_PURPOSE_get0_sname xp) = Some i).
Proof.
  assert (Hspec : forall s, exists r,
     X509_PURPOSE_get_by_sname s = Some r /\
     ((r = -1 /\
       forall i xp, X509_PURPOSE_get0 i = Some xp -> sname xp <> s) \/
      (0 <= r < 9 /\
       exists xp, X509_PURPOSE_get0 r = Some xp /\ sname xp = s))).
  { intros s. unfold X509_PURPOSE_get_by_sname.
    destruct (get_by_sname_loop_total
                (Z.to_nat X509_PURPOSE_get_count) 0 s) as (r & Hr & Hcase);
      [done|done|].
    exists r. split; [done|].
    destruct Hcase as [[-> Hall]|[Hrange (xp & Hxp & Hs & _)]].
    - left. split; [done|]. intros i xp Hxp.
      pose proof Hxp as Hxp'. apply X509_PURPOSE_get0_Some in Hxp' as [Hi _].
      apply (Hall i); [|done]. rewrite X509_PURPOSE_get_count_9. lia.
    - right. rewrite X509_PURPOSE_get_count_9 in Hrange.
      split; [lia|]. by exists xp. }
  split; [exact Hspec|].
  intros i xp Hxp. unfold X509_PURPOSE_get0_sname.
  destruct (Hspec (sname xp)) as (r & Hr & [[_ Hall]|[_ (xp' & Hxp' & Hs)]]).
  - by destruct (Hall i xp Hxp).
  - rewrite Hr. f_equal. by apply (snames_differ r i xp' xp).
Qed.

(** X17. [X509_PURPOSE_set] stores the purpose and returns 1 exactly when
    the table has an entry for it; otherwise it returns 0, leaves the
    integer behind [p] as it was and puts one error,
    [X509V3_R_INVALID_PURPOSE], on the queue. *)
Theorem X509_PURPOSE_set_checks_the_table
    (K : macros) (L : library) p id errors :
  (exists xp,
     X509_PURPOSE_get0 (X509_PURPOSE_get_by_id id) = Some xp /\
     X509_PURPOSE_get_id xp = id /\
     X509_PURPOSE_set p id errors = (1, id, errors))
  \/
  ((forall i xp, X509_PURPOSE_get0 i = Some xp ->
                 X509_PURPOSE_get_id xp <> id) /\
   X509_PURPOSE_set p id errors
   = (0, p, errors ++ [X509V3_R_INVALID_PURPOSE])).
Proof.
  unfold X509_PURPOSE_set, X509_PURPOSE_get_id.
  destruct (get_by_id_found id) as [[Hr Hall]|[Hr (e & He & Hid & Hb)]].
  - right. rewrite Hr. split; [|done]. intros i xp Hxp.
    apply X509_PURPOSE_get0_Some in Hxp as [_ Hxp].
    by apply (Forall_lookup_1 _ _ _ _ Hall Hxp).
  - left. exists e. split_and!; [by apply X509_PURPOSE_get0_Some|done|].
    destruct (Z.eqb_spec (X509_PURPOSE_get_by_id id) (-1)); [lia|done].
Qed.

(** ** The extension cache *)

Section Cache.

Context `{K : macros} `{L : library}.

Lemma flags_kept_refl x : flags_kept x x.
Proof. by intros F. Qed.

Lemma flags_kept_trans x y z :
  flags_kept x y -> flags_kept y z -> flags_kept x z.
Proof. intros H1 H2 F HF H. by apply H2, H1. Qed.

Lemma flags_kept_same x y : ex_flags y = ex_flags x -> flags_kept x y.
Proof. intros H F _. by rewrite H. Qed.

Lemma flags_kept_or G x : flags_kept x (or_ex_flags G x).
Proof.
  intros F HF H. cbn [or_ex_flags set_ex_flags ex_flags].
  rewrite land_u32 by done. by apply land_lor_kept.
Qed.

Lemma or_ex_flags_has G x :
  0 <= G < 2 ^ 32 -> Z.land (ex_flags (or_ex_flags G x)) G = G.
Proof.
  intros HG. cbn [or_ex_flags set_ex_flags ex_flags].
  rewrite land_u32 by done. apply land_lor_same.
Qed.

Lemma ex_flags_add_xku x nid : ex_flags (add_xku x nid) = ex_flags x.
Proof. unfold add_xku. by destruct (xku_of_nid nid). Qed.

Lemma ex_flags_foldl_add_xku l x : ex_flags (foldl add_xku x l) = ex_flags x.
Proof.
  revert x. induction l as [|n l IH]; intros x; [done|].
  cbn [foldl]. by rewrite IH, ex_flags_add_xku.
Qed.

Lemma cert_info_foldl_add_xku l x : cert_info (foldl add_xku x l) = cert_info x.
Proof.
  revert x. induction l as [|n l IH]; intros x; [done|].
  cbn [foldl]. rewrite IH. unfold add_xku. by destruct (xku_of_nid n).
Qed.

Ltac kept :=
  repeat first
    [ apply flags_kept_refl
    | apply flags_kept_or
    | (eapply flags_kept_trans; [|apply flags_kept_or])
    | (apply flags_kept_same; reflexivity) ].

Lemma cache_digest_kept x : flags_kept x (cache_digest x).
Proof. unfold cache_digest. case_match; kept. Qed.

Lemma cache_version_kept x : flags_kept x (cache_version x).
Proof. unfold cache_version. case_match; kept. Qed.

Lemma cache_basic_constraints_kept x : flags_kept x (cache_basic_constraints x).
Proof.
  unfold cache_basic_constraints. repeat case_match; kept;
    try (eapply flags_kept_trans; [apply flags_kept_or|];
         apply flags_kept_same; reflexivity);
    try (eapply flags_kept_trans; [apply flags_kept_or|];
         eapply flags_kept_trans; [apply flags_kept_or|];
         apply flags_kept_same; reflexivity).
Qed.

Lemma cache_key_usage_kept x : flags_kept x (cache_key_usage x).
Proof. unfold cache_key_usage. repeat case_match; kept. Qed.

Lemma cache_ext_key_usage_kept x : flags_kept x (cache_ext_key_usage x).
Proof.
  unfold cache_ext_key_usage. repeat case_match; kept.
  eapply flags_kept_trans; [|apply flags_kept_same, ex_flags_foldl_add_xku].
  kept.
Qed.

Lemma cache_netscape_cert_type_kept x :
  flags_kept x (cache_netscape_cert_type x).
Proof. unfold cache_netscape_cert_type. repeat case_match; kept. Qed.

Lemma cache_skid_kept x : flags_kept x (cache_skid x).
Proof. unfold cache_skid. repeat case_match; kept. Qed.

Lemma cache_akid_kept x : flags_kept x (cache_akid x).
Proof. unfold cache_akid. repeat case_match; kept. Qed.

Lemma cache_self_issued_kept x : flags_kept x (cache_self_issued x).
Proof.
  unfold cache_self_issued. repeat case_match; kept.
Qed.

Lemma cache_altname_kept x : flags_kept x (cache_altname x).
Proof. unfold cache_altname. repeat case_match; kept. Qed.

Lemma cache_nc_kept x : flags_kept x (cache_nc x).
Proof. unfold cache_nc. repeat case_match; kept. Qed.

Lemma cache_crldp_kept x : flags_kept x (cache_crldp x).
Proof.
  unfold cache_crldp, setup_crldp. repeat case_match; simplify_eq; kept.
Qed.

Lemma cache_critical_kept x : flags_kept x (cache_critical x).
Proof. unfold cache_critical. case_match; kept. Qed.


Lemma fill_cache_kept x : flags_kept x (fill_cache x).
Proof.
  unfold fill_cache.
  repeat (eapply flags_kept_trans; [|apply flags_kept_or]).
  repeat (eapply flags_kept_trans;
    [|first [ apply cache_critical_kept | apply cache_crldp_kept
            | apply cache_nc_kept | apply cache_altname_kept
            | apply cache_self_issued_kept | apply cache_akid_kept
            | apply cache_skid_kept | apply cache_netscape_cert_type_kept
            | apply cache_ext_key_usage_kept | apply cache_key_usage_kept
            | apply cache_basic_constraints_kept | apply cache_version_kept ]]).
  apply cache_digest_kept.
Qed.

(** No statement of the cache changes the certificate. *)
Lemma cert_info_cache_digest x : cert_info (cache_digest x) = cert_info x.
Proof. unfold cache_digest. by case_match. Qed.

Lemma cert_info_cache_version x : cert_info (cache_version x) = cert_info x.
Proof. unfold cache_version. by case_match. Qed.

Lemma cert_info_cache_basic_constraints x :
  cert_info (cache_basic_constraints x) = cert_info x.
Proof. unfold cache_basic_constraints. by repeat case_match. Qed.

Lemma cert_info_cache_key_usage x :
  cert_info (cache_key_usage x) = cert_info x.
Proof. unfold cache_key_usage. by repeat case_match. Qed.

Lemma cert_info_cache_ext_key_usage x :
  cert_info (cache_ext_key_usage x) = cert_info x.
Proof.
  unfold cache_ext_key_usage. repeat case_match; try done.
  by rewrite cert_info_foldl_add_xku.
Qed.

Lemma cert_info_cache_netscape_cert_type x :
  cert_info (cache_netscape_cert_type x) = cert_info x.
Proof. unfold cache_netscape_cert_type. by repeat case_match. Qed.

Lemma cert_info_cache_skid x : cert_info (cache_skid x) = cert_info x.
Proof. unfold cache_skid. by repeat case_match. Qed.

Lemma cert_info_cache_akid x : cert_info (cache_akid x) = cert_info x.
Proof. unfold cache_akid. by repeat case_match. Qed.

Lemma cert_info_cache_self_issued x :
  cert_info (cache_self_issued x) = cert_info x.
Proof. unfold cache_self_issued. by repeat case_match. Qed.

Lemma cert_info_cache_altname x : cert_info (cache_altname x) = cert_info x.
Proof. unfold cache_altname. by repeat case_match. Qed.

Lemma cert_info_cache_nc x : cert_info (cache_nc x) = cert_info x.
Proof. unfold cache_nc. by repeat case_match. Qed.

Lemma cert_info_cache_crldp x : cert_info (cache_crldp x) = cert_info x.
Proof.
  unfold cache_crldp, setup_crldp. by repeat case_match; simplify_eq.
Qed.

Lemma cert_info_cache_critical x : cert_info (cache_critical x) = cert_info x.
Proof. unfold cache_critical. by case_match. Qed.

Lemma cert_info_fill_cache x : cert_info (fill_cache x) = cert_info x.
Proof.
  unfold fill_cache. cbn [or_ex_flags set_ex_flags cert_info].
  by rewrite cert_info_cache_critical, cert_info_cache_crldp,
    cert_info_cache_nc, cert_info_cache_altname, cert_info_cache_self_issued,
    cert_info_cache_akid, cert_info_cache_skid,
    cert_info_cache_netscape_cert_type, cert_info_cache_ext_key_usage,
    cert_info_cache_key_usage, cert_info_cache_basic_constraints,
    cert_info_cache_version, cert_info_cache_digest.
Qed.

Lemma fill_cache_set x :
  0 < EXFLAG_SET < 2 ^ 32 ->
  Z.land (ex_flags (fill_cache x)) EXFLAG_SET = EXFLAG_SET.
Proof. intros H. unfold fill_cache. apply or_ex_flags_has. lia. Qed.

(** The two tests of [EXFLAG_SET] see the same flags. *)
Lemma x509v3_cache_extensions_cases x :
  (Z.land (ex_flags x) EXFLAG_SET <> 0 /\
   x509v3_cache_extensions x
   = (Z.b2z (Z.land (ex_flags x) EXFLAG_INVALID =? 0), x))
  \/
  (Z.land (ex_flags x) EXFLAG_SET = 0 /\
   x509v3_cache_extensions x
   = (Z.b2z (Z.land (ex_flags (fill_cache x)) EXFLAG_INVALID =? 0),
      fill_cache x)).
Proof.
  unfold x509v3_cache_extensions. cbv zeta.
  destruct (truthy (Z.land (ex_flags x) EXFLAG_SET)) eqn:Hs.
  - left. by apply truthy_true in Hs.
  - right. by apply truthy_false in Hs.
Qed.

Lemma x509v3_cache_extensions_result x :
  fst (x509v3_cache_extensions x)
  = Z.b2z (Z.land (ex_flags (snd (x509v3_cache_extensions x))) EXFLAG_INVALID
           =? 0).
Proof.
  by destruct (x509v3_cache_extensions_cases x) as [[_ ->]|[_ ->]].
Qed.

Lemma x509v3_cache_extensions_kept x :
  flags_kept x (snd (x509v3_cache_extensions x)).
Proof.
  destruct (x509v3_cache_extensions_cases x) as [[_ ->]|[_ ->]]; cbn [snd].
  - apply flags_kept_refl.
  - apply fill_cache_kept.
Qed.

End Cache.

(** X22. [x509v3_cache_extensions] fills the cache once: it returns 0 or
    1, which is 1 exactly when [EXFLAG_INVALID] is clear in the flags it
    leaves; it leaves [EXFLAG_SET] set and clears no flag that was set;
    and a second call returns what the first returned and changes
    nothing. *)
Theorem x509v3_cache_extensions_once (K : macros) (L : library) x :
  0 < EXFLAG_SET < 2 ^ 32 ->
  exists ok x1,
    x509v3_cache_extensions x = (ok, x1) /\
    (ok = 0 \/ ok = 1) /\
    (ok = 1 <-> Z.land (ex_flags x1) EXFLAG_INVALID = 0) /\
    Z.land (ex_flags x1) EXFLAG_SET <> 0 /\
    flags_kept x x1 /\
    cert_info x1 = cert_info x /\
    x509v3_cache_extensions x1 = (ok, x1).
Proof.
  intros HS.
  assert (Hb : forall v, (Z.b2z (v =? 0) = 0 \/ Z.b2z (v =? 0) = 1) /\
                         (Z.b2z (v =? 0) = 1 <-> v = 0)).
  { intros v. destruct (Z.eqb_spec v 0); cbn; split; auto; split; done. }
  destruct (x509v3_cache_extensions_cases x) as [[Hset ->]|[Hset ->]].
  - eexists _, _. split; [done|].
    destruct (Hb (Z.land (ex_flags x) EXFLAG_INVALID)) as [H01 Hiff].
    split_and!; [done..|apply flags_kept_refl|done|].
    destruct (x509v3_cache_extensions_cases x) as [[_ ->]|[H0 _]]; done.
  - eexists _, _. split; [done|].
    destruct (Hb (Z.land (ex_flags (fill_cache x)) EXFLAG_INVALID))
      as [H01 Hiff].
    pose proof (fill_cache_set x HS) as Hs1.
    split_and!; [done|done|lia|apply fill_cache_kept| |].
    + apply cert_info_fill_cache.
    + destruct (x509v3_cache_extensions_cases (fill_cache x))
        as [[_ ->]|[H0 _]]; [done|lia].
Qed.

(** ** The purpose checks *)

Section Purposes.

Context `{K : macros} `{L : library}.

Lemma b2z_bool b : Z.b2z b = 0 \/ Z.b2z b = 1.
Proof. destruct b; auto. Qed.

Lemma check_ca_bool x : check_ca x = 0 \/ check_ca x = 1.
Proof. unfold check_ca. repeat case_match; auto using b2z_bool. Qed.

Lemma check_ca_accepts x :
  check_ca x <> 0 <->
  ku_reject x X509v3_KU_KEY_CERT_SIGN = false /\
  (Z.land (ex_flags x) V1_ROOT = V1_ROOT \/
   (Z.land (ex_flags x) EXFLAG_BCONS <> 0 /\
    Z.land (ex_flags x) EXFLAG_CA <> 0)).
Proof.
  unfold check_ca.
  destruct (ku_reject x X509v3_KU_KEY_CERT_SIGN); [split; [done|intros []; done]|].
  destruct (Z.eqb_spec (Z.land (ex_flags x) V1_ROOT) V1_ROOT) as [H1|H1];
    [split; [auto|done]|].
  destruct (truthy (Z.land (ex_flags x) EXFLAG_BCONS)) eqn:Hb;
    destruct (truthy (Z.land (ex_flags x) EXFLAG_CA)) eqn:Hc; cbn;
    rewrite ?truthy_true, ?truthy_false in *; split; try done;
    try (intros _; split; [done|right; done]);
    intros [_ [?|[? ?]]]; done.
Qed.

Lemma purpose_smime_bool x ca : purpose_smime x ca = 0 \/ purpose_smime x ca = 1.
Proof.
  unfold purpose_smime. pose proof (check_ca_bool x).
  repeat case_match; auto using b2z_bool.
Qed.

Lemma check_purpose_ssl_server_bool x ca :
  check_purpose_ssl_server x ca = 0 \/ check_purpose_ssl_server x ca = 1.
Proof.
  unfold check_purpose_ssl_server. pose proof (check_ca_bool x).
  repeat case_match; auto.
Qed.

(** Every check of the table returns 0 or 1. *)
Lemma check_purpose_bool e x ca :
  e ∈ xstandard -> check_purpose e x ca = 0 \/ check_purpose e x ca = 1.
Proof.
  intros He. pose proof (check_ca_bool x) as Hca.
  pose proof (purpose_smime_bool x ca) as Hsm.
  pose proof (check_purpose_ssl_server_bool x ca) as Hss.
  unfold xstandard in He.
  repeat (apply elem_of_cons in He as [->|He]); [..|by apply elem_of_nil in He];
    cbn [check_purpose];
    unfold check_purpose_ssl_client, check_purpose_ns_ssl_server,
      check_purpose_smime_sign, check_purpose_smime_encrypt,
      check_purpose_crl_sign, no_check, ocsp_helper,
      check_purpose_timestamp_sign; cbv zeta;
    try done; repeat case_match; auto.
Qed.

(** With [ca] set, every check of the table but [no_check] accepts only
    what [check_ca] accepts. *)
Lemma check_purpose_ca e x ca :
  e ∈ xstandard -> purpose e <> X509_PURPOSE_ANY -> ca <> 0 ->
  check_purpose e x ca <> 0 -> check_ca x <> 0.
Proof.
  intros He Hany Hca. apply truthy_true in Hca.
  unfold xstandard in He.
  repeat (apply elem_of_cons in He as [->|He]); [..|by apply elem_of_nil in He];
    cbn [check_purpose purpose] in *; try done;
    unfold check_purpose_ssl_client, check_purpose_ns_ssl_server,
      check_purpose_ssl_server,
      check_purpose_smime_sign, check_purpose_smime_encrypt, purpose_smime,
      check_purpose_crl_sign, ocsp_helper,
      check_purpose_timestamp_sign; cbv zeta; rewrite ?Hca;
    repeat case_match; try done.
Qed.

End Purposes.

(** X18. [X509_check_purpose] never calls through a [NULL] entry and
    returns 0 or 1.  It returns 0 whenever the extensions of the
    certificate are invalid, whatever the purpose, -1 included; for a
    valid certificate it returns 1 for the purpose -1 and 0 for a purpose
    that the table does not have.  The certificate is left as
    [x509v3_cache_extensions] leaves it. *)
Theorem X509_check_purpose_edge_cases (K : macros) (L : library) x id ca :
  exists r,
    X509_check_purpose x id ca = Some (r, snd (x509v3_cache_extensions x)) /\
    (r = 0 \/ r = 1) /\
    (fst (x509v3_cache_extensions x) = 0 -> r = 0) /\
    (fst (x509v3_cache_extensions x) <> 0 -> id = -1 -> r = 1) /\
    (fst (x509v3_cache_extensions x) <> 0 -> id <> -1 ->
     (forall i xp, X509_PURPOSE_get0 i = Some xp ->
                   X509_PURPOSE_get_id xp <> id) ->
     r = 0).
Proof.
  unfold X509_check_purpose.
  destruct (x509v3_cache_extensions x) as [ok x1]. cbn [fst snd].
  destruct (truthy ok) eqn:Hok; cbn [negb].
  2:{ apply truthy_false in Hok. exists 0. split_and!; auto; done. }
  apply truthy_true in Hok.
  destruct (Z.eqb_spec id (-1)) as [Hid|Hid].
  { exists 1. split_and!; auto; done. }
  destruct (get_by_id_found id) as [[Hr Hall]|[Hr (e & He & Hpe & _)]].
  - rewrite Hr. cbn. exists 0. split_and!; auto; done.
  - destruct (Z.eqb_spec (X509_PURPOSE_get_by_id id) (-1)); [lia|].
    rewrite (proj2 (X509_PURPOSE_get0_Some _ e)) by done.
    exists (check_purpose e x1 ca). split; [done|].
    split; [apply check_purpose_bool; by eapply list_elem_of_lookup_2|].
    split_and!; [done|done|].
    intros _ _ Hnone. destruct (Hnone (X509_PURPOSE_get_by_id id) e); [|done].
    by apply X509_PURPOSE_get0_Some.
Qed.

(** X19. With [ca] set, [X509_check_purpose] accepts a certificate for a
    purpose other than -1 and [X509_PURPOSE_ANY] only if its extensions
    are valid and [check_ca] accepts it: a key usage extension, if there
    is one, allows certificate signing, and the certificate is a
    self-signed version 1 certificate or has basic constraints that say
    CA. *)
Theorem X509_check_purpose_ca_requires_check_ca
    (K : macros) (L : library) x id ca :
  ca <> 0 -> id <> -1 -> id <> X509_PURPOSE_ANY ->
  exists r x1,
    X509_check_purpose x id ca = Some (r, x1) /\
    (r <> 0 ->
     fst (x509v3_cache_extensions x) <> 0 /\
     check_ca x1 = 1 /\
     ku_reject x1 X509v3_KU_KEY_CERT_SIGN = false /\
     (Z.land (ex_flags x1) V1_ROOT = V1_ROOT \/
      (Z.land (ex_flags x1) EXFLAG_BCONS <> 0 /\
       Z.land (ex_flags x1) EXFLAG_CA <> 0))).
Proof.
  intros Hca Hid Hany.
  unfold X509_check_purpose.
  destruct (x509v3_cache_extensions x) as [ok x1]. cbn [fst snd].
  destruct (truthy ok) eqn:Hok; cbn [negb].
  2:{ eexists _, _. split; [done|]. done. }
  apply truthy_true in Hok.
  destruct (Z.eqb_spec id (-1)) as [?|_]; [done|].
  destruct (get_by_id_found id) as [[Hr Hall]|[Hr (e & He & Hpe & _)]].
  - rewrite Hr. cbn. eexists _, _. split; [done|]. done.
  - destruct (Z.eqb_spec (X509_PURPOSE_get_by_id id) (-1)); [lia|].
    rewrite (proj2 (X509_PURPOSE_get0_Some _ e)) by done.
    eexists _, _. split; [done|]. intros Hr'.
    assert (Hin : e ∈ xstandard) by (by eapply list_elem_of_lookup_2).
    assert (Hcheck : check_ca x1 <> 0).
    { apply (check_purpose_ca e x1 ca); try done. by rewrite Hpe. }
    split; [done|].
    split; [destruct (check_ca_bool x1); [done|done]|].
    by apply check_ca_accepts.
Qed.

(** X20. An extended key usage extension that lacks the bit of a purpose
    makes the check of that purpose fail, for a leaf and for a CA alike:
    SSL client, SSL server (and with it Netscape SSL server) and the two
    S/MIME purposes; time stamping as a leaf needs the extension to hold
    the time stamping bit and nothing else.  Besides, the Netscape SSL
    server check accepts only what the SSL server check accepts, and the
    S/MIME signing and encryption checks only what [purpose_smime]
    accepts. *)
Theorem extended_key_usage_gates_purposes (K : macros) (L : library) x ca :
  Z.land (ex_flags x) EXFLAG_XKUSAGE <> 0 ->
  (Z.land (ex_xkusage x) XKU_SSL_CLIENT = 0 ->
   check_purpose_ssl_client x ca = 0) /\
  (Z.land (ex_xkusage x) XKU_SSL_SERVER = 0 ->
   check_purpose_ssl_server x ca = 0 /\
   check_purpose_ns_ssl_server x ca = 0) /\
  (Z.land (ex_xkusage x) XKU_SMIME = 0 ->
   purpose_smime x ca = 0 /\
   check_purpose_smime_sign x ca = 0 /\
   check_purpose_smime_encrypt x ca = 0) /\
  (ex_xkusage x <> XKU_TIMESTAMP -> check_purpose_timestamp_sign x 0 = 0) /\
  (check_purpose_ns_ssl_server x ca <> 0 ->
   check_purpose_ssl_server x ca <> 0) /\
  (check_purpose_smime_sign x ca <> 0 -> purpose_smime x ca <> 0) /\
  (check_purpose_smime_encrypt x ca <> 0 -> purpose_smime x ca <> 0).
Proof.
  intros Hx. apply truthy_true in Hx.
  assert (Hrej : forall u, Z.land (ex_xkusage x) u = 0 -> xku_reject x u = true).
  { intros u Hu. unfold xku_reject. by rewrite Hx, Hu. }
  split_and!.
  - intros H. unfold check_purpose_ssl_client. by rewrite Hrej.
  - intros H. unfold check_purpose_ns_ssl_server, check_purpose_ssl_server.
    by rewrite Hrej.
  - intros H.
    unfold check_purpose_smime_sign, check_purpose_smime_encrypt, purpose_smime.
    by rewrite Hrej.
  - intros H. unfold check_purpose_timestamp_sign. cbn [truthy Z.eqb negb].
    cbv zeta. rewrite Hx.
    destruct (Z.eqb_spec (ex_xkusage x) XKU_TIMESTAMP); [done|].
    cbn [negb orb]. by repeat case_match.
  - unfold check_purpose_ns_ssl_server. cbv zeta. by repeat case_match.
  - unfold check_purpose_smime_sign. cbv zeta. by repeat case_match.
  - unfold check_purpose_smime_encrypt. cbv zeta. by repeat case_match.
Qed.

(** X21. A certificate without key usage, extended key usage and Netscape
    certificate type extension passes every leaf check of the table, but
    the one for time stamping, which it fails: that purpose requires the
    extended key usage.  As a CA it passes each check, but [no_check],
    exactly when it is a self-signed version 1 certificate or has basic
    constraints that say CA. *)
Theorem certificate_without_usage_extensions (K : macros) (L : library) x :
  Z.land (ex_flags x) EXFLAG_KUSAGE = 0 ->
  Z.land (ex_flags x) EXFLAG_XKUSAGE = 0 ->
  Z.land (ex_flags x) EXFLAG_NSCERT = 0 ->
  (check_purpose_ssl_client x 0 = 1 /\
   check_purpose_ssl_server x 0 = 1 /\
   check_purpose_ns_ssl_server x 0 = 1 /\
   check_purpose_smime_sign x 0 = 1 /\
   check_purpose_smime_encrypt x 0 = 1 /\
   check_purpose_crl_sign x 0 = 1 /\
   no_check x 0 = 1 /\
   ocsp_helper x 0 = 1 /\
   check_purpose_timestamp_sign x 0 = 0)
  /\
  (forall ca, ca <> 0 ->
     check_purpose_ssl_client x ca = check_ca x /\
     check_purpose_ssl_server x ca = check_ca x /\
     check_purpose_ns_ssl_server x ca = check_ca x /\
     check_purpose_smime_sign x ca = check_ca x /\
     check_purpose_smime_encrypt x ca = check_ca x /\
     check_purpose_crl_sign x ca = check_ca x /\
     ocsp_helper x ca = check_ca x /\
     check_purpose_timestamp_sign x ca = check_ca x)
  /\
  (check_ca x = 1 <->
   Z.land (ex_flags x) V1_ROOT = V1_ROOT \/
   (Z.land (ex_flags x) EXFLAG_BCONS <> 0 /\
    Z.land (ex_flags x) EXFLAG_CA <> 0)).
Proof.
  intros Hku Hxku Hns.
  assert (Hk : forall u, ku_reject x u = false)
    by (intros u; unfold ku_reject; by rewrite Hku).
  assert (Hx : forall u, xku_reject x u = false)
    by (intros u; unfold xku_reject; by rewrite Hxku).
  assert (Hn : forall u, ns_reject x u = false)
    by (intros u; unfold ns_reject; by rewrite Hns).
  split_and!.
  - unfold check_purpose_ssl_client. by rewrite Hx, Hk, Hn.
  - unfold check_purpose_ssl_server. by rewrite Hx, Hk, Hn.
  - unfold check_purpose_ns_ssl_server, check_purpose_ssl_server.
    by rewrite Hx, !Hk, Hn.
  - unfold check_purpose_smime_sign, purpose_smime. by rewrite Hx, Hk, Hns.
  - unfold check_purpose_smime_encrypt, purpose_smime. by rewrite Hx, Hk, Hns.
  - unfold check_purpose_crl_sign. by rewrite Hk.
  - done.
  - done.
  - unfold check_purpose_timestamp_sign. cbv zeta. by rewrite Hku, Hxku.
  - intros ca Hca. apply truthy_true in Hca.
    pose proof (check_ca_bool x) as Hb.
    unfold check_purpose_ssl_client, check_purpose_ns_ssl_server,
      check_purpose_ssl_server, check_purpose_smime_sign,
      check_purpose_smime_encrypt, purpose_smime, check_purpose_crl_sign,
      ocsp_helper, check_purpose_timestamp_sign. cbv zeta.
    rewrite !Hx, Hca, Hns. change (truthy 0) with false. cbn [andb orb negb].
    rewrite orb_true_r. done.
  - pose proof (check_ca_accepts x) as Ha. rewrite Hk in Ha.
    destruct (check_ca_bool x) as [H0|H1].
    + rewrite H0 in *. split; [done|]. intros H. exfalso. by apply Ha.
    + rewrite H1 in *. split; [|done]. intros _. by apply Ha.
Qed.

(** ** Certificates the cache marks invalid *)

Section Invalid.

Context `{K : macros} `{L : library}.

Hypothesis EXFLAG_INVALID_bits : 0 < EXFLAG_INVALID < 2 ^ 32.

Lemma or_invalid x :
  Z.land (ex_flags (or_ex_flags EXFLAG_INVALID x)) EXFLAG_INVALID <> 0.
Proof. rewrite or_ex_flags_has by lia. lia. Qed.

Lemma kept_invalid x y :
  flags_kept x y ->
  Z.land (ex_flags x) EXFLAG_INVALID <> 0 ->
  Z.land (ex_flags y) EXFLAG_INVALID <> 0.
Proof. intros Hk. apply Hk. lia. Qed.

Lemma cache_digest_invalid x :
  digest (cert_info x) = None ->
  Z.land (ex_flags (cache_digest x)) EXFLAG_INVALID <> 0.
Proof. intros H. unfold cache_digest. rewrite H. apply or_invalid. Qed.

Lemma cache_basic_constraints_invalid x :
  d2i_failed (d2i_basic_constraints (cert_info x))
  || match d2i_basic_constraints (cert_info x) with
     | (Some bs, _) =>
         match bs_pathlen bs with
         | Some n =>
             (ASN1_INTEGER_type n =? V_ASN1_NEG_INTEGER)
             || negb (truthy (bs_ca bs))
         | None => false
         end
     | (None, _) => false
     end = true ->
  Z.land (ex_flags (cache_basic_constraints x)) EXFLAG_INVALID <> 0.
Proof.
  unfold cache_basic_constraints, d2i_failed.
  destruct (d2i_basic_constraints (cert_info x)) as [[bs|] j]; cbn [orb].
  - destruct (bs_pathlen bs) as [n|]; [|done]. intros ->.
    eapply kept_invalid; [apply flags_kept_or|].
    cbn [set_ex_pathlen ex_flags]. apply or_invalid.
  - intros H. rewrite orb_false_r in H. rewrite H. apply or_invalid.
Qed.

Lemma cache_key_usage_invalid x :
  d2i_failed (d2i_key_usage (cert_info x)) = true ->
  Z.land (ex_flags (cache_key_usage x)) EXFLAG_INVALID <> 0.
Proof.
  unfold cache_key_usage, d2i_failed.
  destruct (d2i_key_usage (cert_info x)) as [[v|] j]; [done|].
  intros ->. apply or_invalid.
Qed.

Lemma cache_ext_key_usage_invalid x :
  d2i_failed (d2i_ext_key_usage (cert_info x)) = true ->
  Z.land (ex_flags (cache_ext_key_usage x)) EXFLAG_INVALID <> 0.
Proof.
  unfold cache_ext_key_usage, d2i_failed. cbv zeta.
  cbn [set_ex_xkusage cert_info].
  destruct (d2i_ext_key_usage (cert_info x)) as [[v|] j]; [done|].
  intros ->. apply or_invalid.
Qed.

Lemma cache_netscape_cert_type_invalid x :
  d2i_failed (d2i_netscape_cert_type (cert_info x)) = true ->
  Z.land (ex_flags (cache_netscape_cert_type x)) EXFLAG_INVALID <> 0.
Proof.
  unfold cache_netscape_cert_type, d2i_failed.
  destruct (d2i_netscape_cert_type (cert_info x)) as [[v|] j]; [done|].
  intros ->. apply or_invalid.
Qed.

Lemma cache_skid_invalid x :
  d2i_failed (d2i_subject_key_identifier (cert_info x)) = true ->
  Z.land (ex_flags (cache_skid x)) EXFLAG_INVALID <> 0.
Proof.
  unfold cache_skid, d2i_failed.
  destruct (d2i_subject_key_identifier (cert_info x)) as [[v|] j]; [done|].
  intros ->. apply or_invalid.
Qed.

Lemma cache_akid_invalid x :
  d2i_failed (d2i_authority_key_identifier (cert_info x)) = true ->
  Z.land (ex_flags (cache_akid x)) EXFLAG_INVALID <> 0.
Proof.
  unfold cache_akid, d2i_failed.
  destruct (d2i_authority_key_identifier (cert_info x)) as [[v|] j]; [done|].
  intros ->. apply or_invalid.
Qed.

Lemma cache_altname_invalid x :
  d2i_failed (d2i_subject_alt_name (cert_info x)) = true ->
  Z.land (ex_flags (cache_altname x)) EXFLAG_INVALID <> 0.
Proof.
  unfold cache_altname, d2i_failed.
  destruct (d2i_subject_alt_name (cert_info x)) as [[v|] j]; [done|].
  intros ->. apply or_invalid.
Qed.

Lemma cache_nc_invalid x :
  d2i_failed (d2i_name_constraints (cert_info x)) = true ->
  Z.land (ex_flags (cache_nc x)) EXFLAG_INVALID <> 0.
Proof.
  unfold cache_nc, d2i_failed.
  destruct (d2i_name_constraints (cert_info x)) as [[v|] j]; [done|].
  intros ->. apply or_invalid.
Qed.

Lemma cache_crldp_invalid x :
  truthy (fst (setup_crldp x)) = false ->
  Z.land (ex_flags (cache_crldp x)) EXFLAG_INVALID <> 0.
Proof.
  unfold cache_crldp. destruct (setup_crldp x) as [ok x']. cbn [fst].
  intros ->. apply or_invalid.
Qed.

(** The distribution points are set up from the certificate alone. *)
Lemma setup_dps_cert_info x y dps :
  cert_info x = cert_info y -> setup_dps x dps = setup_dps y dps.
Proof.
  intros H. induction dps as [|dp dps IH]; [done|].
  cbn [setup_dps]. unfold setup_dp, X509_get_issuer_name. by rewrite H, IH.
Qed.

Lemma setup_crldp_cert_info x y :
  cert_info x = cert_info y -> fst (setup_crldp x) = fst (setup_crldp y).
Proof.
  intros H. unfold setup_crldp. rewrite H.
  destruct (d2i_crl_distribution_points (cert_info y)) as [[dps|] j];
    [|by case_match].
  cbn [fst]. by apply setup_dps_cert_info.
Qed.

Lemma fill_cache_invalid x :
  marks_invalid x = true ->
  Z.land (ex_flags (fill_cache x)) EXFLAG_INVALID <> 0.
Proof.
  unfold marks_invalid, fill_cache. cbv zeta.
  set (x1 := cache_digest x).
  set (x2 := cache_version x1).
  set (x3 := cache_basic_constraints x2).
  set (x4 := cache_key_usage x3).
  set (x5 := cache_ext_key_usage x4).
  set (x6 := cache_netscape_cert_type x5).
  set (x7 := cache_skid x6).
  set (x8 := cache_akid x7).
  set (x9 := cache_self_issued x8).
  set (x10 := cache_altname x9).
  set (x11 := cache_nc x10).
  set (x12 := cache_crldp x11).
  set (x13 := cache_critical x12).
  assert (H1 : cert_info x1 = cert_info x) by apply cert_info_cache_digest.
  assert (H2 : cert_info x2 = cert_info x)
    by (unfold x2; by rewrite cert_info_cache_version).
  assert (H3 : cert_info x3 = cert_info x)
    by (unfold x3; by rewrite cert_info_cache_basic_constraints).
  assert (H4 : cert_info x4 = cert_info x)
    by (unfold x4; by rewrite cert_info_cache_key_usage).
  assert (H5 : cert_info x5 = cert_info x)
    by (unfold x5; by rewrite cert_info_cache_ext_key_usage).
  assert (H6 : cert_info x6 = cert_info x)
    by (unfold x6; by rewrite cert_info_cache_netscape_cert_type).
  assert (H7 : cert_info x7 = cert_info x)
    by (unfold x7; by rewrite cert_info_cache_skid).
  assert (H8 : cert_info x8 = cert_info x)
    by (unfold x8; by rewrite cert_info_cache_akid).
  assert (H9 : cert_info x9 = cert_info x)
    by (unfold x9; by rewrite cert_info_cache_self_issued).
  assert (H10 : cert_info x10 = cert_info x)
    by (unfold x10; by rewrite cert_info_cache_altname).
  assert (H11 : cert_info x11 = cert_info x)
    by (unfold x11; by rewrite cert_info_cache_nc).
  pose proof (cache_version_kept x1 : flags_kept x1 x2) as K2.
  pose proof (cache_basic_constraints_kept x2 : flags_kept x2 x3) as K3.
  pose proof (cache_key_usage_kept x3 : flags_kept x3 x4) as K4.
  pose proof (cache_ext_key_usage_kept x4 : flags_kept x4 x5) as K5.
  pose proof (cache_netscape_cert_type_kept x5 : flags_kept x5 x6) as K6.
  pose proof (cache_skid_kept x6 : flags_kept x6 x7) as K7.
  pose proof (cache_akid_kept x7 : flags_kept x7 x8) as K8.
  pose proof (cache_self_issued_kept x8 : flags_kept x8 x9) as K9.
  pose proof (cache_altname_kept x9 : flags_kept x9 x10) as K10.
  pose proof (cache_nc_kept x10 : flags_kept x10 x11) as K11.
  pose proof (cache_crldp_kept x11 : flags_kept x11 x12) as K12.
  pose proof (cache_critical_kept x12 : flags_kept x12 x13) as K13.
  pose proof (flags_kept_or EXFLAG_SET x13) as K14.
  intros H.
  assert (Hsome : exists y, (y = x1 \/ y = x2 \/ y = x3 \/ y = x4 \/ y = x5 \/
                             y = x6 \/ y = x7 \/ y = x8 \/ y = x9 \/ y = x10 \/
                             y = x11 \/ y = x12) /\
                            Z.land (ex_flags y) EXFLAG_INVALID <> 0).
  { repeat (apply orb_true_iff in H as [H|H]).
    - exists x1. split; [tauto|]. apply cache_digest_invalid.
      by destruct (digest (cert_info x)).
    - exists x3. split; [tauto|]. apply cache_basic_constraints_invalid.
      rewrite H2, H. done.
    - exists x3. split; [tauto|]. apply cache_basic_constraints_invalid.
      rewrite H2, H. apply orb_true_r.
    - exists x4. split; [tauto|]. apply cache_key_usage_invalid. by rewrite H3.
    - exists x5. split; [tauto|]. apply cache_ext_key_usage_invalid.
      by rewrite H4.
    - exists x6. split; [tauto|]. apply cache_netscape_cert_type_invalid.
      by rewrite H5.
    - exists x7. split; [tauto|]. apply cache_skid_invalid. by rewrite H6.
    - exists x8. split; [tauto|]. apply cache_akid_invalid. by rewrite H7.
    - exists x10. split; [tauto|]. apply cache_altname_invalid. by rewrite H9.
    - exists x11. split; [tauto|]. apply cache_nc_invalid. by rewrite H10.
    - exists x12. split; [tauto|]. apply cache_crldp_invalid.
      rewrite (setup_crldp_cert_info x11 x H11).
      by apply negb_true_iff in H. }
  destruct Hsome as (y & Hy & Hinv).
  assert (Hk : flags_kept y (or_ex_flags EXFLAG_SET x13)).
  { repeat (destruct Hy as [->|Hy]); [..|subst y];
      repeat (eapply flags_kept_trans; [eassumption|]);
      apply flags_kept_refl. }
  by apply (kept_invalid y).
Qed.

End Invalid.

(** X23. A certificate whose extensions are broken is accepted for
    nothing.  If the digest cannot be computed, if one of the extensions
    the cache reads occurs twice or does not decode, if the basic
    constraints carry a path length that is negative or comes without CA,
    or if the distribution points cannot be set up, then
    [x509v3_cache_extensions] returns 0, [X509_check_purpose] returns 0
    for every purpose (-1 included) and both values of [ca],
    [X509_check_ca] returns 0, the usage getters return 0 and
    [X509_get_pathlen] returns -1. *)
Theorem broken_extensions_are_rejected (K : macros) (L : library) x :
  0 < EXFLAG_INVALID < 2 ^ 32 ->
  Z.land (ex_flags x) EXFLAG_SET = 0 ->
  marks_invalid x = true ->
  fst (x509v3_cache_extensions x) = 0 /\
  (forall id ca, exists x1, X509_check_purpose x id ca = Some (0, x1)) /\
  fst (X509_check_ca x) = 0 /\
  fst (X509_get_key_usage x) = 0 /\
  fst (X509_get_extended_key_usage x) = 0 /\
  fst (X509_get_pathlen x) = -1 /\
  fst (X509_get0_subject_key_id x) = None /\
  fst (X509_get0_authority_key_id x) = None.
Proof.
  intros HI Hset Hbad.
  pose proof (fill_cache_invalid HI x Hbad) as Hinv.
  assert (Hc : x509v3_cache_extensions x = (0, fill_cache x)).
  { destruct (x509v3_cache_extensions_cases x) as [[Hs _]|[_ ->]]; [done|].
    by destruct (Z.eqb_spec (Z.land (ex_flags (fill_cache x)) EXFLAG_INVALID) 0). }
  unfold X509_check_purpose, X509_check_ca, X509_get_key_usage,
    X509_get_extended_key_usage, X509_get_pathlen, X509_get0_subject_key_id,
    X509_get0_authority_key_id.
  rewrite Hc. cbn [truthy Z.eqb negb fst orb].
  split_and!; try done. intros id ca. by eexists.
Qed.

(** ** The flags the cache sets *)

Lemma lor_u32 a b :
  0 <= a < 2 ^ 32 -> 0 <= b < 2 ^ 32 ->
  u32 (Z.lor a b) = Z.lor a b /\ 0 <= Z.lor a b < 2 ^ 32.
Proof.
  intros Ha Hb.
  assert (H : u32 (Z.lor a b) = Z.lor a b).
  { unfold u32. rewrite <- Z.land_ones by lia.
    rewrite Z.land_lor_distr_l, !Z.land_ones by lia.
    by rewrite !Z.mod_small by lia. }
  split; [done|]. rewrite <- H. apply Z.mod_pos_bound. lia.
Qed.

Section Clear.

Context `{K : macros} `{L : library}.

(** A flag that is clear stays clear when a flag that shares no bit with
    it is set. *)
Lemma or_ex_flags_clear G F x :
  0 <= F < 2 ^ 32 -> Z.land G F = 0 ->
  Z.land (ex_flags x) F = 0 -> Z.land (ex_flags (or_ex_flags G x)) F = 0.
Proof.
  intros HF HG Hx. cbn [or_ex_flags set_ex_flags ex_flags].
  by rewrite land_u32, Z.land_lor_distr_l, Hx, HG by done.
Qed.

Lemma cache_digest_clear F x :
  0 <= F < 2 ^ 32 ->
  digest (cert_info x) <> None \/ Z.land EXFLAG_INVALID F = 0 ->
  Z.land (ex_flags x) F = 0 -> Z.land (ex_flags (cache_digest x)) F = 0.
Proof.
  intros HF Hc Hx. unfold cache_digest.
  destruct (digest (cert_info x)); [done|].
  destruct Hc as [?|Hc]; [done|]. by apply or_ex_flags_clear.
Qed.

Lemma cache_version_clear F x :
  0 <= F < 2 ^ 32 -> Z.land EXFLAG_V1 F = 0 ->
  Z.land (ex_flags x) F = 0 -> Z.land (ex_flags (cache_version x)) F = 0.
Proof.
  intros HF Hc Hx. unfold cache_version.
  case_match; [|done]. by apply or_ex_flags_clear.
Qed.

Lemma cache_basic_constraints_clear F x :
  0 <= F < 2 ^ 32 ->
  Z.land EXFLAG_CA F = 0 ->
  fst (d2i_basic_constraints (cert_info x)) = None \/ Z.land EXFLAG_BCONS F = 0 ->
  d2i_failed (d2i_basic_constraints (cert_info x))
  || match d2i_basic_constraints (cert_info x) with
     | (Some bs, _) =>
         match bs_pathlen bs with
         | Some n =>
             (ASN1_INTEGER_type n =? V_ASN1_NEG_INTEGER)
             || negb (truthy (bs_ca bs))
         | None => false
         end
     | (None, _) => false
     end = false \/ Z.land EXFLAG_INVALID F = 0 ->
  Z.land (ex_flags x) F = 0 ->
  Z.land (ex_flags (cache_basic_constraints x)) F = 0.
Proof.
  intros HF Hca Hbc Hinv Hx. unfold cache_basic_constraints, d2i_failed in *.
  destruct (d2i_basic_constraints (cert_info x)) as [[bs|] j];
    cbn [fst orb] in *.
  - destruct Hbc as [?|Hbc]; [done|].
    apply or_ex_flags_clear; [done..|].
    assert (Hx1 : Z.land (ex_flags
              (if truthy (bs_ca bs) then or_ex_flags EXFLAG_CA x else x)) F = 0).
    { destruct (truthy (bs_ca bs)); [by apply or_ex_flags_clear|done]. }
    destruct (bs_pathlen bs) as [n|]; [|done].
    destruct ((ASN1_INTEGER_type n =? V_ASN1_NEG_INTEGER)
              || negb (truthy (bs_ca bs))); [|done].
    destruct Hinv as [?|Hinv]; [done|].
    cbn [set_ex_pathlen ex_flags]. by apply or_ex_flags_clear.
  - rewrite orb_false_r in Hinv. case_match; [|done].
    destruct Hinv as [?|Hinv]; [done|]. by apply or_ex_flags_clear.
Qed.

Lemma cache_key_usage_clear F x :
  0 <= F < 2 ^ 32 ->
  fst (d2i_key_usage (cert_info x)) = None \/ Z.land EXFLAG_KUSAGE F = 0 ->
  d2i_failed (d2i_key_usage (cert_info x)) = false
    \/ Z.land EXFLAG_INVALID F = 0 ->
  Z.land (ex_flags x) F = 0 -> Z.land (ex_flags (cache_key_usage x)) F = 0.
Proof.
  intros HF Hku Hinv Hx. unfold cache_key_usage, d2i_failed in *.
  destruct (d2i_key_usage (cert_info x)) as [[v|] j]; cbn [fst] in *.
  - destruct Hku as [?|Hku]; [done|].
    apply or_ex_flags_clear; [done..|]. by repeat case_match.
  - case_match; [|done].
    destruct Hinv as [?|Hinv]; [done|]. by apply or_ex_flags_clear.
Qed.

Lemma cache_ext_key_usage_clear F x :
  0 <= F < 2 ^ 32 ->
  fst (d2i_ext_key_usage (cert_info x)) = None \/ Z.land EXFLAG_XKUSAGE F = 0 ->
  d2i_failed (d2i_ext_key_usage (cert_info x)) = false
    \/ Z.land EXFLAG_INVALID F = 0 ->
  Z.land (ex_flags x) F = 0 -> Z.land (ex_flags (cache_ext_key_usage x)) F = 0.
Proof.
  intros HF Hku Hinv Hx. unfold cache_ext_key_usage, d2i_failed in *.
  cbv zeta. cbn [set_ex_xkusage cert_info].
  destruct (d2i_ext_key_usage (cert_info x)) as [[v|] j]; cbn [fst] in *.
  - destruct Hku as [?|Hku]; [done|].
    rewrite ex_flags_foldl_add_xku. by apply or_ex_flags_clear.
  - case_match; [|done].
    destruct Hinv as [?|Hinv]; [done|]. by apply or_ex_flags_clear.
Qed.

Lemma cache_netscape_cert_type_clear F x :
  0 <= F < 2 ^ 32 ->
  fst (d2i_netscape_cert_type (cert_info x)) = None
    \/ Z.land EXFLAG_NSCERT F = 0 ->
  d2i_failed (d2i_netscape_cert_type (cert_info x)) = false
    \/ Z.land EXFLAG_INVALID F = 0 ->
  Z.land (ex_flags x) F = 0 ->
  Z.land (ex_flags (cache_netscape_cert_type x)) F = 0.
Proof.
  intros HF Hku Hinv Hx. unfold cache_netscape_cert_type, d2i_failed in *.
  destruct (d2i_netscape_cert_type (cert_info x)) as [[v|] j]; cbn [fst] in *.
  - destruct Hku as [?|Hku]; [done|].
    apply or_ex_flags_clear; [done..|]. by repeat case_match.
  - case_match; [|done].
    destruct Hinv as [?|Hinv]; [done|]. by apply or_ex_flags_clear.
Qed.

Lemma cache_skid_clear F x :
  0 <= F < 2 ^ 32 ->
  d2i_failed (d2i_subject_key_identifier (cert_info x)) = false
    \/ Z.land EXFLAG_INVALID F = 0 ->
  Z.land (ex_flags x) F = 0 -> Z.land (ex_flags (cache_skid x)) F = 0.
Proof.
  intros HF Hinv Hx. unfold cache_skid, d2i_failed in *.
  destruct (d2i_subject_key_identifier (cert_info x)) as [[v|] j]; [done|].
  case_match; [|done].
  destruct Hinv as [?|Hinv]; [done|]. by apply or_ex_flags_clear.
Qed.

Lemma cache_akid_clear F x :
  0 <= F < 2 ^ 32 ->
  d2i_failed (d2i_authority_key_identifier (cert_info x)) = false
    \/ Z.land EXFLAG_INVALID F = 0 ->
  Z.land (ex_flags x) F = 0 -> Z.land (ex_flags (cache_akid x)) F = 0.
Proof.
  intros HF Hinv Hx. unfold cache_akid, d2i_failed in *.
  destruct (d2i_authority_key_identifier (cert_info x)) as [[v|] j]; [done|].
  case_match; [|done].
  destruct Hinv as [?|Hinv]; [done|]. by apply or_ex_flags_clear.
Qed.

Lemma cache_self_issued_clear F x :
  0 <= F < 2 ^ 32 ->
  Z.land EXFLAG_SI F = 0 -> Z.land EXFLAG_SS F = 0 ->
  Z.land (ex_flags x) F = 0 -> Z.land (ex_flags (cache_self_issued x)) F = 0.
Proof.
  intros HF Hsi Hss Hx. unfold cache_self_issued.
  repeat case_match; try done; repeat apply or_ex_flags_clear; done.
Qed.

Lemma cache_altname_clear F x :
  0 <= F < 2 ^ 32 ->
  d2i_failed (d2i_subject_alt_name (cert_info x)) = false
    \/ Z.land EXFLAG_INVALID F = 0 ->
  Z.land (ex_flags x) F = 0 -> Z.land (ex_flags (cache_altname x)) F = 0.
Proof.
  intros HF Hinv Hx. unfold cache_altname, d2i_failed in *.
  destruct (d2i_subject_alt_name (cert_info x)) as [[v|] j]; [done|].
  case_match; [|done].
  destruct Hinv as [?|Hinv]; [done|]. by apply or_ex_flags_clear.
Qed.

Lemma cache_nc_clear F x :
  0 <= F < 2 ^ 32 ->
  d2i_failed (d2i_name_constraints (cert_info x)) = false
    \/ Z.land EXFLAG_INVALID F = 0 ->
  Z.land (ex_flags x) F = 0 -> Z.land (ex_flags (cache_nc x)) F = 0.
Proof.
  intros HF Hinv Hx. unfold cache_nc, d2i_failed in *.
  destruct (d2i_name_constraints (cert_info x)) as [[v|] j]; [done|].
  case_match; [|done].
  destruct Hinv as [?|Hinv]; [done|]. by apply or_ex_flags_clear.
Qed.

Lemma ex_flags_setup_crldp x : ex_flags (snd (setup_crldp x)) = ex_flags x.
Proof. unfold setup_crldp. by repeat case_match. Qed.

Lemma cache_crldp_clear F x :
  0 <= F < 2 ^ 32 ->
  truthy (fst (setup_crldp x)) = true \/ Z.land EXFLAG_INVALID F = 0 ->
  Z.land (ex_flags x) F = 0 -> Z.land (ex_flags (cache_crldp x)) F = 0.
Proof.
  intros HF Hinv Hx. unfold cache_crldp.
  pose proof (ex_flags_setup_crldp x) as He.
  destruct (setup_crldp x) as [ok x']. cbn [fst snd] in *.
  destruct (truthy ok); cbn [negb]; [by rewrite He|].
  destruct Hinv as [?|Hinv]; [done|].
  apply or_ex_flags_clear; [done..|]. by rewrite He.
Qed.

Lemma cache_critical_clear F x :
  0 <= F < 2 ^ 32 ->
  unsupported_critical (extensions (cert_info x)) = false
    \/ Z.land EXFLAG_CRITICAL F = 0 ->
  Z.land (ex_flags x) F = 0 -> Z.land (ex_flags (cache_critical x)) F = 0.
Proof.
  intros HF Hc Hx. unfold cache_critical.
  case_match; [|done].
  destruct Hc as [?|Hc]; [done|]. by apply or_ex_flags_clear.
Qed.


Lemma fill_cache_clear F x :
  0 <= F < 2 ^ 32 ->
  Z.land EXFLAG_SET F = 0 -> Z.land EXFLAG_V1 F = 0 ->
  Z.land EXFLAG_CA F = 0 -> Z.land EXFLAG_SI F = 0 ->
  Z.land EXFLAG_SS F = 0 ->
  fst (d2i_basic_constraints (cert_info x)) = None
    \/ Z.land EXFLAG_BCONS F = 0 ->
  fst (d2i_key_usage (cert_info x)) = None \/ Z.land EXFLAG_KUSAGE F = 0 ->
  fst (d2i_ext_key_usage (cert_info x)) = None
    \/ Z.land EXFLAG_XKUSAGE F = 0 ->
  fst (d2i_netscape_cert_type (cert_info x)) = None
    \/ Z.land EXFLAG_NSCERT F = 0 ->
  unsupported_critical (extensions (cert_info x)) = false
    \/ Z.land EXFLAG_CRITICAL F = 0 ->
  marks_invalid x = false \/ Z.land EXFLAG_INVALID F = 0 ->
  Z.land (ex_flags x) F = 0 ->
  Z.land (ex_flags (fill_cache x)) F = 0.
Proof.
  intros HF Hset Hv1 Hca Hsi Hss Hbc Hku Hxku Hns Hcrit Hinv Hx.
  unfold fill_cache. cbv zeta.
  set (x1 := cache_digest x).
  set (x2 := cache_version x1).
  set (x3 := cache_basic_constraints x2).
  set (x4 := cache_key_usage x3).
  set (x5 := cache_ext_key_usage x4).
  set (x6 := cache_netscape_cert_type x5).
  set (x7 := cache_skid x6).
  set (x8 := cache_akid x7).
  set (x9 := cache_self_issued x8).
  set (x10 := cache_altname x9).
  set (x11 := cache_nc x10).
  set (x12 := cache_crldp x11).
  set (x13 := cache_critical x12).
  assert (H1 : cert_info x1 = cert_info x) by apply cert_info_cache_digest.
  assert (H2 : cert_info x2 = cert_info x)
    by (unfold x2; by rewrite cert_info_cache_version).
  assert (H3 : cert_info x3 = cert_info x)
    by (unfold x3; by rewrite cert_info_cache_basic_constraints).
  assert (H4 : cert_info x4 = cert_info x)
    by (unfold x4; by rewrite cert_info_cache_key_usage).
  assert (H5 : cert_info x5 = cert_info x)
    by (unfold x5; by rewrite cert_info_cache_ext_key_usage).
  assert (H6 : cert_info x6 = cert_info x)
    by (unfold x6; by rewrite cert_info_cache_netscape_cert_type).
  assert (H7 : cert_info x7 = cert_info x)
    by (unfold x7; by rewrite cert_info_cache_skid).
  assert (H8 : cert_info x8 = cert_info x)
    by (unfold x8; by rewrite cert_info_cache_akid).
  assert (H9 : cert_info x9 = cert_info x)
    by (unfold x9; by rewrite cert_info_cache_self_issued).
  assert (H10 : cert_info x10 = cert_info x)
    by (unfold x10; by rewrite cert_info_cache_altname).
  assert (H11 : cert_info x11 = cert_info x)
    by (unfold x11; by rewrite cert_info_cache_nc).
  assert (H12 : cert_info x12 = cert_info x)
    by (unfold x12; by rewrite cert_info_cache_crldp).
  assert (Hparts :
    Z.land EXFLAG_INVALID F = 0 \/
    (digest (cert_info x) <> None /\
     d2i_failed (d2i_basic_constraints (cert_info x))
     || match d2i_basic_constraints (cert_info x) with
        | (Some bs, _) =>
            match bs_pathlen bs with
            | Some n =>
                (ASN1_INTEGER_type n =? V_ASN1_NEG_INTEGER)
                || negb (truthy (bs_ca bs))
            | None => false
            end
        | (None, _) => false
        end = false /\
     d2i_failed (d2i_key_usage (cert_info x)) = false /\
     d2i_failed (d2i_ext_key_usage (cert_info x)) = false /\
     d2i_failed (d2i_netscape_cert_type (cert_info x)) = false /\
     d2i_failed (d2i_subject_key_identifier (cert_info x)) = false /\
     d2i_failed (d2i_authority_key_identifier (cert_info x)) = false /\
     d2i_failed (d2i_subject_alt_name (cert_info x)) = false /\
     d2i_failed (d2i_name_constraints (cert_info x)) = false /\
     truthy (fst (setup_crldp x)) = true)).
  { destruct Hinv as [Hinv|Hinv]; [right|by left].
    unfold marks_invalid in Hinv. cbv zeta in Hinv.
    repeat (apply orb_false_iff in Hinv as [Hinv ?]).
    split_and!; try done.
    - by destruct (digest (cert_info x)).
    - apply orb_false_iff. done.
    - by apply negb_false_iff. }
  assert (Hi : forall P : Prop,
            Z.land EXFLAG_INVALID F = 0 \/ P -> P \/ Z.land EXFLAG_INVALID F = 0)
    by tauto.
  apply or_ex_flags_clear; [done..|].
  apply cache_critical_clear; [done|by rewrite H12|].
  apply cache_crldp_clear; [done| |].
  { rewrite (setup_crldp_cert_info x11 x H11). tauto. }
  apply cache_nc_clear; [done|rewrite H10; tauto|].
  apply cache_altname_clear; [done|rewrite H9; tauto|].
  apply cache_self_issued_clear; [done..|].
  apply cache_akid_clear; [done|rewrite H7; tauto|].
  apply cache_skid_clear; [done|rewrite H6; tauto|].
  apply cache_netscape_cert_type_clear;
    [done|by rewrite H5|rewrite H5; tauto|].
  apply cache_ext_key_usage_clear; [done|by rewrite H4|rewrite H4; tauto|].
  apply cache_key_usage_clear; [done|by rewrite H3|rewrite H3; tauto|].
  apply cache_basic_constraints_clear;
    [done|done|by rewrite H2|rewrite H2; tauto|].
  apply cache_version_clear; [done..|].
  apply cache_digest_clear; [done|tauto|done].
Qed.

(** The fields a statement of the cache leaves alone. *)
Lemma cache_digest_fields x :
  ex_pathlen (cache_digest x) = ex_pathlen x /\
  ex_kusage (cache_digest x) = ex_kusage x /\
  ex_xkusage (cache_digest x) = ex_xkusage x /\
  skid (cache_digest x) = skid x /\ akid (cache_digest x) = akid x.
Proof. unfold cache_digest. by case_match. Qed.

Lemma cache_version_fields x :
  ex_pathlen (cache_version x) = ex_pathlen x /\
  ex_kusage (cache_version x) = ex_kusage x /\
  ex_xkusage (cache_version x) = ex_xkusage x /\
  skid (cache_version x) = skid x /\ akid (cache_version x) = akid x.
Proof. unfold cache_version. by case_match. Qed.

Lemma cache_basic_constraints_fields x :
  ex_kusage (cache_basic_constraints x) = ex_kusage x /\
  ex_xkusage (cache_basic_constraints x) = ex_xkusage x /\
  skid (cache_basic_constraints x) = skid x /\
  akid (cache_basic_constraints x) = akid x.
Proof. unfold cache_basic_constraints. by repeat case_match. Qed.

Lemma cache_key_usage_fields x :
  ex_pathlen (cache_key_usage x) = ex_pathlen x /\
  ex_xkusage (cache_key_usage x) = ex_xkusage x /\
  skid (cache_key_usage x) = skid x /\ akid (cache_key_usage x) = akid x.
Proof. unfold cache_key_usage. by repeat case_match. Qed.

Lemma foldl_add_xku_fields l x :
  ex_pathlen (foldl add_xku x l) = ex_pathlen x /\
  ex_kusage (foldl add_xku x l) = ex_kusage x /\
  skid (foldl add_xku x l) = skid x /\ akid (foldl add_xku x l) = akid x.
Proof.
  revert x. induction l as [|n l IH]; intros x; [done|].
  cbn [foldl]. destruct (IH (add_xku x n)) as (-> & -> & -> & ->).
  unfold add_xku. by destruct (xku_of_nid n).
Qed.

Lemma cache_ext_key_usage_fields x :
  ex_pathlen (cache_ext_key_usage x) = ex_pathlen x /\
  ex_kusage (cache_ext_key_usage x) = ex_kusage x /\
  skid (cache_ext_key_usage x) = skid x /\
  akid (cache_ext_key_usage x) = akid x.
Proof.
  unfold cache_ext_key_usage. cbv zeta. cbn [set_ex_xkusage cert_info].
  repeat case_match; try done.
  match goal with
  | |- context [foldl add_xku ?y ?l] =>
      by destruct (foldl_add_xku_fields l y) as (-> & -> & -> & ->)
  end.
Qed.

Lemma cache_netscape_cert_type_fields x :
  ex_pathlen (cache_netscape_cert_type x) = ex_pathlen x /\
  ex_kusage (cache_netscape_cert_type x) = ex_kusage x /\
  ex_xkusage (cache_netscape_cert_type x) = ex_xkusage x /\
  skid (cache_netscape_cert_type x) = skid x /\
  akid (cache_netscape_cert_type x) = akid x.
Proof. unfold cache_netscape_cert_type. by repeat case_match. Qed.

Lemma cache_skid_fields x :
  ex_pathlen (cache_skid x) = ex_pathlen x /\
  ex_kusage (cache_skid x) = ex_kusage x /\
  ex_xkusage (cache_skid x) = ex_xkusage x /\
  akid (cache_skid x) = akid x /\
  skid (cache_skid x) = fst (d2i_subject_key_identifier (cert_info x)).
Proof. unfold cache_skid. by repeat case_match. Qed.

Lemma cache_akid_fields x :
  ex_pathlen (cache_akid x) = ex_pathlen x /\
  ex_kusage (cache_akid x) = ex_kusage x /\
  ex_xkusage (cache_akid x) = ex_xkusage x /\
  skid (cache_akid x) = skid x /\
  akid (cache_akid x) = fst (d2i_authority_key_identifier (cert_info x)).
Proof. unfold cache_akid. by repeat case_match. Qed.

Lemma cache_self_issued_fields x :
  ex_pathlen (cache_self_issued x) = ex_pathlen x /\
  ex_kusage (cache_self_issued x) = ex_kusage x /\
  ex_xkusage (cache_self_issued x) = ex_xkusage x /\
  skid (cache_self_issued x) = skid x /\ akid (cache_self_issued x) = akid x.
Proof. unfold cache_self_issued. by repeat case_match. Qed.

Lemma cache_altname_fields x :
  ex_pathlen (cache_altname x) = ex_pathlen x /\
  ex_kusage (cache_altname x) = ex_kusage x /\
  ex_xkusage (cache_altname x) = ex_xkusage x /\
  skid (cache_altname x) = skid x /\ akid (cache_altname x) = akid x.
Proof. unfold cache_altname. by repeat case_match. Qed.

Lemma cache_nc_fields x :
  ex_pathlen (cache_nc x) = ex_pathlen x /\
  ex_kusage (cache_nc x) = ex_kusage x /\
  ex_xkusage (cache_nc x) = ex_xkusage x /\
  skid (cache_nc x) = skid x /\ akid (cache_nc x) = akid x.
Proof. unfold cache_nc. by repeat case_match. Qed.

Lemma cache_crldp_fields x :
  ex_pathlen (cache_crldp x) = ex_pathlen x /\
  ex_kusage (cache_crldp x) = ex_kusage x /\
  ex_xkusage (cache_crldp x) = ex_xkusage x /\
  skid (cache_crldp x) = skid x /\ akid (cache_crldp x) = akid x.
Proof. unfold cache_crldp, setup_crldp. by repeat case_match; simplify_eq. Qed.

Lemma cache_critical_fields x :
  ex_pathlen (cache_critical x) = ex_pathlen x /\
  ex_kusage (cache_critical x) = ex_kusage x /\
  ex_xkusage (cache_critical x) = ex_xkusage x /\
  skid (cache_critical x) = skid x /\ akid (cache_critical x) = akid x.
Proof. unfold cache_critical. by case_match. Qed.


Lemma ex_xkusage_foldl_add_xku l x :
  ex_xkusage (foldl add_xku x l)
  = foldl (fun acc nid =>
             match xku_of_nid nid with
             | Some b => u32 (Z.lor acc b)
             | None => acc
             end) (ex_xkusage x) l.
Proof.
  revert x. induction l as [|n l IH]; intros x; [done|].
  cbn [foldl]. rewrite IH. unfold add_xku. by destruct (xku_of_nid n).
Qed.

Lemma ex_kusage_cache_key_usage x :
  ex_kusage (cache_key_usage x)
  = match fst (d2i_key_usage (cert_info x)) with
    | Some usage => key_usage_value usage
    | None => ex_kusage x
    end.
Proof.
  unfold cache_key_usage, key_usage_value.
  destruct (d2i_key_usage (cert_info x)) as [[usage|] j]; cbn [fst].
  - by repeat case_match.
  - by case_match.
Qed.

Lemma ex_pathlen_cache_basic_constraints x :
  ex_pathlen (cache_basic_constraints x)
  = match fst (d2i_basic_constraints (cert_info x)) with
    | Some bs =>
        match bs_pathlen bs with
        | Some n =>
            if (ASN1_INTEGER_type n =? V_ASN1_NEG_INTEGER)
               || negb (truthy (bs_ca bs))
            then 0 else ASN1_INTEGER_get n
        | None => -1
        end
    | None => ex_pathlen x
    end.
Proof.
  unfold cache_basic_constraints.
  destruct (d2i_basic_constraints (cert_info x)) as [[bs|] j]; cbn [fst].
  - destruct (bs_pathlen bs) as [n|]; [|by case_match].
    destruct (truthy (bs_ca bs));
      destruct (ASN1_INTEGER_type n =? V_ASN1_NEG_INTEGER); done.
  - by case_match.
Qed.

Lemma ex_xkusage_cache_ext_key_usage x :
  ex_xkusage (cache_ext_key_usage x)
  = match fst (d2i_ext_key_usage (cert_info x)) with
    | Some nids => ext_key_usage_value nids
    | None => 0
    end.
Proof.
  unfold cache_ext_key_usage, ext_key_usage_value. cbv zeta.
  cbn [set_ex_xkusage cert_info].
  destruct (d2i_ext_key_usage (cert_info x)) as [[nids|] j]; cbn [fst].
  - by rewrite ex_xkusage_foldl_add_xku.
  - by case_match.
Qed.

(** The values the cache holds when it has been filled. *)
Lemma fill_cache_values x :
  ex_pathlen (fill_cache x)
  = match fst (d2i_basic_constraints (cert_info x)) with
    | Some bs =>
        match bs_pathlen bs with
        | Some n =>
            if (ASN1_INTEGER_type n =? V_ASN1_NEG_INTEGER)
               || negb (truthy (bs_ca bs))
            then 0 else ASN1_INTEGER_get n
        | None => -1
        end
    | None => ex_pathlen x
    end /\
  ex_kusage (fill_cache x)
  = match fst (d2i_key_usage (cert_info x)) with
    | Some usage => key_usage_value usage
    | None => ex_kusage x
    end /\
  ex_xkusage (fill_cache x)
  = match fst (d2i_ext_key_usage (cert_info x)) with
    | Some nids => ext_key_usage_value nids
    | None => 0
    end /\
  skid (fill_cache x) = fst (d2i_subject_key_identifier (cert_info x)) /\
  akid (fill_cache x) = fst (d2i_authority_key_identifier (cert_info x)).
Proof.
  unfold fill_cache. cbv zeta.
  cbn [or_ex_flags set_ex_flags ex_pathlen ex_kusage ex_xkusage skid akid].
  set (x1 := cache_digest x).
  set (x2 := cache_version x1).
  set (x3 := cache_basic_constraints x2).
  set (x4 := cache_key_usage x3).
  set (x5 := cache_ext_key_usage x4).
  set (x6 := cache_netscape_cert_type x5).
  set (x7 := cache_skid x6).
  set (x8 := cache_akid x7).
  set (x9 := cache_self_issued x8).
  set (x10 := cache_altname x9).
  set (x11 := cache_nc x10).
  set (x12 := cache_crldp x11).
  set (x13 := cache_critical x12).
  assert (H1 : cert_info x1 = cert_info x) by apply cert_info_cache_digest.
  assert (H2 : cert_info x2 = cert_info x)
    by (unfold x2; by rewrite cert_info_cache_version).
  assert (H3 : cert_info x3 = cert_info x)
    by (unfold x3; by rewrite cert_info_cache_basic_constraints).
  assert (H4 : cert_info x4 = cert_info x)
    by (unfold x4; by rewrite cert_info_cache_key_usage).
  assert (H5 : cert_info x5 = cert_info x)
    by (unfold x5; by rewrite cert_info_cache_ext_key_usage).
  assert (H6 : cert_info x6 = cert_info x)
    by (unfold x6; by rewrite cert_info_cache_netscape_cert_type).
  assert (H7 : cert_info x7 = cert_info x)
    by (unfold x7; by rewrite cert_info_cache_skid).
  destruct (cache_digest_fields x) as (P1 & U1 & Q1 & S1 & A1).
  destruct (cache_version_fields x1) as (P2 & U2 & Q2 & S2 & A2).
  destruct (cache_basic_constraints_fields x2) as (U3 & Q3 & S3 & A3).
  destruct (cache_key_usage_fields x3) as (P4 & Q4 & S4 & A4).
  destruct (cache_ext_key_usage_fields x4) as (P5 & U5 & S5 & A5).
  destruct (cache_netscape_cert_type_fields x5) as (P6 & U6 & Q6 & S6 & A6).
  destruct (cache_skid_fields x6) as (P7 & U7 & Q7 & A7 & S7).
  destruct (cache_akid_fields x7) as (P8 & U8 & Q8 & S8 & A8).
  destruct (cache_self_issued_fields x8) as (P9 & U9 & Q9 & S9 & A9).
  destruct (cache_altname_fields x9) as (P10 & U10 & Q10 & S10 & A10).
  destruct (cache_nc_fields x10) as (P11 & U11 & Q11 & S11 & A11).
  destruct (cache_crldp_fields x11) as (P12 & U12 & Q12 & S12 & A12).
  destruct (cache_critical_fields x12) as (P13 & U13 & Q13 & S13 & A13).
  fold x1 in P1, U1, Q1, S1, A1.
  fold x2 in P2, U2, Q2, S2, A2.
  fold x3 in U3, Q3, S3, A3.
  fold x4 in P4, Q4, S4, A4.
  fold x5 in P5, U5, S5, A5.
  fold x6 in P6, U6, Q6, S6, A6.
  fold x7 in P7, U7, Q7, A7, S7.
  fold x8 in P8, U8, Q8, S8, A8.
  fold x9 in P9, U9, Q9, S9, A9.
  fold x10 in P10, U10, Q10, S10, A10.
  fold x11 in P11, U11, Q11, S11, A11.
  fold x12 in P12, U12, Q12, S12, A12.
  fold x13 in P13, U13, Q13, S13, A13.
  split_and!.
  - rewrite P13, P12, P11, P10, P9, P8, P7, P6, P5, P4.
    unfold x3. rewrite ex_pathlen_cache_basic_constraints, H2.
    destruct (fst (d2i_basic_constraints (cert_info x))); [done|].
    by rewrite P2, P1.
  - rewrite U13, U12, U11, U10, U9, U8, U7, U6, U5.
    unfold x4. rewrite ex_kusage_cache_key_usage, H3.
    destruct (fst (d2i_key_usage (cert_info x))); [done|].
    by rewrite U3, U2, U1.
  - rewrite Q13, Q12, Q11, Q10, Q9, Q8, Q7, Q6.
    unfold x5. by rewrite ex_xkusage_cache_ext_key_usage, H4.
  - by rewrite S13, S12, S11, S10, S9, S8, S7, H6.
  - by rewrite A13, A12, A11, A10, A9, A8, H7.
Qed.


Lemma lor_bound n a b :
  0 <= n -> 0 <= a < 2 ^ n -> 0 <= b < 2 ^ n -> 0 <= Z.lor a b < 2 ^ n.
Proof.
  intros Hn Ha Hb.
  assert (H : Z.lor a b mod 2 ^ n = Z.lor a b).
  { rewrite <- Z.land_ones by lia.
    rewrite Z.land_lor_distr_l, !Z.land_ones by lia.
    by rewrite !Z.mod_small by lia. }
  rewrite <- H. apply Z.mod_pos_bound. lia.
Qed.

Lemma key_usage_value_16 usage : 0 <= key_usage_value usage < 2 ^ 16.
Proof.
  assert (H8 : forall d, 0 <= u8 d < 2 ^ 8)
    by (intros d; unfold u8; apply Z.mod_pos_bound; lia).
  unfold key_usage_value. destruct usage as [|d0 [|d1 rest]]; [lia| |].
  - pose proof (H8 d0). lia.
  - assert (Hl : 0 <= Z.lor (u8 d0) (Z.shiftl (u8 d1) 8) < 2 ^ 16).
    { apply lor_bound; [lia| |].
      - pose proof (H8 d0). lia.
      - rewrite Z.shiftl_mul_pow2 by lia. pose proof (H8 d1). lia. }
    unfold u32. rewrite Z.mod_small; lia.
Qed.

(** The flags that are set when the cache has been filled. *)
Lemma fill_cache_has_flag x y G :
  0 < G < 2 ^ 32 ->
  Z.land (ex_flags y) G <> 0 ->
  flags_kept y (fill_cache x) ->
  Z.land (ex_flags (fill_cache x)) G <> 0.
Proof. intros HG Hy Hk. apply Hk; [lia|done]. Qed.

Lemma cache_key_usage_sets x usage :
  0 < EXFLAG_KUSAGE < 2 ^ 32 ->
  fst (d2i_key_usage (cert_info x)) = Some usage ->
  Z.land (ex_flags (cache_key_usage x)) EXFLAG_KUSAGE <> 0.
Proof.
  intros HG H. unfold cache_key_usage.
  destruct (d2i_key_usage (cert_info x)) as [[v|] j]; [|done].
  rewrite or_ex_flags_has by lia. lia.
Qed.

Lemma cache_ext_key_usage_sets x nids :
  0 < EXFLAG_XKUSAGE < 2 ^ 32 ->
  fst (d2i_ext_key_usage (cert_info x)) = Some nids ->
  Z.land (ex_flags (cache_ext_key_usage x)) EXFLAG_XKUSAGE <> 0.
Proof.
  intros HG H. unfold cache_ext_key_usage. cbv zeta.
  cbn [set_ex_xkusage cert_info].
  destruct (d2i_ext_key_usage (cert_info x)) as [[v|] j]; [|done].
  rewrite ex_flags_foldl_add_xku, or_ex_flags_has by lia. lia.
Qed.

Lemma cache_basic_constraints_sets x bs :
  0 < EXFLAG_BCONS < 2 ^ 32 ->
  fst (d2i_basic_constraints (cert_info x)) = Some bs ->
  Z.land (ex_flags (cache_basic_constraints x)) EXFLAG_BCONS <> 0.
Proof.
  intros HG H. unfold cache_basic_constraints.
  destruct (d2i_basic_constraints (cert_info x)) as [[v|] j]; [|done].
  rewrite or_ex_flags_has by lia. lia.
Qed.

(** The statements of the cache from one place on keep the flags. *)
Lemma fill_cache_kept_from_basic_constraints x :
  flags_kept
    (cache_basic_constraints (cache_version (cache_digest x))) (fill_cache x).
Proof.
  unfold fill_cache.
  repeat (eapply flags_kept_trans; [|apply flags_kept_or]).
  repeat (eapply flags_kept_trans;
    [|first [ apply cache_critical_kept | apply cache_crldp_kept
            | apply cache_nc_kept | apply cache_altname_kept
            | apply cache_self_issued_kept | apply cache_akid_kept
            | apply cache_skid_kept | apply cache_netscape_cert_type_kept
            | apply cache_ext_key_usage_kept | apply cache_key_usage_kept ]]).
  apply flags_kept_refl.
Qed.

Lemma fill_cache_kept_from_key_usage x :
  flags_kept
    (cache_key_usage
       (cache_basic_constraints (cache_version (cache_digest x))))
    (fill_cache x).
Proof.
  unfold fill_cache.
  repeat (eapply flags_kept_trans; [|apply flags_kept_or]).
  repeat (eapply flags_kept_trans;
    [|first [ apply cache_critical_kept | apply cache_crldp_kept
            | apply cache_nc_kept | apply cache_altname_kept
            | apply cache_self_issued_kept | apply cache_akid_kept
            | apply cache_skid_kept | apply cache_netscape_cert_type_kept
            | apply cache_ext_key_usage_kept ]]).
  apply flags_kept_refl.
Qed.

Lemma fill_cache_kept_from_ext_key_usage x :
  flags_kept
    (cache_ext_key_usage
       (cache_key_usage
          (cache_basic_constraints (cache_version (cache_digest x)))))
    (fill_cache x).
Proof.
  unfold fill_cache.
  repeat (eapply flags_kept_trans; [|apply flags_kept_or]).
  repeat (eapply flags_kept_trans;
    [|first [ apply cache_critical_kept | apply cache_crldp_kept
            | apply cache_nc_kept | apply cache_altname_kept
            | apply cache_self_issued_kept | apply cache_akid_kept
            | apply cache_skid_kept | apply cache_netscape_cert_type_kept ]]).
  apply flags_kept_refl.
Qed.

End Clear.

(** X24. For a certificate object whose flags are clear and whose
    extensions are well formed, the getters deliver what the certificate
    carries.  [x509v3_cache_extensions] returns 1.  [X509_get_key_usage]
    returns [UINT32_MAX] when there is no key usage extension and
    otherwise the first two octets of its bit string, a value below 2^16;
    [X509_get_extended_key_usage] returns [UINT32_MAX] when there is no
    extended key usage extension and otherwise the bits of the usages it
    lists; [X509_get_pathlen] returns the path length of the basic
    constraints and -1 when there is none; the key identifier getters
    return the decoded identifiers. *)
Theorem getters_return_what_the_certificate_carries
    (K : macros) (L : library) x :
  pairwise_disjoint EXFLAGS = true ->
  ex_flags x = 0 ->
  marks_invalid x = false ->
  fst (x509v3_cache_extensions x) = 1 /\
  fst (X509_get_key_usage x)
  = match fst (d2i_key_usage (cert_info x)) with
    | Some usage => key_usage_value usage
    | None => UINT32_MAX
    end /\
  (forall usage, 0 <= key_usage_value usage < 2 ^ 16) /\
  fst (X509_get_extended_key_usage x)
  = match fst (d2i_ext_key_usage (cert_info x)) with
    | Some nids => ext_key_usage_value nids
    | None => UINT32_MAX
    end /\
  fst (X509_get_pathlen x)
  = match fst (d2i_basic_constraints (cert_info x)) with
    | Some bs =>
        match bs_pathlen bs with
        | Some n => ASN1_INTEGER_get n
        | None => -1
        end
    | None => -1
    end /\
  fst (X509_get0_subject_key_id x)
  = fst (d2i_subject_key_identifier (cert_info x)) /\
  fst (X509_get0_authority_key_id x)
  = match fst (d2i_authority_key_identifier (cert_info x)) with
    | Some a => akid_keyid a
    | None => None
    end.
Proof.
  intros Hd Hfresh Hwf.
  pose proof Hd as Hd'.
  cbn [pairwise_disjoint EXFLAGS forallb] in Hd'.
  repeat match goal with
         | H : _ && _ = true |- _ => apply andb_true_iff in H as [? ?]
         | H : (_ =? _) = true |- _ => apply Z.eqb_eq in H
         | H : (_ <? _) = true |- _ => apply Z.ltb_lt in H
         end.
  assert (Hx0 : forall F, Z.land (ex_flags x) F = 0)
    by (intros F; by rewrite Hfresh).
  assert (Hset : Z.land (ex_flags x) EXFLAG_SET = 0) by apply Hx0.
  assert (Hsym : forall a b, Z.land a b = 0 -> Z.land b a = 0)
    by (intros a b; by rewrite Z.land_comm).
  assert (Hinv : Z.land (ex_flags (fill_cache x)) EXFLAG_INVALID = 0).
  { apply fill_cache_clear; auto; lia. }
  assert (Hc : x509v3_cache_extensions x = (1, fill_cache x)).
  { destruct (x509v3_cache_extensions_cases x) as [[Hs _]|[_ ->]]; [done|].
    by rewrite Hinv. }
  destruct (fill_cache_values x) as (Hp & Hu & Hxu & Hs & Ha).
  unfold X509_get_key_usage, X509_get_extended_key_usage, X509_get_pathlen,
    X509_get0_subject_key_id, X509_get0_authority_key_id.
  rewrite Hc. cbn [truthy Z.eqb negb fst orb].
  split; [done|]. split.
  { destruct (fst (d2i_key_usage (cert_info x))) as [usage|] eqn:Hku.
    - assert (Hk : Z.land (ex_flags (fill_cache x)) EXFLAG_KUSAGE <> 0).
      { apply (fill_cache_kept_from_key_usage x); [lia|].
        apply (cache_key_usage_sets _ usage); [lia|].
        by rewrite cert_info_cache_basic_constraints, cert_info_cache_version,
          cert_info_cache_digest. }
      apply truthy_true in Hk. by rewrite Hk.
    - assert (Hk : Z.land (ex_flags (fill_cache x)) EXFLAG_KUSAGE = 0).
      { apply fill_cache_clear; auto; lia. }
      by rewrite Hk. }
  split; [apply key_usage_value_16|]. split.
  { destruct (fst (d2i_ext_key_usage (cert_info x))) as [nids|] eqn:Hxku.
    - assert (Hk : Z.land (ex_flags (fill_cache x)) EXFLAG_XKUSAGE <> 0).
      { apply (fill_cache_kept_from_ext_key_usage x); [lia|].
        apply (cache_ext_key_usage_sets _ nids); [lia|].
        by rewrite cert_info_cache_key_usage,
          cert_info_cache_basic_constraints, cert_info_cache_version,
          cert_info_cache_digest. }
      apply truthy_true in Hk. by rewrite Hk.
    - assert (Hk : Z.land (ex_flags (fill_cache x)) EXFLAG_XKUSAGE = 0).
      { apply fill_cache_clear; auto; lia. }
      by rewrite Hk. }
  split.
  { unfold marks_invalid in Hwf. cbv zeta in Hwf.
    repeat (apply orb_false_iff in Hwf as [Hwf ?]).
    destruct (d2i_basic_constraints (cert_info x)) as [[bs|] j] eqn:Hbc;
      cbn [fst] in *.
    - assert (Hk : Z.land (ex_flags (fill_cache x)) EXFLAG_BCONS <> 0).
      { apply (fill_cache_kept_from_basic_constraints x); [lia|].
        apply (cache_basic_constraints_sets _ bs); [lia|].
        by rewrite cert_info_cache_version, cert_info_cache_digest, Hbc. }
      destruct (Z.eqb_spec (Z.land (ex_flags (fill_cache x)) EXFLAG_BCONS) 0);
        [done|].
      rewrite Hp. destruct (bs_pathlen bs) as [len|]; [|done].
      match goal with H : _ || negb _ = false |- _ => by rewrite H end.
    - assert (Hk : Z.land (ex_flags (fill_cache x)) EXFLAG_BCONS = 0).
      { apply fill_cache_clear; auto; try lia. left. by rewrite Hbc. }
      by rewrite Hk. }
  split; [done|]. by rewrite Ha.
Qed.

(** ** The self-signed flag *)

Section SelfSigned.

Context `{K : macros} `{L : library}.

(** [X509_check_akid] reads the subject key identifier, the serial number
    and the issuer name of the certificate, and nothing else of it. *)
Lemma X509_check_akid_reads a b k :
  skid a = skid b -> cert_info a = cert_info b ->
  X509_check_akid a k = X509_check_akid b k.
Proof.
  intros Hs Hc. unfold X509_check_akid, X509_get_serialNumber,
    X509_get_issuer_name. by rewrite Hs, Hc.
Qed.

Lemma ku_reject_reads a b usage :
  truthy (Z.land (ex_flags a) EXFLAG_KUSAGE)
  = truthy (Z.land (ex_flags b) EXFLAG_KUSAGE) ->
  ex_kusage a = ex_kusage b ->
  ku_reject a usage = ku_reject b usage.
Proof. intros Hf Hk. unfold ku_reject. by rewrite Hf, Hk. Qed.

Lemma truthy_same a b :
  (a <> 0 -> b <> 0) -> (a = 0 -> b = 0) -> truthy a = truthy b.
Proof.
  intros H1 H2. destruct (Z.eq_dec a 0) as [Ha|Ha].
  - by rewrite Ha, (H2 Ha).
  - pose proof (proj2 (truthy_true a) Ha) as ->.
    by pose proof (proj2 (truthy_true b) (H1 Ha)) as ->.
Qed.

(** The statements after the test of the names. *)
Lemma cache_tail_kept y :
  flags_kept y
    (or_ex_flags EXFLAG_SET
       (cache_critical (cache_crldp (cache_nc (cache_altname y))))).
Proof.
  eapply flags_kept_trans; [|apply flags_kept_or].
  eapply flags_kept_trans; [|apply cache_critical_kept].
  eapply flags_kept_trans; [|apply cache_crldp_kept].
  eapply flags_kept_trans; [|apply cache_nc_kept].
  apply cache_altname_kept.
Qed.

Lemma cache_tail_clear F y :
  0 <= F < 2 ^ 32 ->
  Z.land EXFLAG_INVALID F = 0 -> Z.land EXFLAG_CRITICAL F = 0 ->
  Z.land EXFLAG_SET F = 0 ->
  Z.land (ex_flags y) F = 0 ->
  Z.land
    (ex_flags
       (or_ex_flags EXFLAG_SET
          (cache_critical (cache_crldp (cache_nc (cache_altname y)))))) F
  = 0.
Proof.
  intros HF Hi Hc Hs Hy.
  apply or_ex_flags_clear; [done..|].
  apply cache_critical_clear; [done|by right|].
  apply cache_crldp_clear; [done|by right|].
  apply cache_nc_clear; [done|by right|].
  apply cache_altname_clear; [done|by right|done].
Qed.

Lemma cache_tail_fields y :
  let z := or_ex_flags EXFLAG_SET
             (cache_critical (cache_crldp (cache_nc (cache_altname y)))) in
  ex_kusage z = ex_kusage y /\ skid z = skid y /\ akid z = akid y /\
  cert_info z = cert_info y.
Proof.
  cbv zeta. cbn [or_ex_flags set_ex_flags ex_kusage skid akid cert_info].
  destruct (cache_altname_fields y) as (_ & U1 & _ & S1 & A1).
  destruct (cache_nc_fields (cache_altname y)) as (_ & U2 & _ & S2 & A2).
  destruct (cache_crldp_fields (cache_nc (cache_altname y)))
    as (_ & U3 & _ & S3 & A3).
  destruct (cache_critical_fields (cache_crldp (cache_nc (cache_altname y))))
    as (_ & U4 & _ & S4 & A4).
  rewrite U4, U3, U2, U1, S4, S3, S2, S1, A4, A3, A2, A1.
  by rewrite cert_info_cache_critical, cert_info_cache_crldp,
    cert_info_cache_nc, cert_info_cache_altname.
Qed.

(** The statements before the test of the names. *)
Lemma cache_head_clear F x :
  0 <= F < 2 ^ 32 ->
  Z.land EXFLAG_INVALID F = 0 -> Z.land EXFLAG_V1 F = 0 ->
  Z.land EXFLAG_CA F = 0 -> Z.land EXFLAG_BCONS F = 0 ->
  Z.land EXFLAG_KUSAGE F = 0 -> Z.land EXFLAG_XKUSAGE F = 0 ->
  Z.land EXFLAG_NSCERT F = 0 ->
  Z.land (ex_flags x) F = 0 ->
  Z.land
    (ex_flags
       (cache_akid (cache_skid (cache_netscape_cert_type
          (cache_ext_key_usage (cache_key_usage (cache_basic_constraints
             (cache_version (cache_digest x))))))))) F
  = 0.
Proof.
  intros HF Hi Hv Hca Hbc Hku Hxku Hns Hx.
  apply cache_akid_clear; [done|by right|].
  apply cache_skid_clear; [done|by right|].
  apply cache_netscape_cert_type_clear; [done|by right|by right|].
  apply cache_ext_key_usage_clear; [done|by right|by right|].
  apply cache_key_usage_clear; [done|by right|by right|].
  apply cache_basic_constraints_clear; [done|done|by right|by right|].
  apply cache_version_clear; [done..|].
  apply cache_digest_clear; [done|by right|done].
Qed.

(** [EXFLAG_SS] is in the filled cache exactly when the names of the
    certificate agree, its authority key identifier fits the certificate
    itself and its key usage does not exclude signing certificates, all
    three as the filled cache shows them. *)
Lemma fill_cache_self_signed x :
  pairwise_disjoint EXFLAGS = true ->
  Z.land (ex_flags x) EXFLAG_SS = 0 ->
  Z.land (ex_flags (fill_cache x)) EXFLAG_SS <> 0 <->
  truthy (X509_NAME_cmp (X509_get_subject_name x) (X509_get_issuer_name x))
  = false /\
  X509_check_akid (fill_cache x) (akid (fill_cache x)) = X509_V_OK /\
  ku_reject (fill_cache x) X509v3_KU_KEY_CERT_SIGN = false.
Proof.
  intros Hd Hx.
  cbn [pairwise_disjoint EXFLAGS forallb] in Hd.
  repeat match goal with
         | H : _ && _ = true |- _ => apply andb_true_iff in H as [? ?]
         | H : (_ =? _) = true |- _ => apply Z.eqb_eq in H
         | H : (_ <? _) = true |- _ => apply Z.ltb_lt in H
         end.
  assert (Hsym : forall a b, Z.land a b = 0 -> Z.land b a = 0)
    by (intros a b; by rewrite Z.land_comm).
  unfold fill_cache. cbv zeta.
  set (x8 := cache_akid (cache_skid (cache_netscape_cert_type
          (cache_ext_key_usage (cache_key_usage (cache_basic_constraints
             (cache_version (cache_digest x)))))))).
  set (x9 := cache_self_issued x8).
  set (z := or_ex_flags EXFLAG_SET
              (cache_critical (cache_crldp (cache_nc (cache_altname x9))))).
  assert (Hss8 : Z.land (ex_flags x8) EXFLAG_SS = 0).
  { apply cache_head_clear; auto; lia. }
  assert (Hc8 : cert_info x8 = cert_info x).
  { unfold x8.
    by rewrite cert_info_cache_akid, cert_info_cache_skid,
      cert_info_cache_netscape_cert_type, cert_info_cache_ext_key_usage,
      cert_info_cache_key_usage, cert_info_cache_basic_constraints,
      cert_info_cache_version, cert_info_cache_digest. }
  destruct (cache_tail_fields x9) as (Uz & Sz & Az & Cz). fold z in Uz, Sz, Az, Cz.
  destruct (cache_self_issued_fields x8) as (_ & U9 & _ & S9 & A9).
  fold x9 in U9, S9, A9.
  assert (C9 : cert_info x9 = cert_info x8)
    by apply cert_info_cache_self_issued.
  pose proof (cache_tail_kept x9) as Kz. fold z in Kz.
  assert (Tz : forall F, 0 <= F < 2 ^ 32 ->
    Z.land EXFLAG_INVALID F = 0 -> Z.land EXFLAG_CRITICAL F = 0 ->
    Z.land EXFLAG_SET F = 0 ->
    Z.land (ex_flags x9) F = 0 -> Z.land (ex_flags z) F = 0)
    by (intros F; apply cache_tail_clear).
  assert (Hname : X509_NAME_cmp (X509_get_subject_name x8)
                    (X509_get_issuer_name x8)
                  = X509_NAME_cmp (X509_get_subject_name x)
                      (X509_get_issuer_name x))
    by (unfold X509_get_subject_name, X509_get_issuer_name; by rewrite Hc8).
  set (xs := or_ex_flags EXFLAG_SI x8).
  assert (Hakid : X509_check_akid xs (akid xs) = X509_check_akid z (akid z)).
  { rewrite Az, A9. cbn [xs or_ex_flags set_ex_flags akid].
    apply X509_check_akid_reads.
    - by rewrite Sz, S9.
    - by rewrite Cz, C9. }
  assert (Hss9 : forall y, Z.land (ex_flags y) EXFLAG_KUSAGE = 0 ->
    Z.land (ex_flags (or_ex_flags EXFLAG_SS y)) EXFLAG_KUSAGE = 0).
  { intros y Hy. apply or_ex_flags_clear; auto; lia. }
  assert (Hname_false :
    truthy (X509_NAME_cmp (X509_get_subject_name x) (X509_get_issuer_name x))
    = false ->
    x9 = if (X509_check_akid xs (akid xs) =? X509_V_OK)
            && negb (ku_reject xs X509v3_KU_KEY_CERT_SIGN)
         then or_ex_flags EXFLAG_SS xs else xs).
  { intros Hn. unfold x9, cache_self_issued. by rewrite Hname, Hn. }
  assert (Hku : truthy (X509_NAME_cmp (X509_get_subject_name x)
                          (X509_get_issuer_name x)) = false ->
    ku_reject xs X509v3_KU_KEY_CERT_SIGN
    = ku_reject z X509v3_KU_KEY_CERT_SIGN).
  { intros Hn. apply ku_reject_reads.
    - apply truthy_same.
      + intros Hs. apply Kz; [lia|]. rewrite (Hname_false Hn).
        case_match; [|done]. apply flags_kept_or; [lia|done].
      + intros Hs. apply Tz; auto; [lia|]. rewrite (Hname_false Hn).
        case_match; [|done]. by apply Hss9.
    - by rewrite Uz, U9. }
  split.
  - intros Hz.
    destruct (truthy (X509_NAME_cmp (X509_get_subject_name x)
                        (X509_get_issuer_name x))) eqn:Hn.
    { exfalso. apply Hz. apply Tz; auto; [lia|].
      unfold x9, cache_self_issued. by rewrite Hname, Hn. }
    specialize (Hname_false eq_refl). specialize (Hku eq_refl).
    destruct ((X509_check_akid xs (akid xs) =? X509_V_OK)
              && negb (ku_reject xs X509v3_KU_KEY_CERT_SIGN)) eqn:Hc.
    + apply andb_true_iff in Hc as [Ha Hr].
      apply Z.eqb_eq in Ha. apply negb_true_iff in Hr.
      by rewrite <- Hakid, <- Hku.
    + exfalso. apply Hz. apply Tz; auto; [lia|].
      rewrite Hname_false. apply or_ex_flags_clear; auto; lia.
  - intros (Hn & Ha & Hr).
    specialize (Hname_false Hn). specialize (Hku Hn).
    apply Kz; [lia|]. rewrite Hname_false.
    rewrite Hakid, Hku, Ha, Hr, Z.eqb_refl. cbn [andb negb].
    rewrite or_ex_flags_has by lia. lia.
Qed.

End SelfSigned.

(** X25. A certificate is flagged as self-signed exactly when it passes
    as its own issuer.  For a certificate object whose flags are clear and
    whose extensions are well formed, [X509_check_issued] with that object
    as issuer and as subject returns [X509_V_OK] if and only if
    [x509v3_cache_extensions] sets [EXFLAG_SS] in it. *)
Theorem EXFLAG_SS_agrees_with_X509_check_issued
    (K : macros) (L : library) (store : list X509) (p : nat) (x : X509) :
  pairwise_disjoint EXFLAGS = true ->
  X509_V_ERR_SUBJECT_ISSUER_MISMATCH <> X509_V_OK ->
  X509_V_ERR_KEYUSAGE_NO_CERTSIGN <> X509_V_OK ->
  store !! p = Some x ->
  ex_flags x = 0 ->
  marks_invalid x = false ->
  exists r store',
    X509_check_issued p p store = Some (r, store') /\
    (r = X509_V_OK <->
     Z.land (ex_flags (snd (x509v3_cache_extensions x))) EXFLAG_SS <> 0).
Proof.
  intros Hd Hmis Hsign Hp Hfresh Hwf.
  pose proof (fill_cache_self_signed x Hd) as Hss.
  rewrite Hfresh in Hss. specialize (Hss eq_refl).
  pose proof Hd as Hd'.
  cbn [pairwise_disjoint EXFLAGS forallb] in Hd'.
  repeat match goal with
         | H : _ && _ = true |- _ => apply andb_true_iff in H as [? ?]
         | H : (_ =? _) = true |- _ => apply Z.eqb_eq in H
         | H : (_ <? _) = true |- _ => apply Z.ltb_lt in H
         end.
  assert (Hx0 : forall F, Z.land (ex_flags x) F = 0)
    by (intros F; by rewrite Hfresh).
  assert (Hsym : forall a b, Z.land a b = 0 -> Z.land b a = 0)
    by (intros a b; by rewrite Z.land_comm).
  assert (Hinv : Z.land (ex_flags (fill_cache x)) EXFLAG_INVALID = 0).
  { apply fill_cache_clear; auto; lia. }
  assert (Hset : Z.land (ex_flags (fill_cache x)) EXFLAG_SET <> 0).
  { rewrite fill_cache_set by lia. lia. }
  assert (Hc : x509v3_cache_extensions x = (1, fill_cache x)).
  { destruct (x509v3_cache_extensions_cases x) as [[Hs _]|[_ ->]].
    - by rewrite Hx0 in Hs.
    - by rewrite Hinv. }
  assert (Hc' : x509v3_cache_extensions (fill_cache x) = (1, fill_cache x)).
  { destruct (x509v3_cache_extensions_cases (fill_cache x))
      as [[_ ->]|[Hs _]]; [by rewrite Hinv|done]. }
  assert (Hlen : (p < length store)%nat) by by eapply lookup_lt_Some.
  unfold X509_check_issued. rewrite Hp. cbn [mbind option_bind].
  rewrite Hc. cbn [snd].
  destruct (truthy (X509_NAME_cmp (X509_get_subject_name x)
                      (X509_get_issuer_name x))) eqn:Hn.
  { eexists _, _. split; [done|]. split; [done|].
    intros Hs. apply Hss in Hs as [? _]. done. }
  cbn [truthy Z.eqb negb].
  rewrite list_lookup_insert_eq by done. cbn [mbind option_bind].
  rewrite Hc'. cbn [truthy Z.eqb negb].
  rewrite list_lookup_insert_eq by (by rewrite length_insert).
  cbn [mbind option_bind].
  assert (Hret : match akid (fill_cache x) with
                 | Some a => X509_check_akid (fill_cache x) (Some a)
                 | None => X509_V_OK
                 end = X509_check_akid (fill_cache x) (akid (fill_cache x)))
    by by destruct (akid (fill_cache x)).
  rewrite Hret.
  destruct (Z.eqb_spec (X509_check_akid (fill_cache x) (akid (fill_cache x)))
              X509_V_OK) as [Ha|Ha]; cbn [negb].
  - destruct (ku_reject (fill_cache x) X509v3_KU_KEY_CERT_SIGN) eqn:Hr.
    + eexists _, _. split; [done|]. split; [done|].
      intros Hs. apply Hss in Hs as (_ & _ & ?). done.
    + eexists _, _. split; [done|]. split; [|done].
      intros _. by apply Hss.
  - eexists _, _. split; [done|]. split; [done|].
    intros Hs. apply Hss in Hs as (_ & ? & _). done.
Qed.

(** ** Critical extensions *)

Section Critical.

Context `{K : macros} `{L : library}.

Lemma X509_supported_extension_bool ex :
  X509_supported_extension ex = 0 \/ X509_supported_extension ex = 1.
Proof. unfold X509_supported_extension. cbv zeta. apply b2z_bool. Qed.

(** The loop stops at the first critical extension that is not
    supported, so it finds one exactly when there is one. *)
Lemma unsupported_critical_spec exts :
  unsupported_critical exts = true <->
  exists ex, ex ∈ exts /\
    X509_EXTENSION_get_critical (Some ex) <> 0 /\
    X509_supported_extension ex = 0.
Proof.
  induction exts as [|e rest IH]; cbn [unsupported_critical].
  { split; [done|]. intros (ex & Hin & _). by apply elem_of_nil in Hin. }
  destruct (Z.eq_dec (X509_EXTENSION_get_critical (Some e)) 0) as [Hc|Hc].
  - pose proof (proj2 (truthy_false _) Hc) as ->. cbn [negb].
    rewrite IH. split.
    + intros (ex & Hin & H1 & H2). exists ex. split; [by right|done].
    + intros (ex & Hin & H1 & H2). apply elem_of_cons in Hin as [->|Hin];
        [done|]. by exists ex.
  - pose proof (proj2 (truthy_true _) Hc) as ->. cbn [negb].
    destruct (X509_supported_extension_bool e) as [Hs|Hs]; rewrite Hs.
    + change (truthy 0) with false. cbn [negb]. split; [|done].
      intros _. exists e. split; [by left|done].
    + change (truthy 1) with true. cbn [negb]. rewrite IH. split.
      * intros (ex & Hin & H1 & H2). exists ex. split; [by right|done].
      * intros (ex & Hin & H1 & H2). apply elem_of_cons in Hin as [->|Hin];
          [lia|]. by exists ex.
Qed.

Lemma cache_critical_sets x :
  0 < EXFLAG_CRITICAL < 2 ^ 32 ->
  unsupported_critical (extensions (cert_info x)) = true ->
  Z.land (ex_flags (cache_critical x)) EXFLAG_CRITICAL <> 0.
Proof.
  intros HG Hu. unfold cache_critical. rewrite Hu.
  rewrite or_ex_flags_has by lia. lia.
Qed.

Lemma fill_cache_critical_sets x :
  0 < EXFLAG_CRITICAL < 2 ^ 32 ->
  unsupported_critical (extensions (cert_info x)) = true ->
  Z.land (ex_flags (fill_cache x)) EXFLAG_CRITICAL <> 0.
Proof.
  intros HG Hu. unfold fill_cache. cbv zeta.
  apply flags_kept_or; [lia|].
  apply cache_critical_sets; [done|].
  by rewrite cert_info_cache_crldp, cert_info_cache_nc,
    cert_info_cache_altname, cert_info_cache_self_issued,
    cert_info_cache_akid, cert_info_cache_skid,
    cert_info_cache_netscape_cert_type, cert_info_cache_ext_key_usage,
    cert_info_cache_key_usage, cert_info_cache_basic_constraints,
    cert_info_cache_version, cert_info_cache_digest.
Qed.

End Critical.

(** X26. [EXFLAG_CRITICAL] marks a critical extension the library does not
    handle.  For a certificate object whose flags are clear,
    [x509v3_cache_extensions] sets [EXFLAG_CRITICAL] if and only if some
    extension of the certificate is critical and is not accepted by
    [X509_supported_extension]; this holds also when the certificate is
    marked invalid. *)
Theorem EXFLAG_CRITICAL_marks_unsupported_critical_extension
    (K : macros) (L : library) (x : X509) :
  pairwise_disjoint EXFLAGS = true ->
  ex_flags x = 0 ->
  Z.land (ex_flags (snd (x509v3_cache_extensions x))) EXFLAG_CRITICAL <> 0
  <->
  exists ex, ex ∈ extensions (cert_info x) /\
    X509_EXTENSION_get_critical (Some ex) <> 0 /\
    X509_supported_extension ex = 0.
Proof.
  intros Hd Hfresh.
  cbn [pairwise_disjoint EXFLAGS forallb] in Hd.
  repeat match goal with
         | H : _ && _ = true |- _ => apply andb_true_iff in H as [? ?]
         | H : (_ =? _) = true |- _ => apply Z.eqb_eq in H
         | H : (_ <? _) = true |- _ => apply Z.ltb_lt in H
         end.
  assert (Hx0 : forall F, Z.land (ex_flags x) F = 0)
    by (intros F; by rewrite Hfresh).
  assert (Hsym : forall a b, Z.land a b = 0 -> Z.land b a = 0)
    by (intros a b; by rewrite Z.land_comm).
  assert (Hc : snd (x509v3_cache_extensions x) = fill_cache x).
  { destruct (x509v3_cache_extensions_cases x) as [[Hs _]|[_ ->]]; [|done].
    by rewrite Hx0 in Hs. }
  rewrite Hc, <- unsupported_critical_spec.
  destruct (unsupported_critical (extensions (cert_info x))) eqn:Hu.
  - split; [done|]. intros _. apply fill_cache_critical_sets; [lia|done].
  - split; [|done]. intros Hz. exfalso. apply Hz.
    apply fill_cache_clear; auto; lia.
Qed.

End V3_purp_facts.
(** C5 at a sample input: an x86_64 build on a CPU with BMI2 and ADX. *)
Lemma x25519_s2n_bignum_dispatch_sample :
  let P := sample_x86_64 in
  let E := rfc7748_engine in
  let out := (Ptr 2 0) in
  let private_key := (Ptr 0 0) in
  let peer := (Ptr 1 0) in
  let s := sample_state in
  let k := sample_scalar in
  let d := Ptr (length (memory s)) 0 in
  let s1 := push_block (clamp k) s in
  let choice :=
    spec_dispatch (target_arch P)
      (x25519_s2n_bignum_no_alt_capable P =? 1)
      (x25519_s2n_bignum_alt_capable P =? 1) in
  x25519_s2n_bignum P E out private_key peer s =
    match choice with
    | standard_backend => curve25519_x25519_byte P E out d peer s1
    | wide_backend => curve25519_x25519_byte_alt P E out d peer s1
    | no_backend_available => Aborts s1
    end
  /\
  x25519_s2n_bignum_public_from_private P E out private_key s =
    match choice with
    | standard_backend => curve25519_x25519base_byte P E out d s1
    | wide_backend => curve25519_x25519base_byte_alt P E out d s1
    | no_backend_available => Aborts s1
    end.
Proof.
  intros P E out private_key peer s k.
  refine (x25519_s2n_bignum_dispatch P E out private_key peer s k _).
  - reflexivity.
Defined.

(** C9 at a sample input: the key of block 0, the output in block 2. *)
Lemma X25519_private_key_not_modified_sample :
  let P := sample_x86_64 in
  let E := rfc7748_engine in
  let out := (Ptr 2 0) in
  let private_key := (Ptr 0 0) in
  let peer := (Ptr 1 0) in
  let s := sample_state in
  let k := sample_scalar in
  let u := sample_u in
  (exists ok s',
      X25519 P E out private_key peer s = Returns ok s' /\
      read (memory s') private_key 32 = Some k /\
      (CURVE25519_S2N_BIGNUM_CAPABLE P = true ->
       read (memory s') (Ptr (length (memory s)) 0) 32 = Some (clamp k)))
  /\
  (exists s',
      X25519_public_from_private P E out private_key s = Returns tt s' /\
      read (memory s') private_key 32 = Some k /\
      (CURVE25519_S2N_BIGNUM_CAPABLE P = true ->
       read (memory s') (Ptr (length (memory s)) 0) 32 = Some (clamp k))).
Proof.
  intros P E out private_key peer s k u.
  refine (X25519_private_key_not_modified P E out private_key peer s k u _ _ _ _).
  - reflexivity.
  - reflexivity.
  - eexists; reflexivity.
  - left; vm_compute; discriminate.
Defined.

(** C4 at a sample input: the peer value is the all-zero
    second half of block 2, and the routines are those of RFC 7748. *)
Lemma X25519_fails_iff_all_zero_sample :
  let P := sample_aarch64 in
  let E := rfc7748_engine in
  let out := (Ptr 2 0) in
  let private_key := (Ptr 0 0) in
  let peer := (Ptr 2 32) in
  let s := sample_state in
  let k := sample_scalar in
  let u := (replicate 32 0) in
  (exists ok s',
    X25519 P E out private_key peer s = Returns ok s' /\
    read (memory s') out 32 = Some (X25519_shared_key P E k u) /\
    (ok = 0 <-> X25519_shared_key P E k u = replicate 32 0) /\
    (ok = 0 \/ ok = 1) /\
    (x25519_engine_conforms E -> Forall is_octet k -> u = replicate 32 0 ->
     ok = 0 /\ X25519_shared_key P E k u = replicate 32 0))
  /\
  (x25519_engine_conforms E)
  /\
  (Forall is_octet k)
  /\
  (u = replicate 32 0).
Proof.
  intros P E out private_key peer s k u.
  split.
  - refine (X25519_fails_iff_all_zero P E out private_key peer s k u _ _ _).
    + reflexivity.
    + reflexivity.
    + eexists; reflexivity.
  - split_and!.
    + apply rfc7748_engine_conforms.
    + apply Forall_octet_check; vm_compute; reflexivity.
    + reflexivity.
Defined.

(** C10 at a sample input: the scalars of blocks 0 and 3 differ in
    the low bits of octet 0 and the top bits of octet 31; the build is the
    portable one. *)
Lemma X25519_discarded_bits_have_no_influence_sample :
  let P := sample_no_asm in
  let E := rfc7748_engine in
  let out := (Ptr 2 0) in
  let private_key1 := (Ptr 0 0) in
  let private_key2 := (Ptr 3 0) in
  let peer := (Ptr 1 0) in
  let s := sample_state in
  let k1 := sample_scalar in
  let k2 := (<[0%nat := 0xa2]> (<[31%nat := 0x04]> sample_scalar)) in
  let u := sample_u in
  ((exists ok s1 s2 shared,
      X25519 P E out private_key1 peer s = Returns ok s1 /\
      X25519 P E out private_key2 peer s = Returns ok s2 /\
      read (memory s1) out 32 = Some shared /\
      read (memory s2) out 32 = Some shared)
  /\
  (exists s1 s2 public,
      X25519_public_from_private P E out private_key1 s = Returns tt s1 /\
      X25519_public_from_private P E out private_key2 s = Returns tt s2 /\
      read (memory s1) out 32 = Some public /\
      read (memory s2) out 32 = Some public))
  /\
  (k1 <> k2).
Proof.
  intros P E out private_key1 private_key2 peer s k1 k2 u.
  split.
  - refine (X25519_discarded_bits_have_no_influence P E out private_key1 private_key2 peer s k1 k2 u _ _ _ _ _ _ _ _ _).
    + reflexivity.
    + reflexivity.
    + reflexivity.
    + eexists; reflexivity.
    + apply Forall_octet_check; vm_compute; reflexivity.
    + apply Forall_octet_check; vm_compute; reflexivity.
    + apply Forall_octet_check; vm_compute; reflexivity.
    + vm_compute; reflexivity.
    + intros _; apply rfc7748_engine_portable_clamps.
  - vm_compute; discriminate.
Defined.

(** C6 at a sample input: the build without assembly and the
    x86_64 build. *)
Lemma X25519_backend_choice_invisible_sample :
  let P := sample_no_asm in
  let P' := sample_x86_64 in
  let E := rfc7748_engine in
  let out := (Ptr 2 0) in
  let private_key := (Ptr 0 0) in
  let peer := (Ptr 1 0) in
  let s := sample_state in
  let k := sample_scalar in
  let u := sample_u in
  ((exists ok s1 s2 shared,
      X25519 P E out private_key peer s = Returns ok s1 /\
      X25519 P' E out private_key peer s = Returns ok s2 /\
      read (memory s1) out 32 = Some shared /\
      read (memory s2) out 32 = Some shared /\
      (spec_dispatch (target_arch P)
         (x25519_s2n_bignum_no_alt_capable P =? 1)
         (x25519_s2n_bignum_alt_capable P =? 1) = no_backend_available ->
       shared = octets 32 (nohw_scalar_mult_generic E k u)))
  /\
  (exists s1 s2 public,
      X25519_public_from_private P E out private_key s = Returns tt s1 /\
      X25519_public_from_private P' E out private_key s = Returns tt s2 /\
      read (memory s1) out 32 = Some public /\
      read (memory s2) out 32 = Some public /\
      (spec_dispatch (target_arch P)
         (x25519_s2n_bignum_no_alt_capable P =? 1)
         (x25519_s2n_bignum_alt_capable P =? 1) = no_backend_available ->
       public = octets 32 (nohw_public_from_private E k))))
  /\
  (spec_dispatch (target_arch P)
     (x25519_s2n_bignum_no_alt_capable P =? 1)
     (x25519_s2n_bignum_alt_capable P =? 1) = no_backend_available).
Proof.
  intros P P' E out private_key peer s k u.
  split.
  - refine (X25519_backend_choice_invisible P P' E out private_key peer s k u _ _ _ _ _ _).
    + apply rfc7748_engine_interchangeable.
    + reflexivity.
    + reflexivity.
    + eexists; reflexivity.
    + apply Forall_octet_check; vm_compute; reflexivity.
    + apply Forall_octet_check; vm_compute; reflexivity.
  - reflexivity.
Defined.

(** C7 at a sample input: the key pair is written to block 2, the
    private key first. *)
Lemma X25519_keypair_stores_unmasked_key_sample :
  let P := sample_x86_64 in
  let E := rfc7748_engine in
  let out_public := (Ptr 2 32) in
  let out_private := (Ptr 2 0) in
  let s := sample_state in
  let r := octets 32 (take 32 (entropy s)) in
  exists s' stored public,
    X25519_keypair P E out_public out_private s = Returns tt s' /\
    read (memory s') out_private 32 = Some stored /\
    read (memory s') out_public 32 = Some public /\
    entropy s' = drop 32 (entropy s) /\
    (forall i, stored !! i =
       match i with
       | 0%nat => (fun x => Z.lor x 7) <$> r !! 0%nat
       | 31%nat => (fun x => Z.lor (Z.land x 191) 128) <$> r !! 31%nat
       | _ => r !! i
       end) /\
    (forall x, stored !! 0%nat = Some x ->
       Z.testbit x 0 = true /\ Z.testbit x 1 = true /\ Z.testbit x 2 = true) /\
    (forall x, stored !! 31%nat = Some x ->
       Z.testbit x 6 = false /\ Z.testbit x 7 = true) /\
    clamp stored = clamp r /\
    public = X25519_public_value P E stored /\
    (forall out, writable (memory s') out 32 ->
       exists s'',
         X25519_public_from_private P E out out_private s' = Returns tt s'' /\
         read (memory s'') out 32 = Some public).
Proof.
  intros P E out_public out_private s.
  refine (X25519_keypair_stores_unmasked_key P E out_public out_private s _ _ _ _).
  - vm_compute; lia.
  - eexists; reflexivity.
  - eexists; reflexivity.
  - right; right; vm_compute; lia.
Defined.

(** C1 at a sample input: the signature of block 7, whose S half
    is the group order itself, with a public key that decodes. *)
Lemma ED25519_verify_rejects_S_not_below_order_sample :
  let G := Exponent.engine in
  let message := (Ptr 6 0) in
  let message_len := 3%nat in
  let signature := (Ptr 7 0) in
  let public_key := (Ptr 10 0) in
  let s := sample_state in
  let sig := (replicate 32 0 ++ encode_le 32 group_order) in
  let pk := (5 :: replicate 31 0) in
  ((forall s0 scopy,
     read (memory s0) scopy 32 = Some (drop 32 sig) ->
     order_loop scopy 3 s0 =
       Returns (if le_value (drop 32 sig) <? group_order
                then loop_break else loop_return_0) s0)
  /\
  (group_order <= le_value (drop 32 sig) ->
   exists s',
     ED25519_verify G message message_len signature public_key s
     = Returns 0 s')
  /\
  (forall S0, 0 <= S0 -> le_value (drop 32 sig) = S0 + group_order ->
   exists s',
     ED25519_verify G message message_len signature public_key s
     = Returns 0 s'))
  /\
  (le_value (drop 32 sig) = group_order)
  /\
  (is_Some (ge_frombytes_vartime G pk)).
Proof.
  intros G message message_len signature public_key s sig pk.
  split.
  - refine (ED25519_verify_rejects_S_not_below_order G message message_len signature public_key s sig pk _ _ _).
    + reflexivity.
    + reflexivity.
    + apply Forall_octet_check; vm_compute; reflexivity.
  - split_and!.
    + vm_compute; reflexivity.
    + apply Exponent_facts.decode_below; vm_compute; reflexivity.
Defined.

(** C3 at a sample input: the signature of block 8 has the top bits
    of its last octet set, and the string of block 9 does not decode. *)
Lemma ED25519_verify_rejects_malformed_input_sample :
  let G := Exponent.engine in
  let message := (Ptr 6 0) in
  let message_len := 3%nat in
  let signature := (Ptr 8 0) in
  let public_key := (Ptr 9 0) in
  let s := sample_state in
  let sig := (replicate 63 0 ++ [0xe0]) in
  ((Z.land (default 0 (sig !! 63%nat)) 224 <> 0 ->
   ED25519_verify G message message_len signature public_key s = Returns 0 s)
  /\
  (forall pk,
     read (memory s) public_key 32 = Some pk ->
     ge_frombytes_vartime G pk = None ->
     ED25519_verify G message message_len signature public_key s = Returns 0 s))
  /\
  (Z.land (default 0 (sig !! 63%nat)) 224 <> 0)
  /\
  (ge_frombytes_vartime G (replicate 32 255) = None).
Proof.
  intros G message message_len signature public_key s sig.
  split.
  - refine (ED25519_verify_rejects_malformed_input G message message_len signature public_key s sig _).
    + reflexivity.
  - split_and!.
    + vm_compute; discriminate.
    + apply Exponent_facts.decode_not_below; vm_compute; discriminate.
Defined.

(** C2 at a sample input: a key pair from the seed of block 11,
    written to blocks 2 and 4, in the example engine. *)
Lemma ED25519_sign_then_verify_sample :
  let G := Exponent.engine in
  let Mo := Exponent_model.model in
  let s1 := sample_state in
  let out_public := (Ptr 2 0) in
  let out_private := (Ptr 4 0) in
  let seedp := (Ptr 11 0) in
  let seed := (seqZ 1 32) in
  exists s1' pk sk,
    ED25519_keypair_from_seed G out_public out_private seedp s1
    = Returns tt s1' /\
    read (memory s1') out_public 32 = Some pk /\
    read (memory s1') out_private 64 = Some sk /\
    forall s2 out_sig message message_len private_key msg,
      read (memory s2) private_key 64 = Some sk ->
      read (memory s2) message message_len = Some msg ->
      writable (memory s2) out_sig 64 ->
      separate out_sig 64 private_key 64 ->
      separate out_sig 64 message message_len ->
      exists s2' sig,
        ED25519_sign G out_sig message message_len private_key s2
        = Returns 1 s2' /\
        read (memory s2') out_sig 64 = Some sig /\
        forall s3 signature public_key message',
          read (memory s3) signature 64 = Some sig ->
          read (memory s3) public_key 32 = Some pk ->
          read (memory s3) message' message_len = Some msg ->
          exists s3',
            ED25519_verify G message' message_len signature public_key s3
            = Returns 1 s3'.
Proof.
  intros G Mo s1 out_public out_private seedp seed.
  refine (ED25519_sign_then_verify G Mo s1 out_public out_private seedp seed _ _ _ _ _).
  - reflexivity.
  - eexists; reflexivity.
  - eexists; reflexivity.
  - left; vm_compute; discriminate.
  - left; vm_compute; discriminate.
Defined.

(** C8 at the failing input: signing the octets 61 62 63 with the key of
    block 5, key generation from the seed of block 11, and the wrapper on
    the scalar of RFC 7748 on an x86_64 build. *)
Lemma private_scratch_is_left_unerased_sample :
  let G := Exponent.engine in
  let P := sample_x86_64 in
  let E := rfc7748_engine in
  let s := sample_state in
  let out_public := (Ptr 2 0) in
  let out_private := (Ptr 4 0) in
  let seedp := (Ptr 11 0) in
  let out_sig := (Ptr 2 0) in
  let message := (Ptr 6 0) in
  let message_len := 3%nat in
  let private_key := (Ptr 5 0) in
  let out_shared := (Ptr 4 0) in
  let x_private := (Ptr 0 0) in
  let peer := (Ptr 1 0) in
  let seed := (seqZ 1 32) in
  let sk := (seqZ 100 64) in
  let msg := [0x61; 0x62; 0x63] in
  let k := sample_scalar in
  let u := sample_u in
  (let local0 := Ptr (length (memory s)) 0 in
  let local1 := Ptr (S (length (memory s))) 0 in
  let local2 := Ptr (S (S (length (memory s)))) 0 in
  (exists s',
      ED25519_sign G out_sig message message_len private_key s = Returns 1 s' /\
      read (memory s') local0 64 = Some (sign_az G sk) /\
      read (memory s') local1 64 = Some (sign_nonce G msg sk) /\
      read (memory s') local2 64 = Some (sign_hram G msg sk) /\
      sign_az G sk <> replicate 64 0 /\
      ~ scratch_erased s
          (ED25519_sign G out_sig message message_len private_key s))
  /\
  (exists s',
      ED25519_keypair_from_seed G out_public out_private seedp s
      = Returns tt s' /\
      read (memory s') local0 64 = Some (keypair_az G seed) /\
      keypair_az G seed <> replicate 64 0 /\
      ~ scratch_erased s
          (ED25519_keypair_from_seed G out_public out_private seedp s))
  /\
  (CURVE25519_S2N_BIGNUM_CAPABLE P = true ->
   exists s',
      x25519_s2n_bignum P E out_shared x_private peer s = Returns tt s' /\
      read (memory s') local0 32 = Some (clamp k) /\
      clamp k <> replicate 32 0 /\
      ~ scratch_erased s
          (x25519_s2n_bignum P E out_shared x_private peer s))
  /\
  (target_arch P = OPENSSL_OTHER_ARCH ->
   x25519_s2n_bignum P E out_shared x_private peer s
   = Aborts (push_block (clamp k) s) /\
   read (memory (push_block (clamp k) s)) local0 32 = Some (clamp k) /\
   ~ scratch_erased s
       (x25519_s2n_bignum P E out_shared x_private peer s))
  /\
  (exists s',
      ED25519_keypair G out_public out_private s = Returns tt s' /\
      read (memory s') local0 32 = Some (replicate 32 0)))
  /\
  (CURVE25519_S2N_BIGNUM_CAPABLE P = true).
Proof.
  intros G P E s out_public out_private seedp out_sig message message_len
    private_key out_shared x_private peer seed sk msg k u.
  split.
  - refine (private_scratch_is_left_unerased G P E s out_public out_private
              seedp out_sig message message_len private_key out_shared
              x_private peer seed sk msg k u _ _ _ _ _ _ _ _ _ _ _ _ _ _ _).
    + vm_compute; lia.
    + eexists; reflexivity.
    + eexists; reflexivity.
    + left; vm_compute; discriminate.
    + reflexivity.
    + left; vm_compute; discriminate.
    + reflexivity.
    + reflexivity.
    + eexists; reflexivity.
    + left; vm_compute; discriminate.
    + left; vm_compute; discriminate.
    + reflexivity.
    + reflexivity.
    + eexists; reflexivity.
    + apply Forall_octet_check; vm_compute; reflexivity.
  - reflexivity.
Defined.

(** ** Sample inputs of the further properties *)

(** X1 at a sample input: the seed of block 11, the keys written to
    blocks 2 and 4, in the example engine. *)
Lemma ED25519_keypair_from_seed_layout_sample :
  let G := Exponent.engine in
  let out_public := (Ptr 2 0) in
  let out_private := (Ptr 4 0) in
  let seedp := (Ptr 11 0) in
  let s := sample_state in
  let seed := (seqZ 1 32) in
  exists s' pk,
    ED25519_keypair_from_seed G out_public out_private seedp s
    = Returns tt s' /\
    pk = octets 32
           (p3_tobytes G
              (ge_scalarmult_base G
                 (take 32 (clamp (octets 64 (SHA512_digest G seed)))))) /\
    read (memory s') out_public 32 = Some pk /\
    read (memory s') out_private 64 = Some (seed ++ pk) /\
    read (memory s') (padd out_private 32) 32 = Some pk /\
    read (memory s') seedp 32 = Some seed /\
    entropy s' = entropy s /\
    preserves [(out_public, 32%nat); (out_private, 64%nat)] s s'.
Proof.
  intros G out_public out_private seedp s seed.
  refine (ED25519_keypair_from_seed_layout G out_public out_private seedp s seed _ _ _ _ _ _).
  - reflexivity.
  - eexists; reflexivity.
  - eexists; reflexivity.
  - left; vm_compute; discriminate.
  - left; vm_compute; discriminate.
  - left; vm_compute; discriminate.
Defined.

(** X2 at a sample input: the keys written to blocks 2 and 4, the
    random source holding 32 octets. *)
Lemma ED25519_keypair_draws_one_seed_sample :
  let G := Exponent.engine in
  let out_public := (Ptr 2 0) in
  let out_private := (Ptr 4 0) in
  let s := sample_state in
  let seed := octets 32 (take 32 (entropy s)) in
  exists s' pk,
    ED25519_keypair G out_public out_private s = Returns tt s' /\
    entropy s' = drop 32 (entropy s) /\
    pk = octets 32
           (p3_tobytes G
              (ge_scalarmult_base G
                 (take 32 (clamp (octets 64 (SHA512_digest G seed)))))) /\
    read (memory s') out_public 32 = Some pk /\
    read (memory s') out_private 64 = Some (seed ++ pk) /\
    preserves [(out_public, 32%nat); (out_private, 64%nat)] s s' /\
    forall s0 seedp,
      read (memory s0) seedp 32 = Some seed ->
      writable (memory s0) out_public 32 ->
      writable (memory s0) out_private 64 ->
      separate out_public 32 seedp 32 ->
      exists s0',
        ED25519_keypair_from_seed G out_public out_private seedp s0
        = Returns tt s0' /\
        read (memory s0') out_public 32 = Some pk /\
        read (memory s0') out_private 64 = Some (seed ++ pk).
Proof.
  intros G out_public out_private s.
  refine (ED25519_keypair_draws_one_seed G out_public out_private s _ _ _ _).
  - vm_compute; lia.
  - eexists; reflexivity.
  - eexists; reflexivity.
  - left; vm_compute; discriminate.
Defined.

(** X3 at a sample input: the key of block 5 and the message of
    block 6, the signature written to block 2. *)
Lemma ED25519_sign_writes_only_signature_sample :
  let G := Exponent.engine in
  let out_sig := (Ptr 2 0) in
  let message := (Ptr 6 0) in
  let message_len := 3%nat in
  let private_key := (Ptr 5 0) in
  let s := sample_state in
  let msg := [0x61; 0x62; 0x63] in
  let sk := (seqZ 100 64) in
  exists s' sig,
    ED25519_sign G out_sig message message_len private_key s = Returns 1 s' /\
    read (memory s') out_sig 64 = Some sig /\
    read (memory s') private_key 64 = Some sk /\
    read (memory s') message message_len = Some msg /\
    entropy s' = entropy s /\
    preserves [(out_sig, 64%nat)] s s' /\
    forall s0 out_sig0 message0 private_key0,
      read (memory s0) private_key0 64 = Some sk ->
      read (memory s0) message0 message_len = Some msg ->
      writable (memory s0) out_sig0 64 ->
      separate out_sig0 64 private_key0 64 ->
      separate out_sig0 64 message0 message_len ->
      exists s0',
        ED25519_sign G out_sig0 message0 message_len private_key0 s0
        = Returns 1 s0' /\
        read (memory s0') out_sig0 64 = Some sig.
Proof.
  intros G out_sig message message_len private_key s msg sk.
  refine (ED25519_sign_writes_only_signature G out_sig message message_len private_key s msg sk _ _ _ _ _).
  - reflexivity.
  - reflexivity.
  - eexists; reflexivity.
  - left; vm_compute; discriminate.
  - left; vm_compute; discriminate.
Defined.

(** X4 at a sample input: the key of block 5 and the message of
    block 6, in the example engine. *)
Lemma ED25519_sign_emits_canonical_signature_sample :
  let G := Exponent.engine in
  let Mo := Exponent_model.model in
  let out_sig := (Ptr 2 0) in
  let message := (Ptr 6 0) in
  let message_len := 3%nat in
  let private_key := (Ptr 5 0) in
  let s := sample_state in
  let msg := [0x61; 0x62; 0x63] in
  let sk := (seqZ 100 64) in
  exists s' sig,
    ED25519_sign G out_sig message message_len private_key s = Returns 1 s' /\
    read (memory s') out_sig 64 = Some sig /\
    Forall is_octet sig /\
    0 <= le_value (drop 32 sig) < group_order /\
    Z.land (default 0 (sig !! 63%nat)) 224 = 0 /\
    is_Some (ge_frombytes_vartime G (take 32 sig)) /\
    scalar_check (drop 32 sig) 3 = loop_break.
Proof.
  intros G Mo out_sig message message_len private_key s msg sk.
  refine (ED25519_sign_emits_canonical_signature G Mo out_sig message message_len private_key s msg sk _ _ _ _ _).
  - reflexivity.
  - reflexivity.
  - eexists; reflexivity.
  - left; vm_compute; discriminate.
  - left; vm_compute; discriminate.
Defined.

(** X5 at a sample input: the signature of block 7, the key of
    block 10 and the message of block 6. *)
Lemma ED25519_verify_writes_nothing_sample :
  let G := Exponent.engine in
  let message := (Ptr 6 0) in
  let message_len := 3%nat in
  let signature := (Ptr 7 0) in
  let public_key := (Ptr 10 0) in
  let s := sample_state in
  let msg := [0x61; 0x62; 0x63] in
  let sig := (replicate 32 0 ++ encode_le 32 group_order) in
  let pk := (5 :: replicate 31 0) in
  exists ok s',
    ED25519_verify G message message_len signature public_key s
    = Returns ok s' /\
    (ok = 0 \/ ok = 1) /\
    entropy s' = entropy s /\
    memory s `prefix_of` memory s' /\
    read (memory s') signature 64 = Some sig /\
    read (memory s') public_key 32 = Some pk /\
    read (memory s') message message_len = Some msg.
Proof.
  intros G message message_len signature public_key s msg sig pk.
  refine (ED25519_verify_writes_nothing G message message_len signature public_key s msg sig pk _ _ _).
  - reflexivity.
  - reflexivity.
  - reflexivity.
Defined.

(** X6 at a sample input: the signature of block 7, the key of
    block 10 and the message of block 6, in the example engine. *)
Lemma ED25519_verify_accepts_iff_sample :
  let G := Exponent.engine in
  let Mo := Exponent_model.model in
  let message := (Ptr 6 0) in
  let message_len := 3%nat in
  let signature := (Ptr 7 0) in
  let public_key := (Ptr 10 0) in
  let s := sample_state in
  let msg := [0x61; 0x62; 0x63] in
  let sig := (replicate 32 0 ++ encode_le 32 group_order) in
  let pk := (5 :: replicate 31 0) in
  let R := take 32 sig in
  let S := drop 32 sig in
  let h := le_value (octets 64 (SHA512_digest G (R ++ pk ++ msg)))
           mod group_order in
  let mul n a := times (point_add G Mo) (point_zero G Mo) (Z.to_nat n) a in
  exists ok s',
    ED25519_verify G message message_len signature public_key s
    = Returns ok s' /\
    (ok = 1 <->
     Z.land (default 0 (sig !! 63%nat)) 224 = 0 /\
     le_value S < group_order /\
     exists A,
       ge_frombytes_vartime G pk = Some A /\
       encode_point G Mo
         (point_add G Mo (mul h (point_opp G Mo (p3_point G Mo A)))
                         (mul (le_value S) (base_point G Mo))) = R).
Proof.
  intros G Mo message message_len signature public_key s msg sig pk.
  refine (ED25519_verify_accepts_iff G Mo message message_len signature public_key s msg sig pk _ _ _ _).
  - reflexivity.
  - reflexivity.
  - reflexivity.
  - apply Forall_octet_check; vm_compute; reflexivity.
Defined.

(** X7 at a sample input: the signatures of blocks 7 and 8 have the
    same R half and different S halves. *)
Lemma ED25519_verify_accepts_one_S_sample :
  let G := Exponent.engine in
  let Mo := Exponent_model.model in
  let message := (Ptr 6 0) in
  let message_len := 3%nat in
  let signature1 := (Ptr 7 0) in
  let signature2 := (Ptr 8 0) in
  let public_key := (Ptr 10 0) in
  let s := sample_state in
  let msg := [0x61; 0x62; 0x63] in
  let sig1 := (replicate 32 0 ++ encode_le 32 group_order) in
  let sig2 := (replicate 63 0 ++ [0xe0]) in
  let pk := (5 :: replicate 31 0) in
  exists ok1 s1 ok2 s2,
    ED25519_verify G message message_len signature1 public_key s
    = Returns ok1 s1 /\
    ED25519_verify G message message_len signature2 public_key s
    = Returns ok2 s2 /\
    (ok1 = 0 \/ ok2 = 0).
Proof.
  intros G Mo message message_len signature1 signature2 public_key s msg sig1 sig2 pk.
  refine (ED25519_verify_accepts_one_S G Mo message message_len signature1 signature2 public_key s msg sig1 sig2 pk _ _ _ _ _ _ _ _ _).
  - apply Exponent_model_exact.
  - reflexivity.
  - reflexivity.
  - reflexivity.
  - reflexivity.
  - apply Forall_octet_check; vm_compute; reflexivity.
  - apply Forall_octet_check; vm_compute; reflexivity.
  - vm_compute; reflexivity.
  - vm_compute; discriminate.
Defined.

(** X8 at a sample input: the key of block 0, the peer value of
    block 1, the output in block 2. *)
Lemma X25519_writes_only_output_sample :
  let P := sample_x86_64 in
  let E := rfc7748_engine in
  let out := (Ptr 2 0) in
  let private_key := (Ptr 0 0) in
  let peer := (Ptr 1 0) in
  let s := sample_state in
  let k := sample_scalar in
  let u := sample_u in
  (exists ok s',
      X25519 P E out private_key peer s = Returns ok s' /\
      entropy s' = entropy s /\
      preserves [(out, 32%nat)] s s' /\
      (separate out 32 peer 32 -> read (memory s') peer 32 = Some u))
  /\
  (exists s',
      X25519_public_from_private P E out private_key s = Returns tt s' /\
      entropy s' = entropy s /\
      preserves [(out, 32%nat)] s s').
Proof.
  intros P E out private_key peer s k u.
  refine (X25519_writes_only_output P E out private_key peer s k u _ _ _).
  - reflexivity.
  - reflexivity.
  - eexists; reflexivity.
Defined.

(** X9 at a sample input: the key of block 0 is replaced by the
    shared key, on the x86_64 build. *)
Lemma X25519_in_place_sample :
  let P := sample_x86_64 in
  let E := rfc7748_engine in
  let key := (Ptr 0 0) in
  let peer := (Ptr 1 0) in
  let s := sample_state in
  let k := sample_scalar in
  let u := sample_u in
  exists ok s' shared,
    X25519 P E key key peer s = Returns ok s' /\
    read (memory s') key 32 = Some shared /\
    read (memory s') peer 32 = Some u /\
    forall out, writable (memory s) out 32 ->
      exists s'',
        X25519 P E out key peer s = Returns ok s'' /\
        read (memory s'') out 32 = Some shared.
Proof.
  intros P E key peer s k u.
  refine (X25519_in_place P E key peer s k u _ _ _ _).
  - reflexivity.
  - reflexivity.
  - reflexivity.
  - left; vm_compute; discriminate.
Defined.

(** X10 at a sample input: the key pair is written to block 2, the
    private key first. *)
Lemma X25519_keypair_key_is_never_clamped_sample :
  let P := sample_x86_64 in
  let E := rfc7748_engine in
  let out_public := (Ptr 2 32) in
  let out_private := (Ptr 2 0) in
  let s := sample_state in
  exists s' stored,
    X25519_keypair P E out_public out_private s = Returns tt s' /\
    read (memory s') out_private 32 = Some stored /\
    Forall is_octet stored /\
    clamp stored <> stored /\
    preserves [(out_public, 32%nat); (out_private, 32%nat)] s s'.
Proof.
  intros P E out_public out_private s.
  refine (X25519_keypair_key_is_never_clamped P E out_public out_private s _ _ _ _).
  - vm_compute; lia.
  - eexists; reflexivity.
  - eexists; reflexivity.
  - right; right; vm_compute; lia.
Defined.

(** X11 at a sample input: the build without assembly. *)
Lemma s2n_bignum_wrappers_abort_without_assembly_sample :
  let P := sample_no_asm in
  let E := rfc7748_engine in
  let out := (Ptr 2 0) in
  let private_key := (Ptr 0 0) in
  let peer := (Ptr 1 0) in
  let s := sample_state in
  let k := sample_scalar in
  let u := sample_u in
  x25519_s2n_bignum P E out private_key peer s
  = Aborts (push_block (clamp k) s) /\
  x25519_s2n_bignum_public_from_private P E out private_key s
  = Aborts (push_block (clamp k) s) /\
  (forall res scalar point s0,
     curve25519_x25519_byte P E res scalar point s0 = Aborts s0 /\
     curve25519_x25519_byte_alt P E res scalar point s0 = Aborts s0 /\
     curve25519_x25519base_byte P E res scalar s0 = Aborts s0 /\
     curve25519_x25519base_byte_alt P E res scalar s0 = Aborts s0) /\
  (exists ok s',
     X25519 P E out private_key peer s = Returns ok s' /\
     read (memory s') out 32 = Some (octets 32 (nohw_scalar_mult_generic E k u)))
  /\
  (exists s',
     X25519_public_from_private P E out private_key s = Returns tt s' /\
     read (memory s') out 32 = Some (octets 32 (nohw_public_from_private E k))).
Proof.
  intros P E out private_key peer s k u.
  refine (s2n_bignum_wrappers_abort_without_assembly P E out private_key peer s k u _ _ _ _).
  - reflexivity.
  - reflexivity.
  - reflexivity.
  - eexists; reflexivity.
Defined.

(** X12 at a sample input: the aarch64 build on a CPU without a wide
    multiplier. *)
Lemma X25519_routine_by_build_and_cpu_sample :
  let P := sample_aarch64 in
  let E := rfc7748_engine in
  let out := (Ptr 2 0) in
  let private_key := (Ptr 0 0) in
  let peer := (Ptr 1 0) in
  let s := sample_state in
  let k := sample_scalar in
  let u := sample_u in
  let assembly :=
    negb (OPENSSL_NO_ASM P) &&
    match target_os P with OPENSSL_OTHER_OS => false | _ => true end in
  let bmi2_adx :=
    (CRYPTO_is_BMI2_capable P =? 1) && (CRYPTO_is_ADX_capable P =? 1) in
  let wide := CRYPTO_is_ARMv8_wide_multiplier_capable P =? 1 in
  exists ok s1 s2,
    X25519 P E out private_key peer s = Returns ok s1 /\
    X25519_public_from_private P E out private_key s = Returns tt s2 /\
    read (memory s1) out 32 = Some (octets 32
      match target_arch P with
      | OPENSSL_X86_64 =>
          if assembly && negb (MY_ASSEMBLER_IS_TOO_OLD_FOR_AVX P) then
            if bmi2_adx then s2n_x25519_byte E (clamp k) u
            else s2n_x25519_byte_alt E (clamp k) u
          else nohw_scalar_mult_generic E k u
      | OPENSSL_AARCH64 =>
          if assembly then
            if wide then s2n_x25519_byte_alt E (clamp k) u
            else s2n_x25519_byte E (clamp k) u
          else nohw_scalar_mult_generic E k u
      | OPENSSL_OTHER_ARCH => nohw_scalar_mult_generic E k u
      end) /\
    read (memory s2) out 32 = Some (octets 32
      match target_arch P with
      | OPENSSL_X86_64 =>
          if assembly && negb (MY_ASSEMBLER_IS_TOO_OLD_FOR_AVX P) then
            if bmi2_adx then s2n_x25519base_byte E (clamp k)
            else s2n_x25519base_byte_alt E (clamp k)
          else nohw_public_from_private E k
      | OPENSSL_AARCH64 =>
          if assembly then
            if wide then s2n_x25519base_byte_alt E (clamp k)
            else s2n_x25519base_byte E (clamp k)
          else nohw_public_from_private E k
      | OPENSSL_OTHER_ARCH => nohw_public_from_private E k
      end).
Proof.
  intros P E out private_key peer s k u.
  refine (X25519_routine_by_build_and_cpu P E out private_key peer s k u _ _ _).
  - reflexivity.
  - reflexivity.
  - eexists; reflexivity.
Defined.

(** X13 at a sample input: the seed is the first half of the private
    key of block 5. *)
Lemma ED25519_sign_uses_the_scalar_of_the_key_sample :
  let G := Exponent.engine in
  let s1 := sample_state in
  let out_public := (Ptr 2 0) in
  let out_private := (Ptr 4 0) in
  let seedp := (Ptr 5 0) in
  let seed := (seqZ 100 32) in
  let s2 := sample_state in
  let out_sig := (Ptr 2 0) in
  let message := (Ptr 6 0) in
  let message_len := 3%nat in
  let private_key := (Ptr 5 0) in
  let msg := [0x61; 0x62; 0x63] in
  let sk := (seqZ 100 64) in
  exists s1' s2' az,
    ED25519_keypair_from_seed G out_public out_private seedp s1
    = Returns tt s1' /\
    ED25519_sign G out_sig message message_len private_key s2
    = Returns 1 s2' /\
    read (memory s1') (Ptr (length (memory s1)) 0) 64 = Some az /\
    read (memory s2') (Ptr (length (memory s2)) 0) 64 = Some az /\
    az = clamp (octets 64 (SHA512_digest G seed)).
Proof.
  intros G s1 out_public out_private seedp seed s2 out_sig message message_len private_key msg sk.
  refine (ED25519_sign_uses_the_scalar_of_the_key G s1 out_public out_private seedp seed s2 out_sig message message_len private_key msg sk _ _ _ _ _ _ _ _ _ _ _).
  - reflexivity.
  - eexists; reflexivity.
  - eexists; reflexivity.
  - left; vm_compute; discriminate.
  - left; vm_compute; discriminate.
  - reflexivity.
  - reflexivity.
  - eexists; reflexivity.
  - left; vm_compute; discriminate.
  - left; vm_compute; discriminate.
  - reflexivity.
Defined.

(** X14 at a sample input: the S half of the signature of block 8. *)
Lemma top_bits_test_is_subsumed_by_range_check_sample :
  let scopy := (Ptr 8 32) in
  let s0 := sample_state in
  let S := (replicate 31 0 ++ [0xe0]) in
  let x := 0xe0 in
  2 ^ 253 <= le_value S /\
  order_loop scopy 3 s0 = Returns loop_return_0 s0.
Proof.
  intros scopy s0 S x.
  refine (top_bits_test_is_subsumed_by_range_check scopy s0 S x _ _ _ _).
  - reflexivity.
  - apply Forall_octet_check; vm_compute; reflexivity.
  - reflexivity.
  - vm_compute; discriminate.
Defined.
(** * Sample inputs of the properties of the certificate purposes *)

Module V3_purp_samples.

Import V3_purp V3_purp_facts.

(** X22 at a sample input: the root. *)
Lemma x509v3_cache_extensions_once_sample :
  let K := sample_macros in
  let L := sample_library in
  let x := sample_root in
  exists ok x1,
    x509v3_cache_extensions x = (ok, x1) /\
    (ok = 0 \/ ok = 1) /\
    (ok = 1 <-> Z.land (ex_flags x1) EXFLAG_INVALID = 0) /\
    Z.land (ex_flags x1) EXFLAG_SET <> 0 /\
    flags_kept x x1 /\
    cert_info x1 = cert_info x /\
    x509v3_cache_extensions x1 = (ok, x1).
Proof.
  intros K L x.
  refine (x509v3_cache_extensions_once K L x _).
  - vm_compute; split; reflexivity.
Defined.

(** X19 at a sample input: the root as the authority of a server certificate. *)
Lemma X509_check_purpose_ca_requires_check_ca_sample :
  let K := sample_macros in
  let L := sample_library in
  let x := sample_root in
  let id := X509_PURPOSE_SSL_SERVER in
  let ca := 1 in
  exists r x1,
    X509_check_purpose x id ca = Some (r, x1) /\
    (r <> 0 ->
     fst (x509v3_cache_extensions x) <> 0 /\
     check_ca x1 = 1 /\
     ku_reject x1 X509v3_KU_KEY_CERT_SIGN = false /\
     (Z.land (ex_flags x1) V1_ROOT = V1_ROOT \/
      (Z.land (ex_flags x1) EXFLAG_BCONS <> 0 /\
       Z.land (ex_flags x1) EXFLAG_CA <> 0))).
Proof.
  intros K L x id ca.
  refine (X509_check_purpose_ca_requires_check_ca K L x id ca _ _ _).
  - vm_compute; lia.
  - vm_compute; lia.
  - vm_compute; lia.
Defined.

(** X20 at a sample input: the server certificate, which lists one extended key usage. *)
Lemma extended_key_usage_gates_purposes_sample :
  let K := sample_macros in
  let L := sample_library in
  let x := snd (x509v3_cache_extensions sample_leaf) in
  let ca := 0 in
  (Z.land (ex_xkusage x) XKU_SSL_CLIENT = 0 ->
   check_purpose_ssl_client x ca = 0) /\
  (Z.land (ex_xkusage x) XKU_SSL_SERVER = 0 ->
   check_purpose_ssl_server x ca = 0 /\
   check_purpose_ns_ssl_server x ca = 0) /\
  (Z.land (ex_xkusage x) XKU_SMIME = 0 ->
   purpose_smime x ca = 0 /\
   check_purpose_smime_sign x ca = 0 /\
   check_purpose_smime_encrypt x ca = 0) /\
  (ex_xkusage x <> XKU_TIMESTAMP -> check_purpose_timestamp_sign x 0 = 0) /\
  (check_purpose_ns_ssl_server x ca <> 0 ->
   check_purpose_ssl_server x ca <> 0) /\
  (check_purpose_smime_sign x ca <> 0 -> purpose_smime x ca <> 0) /\
  (check_purpose_smime_encrypt x ca <> 0 -> purpose_smime x ca <> 0).
Proof.
  intros K L x ca.
  refine (extended_key_usage_gates_purposes K L x ca _).
  - vm_compute; lia.
Defined.

(** X21 at a sample input: the certificate without extensions. *)
Lemma certificate_without_usage_extensions_sample :
  let K := sample_macros in
  let L := sample_library in
  let x := snd (x509v3_cache_extensions sample_plain) in
  (check_purpose_ssl_client x 0 = 1 /\
   check_purpose_ssl_server x 0 = 1 /\
   check_purpose_ns_ssl_server x 0 = 1 /\
   check_purpose_smime_sign x 0 = 1 /\
   check_purpose_smime_encrypt x 0 = 1 /\
   check_purpose_crl_sign x 0 = 1 /\
   no_check x 0 = 1 /\
   ocsp_helper x 0 = 1 /\
   check_purpose_timestamp_sign x 0 = 0)
  /\
  (forall ca, ca <> 0 ->
     check_purpose_ssl_client x ca = check_ca x /\
     check_purpose_ssl_server x ca = check_ca x /\
     check_purpose_ns_ssl_server x ca = check_ca x /\
     check_purpose_smime_sign x ca = check_ca x /\
     check_purpose_smime_encrypt x ca = check_ca x /\
     check_purpose_crl_sign x ca = check_ca x /\
     ocsp_helper x ca = check_ca x /\
     check_purpose_timestamp_sign x ca = check_ca x)
  /\
  (check_ca x = 1 <->
   Z.land (ex_flags x) V1_ROOT = V1_ROOT \/
   (Z.land (ex_flags x) EXFLAG_BCONS <> 0 /\
    Z.land (ex_flags x) EXFLAG_CA <> 0)).
Proof.
  intros K L x.
  refine (certificate_without_usage_extensions K L x _ _ _).
  - vm_compute; reflexivity.
  - vm_compute; reflexivity.
  - vm_compute; reflexivity.
Defined.

(** X23 at a sample input: the certificate with two key usage extensions. *)
Lemma broken_extensions_are_rejected_sample :
  let K := sample_macros in
  let L := sample_library in
  let x := sample_broken in
  fst (x509v3_cache_extensions x) = 0 /\
  (forall id ca, exists x1, X509_check_purpose x id ca = Some (0, x1)) /\
  fst (X509_check_ca x) = 0 /\
  fst (X509_get_key_usage x) = 0 /\
  fst (X509_get_extended_key_usage x) = 0 /\
  fst (X509_get_pathlen x) = -1 /\
  fst (X509_get0_subject_key_id x) = None /\
  fst (X509_get0_authority_key_id x) = None.
Proof.
  intros K L x.
  refine (broken_extensions_are_rejected K L x _ _ _).
  - vm_compute; split; reflexivity.
  - vm_compute; reflexivity.
  - vm_compute; reflexivity.
Defined.

(** X24 at a sample input: the root. *)
Lemma getters_return_what_the_certificate_carries_sample :
  let K := sample_macros in
  let L := sample_library in
  let x := sample_root in
  fst (x509v3_cache_extensions x) = 1 /\
  fst (X509_get_key_usage x)
  = match fst (d2i_key_usage (cert_info x)) with
    | Some usage => key_usage_value usage
    | None => UINT32_MAX
    end /\
  (forall usage, 0 <= key_usage_value usage < 2 ^ 16) /\
  fst (X509_get_extended_key_usage x)
  = match fst (d2i_ext_key_usage (cert_info x)) with
    | Some nids => ext_key_usage_value nids
    | None => UINT32_MAX
    end /\
  fst (X509_get_pathlen x)
  = match fst (d2i_basic_constraints (cert_info x)) with
    | Some bs =>
        match bs_pathlen bs with
        | Some n => ASN1_INTEGER_get n
        | None => -1
        end
    | None => -1
    end /\
  fst (X509_get0_subject_key_id x)
  = fst (d2i_subject_key_identifier (cert_info x)) /\
  fst (X509_get0_authority_key_id x)
  = match fst (d2i_authority_key_identifier (cert_info x)) with
    | Some a => akid_keyid a
    | None => None
    end.
Proof.
  intros K L x.
  refine (getters_return_what_the_certificate_carries K L x _ _ _).
  - vm_compute; reflexivity.
  - vm_compute; reflexivity.
  - vm_compute; reflexivity.
Defined.

(** X25 at a sample input: the root, second in a store of two certificates. *)
Lemma EXFLAG_SS_agrees_with_X509_check_issued_sample :
  let K := sample_macros in
  let L := sample_library in
  let store := [sample_leaf; sample_root] in
  let p := 1%nat in
  let x := sample_root in
  exists r store',
    X509_check_issued p p store = Some (r, store') /\
    (r = X509_V_OK <->
     Z.land (ex_flags (snd (x509v3_cache_extensions x))) EXFLAG_SS <> 0).
Proof.
  intros K L store p x.
  refine (EXFLAG_SS_agrees_with_X509_check_issued K L store p x _ _ _ _ _ _).
  - vm_compute; reflexivity.
  - vm_compute; lia.
  - vm_compute; lia.
  - vm_compute; reflexivity.
  - vm_compute; reflexivity.
  - vm_compute; reflexivity.
Defined.

(** X26 at a sample input: the certificate with a critical extension that is not supported. *)
Lemma EXFLAG_CRITICAL_marks_unsupported_critical_extension_sample :
  let K := sample_macros in
  let L := sample_library in
  let x := sample_unknown in
  Z.land (ex_flags (snd (x509v3_cache_extensions x))) EXFLAG_CRITICAL <> 0
  <->
  exists ex, ex ∈ extensions (cert_info x) /\
    X509_EXTENSION_get_critical (Some ex) <> 0 /\
    X509_supported_extension ex = 0.
Proof.
  intros K L x.
  refine (EXFLAG_CRITICAL_marks_unsupported_critical_extension K L x _ _).
  - vm_compute; reflexivity.
  - vm_compute; reflexivity.
Defined.

End V3_purp_samples.
